(* ===== verification/_CoqProject ===== *)
-Q . S2P
Prelude.v
CStr.v
Decimals.v
Jsmn.v
JsmnSpec.v
JsonText.v
Env.v
Model.v
UserLoad.v
Device.v
Dma.v
Ring.v
Shm.v
Bare.v
Transfer.v
Json.v
Accel.v
BareJson.v
Rpu.v
Pdi.v
Slots.v
Invariant.v
ListIds.v
TablesWp.v
ListIdFacts.v
Load.v
LoadSafe.v
Unload.v
UnloadSafe.v
UserSafe.v
Registry.v
Eeprom.v
Events.v
Listing.v
Proto.v
Server.v
Client.v
Examples.v
ExampleSpec.v
Tool.v
ListingSafe.v
Frame.v
Handles.v
RequestSafe.v
StartSafe.v
EventsSafe.v
Threads.v
Owners.v
InFlight.v
Returns.v
Sample.v
Reach.v
Fields.v
Hazards.v
LoadSpec.v
Refusals.v
ListSpec.v
PdiSpec.v
WireSpec.v
ToolSpec.v
SessionSpec.v
DevSpec.v
JsonSpec.v
JsonRead.v
ShmSpec.v
ServerSpec.v
BareSpec.v
BareJsonSpec.v
Ends.v
RegSpec.v
