(* ===== verification/Prelude.v ===== *)
(** * dfx-mgr: a verification library for the DFX manager daemon

    dfx-mgrd loads accelerators into the programmable logic and firmware into the
    RPUs of AMD devices.  It keeps a table of the packages it finds in the
    firmware directories, serves load, unload and list requests of clients over a
    Unix socket, and drives the hardware through libdfx, configfs, remoteproc,
    UIO and VFIO.  This library is a shallow embedding of that program, with the
    theorems that make its parts correct.

    ** How the program is modelled

    An operation is a function of type [M S A], from a state to an [outcome]: the
    value and the next state, or a [fault], which stands for what C leaves
    undefined (a NULL pointer followed, an array or a buffer overrun) or for a
    failed assertion.  Error returns of the code are ordinary values.  The state
    is layered: [daemon] (the globals of src/daemon_helper.c), [hw W] (the devices
    of the accelerator library) and a world [W], of which nothing is assumed.
    System calls, libdfx and sysfs are the operations of the class [Env W]
    (Env.v); sockets are [Net] (Server.v) and [Sockets] (Tool.v), the bare-metal
    registers and cache [Board] (Bare.v).  Theorems hold for every instance; Sample.v has a concrete
    one, on which the witnesses evaluate.  Pointers into static arrays are
    indices, C strings are strings with the bound of their buffer written out
    ([trunc], [fits], [sprintf_into]), machine integers are in [Z] with their
    wrap-around.

    [wp F m Q s]: [m] from [s] ends in [Q], or stops with a fault in [F].
    [lib_fault] is every fault but [NullDeref] and [OutOfBounds]; a triple with
    it says that the tables are used safely, whatever buffers the layers below
    overrun.  [safe m Q s] has no fault at all: the operation returns.

    ** The parts

    - Strings and numbers: CStr.v (libc), Decimals.v (printf and strtol).
    - JSON: Jsmn.v is include/jsmn.h; Json.v is src/sys/linux/json-config.c.
      JsmnSpec.v, JsonText.v, JsonSpec.v, JsonRead.v hold their theorems.
    - Data model: Model.v (src/model.h, accel.h, device.h, dma.h).
    - Loading through sysfs: UserLoad.v (src/user_load.c).
    - Devices and DMA: Device.v (src/device.c, src/sys/linux/device.c,
      generic-device.c, acapd-vfio-common.c), Dma.v (src/dma.c and the channel
      drivers), Ring.v (src/helper.h), Shm.v (src/shm.c), Transfer.v (transfers),
      Bare.v and BareJson.v (src/sys/generic).  DevSpec.v, ShmSpec.v, BareSpec.v
      and BareJsonSpec.v: theorems.
    - Accelerators: Accel.v (src/accel.c, src/sys/linux/accel.c, shell.c).
    - RPU: Rpu.v (src/rpu.c, src/rpu_helper.c).
    - PDI metadata: Pdi.v (src/pdi_parse.c, src/pdi-config.c); PdiSpec.v.
    - The daemon, src/daemon_helper.c: Slots.v (slots and handles), Load.v,
      Unload.v (with the user loads), ListIds.v and Listing.v (listPackage, UIO
      listings), Registry.v (the walk of the firmware directories, watches),
      Events.v (inotify events, dfx_init).  Eeprom.v is src/eeprom.c.
    - The server: Proto.v is process_dfx_req(), Server.v is main() of
      example/sys/linux/dfx-mgrd.c; Client.v and Tool.v are
      src/dfxmgr_client.c and dfx-mgr-client.c, requests and sockets.
      Examples.v has the example programs that can be built against the libraries.

    A request goes from [server_round] to [process_dfx_req], to the load, unload
    or listing operation, to [load_accel]/[remove_accel] or [user_load_bitstream],
    to [Env].  Events go to [handle_event], which changes the same tables and may
    ask for a walk ([firmware_rescan_pending]) that the next load or list does.
    Threads.v cuts a request into the steps between which events may come.

    ** What is proved

    - Invariant (Invariant.v): [wf] relates base_designs, the handle table and
      the two active-base pointers.  TablesWp, ListIdFacts, LoadSafe, UnloadSafe,
      UserSafe, ListingSafe, RequestSafe, StartSafe and EventsSafe have a triple
      for each operation.  InFlight.v has the steps of a request with events
      between them.  Reach.v composes all of them: [reachable] are the states that
      requests and file-system events lead to, in any order, under two conditions.
      The events are [tracked]: none makes the watch thread forget a base that was
      loaded from, has AIE slots or whose free accelerators keep a path, or read a
      base's description from the directory of a package, or put a package into a
      user load.  And events, and the walks that requests begin with
      ([quiet_walk]), leave the type and the numbers of slots of a base that has a
      slot array as they are ([calm]).  No walk is due in a [walked] state.  There
      the tables stay consistent, neither a request nor an event follows a NULL
      pointer or leaves a table, a handle has one owner.  Fields.v: what the model
      keeps in integers and strings fits the C fields.
    - Refinement: Handles.v says who owns a handle, Owners.v has the ledger of all
      owners and the abstract allocator that works on it.  The daemon refines the
      allocator (Reach.v): what a request does not load or unload stays where it
      is, under its handle.  Frame.v has the interfaces ([Bookkeeping], [Taking],
      [Releasing]) by which a relation is carried through every operation of a
      request.  Ring.v's lists refine sequences.
    - Functional behaviour and round trips: LoadSpec.v (load, unload, that
      they undo each other, and that everything loaded can be unloaded), Refusals.v (what is refused and that nothing
      changes), ListSpec.v (list IDs), RegSpec.v (registration), WireSpec.v
      (the protocol between client and daemon), SessionSpec.v (a client's whole
      session), PdiSpec.v, JsonText.v (jsmn inverts a printer), JsonRead.v,
      ShmSpec.v, DevSpec.v.
    - Equivalence: ToolSpec.v (a client's load over its socket and the daemon's),
      BareSpec.v (the two AXI DMA drivers), ServerSpec.v (the scan of ready
      descriptors and the list of them in order).  ShmSpec.v: the MCDMA descriptor
      loop stores the words of the descriptors, register by register
      ([desc_words]).
    - Termination and totality: Ends.v and JsonSpec.v (fuel is never the reason
      to stop), LoadSpec.v ([everything_can_be_unloaded]), Returns.v (the operations that never fault), ListSpec.v
      ([slot_loop_returns]).  A user load and every unload of a handle that is
      held return; a load by name or by list ID stops only where the reader of
      shell.json does, which is on a key that is the last token of the file
      ([Accel.shell_fault_bad_token]).
    - What goes wrong: Hazards.v and the lemmas DevSpec.choose_da_overlaps,
      JsonSpec.default_accel_ends_config, ListSpec.slot_loop_endless,
      Ring.node_in_two_lists, ExampleSpec.shm_example_never_succeeds, and those of ShmSpec.v on long transfers.

    ** Bounds and fuel

    The token loops run on as much fuel as there are tokens, jsmn on the length
    of its text, list walks on the number of nodes, the scan of descriptors on
    FD_SETSIZE, the walk of directories on the code's own depth limit; these are
    enough by the lemmas of Ends, JsmnSpec, Ring and ServerSpec.  [slot_loop] has
    256 turns: a uint8_t counter has left the loop or comes round by then.
    [remove_fuel] and [POLL_FUEL] (4096) bound the depth of a directory and the
    wait for a DMA reset; where they run out the code would go on, and the model
    answers [OutOfFuel], a fault.  [BD_FUEL] (65) is one more than the
    descriptors of a page, so a longer transfer faults by leaving the page.

    ** Not modelled

    - The interleaving of the watch thread with the main thread, which share the
      tables without a lock, below the steps of Threads.v: an event is one step,
      and so is one directory entry of a walk, or a load, an unload or a listing
      once its walk and lookup are done.  A directory is read at once ([readdir]
      gives its entries as a list), where the code visits each entry as it reads
      it.  Hazards.v runs the events that
      [reachable] leaves out; the invariant does not survive them.
    - Failing memory allocation, printing, the SIGINT handler (which exits),
      getopt's parsing (its result is an argument); accel-aes.c, which has static
      memory freed, and accel-pr.c, which does not match the headers.  The tokenizer of src/sys/generic/json-config.c is
      a parameter: that file does not include the jsmn it uses. *)
From Stdlib Require Export ZArith String Ascii Lia.
From stdpp Require Export base list option numbers strings.

(** ** Faults and outcomes

    C code that dereferences a null pointer, indexes an array out of range or
    overruns a stack buffer has no defined result.  Every stateful operation of
    the model returns an [outcome], which makes those cases visible. *)

Inductive fault : Set :=
  | NullDeref      (* a member is accessed through a NULL pointer *)
  | NullArg        (* a NULL pointer is passed to a libc string function *)
  | WildPtr        (* a pointer that points to no live device *)
  | OutOfBounds    (* an array is indexed outside its extent *)
  | BufOverflow    (* sprintf/strcpy past the end of a fixed buffer *)
  | BadToken       (* a jsmn token that the parser never wrote is read *)
  | AssertFailed   (* assert(), or acapd_assert() where DEBUG is defined *)
  | OutOfFuel.     (* a bounded unrolling of a loop was too short *)

#[export] Instance fault_eq_dec : EqDecision fault.
Proof. solve_decision. Defined.

Inductive outcome (S A : Type) : Type :=
  | Ret (a : A) (s : S)
  | Fault (f : fault).
Arguments Ret {S A} a s.
Arguments Fault {S A} f.

(** ** The state-and-fault monad *)

Definition M (S A : Type) : Type := S -> outcome S A.

Definition ret {S A} (a : A) : M S A := fun s => Ret a s.

Definition bind {S A B} (m : M S A) (k : A -> M S B) : M S B :=
  fun s => match m s with Ret a s' => k a s' | Fault f => Fault f end.

Definition crash {S A} (f : fault) : M S A := fun _ => Fault f.
Definition get {S} : M S S := fun s => Ret s s.
Definition gets {S A} (f : S -> A) : M S A := fun s => Ret (f s) s.
Definition modify {S} (f : S -> S) : M S unit := fun s => Ret tt (f s).

(** An operation on a component [T] of the state, run on the whole state. *)
Definition zoom {S T A} (view : S -> T) (put : T -> S -> S) (m : M T A) : M S A :=
  fun s => match m (view s) with Ret a t => Ret a (put t s) | Fault f => Fault f end.

(** A value that the code uses without a test: [None] is a fault. *)
Definition the {S A} (f : fault) (o : option A) : M S A :=
  match o with Some a => ret a | None => crash f end.

Definition guard_that {S} (f : fault) (b : bool) : M S unit :=
  if b then ret tt else crash f.

Declare Scope dfx_scope.
Delimit Scope dfx_scope with dfx.
Notation "'let!' x := m 'in' k" := (bind m (fun x => k))
  (at level 10, x pattern, m at level 100, k at level 200) : dfx_scope.
Notation "m ;; k" := (bind m (fun _ => k))
  (at level 100, k at level 200, right associativity) : dfx_scope.
Open Scope dfx_scope.

(** [for (x : l) body], in order. *)
Fixpoint for_each {S A} (body : A -> M S unit) (l : list A) : M S unit :=
  match l with
  | [] => ret tt
  | x :: r => body x ;; for_each body r
  end.

(** [for (x : l) body] where the body may leave the loop: [true] is [break]. *)
Fixpoint for_until {S A} (body : A -> M S bool) (l : list A) : M S bool :=
  match l with
  | [] => ret false
  | x :: r => let! stop := body x in if stop then ret true else for_until body r
  end.

(** [for (x : l) body] where the body may leave the enclosing function with a
    result ([goto out], [return r]). *)
Fixpoint for_ret {S A R} (body : A -> M S (option R)) (l : list A) : M S (option R) :=
  match l with
  | [] => ret None
  | x :: t => let! r := body x in match r with Some v => ret (Some v) | None => for_ret body t end
  end.

(** ** Equal operations

    Operations with the same outcome in every state: the monad laws hold up to
    this equivalence, and sequencing respects it. *)

Record same_op {S A} (m m' : M S A) : Prop := SameOp { same_at : forall s, m s = m' s }.
Arguments SameOp {S A m m'} same_at.
Arguments same_at {S A m m'} _ s.
Infix "≈" := same_op (at level 70, no associativity) : dfx_scope.

#[export] Instance same_op_equiv {S A} : Equivalence (same_op (S := S) (A := A)).
Proof.
  split; [by intros m|intros m m' E|intros m1 m2 m3 E E']; split; intros s.
  - symmetry. apply E.
  - rewrite (same_at E). apply E'.
Qed.
#[export] Instance bind_proper {S A B} :
  Proper (same_op ==> pointwise_relation A same_op ==> same_op) (bind (S := S) (A := A) (B := B)).
Proof. intros m m' Em k k' Ek. split. intros s. unfold bind. rewrite (same_at Em). destruct (m' s); [apply Ek|done]. Qed.

Lemma bind_ret_l {S A B} (a : A) (k : A -> M S B) : bind (ret a) k ≈ k a.
Proof. done. Qed.
Lemma bind_ret_r {S A} (m : M S A) : bind m ret ≈ m.
Proof. split. intros s. unfold bind. by destruct (m s). Qed.
Lemma bind_assoc {S A B C} (m : M S A) (k : A -> M S B) (l : B -> M S C) :
  bind (bind m k) l ≈ bind m (fun a => bind (k a) l).
Proof. split. intros s. unfold bind. by destruct (m s). Qed.
Lemma bind_then {S A B} (m : M S A) (k k' : A -> M S B) : (forall a, k a ≈ k' a) -> bind m k ≈ bind m k'.
Proof. intros Ek. by apply bind_proper. Qed.

Lemma for_each_map {S A B} (f : A -> B) (body : B -> M S unit) l :
  for_each body (map f l) ≈ for_each (fun a => body (f a)) l.
Proof. induction l as [|x l IH]; [done|]. simpl. by setoid_rewrite IH. Qed.
Lemma for_each_app {S A} (body : A -> M S unit) l l' :
  for_each body (l ++ l') ≈ (for_each body l ;; for_each body l').
Proof. induction l as [|x l IH]; simpl; [by rewrite bind_ret_l|]. rewrite bind_assoc. by setoid_rewrite IH. Qed.

(** ** Record update *)

Class Eta (R : Type) := eta_of : R -> R.
Class Setter {R E : Type} (proj : R -> E) := setter_of : (E -> E) -> R -> R.

Ltac derive_setter :=
  match goal with
  | |- @Setter ?R ?E ?p =>
      let inst := constr:(_ : Eta R) in
      let e := eval hnf in inst in
      match eval pattern p in e with
      | ?F _ =>
          let body := eval cbv beta in (fun (f : E -> E) (r : R) => F (fun x => f (p x)) r) in
          exact body
      end
  end.
#[export] Hint Extern 1 (Setter _) => derive_setter : typeclass_instances.

Definition record_set {R E} (p : R -> E) {st : Setter p} (f : E -> E) (r : R) : R := st f r.
Arguments record_set {R E} p {st} f r /.

Notation "r <| p := v |>" := (record_set p (fun _ => v) r)
  (at level 1, left associativity) : dfx_scope.
Notation "r <| p ::= f |>" := (record_set p f r)
  (at level 1, left associativity) : dfx_scope.

(** ** Weakest preconditions

    [wp F m Q s]: from [s], [m] either returns and satisfies [Q], or stops with
    a fault allowed by [F].  [safe] ([F] empty) therefore means: [m] returns. *)

Definition wp {S A} (F : fault -> Prop) (m : M S A) (Q : A -> S -> Prop) (s : S) : Prop :=
  match m s with Ret a s' => Q a s' | Fault f => F f end.

Definition no_fault : fault -> Prop := fun _ => False.
Definition any_fault : fault -> Prop := fun _ => True.

Abbreviation safe := (wp no_fault).

Section Wp.
Context {S : Type} (F : fault -> Prop).

Lemma wp_ret {A} (a : A) Q (s : S) : Q a s -> wp F (ret a) Q s.
Proof. done. Qed.

Lemma wp_bind {A B} (m : M S A) (k : A -> M S B) Q s :
  wp F m (fun a s' => wp F (k a) Q s') s -> wp F (bind m k) Q s.
Proof. unfold wp, bind. by destruct (m s). Qed.

(** Cutting a sequence at an intermediate assertion. *)
Lemma wp_seq {A B} (R : A -> S -> Prop) (m : M S A) (k : A -> M S B) Q s :
  wp F m R s -> (forall a s', R a s' -> wp F (k a) Q s') -> wp F (bind m k) Q s.
Proof. intros Hm Hk. apply wp_bind. revert Hm. unfold wp. destruct (m s); auto. apply Hk. Qed.

Lemma wp_get Q (s : S) : Q s s -> wp F get Q s.
Proof. done. Qed.

Lemma wp_gets {A} (f : S -> A) Q s : Q (f s) s -> wp F (gets f) Q s.
Proof. done. Qed.

Lemma wp_modify (f : S -> S) Q s : Q tt (f s) -> wp F (modify f) Q s.
Proof. done. Qed.

Lemma wp_crash {A} f (Q : A -> S -> Prop) s : F f -> wp F (crash f) Q s.
Proof. done. Qed.

Lemma wp_the {A} f (o : option A) Q (s : S) :
  (forall a, o = Some a -> Q a s) -> (o = None -> F f) -> wp F (the f o) Q s.
Proof. destruct o; simpl; intros H H'; [by apply H | by apply H']. Qed.

Lemma wp_the_Some {A} f (o : option A) a Q (s : S) :
  o = Some a -> Q a s -> wp F (the f o) Q s.
Proof. by intros -> ?. Qed.

Lemma wp_guard f b Q (s : S) : (b = true -> Q tt s) -> (b = false -> F f) -> wp F (guard_that f b) Q s.
Proof. destruct b; simpl; intros H H'; [by apply H | by apply H']. Qed.

Lemma wp_mono {A} (m : M S A) (Q Q' : A -> S -> Prop) s :
  wp F m Q s -> (forall a s', Q a s' -> Q' a s') -> wp F m Q' s.
Proof. unfold wp. destruct (m s); auto. Qed.

Lemma wp_zoom {T A} view put (m : M T A) Q (s : S) :
  wp F m (fun a t => Q a (put t s)) (view s) -> wp F (zoom view put m) Q s.
Proof. unfold wp, zoom. by destruct (m (view s)). Qed.

Lemma wp_and {A} (m : M S A) (Q Q' : A -> S -> Prop) s :
  wp F m Q s -> wp F m Q' s -> wp F m (fun a s' => Q a s' /\ Q' a s') s.
Proof. unfold wp. destruct (m s); auto. Qed.

(** A loop keeps what its body keeps. *)
Lemma wp_for_each {A} (body : A -> M S unit) (I : S -> Prop) l s :
  (forall x s, x ∈ l -> I s -> wp F (body x) (fun _ => I) s) ->
  I s -> wp F (for_each body l) (fun _ => I) s.
Proof.
  revert s. induction l as [|x l IH]; intros s Hb HI; simpl; [done|].
  apply wp_bind. eapply wp_mono; [apply Hb; [left|done]|].
  intros [] s' HI'; simpl in HI'. apply IH; [|done]. intros y s'' Hy. apply Hb. by right.
Qed.

Lemma wp_for_until {A} (body : A -> M S bool) (I : S -> Prop) l s :
  (forall x s, x ∈ l -> I s -> wp F (body x) (fun _ => I) s) ->
  I s -> wp F (for_until body l) (fun _ => I) s.
Proof.
  revert s. induction l as [|x l IH]; intros s Hb HI; simpl; [done|].
  apply wp_bind. eapply wp_mono; [apply Hb; [left|done]|].
  intros [] s' HI'; [done|]. apply IH; [|done]. intros y s'' Hy. apply Hb. by right.
Qed.

Lemma wp_for_ret {A R} (body : A -> M S (option R)) (I : S -> Prop) l s :
  (forall x s, x ∈ l -> I s -> wp F (body x) (fun _ => I) s) ->
  I s -> wp F (for_ret body l) (fun _ => I) s.
Proof.
  revert s. induction l as [|x l IH]; intros s Hb HI; simpl; [done|].
  apply wp_bind. eapply wp_mono; [apply Hb; [left|done]|].
  intros [] s' HI'; [done|]. apply IH; [|done]. intros y s'' Hy. apply Hb. by right.
Qed.

(** A loop whose body either goes on, keeping [I], or leaves with [Q]. *)
Lemma wp_for_ret_leave {A R} (body : A -> M S (option R)) (I : S -> Prop) Q l s :
  (forall x s, x ∈ l -> I s ->
     wp F (body x) (fun r s' => match r with None => I s' | Some v => Q (Some v) s' end) s) ->
  I s -> (forall s, I s -> Q None s) -> wp F (for_ret body l) Q s.
Proof.
  revert s. induction l as [|x l IH]; intros s Hb HI HQ; simpl; [by apply wp_ret, HQ|].
  apply wp_bind. eapply wp_mono; [apply Hb; [left|done]|].
  intros [v|] s' HI'; [done|]. apply IH; [|done|done]. intros y s'' Hy. apply Hb. by right.
Qed.

(** A loop that only looks: the result is that of the first hit. *)
Lemma wp_for_ret_scan {A R} (body : A -> M S (option R)) (P : A -> option R -> Prop) l s :
  (forall x, x ∈ l -> wp F (body x) (fun r s' => s' = s /\ P x r) s) ->
  wp F (for_ret body l)
     (fun r s' => s' = s /\ match r with
                            | Some v => exists x, x ∈ l /\ P x (Some v)
                            | None => forall x, x ∈ l -> P x None
                            end) s.
Proof.
  induction l as [|x l IH]; intros Hb; simpl.
  - apply wp_ret. split; [done|]. intros x Hx. by apply elem_of_nil in Hx.
  - apply wp_bind. eapply wp_mono; [apply Hb; left|]. intros [v|] s' [-> HP].
    + apply wp_ret. split; [done|]. exists x. split; [left|done].
    + eapply wp_mono; [apply IH; intros y Hy; apply Hb; by right|]. simpl.
      intros [v|] s' [-> Hr]; (split; [done|]).
      * destruct Hr as (y & Hy & HPy). exists y. split; [by right|done].
      * intros y [-> | Hy]%elem_of_cons; auto.
Qed.
End Wp.

Lemma wp_weaken {S A} (F F' : fault -> Prop) (m : M S A) Q s :
  (forall f, F f -> F' f) -> wp F m Q s -> wp F' m Q s.
Proof. unfold wp. destruct (m s); auto. Qed.

Lemma wp_safe {S A} F (m : M S A) Q s : safe m Q s -> wp F m Q s.
Proof. apply wp_weaken. done. Qed.

(** Reading a weakest precondition off a run. *)
Lemma wp_same_op {S A} F (m m' : M S A) Q s : m ≈ m' -> wp F m' Q s -> wp F m Q s.
Proof. unfold wp. intros E. by rewrite (same_at E). Qed.

(** Nothing asked of a fault: a triple about the result alone. *)
Lemma wp_any {S A} (m : M S A) s : wp (fun _ => True) m (fun _ _ => True) s.
Proof. unfold wp. by destruct (m s). Qed.
Lemma wp_any_bind {S A B} (m : M S A) (k : A -> M S B) Q s :
  (forall a s', wp (fun _ => True) (k a) Q s') -> wp (fun _ => True) (bind m k) Q s.
Proof. intros Hk. apply (wp_seq _ (fun _ _ => True)); [apply wp_any|]. auto. Qed.

Lemma wp_returns {S A} F (m : M S A) Q s a s' : wp F m Q s -> m s = Ret a s' -> Q a s'.
Proof. unfold wp. by intros Hm E; rewrite E in Hm. Qed.
Lemma wp_faults {S A} F (m : M S A) Q s f : wp F m Q s -> m s = Fault f -> F f.
Proof. unfold wp. by intros Hm E; rewrite E in Hm. Qed.

(** Running a sequence past a first part whose outcome is known. *)
Lemma bind_Ret {S A B} (m : M S A) (k : A -> M S B) s a s' : m s = Ret a s' -> bind m k s = k a s'.
Proof. unfold bind. by intros ->. Qed.

Lemma safe_ret {S A} (m : M S A) Q s :
  safe m Q s <-> exists a s', m s = Ret a s' /\ Q a s'.
Proof.
  unfold wp, no_fault. destruct (m s) as [a s'|f]; split.
  - eauto.
  - intros (? & ? & [= <- <-] & ?). done.
  - done.
  - by intros (? & ? & ? & ?).
Qed.

(** ** Two kinds of faults

    The layers below the daemon's tables (files, JSON, drivers) may stop with a
    fault of their own, a [lib_fault]; the accesses to the tables can only stop
    with a [core_fault].  [tame m]: from any state, [m] never accesses a member
    through a NULL pointer and never indexes a table out of range.  [quiet m]:
    it stops with nothing else. *)

Definition lib_fault (f : fault) : Prop := f <> NullDeref /\ f <> OutOfBounds.
Definition core_fault (f : fault) : Prop := f = NullDeref \/ f = OutOfBounds.
Definition always {S A} (F : fault -> Prop) (m : M S A) : Prop := forall s, wp F m (fun _ _ => True) s.
Abbreviation tame := (always lib_fault).
Abbreviation quiet := (always core_fault).

(** A quiet operation with a specification that excludes core faults returns. *)
Lemma quiet_safe {S A} (m : M S A) Q s : quiet m -> wp lib_fault m Q s -> safe m Q s.
Proof.
  intros Hq. specialize (Hq s). revert Hq. unfold wp, core_fault, lib_fault.
  destruct (m s) as [a s'|f]; [done|]. by intros [-> | ->] [? ?].
Qed.

Section Always.
Context {S : Type} {F : fault -> Prop}.

Lemma always_ret {A} (a : A) : always (S := S) F (ret a).
Proof. done. Qed.
Lemma always_bind {A B} (m : M S A) (k : A -> M S B) : always F m -> (forall a, always F (k a)) -> always F (bind m k).
Proof. intros Hm Hk s. apply wp_bind. eapply wp_mono; [apply Hm|]. intros a s' _. apply Hk. Qed.
Lemma always_get : always (S := S) F get.
Proof. done. Qed.
Lemma always_gets {A} (f : S -> A) : always F (gets f).
Proof. done. Qed.
Lemma always_modify (f : S -> S) : always F (modify f).
Proof. done. Qed.
Lemma always_crash {A} f : F f -> always (S := S) (A := A) F (crash f).
Proof. intros ? ?. done. Qed.
Lemma always_the {A} f (o : option A) : F f -> always (S := S) F (the f o).
Proof. intros ? s. by apply wp_the. Qed.
Lemma always_guard f b : F f -> always (S := S) F (guard_that f b).
Proof. intros ? s. by apply wp_guard. Qed.
Lemma always_zoom {T A} view put (m : M T A) : always F m -> always (S := S) F (zoom view put m).
Proof. intros Hm s. apply wp_zoom. eapply wp_mono; [apply Hm|done]. Qed.
Lemma always_for_each {A} (body : A -> M S unit) l : (forall x, always F (body x)) -> always F (for_each body l).
Proof. intros Hb s. apply (wp_for_each _ _ (fun _ => True)); [|done]. intros; apply Hb. Qed.
Lemma always_for_until {A} (body : A -> M S bool) l : (forall x, always F (body x)) -> always F (for_until body l).
Proof. intros Hb s. apply (wp_for_until _ _ (fun _ => True)); [|done]. intros; apply Hb. Qed.
Lemma always_for_ret {A R} (body : A -> M S (option R)) l :
  (forall x, always F (body x)) -> always F (for_ret body l).
Proof. intros Hb s. apply (wp_for_ret _ _ (fun _ => True)); [|done]. intros; apply Hb. Qed.
End Always.

Create HintDb tame.
#[export] Hint Resolve always_ret always_get always_gets always_modify : tame.
#[export] Hint Extern 1 (lib_fault _) => (split; discriminate) : tame.
#[export] Hint Extern 1 (core_fault _) => (unfold core_fault; tauto) : tame.

(** Structural search: every primitive and every operation already known to be
    tame (or quiet) is in the database. *)
Ltac tame_step :=
  lazymatch goal with
  | |- forall _, _ => intro
  | |- always _ (bind _ _) => apply always_bind
  | |- always _ (crash _) => apply always_crash
  | |- always _ (the _ _) => apply always_the
  | |- always _ (guard_that _ _) => apply always_guard
  | |- always _ (for_each _ _) => apply always_for_each
  | |- always _ (for_until _ _) => apply always_for_until
  | |- always _ (for_ret _ _) => apply always_for_ret
  | |- always _ (if ?b then _ else _) => destruct b
  | |- always _ (match ?x with _ => _ end) => destruct x
  | |- always _ (let '(_, _) := ?x in _) => destruct x
  | |- lib_fault _ => split; discriminate
  | |- core_fault _ => unfold core_fault; tauto
  end.
Ltac tame_go := repeat first [ solve [ auto with tame nocore ] | tame_step ].

(** ** Sums over arrays *)

Section Sums.
Context {A : Type}.
Implicit Types (f g : A -> nat) (l : list A).

(** Writing one element moves the sum by the difference of the two values. *)
Lemma sum_insert f l i x y :
  l !! i = Some x -> (sum_list_with f (<[i := y]> l) + f x = sum_list_with f l + f y)%nat.
Proof.
  revert i. induction l as [|z l IH]; intros [|i]; simpl; try done.
  - intros [= ->]. lia.
  - intros Hi. specialize (IH i Hi). lia.
Qed.

Lemma sum_lookup_le f l i x : l !! i = Some x -> (f x <= sum_list_with f l)%nat.
Proof.
  revert i. induction l as [|z l IH]; intros [|i]; simpl; try done.
  - intros [= ->]. lia.
  - intros Hi. specialize (IH i Hi). lia.
Qed.

Lemma sum_le f g l : (forall x, x ∈ l -> f x <= g x)%nat -> (sum_list_with f l <= sum_list_with g l)%nat.
Proof.
  induction l as [|z l IH]; intros Hle; simpl; [done|].
  assert (f z <= g z)%nat by (apply Hle; left).
  assert (sum_list_with f l <= sum_list_with g l)%nat by (apply IH; intros; apply Hle; by right). lia.
Qed.

Lemma sum_bound f l : (forall x, f x <= 1)%nat -> (sum_list_with f l <= length l)%nat.
Proof. intros Hf. induction l as [|z l IH]; simpl; [done|]. specialize (Hf z). lia. Qed.

Lemma sum_zero f l : sum_list_with f l = 0%nat <-> forall x, x ∈ l -> f x = 0%nat.
Proof.
  induction l as [|z l IH]; simpl; split.
  - intros _ x Hx. by apply elem_of_nil in Hx.
  - done.
  - intros Hs x [-> | Hx]%elem_of_cons; [lia|]. apply IH; [lia|done].
  - intros Hz. rewrite (Hz z) by left. apply IH. intros x Hx. apply Hz. by right.
Qed.

Lemma sum_replicate_0 f n x : f x = 0%nat -> sum_list_with f (replicate n x) = 0%nat.
Proof. intros Hx. induction n; simpl; lia. Qed.

(** Two different places that both count exceed one. *)
Lemma sum_two f l i j x y :
  i <> j -> l !! i = Some x -> l !! j = Some y -> (f x + f y <= sum_list_with f l)%nat.
Proof.
  revert i j. induction l as [|z l IH]; intros [|i] [|j] Hij; simpl; try done.
  - intros [= ->] Hj. pose proof (sum_lookup_le f l j y Hj). lia.
  - intros Hi [= ->]. pose proof (sum_lookup_le f l i x Hi). lia.
  - intros Hi Hj. specialize (IH i j ltac:(lia) Hi Hj). lia.
Qed.

Lemma existsb_sum (p : A -> bool) l :
  existsb p l = false <-> sum_list_with (fun x => if p x then 1 else 0)%nat l = 0%nat.
Proof.
  induction l as [|z l IH]; simpl; [done|]. destruct (p z); simpl; [split; [done|lia]|]. exact IH.
Qed.
End Sums.

(** [wp_step] runs one primitive; [wp_go] runs primitives as long as it can. *)
Ltac wp_step :=
  lazymatch goal with
  | |- wp _ (bind _ _) _ _ => apply wp_bind
  | |- wp _ (ret _) _ _ => apply wp_ret
  | |- wp _ get _ _ => apply wp_get
  | |- wp _ (gets _) _ _ => apply wp_gets
  | |- wp _ (modify _) _ _ => apply wp_modify
  | |- wp _ (zoom _ _ _) _ _ => apply wp_zoom
  | |- wp _ (let '(_, _) := ?x in _) _ _ => let E := fresh "E" in destruct x eqn:E
  | |- wp _ (if ?b then _ else _) _ _ => let E := fresh "E" in destruct b eqn:E
  | |- wp _ (match ?x with _ => _ end) _ _ => let E := fresh "E" in destruct x eqn:E
  end.
Ltac wp_go := repeat (wp_step; simpl).
