(* ===== verification/CStr.v ===== *)
(** * C strings

    The part of libc's string handling that dfx-mgr relies on: a C string is
    the [string] of the characters before its terminating NUL, and a function
    that writes into a [char buf[n]] either truncates ([snprintf], [strncpy]
    followed by an explicit NUL) or may overrun it ([sprintf], [strcpy]). *)
From Stdlib Require Import DecimalString Decimal DecimalZ DecimalPos DecimalFacts.
From S2P Require Import Prelude.
Open Scope string_scope.

(** ** Characters *)

Definition NUL : ascii := Ascii.zero.
Definition code (c : ascii) : Z := Z.of_N (N_of_ascii c).
Definition in_range (lo hi : Z) (c : ascii) : bool := (lo <=? code c)%Z && (code c <=? hi)%Z.
Definition isdigit (c : ascii) : bool := in_range 48 57 c.
Definition isupper (c : ascii) : bool := in_range 65 90 c.
Definition isspace (c : ascii) : bool := (code c =? 32)%Z || in_range 9 13 c.
Definition tolower (c : ascii) : ascii :=
  if isupper c then ascii_of_N (Z.to_N (code c + 32)) else c.

(** ** Comparison and search *)

Definition streq (a b : string) : bool := String.eqb a b.                (* !strcmp(a, b) *)
Definition strneq (a b : string) (n : nat) : bool :=                     (* !strncmp(a, b, n) *)
  String.eqb (substring 0 n a) (substring 0 n b).
Definition strlen (s : string) : nat := String.length s.

Fixpoint str_nth (s : string) (i : nat) : ascii :=                        (* s[i], i <= strlen(s) *)
  match s, i with
  | EmptyString, _ => NUL
  | String c _, O => c
  | String _ s', S i' => str_nth s' i'
  end.

Fixpoint str_drop (n : nat) (s : string) : string :=                      (* s + n *)
  match n, s with
  | O, _ => s
  | S n', String _ s' => str_drop n' s'
  | S _, EmptyString => EmptyString
  end.

Fixpoint smap (f : ascii -> ascii) (s : string) : string :=
  match s with EmptyString => EmptyString | String c s' => String (f c) (smap f s') end.
Definition lower : string -> string := smap tolower.

Definition strstr (hay needle : string) : option nat := String.index 0 needle hay.
Definition has_sub (hay needle : string) : bool :=
  match strstr hay needle with Some _ => true | None => false end.
Definition strcasestr (hay needle : string) : option nat := String.index 0 (lower needle) (lower hay).
Definition strcaseeq (a b : string) : bool := String.eqb (lower a) (lower b).

Fixpoint strchr (s : string) (c : ascii) : option nat :=
  match s with
  | EmptyString => None
  | String d s' => if Ascii.eqb d c then Some 0%nat else S <$> strchr s' c
  end.
Fixpoint strrchr (s : string) (c : ascii) : option nat :=
  match s with
  | EmptyString => None
  | String d s' =>
      match strrchr s' c with
      | Some i => Some (S i)
      | None => if Ascii.eqb d c then Some 0%nat else None
      end
  end.

(** [strcmp(a, b) < 0]: unsigned bytes, the shorter string first. *)
Fixpoint strlt (a b : string) : bool :=
  match a, b with
  | _, EmptyString => false
  | EmptyString, String _ _ => true
  | String c a', String d b' =>
      if Ascii.eqb c d then strlt a' b' else (code c <? code d)%Z
  end.

Definition ends_with (s suffix : string) : bool :=
  (strlen suffix <=? strlen s)%nat && streq (str_drop (strlen s - strlen suffix) s) suffix.

(** ** Writing into buffers *)

Definition trunc (sz : nat) (s : string) : string := substring 0 (sz - 1) s.
Definition fits (sz : nat) (s : string) : bool := (strlen s <? sz)%nat.

(** [sprintf]/[strcpy] of [s] into a buffer of [sz] bytes. *)
Definition sprintf_into {S} (sz : nat) (s : string) : M S string :=
  if fits sz s then ret s else crash BufOverflow.

(** ** Numbers *)

Definition INT_MAX : Z := (2 ^ 31 - 1)%Z.
Definition LONG_MAX : Z := (2 ^ 63 - 1)%Z.
Definition int32 (z : Z) : Z := ((z + 2 ^ 31) mod 2 ^ 32 - 2 ^ 31)%Z.
Definition u32 (z : Z) : Z := (z mod 2 ^ 32)%Z.
Definition u8 (z : Z) : Z := (z mod 2 ^ 8)%Z.
Definition u64 (z : Z) : Z := (z mod 2 ^ 64)%Z.

Definition digit_val (base : Z) (c : ascii) : option Z :=
  let n := code c in
  let v := if isdigit c then (n - 48)%Z
           else if in_range 97 122 c then (n - 87)%Z
           else if in_range 65 90 c then (n - 55)%Z
           else base in
  if (v <? base)%Z then Some v else None.

Fixpoint skip_space (s : string) : string :=
  match s with
  | String c s' => if isspace c then skip_space s' else s
  | EmptyString => EmptyString
  end.

(** The longest digit prefix: its value, how many digits, and what follows. *)
Fixpoint scan_digits (base acc : Z) (n : nat) (s : string) : Z * nat * string :=
  match s with
  | EmptyString => (acc, n, s)
  | String c s' =>
      match digit_val base c with
      | Some v => scan_digits base (acc * base + v)%Z (S n) s'
      | None => (acc, n, s)
      end
  end.

Definition skip_0x (base : Z) (s : string) : string :=
  match s with
  | String "0" (String x (String h r)) =>
      if (base =? 16)%Z && Ascii.eqb (tolower x) "x" && (if digit_val 16 h is Some _ then true else false)
      then String h r else s
  | _ => s
  end.

(** [strtol(s, &end, base)]: the value, saturated to [long], and [end]. *)
Definition strtol (base : Z) (s : string) : Z * string :=
  let s1 := skip_space s in
  let '(neg, s2) := match s1 with
                    | String "-" r => (true, r)
                    | String "+" r => (false, r)
                    | _ => (false, s1)
                    end in
  let '(v, n, rest) := scan_digits base 0 0 (skip_0x base s2) in
  if (n =? 0)%nat then (0%Z, s)
  else (if neg then Z.max (- v) (- LONG_MAX - 1) else Z.min v LONG_MAX, rest).

(** [strtoull(s, NULL, base)]: a minus sign negates modulo 2^64. *)
Definition strtoull (base : Z) (s : string) : Z :=
  let s1 := skip_space s in
  let '(neg, s2) := match s1 with
                    | String "-" r => (true, r)
                    | String "+" r => (false, r)
                    | _ => (false, s1)
                    end in
  let '(v, _, _) := scan_digits base 0 0 (skip_0x base s2) in
  let v := Z.min v (2 ^ 64 - 1) in
  if neg && (v <? 2 ^ 64 - 1)%Z then u64 (- v) else v.

Definition atoi (s : string) : Z := int32 (strtol 10 s).1.

Definition dec (z : Z) : string := NilZero.string_of_int (Z.to_int z).     (* "%d" *)

Definition hex_digit (v : Z) : ascii :=
  ascii_of_N (Z.to_N (if (v <? 10)%Z then v + 48 else v + 87)).
Definition hex8 (u : Z) : string :=                                        (* "%08x" of 32 bits *)
  fold_right (fun i s => String (hex_digit (Z.land (Z.shiftr u (4 * i)) 15)) s) ""
             [7; 6; 5; 4; 3; 2; 1; 0]%Z.

Fixpoint spaces (n : nat) : string :=
  match n with O => "" | S n' => String " " (spaces n') end.
Definition pad_right (w : nat) (s : string) : string := s ++ spaces (w - strlen s).  (* "%-ws" *)
Definition pad_left (w : nat) (s : string) : string := spaces (w - strlen s) ++ s.   (* "%wd" *)

(** ** strtok

    [strtok delims s] is the next token and what [strtok(NULL, delims)] will
    continue from; [None] is NULL. *)

Definition is_delim (delims : string) (c : ascii) : bool :=
  match strchr delims c with Some _ => true | None => false end.

Fixpoint skip_delims (delims s : string) : string :=
  match s with
  | String c s' => if is_delim delims c then skip_delims delims s' else s
  | EmptyString => EmptyString
  end.
Fixpoint take_token (delims s : string) : string * string :=
  match s with
  | EmptyString => ("", "")
  | String c s' =>
      if is_delim delims c then ("", s')
      else let '(t, r) := take_token delims s' in (String c t, r)
  end.
Definition strtok (delims s : string) : option (string * string) :=
  match skip_delims delims s with
  | EmptyString => None
  | s' => Some (take_token delims s')
  end.

(** ** Lemmas *)

Lemma streq_true a b : streq a b = true <-> a = b.
Proof. apply String.eqb_eq. Qed.

Lemma streq_false a b : streq a b = false <-> a <> b.
Proof. apply String.eqb_neq. Qed.

Lemma streq_refl a : streq a a = true.
Proof. apply String.eqb_refl. Qed.

Lemma streqP a b : reflect (a = b) (streq a b).
Proof. apply String.eqb_spec. Qed.

Lemma strlen_substring n s : strlen (substring 0 n s) = Nat.min n (strlen s).
Proof.
  revert n. induction s as [|c s IH]; intros [|n]; simpl; try done. by rewrite IH.
Qed.

Lemma substring_all s n : (strlen s <= n)%nat -> substring 0 n s = s.
Proof.
  revert n. induction s as [|c s IH]; intros [|n]; simpl; intros; try done; try lia.
  f_equal. apply IH. lia.
Qed.

Lemma trunc_fits sz s : (0 < sz)%nat -> fits sz (trunc sz s) = true.
Proof. intros. unfold fits, trunc. rewrite strlen_substring. apply Nat.ltb_lt. lia. Qed.

Lemma trunc_id sz s : fits sz s = true -> trunc sz s = s.
Proof. unfold fits, trunc. rewrite Nat.ltb_lt. intros. apply substring_all. lia. Qed.

Lemma app_cons_str c a b : String c a ++ b = String c (a ++ b).
Proof. done. Qed.

Lemma app_nil_l_str b : "" ++ b = b.
Proof. done. Qed.

Lemma strlen_app a b : strlen (a ++ b) = (strlen a + strlen b)%nat.
Proof. induction a; [done|]. rewrite app_cons_str. simpl. by rewrite IHa. Qed.

Lemma app_nil_r_str a : a ++ "" = a.
Proof. induction a; [done|]. by rewrite app_cons_str, IHa. Qed.

Lemma app_assoc_str a b c : (a ++ b) ++ c = a ++ (b ++ c).
Proof. induction a; [done|]. by rewrite !app_cons_str, IHa. Qed.

Lemma app_inj_l_str a b c : a ++ b = a ++ c -> b = c.
Proof. induction a; [done|]. rewrite !app_cons_str. intros [= ?]. auto. Qed.

Lemma int32_id z : (- 2 ^ 31 <= z < 2 ^ 31)%Z -> int32 z = z.
Proof. intros. unfold int32. rewrite Z.mod_small; lia. Qed.

Lemma tame_sprintf_into {St} sz s : tame (sprintf_into (S := St) sz s).
Proof. unfold sprintf_into. tame_go. Qed.

#[export] Hint Resolve streq_refl : core.
#[export] Hint Resolve tame_sprintf_into : tame.
