(* ===== verification/Decimals.v ===== *)
(** * Decimal numbers

    [printf("%d")] and [strtol()] are inverse: what the daemon prints into a
    reply or a path is what the other side reads back. *)
From Stdlib Require Import DecimalString Decimal DecimalZ DecimalPos DecimalFacts.
From S2P Require Import Prelude CStr.
Open Scope Z_scope.

(** The value of a digit string after the value [acc] of those before it. *)
Fixpoint uval (acc : Z) (d : Decimal.uint) : Z :=
  match d with
  | Nil => acc
  | D0 d => uval (acc * 10) d | D1 d => uval (acc * 10 + 1) d | D2 d => uval (acc * 10 + 2) d
  | D3 d => uval (acc * 10 + 3) d | D4 d => uval (acc * 10 + 4) d | D5 d => uval (acc * 10 + 5) d
  | D6 d => uval (acc * 10 + 6) d | D7 d => uval (acc * 10 + 7) d | D8 d => uval (acc * 10 + 8) d
  | D9 d => uval (acc * 10 + 9) d
  end.

Lemma of_uint_acc_uval d p : Zpos (Pos.of_uint_acc d p) = uval (Zpos p) d.
Proof. revert p. induction d; intros p; simpl; try done; rewrite IHd; f_equal; lia. Qed.

Lemma of_uint_uval d : Z.of_uint d = uval 0 d.
Proof. unfold Z.of_uint. induction d; simpl; try done; apply of_uint_acc_uval. Qed.

(** A text that does not go on with a digit. *)
Definition ends_number (s : string) : Prop :=
  match s with EmptyString => True | String c _ => digit_val 10 c = None end.

Lemma scan_digits_end acc n s : ends_number s -> scan_digits 10 acc n s = (acc, n, s).
Proof. destruct s as [|c s]; simpl; [done|]. by intros ->. Qed.

Lemma scan_uint d acc n rest :
  ends_number rest ->
  exists k, scan_digits 10 acc n (NilEmpty.string_of_uint d ++ rest) = (uval acc d, (n + k)%nat, rest) /\
            (d <> Nil -> k <> 0%nat).
Proof.
  intros Hr. revert acc n. induction d; intros acc n; rewrite ?app_cons_str; simpl.
  { exists 0%nat. rewrite Nat.add_0_r. split; [by apply scan_digits_end|done]. }
  all: match goal with |- context [scan_digits 10 ?a (S ?m) _] => destruct (IHd a (S m)) as (k & -> & _) end.
  all: exists (S k); split; [|done]; rewrite ?Z.add_0_r; do 2 f_equal; lia.
Qed.

Definition dec_digits (d : Decimal.uint) : string := NilZero.string_of_uint d.

Lemma scan_dec d rest :
  ends_number rest ->
  exists k, scan_digits 10 0 0 (dec_digits d ++ rest) = (uval 0 d, S k, rest).
Proof.
  intros Hr. assert (d = Nil \/ d <> Nil) as [->|Hd] by (destruct d; auto).
  - exists 0%nat. unfold dec_digits. cbn [NilZero.string_of_uint]. rewrite app_cons_str. simpl. by apply scan_digits_end.
  - destruct (scan_uint d 0 0 rest Hr) as (k & Hk & Hk0). destruct k as [|k]; [by specialize (Hk0 Hd)|].
    exists k. by destruct d.
Qed.

(** [dec] starts with a digit or with a minus sign. *)
Lemma dec_digits_head d : exists c r, dec_digits d = String c r /\ isdigit c = true.
Proof. destruct d; simpl; eexists _, _; (split; [reflexivity|vm_compute; reflexivity]). Qed.

Lemma digit_not_space c : isdigit c = true -> isspace c = false.
Proof.
  unfold isdigit, isspace, in_range. rewrite andb_true_iff, !Z.leb_le. intros [H1 H2].
  apply orb_false_iff. split; [apply Z.eqb_neq; lia|]. apply andb_false_iff. right. apply Z.leb_gt. lia.
Qed.
Lemma digit_not_sign c : isdigit c = true -> c <> "-"%char /\ c <> "+"%char.
Proof. intros Hc. split; intros ->; by vm_compute in Hc. Qed.

Lemma sign_cases (c : ascii) (r : string) :
  c <> "-"%char -> c <> "+"%char ->
  match String c r with
  | String "-" r => (true, r)
  | String "+" r => (false, r)
  | _ => (false, String c r)
  end = (false, String c r).
Proof. destruct c as [[] [] [] [] [] [] [] []]; done. Qed.

(** [skip_0x] is the identity in base 10. *)
Lemma skip_0x_10 s : skip_0x 10 s = s.
Proof. unfold skip_0x. repeat case_match; done. Qed.

Lemma strtol_digits d rest :
  ends_number rest -> uval 0 d <= LONG_MAX ->
  strtol 10 (dec_digits d ++ rest) = (uval 0 d, rest).
Proof.
  intros Hr Hmax. destruct (dec_digits_head d) as (c & r & Hd & Hc).
  destruct (digit_not_sign c Hc) as [Hm Hp]. destruct (scan_dec d rest Hr) as (k & Hk).
  unfold strtol. rewrite Hd in *. rewrite app_cons_str in *. cbn [skip_space]. rewrite (digit_not_space c Hc).
  rewrite (sign_cases c _ Hm Hp), skip_0x_10, Hk. cbn [Nat.eqb]. f_equal. lia.
Qed.

Lemma strtol_minus d rest :
  ends_number rest -> uval 0 d <= LONG_MAX ->
  strtol 10 (String "-" (dec_digits d ++ rest)) = (- uval 0 d, rest).
Proof.
  intros Hr Hmax. destruct (scan_dec d rest Hr) as (k & Hk).
  unfold strtol. cbn [skip_space]. change (isspace "-") with false. cbv iota beta.
  rewrite skip_0x_10, Hk. cbn [Nat.eqb]. f_equal. unfold LONG_MAX in *. lia.
Qed.

Lemma strtol_dec z rest : ends_number rest -> Z.abs z <= LONG_MAX -> strtol 10 (dec z ++ rest) = (z, rest).
Proof.
  intros Hr Hz. pose proof (DecimalZ.of_to z) as Hof. unfold dec. destruct (Z.to_int z) as [d|d]; cbn [Z.of_int] in Hof; cbn [NilZero.string_of_int].
  - rewrite of_uint_uval in Hof. change (NilZero.string_of_uint d) with (dec_digits d). rewrite strtol_digits; [by rewrite Hof|done|lia].
  - rewrite of_uint_uval in Hof. rewrite (app_cons_str "-"). change (NilZero.string_of_uint d) with (dec_digits d).
    rewrite strtol_minus; [f_equal; lia|done|lia].
Qed.

Lemma strtol_dec_all z : Z.abs z <= LONG_MAX -> strtol 10 (dec z) = (z, ""%string).
Proof. intros Hz. rewrite <- (app_nil_r_str (dec z)) at 1. by apply strtol_dec. Qed.

Lemma atoi_dec z : - 2 ^ 31 <= z < 2 ^ 31 -> atoi (dec z) = z.
Proof. intros Hz. unfold atoi. rewrite strtol_dec_all by (unfold LONG_MAX; lia). by apply int32_id. Qed.

(** Characters of a number. *)
Fixpoint all_chars (p : ascii -> bool) (s : string) : bool :=
  match s with EmptyString => true | String c r => p c && all_chars p r end.
Definition number_char (c : ascii) : bool := isdigit c || Ascii.eqb c "-".

Lemma all_chars_app p a b : all_chars p (a ++ b) = all_chars p a && all_chars p b.
Proof. induction a as [|c a IH]; [done|]. rewrite app_cons_str. simpl. by rewrite IH, andb_assoc. Qed.

Lemma all_chars_mono (p q : ascii -> bool) s :
  (forall c, p c = true -> q c = true) -> all_chars p s = true -> all_chars q s = true.
Proof. intros Hpq. induction s as [|c s IH]; simpl; [done|]. rewrite !andb_true_iff. intros [? ?]. auto. Qed.

Lemma digits_chars d : all_chars isdigit (dec_digits d) = true.
Proof.
  assert (H : all_chars isdigit (NilEmpty.string_of_uint d) = true) by (induction d; simpl; auto).
  destruct d; [done|exact H..].
Qed.

Lemma dec_chars z : all_chars number_char (dec z) = true.
Proof.
  assert (Hd : forall d, all_chars number_char (dec_digits d) = true).
  { intros d. apply (all_chars_mono isdigit); [|apply digits_chars]. intros c Hc. unfold number_char. by rewrite Hc. }
  unfold dec. destruct (Z.to_int z) as [d|d]; [apply Hd|]. simpl. apply Hd.
Qed.

Lemma dec_nonempty z : dec z <> ""%string.
Proof. unfold dec. destruct (Z.to_int z) as [d|d]; [|done]. by destruct d. Qed.

Lemma dec_digit_head z : 0 <= z -> exists c r, dec z = String c r /\ isdigit c = true.
Proof. intros Hz. unfold dec. destruct z as [|p|p]; [apply dec_digits_head|apply dec_digits_head|lia]. Qed.

Lemma dec_neg z : z < 0 -> dec z = String "-" (dec (- z)).
Proof. intros Hz. by destruct z as [|p|p]; [lia|lia|]. Qed.

(** ** Searching for a character *)

Lemma strchr_none c s : all_chars (fun d => negb (Ascii.eqb d c)) s = true -> strchr s c = None.
Proof.
  induction s as [|d s IH]; simpl; [done|]. rewrite andb_true_iff. intros [Hd%negb_true_iff Hs].
  by rewrite Hd, (IH Hs).
Qed.

Lemma strchr_app c a b :
  all_chars (fun d => negb (Ascii.eqb d c)) a = true -> strchr (a ++ String c b) c = Some (strlen a).
Proof.
  induction a as [|d a IH].
  - intros _. rewrite app_nil_l_str. simpl. by rewrite Ascii.eqb_refl.
  - rewrite app_cons_str. simpl. rewrite andb_true_iff. intros [Hd%negb_true_iff Ha]. by rewrite Hd, (IH Ha).
Qed.

Lemma substring_app_l a b : substring 0 (strlen a) (a ++ b) = a.
Proof. induction a as [|c a IH]; [by destruct b|]. rewrite app_cons_str. simpl. by rewrite IH. Qed.

Lemma str_drop_app a b : str_drop (strlen a) (a ++ b) = b.
Proof. induction a as [|c a IH]; [done|]. rewrite app_cons_str. simpl. exact IH. Qed.

Lemma str_drop_app_S a c b : str_drop (S (strlen a)) (a ++ String c b) = b.
Proof. induction a as [|d a IH]; [done|]. rewrite app_cons_str. simpl. exact IH. Qed.
