(* ===== verification/Jsmn.v ===== *)
(** * The JSON tokenizer

    [include/jsmn.h], as [src/sys/linux/json-config.c] compiles it: with
    [JSMN_PARENT_LINKS] and without [JSMN_STRICT].  The parser's state is the
    position in the text, the tokens allocated so far ([toknext] is their
    number) and the super token; [None] is the index -1. *)
From S2P Require Import Prelude CStr.
Open Scope Z_scope.
Open Scope dfx_scope.

Inductive jsmntype : Set := JSMN_UNDEFINED | JSMN_OBJECT | JSMN_ARRAY | JSMN_STRING | JSMN_PRIMITIVE.
#[export] Instance jsmntype_eq_dec : EqDecision jsmntype.
Proof. solve_decision. Defined.

(** A token is the slice [start, end) of the text; [t_end] is -1 while an
    object or an array is open. *)
Record jsmntok := Tok { t_type : jsmntype; t_start : Z; t_end : Z; t_size : Z; t_parent : option nat }.
#[export] Instance jsmntok_eta : Eta jsmntok := fun t =>
  Tok (t_type t) (t_start t) (t_end t) (t_size t) (t_parent t).

Definition JSMN_ERROR_NOMEM : Z := -1.
Definition JSMN_ERROR_INVAL : Z := -2.
Definition JSMN_ERROR_PART : Z := -3.

Record jsmn_parser := Parser { pos : nat; toksuper : option nat; toks : list jsmntok }.
#[export] Instance jsmn_parser_eta : Eta jsmn_parser := fun p => Parser (pos p) (toksuper p) (toks p).

Definition jsmn_init : jsmn_parser := Parser 0 None [].
Definition toknext (p : jsmn_parser) : nat := length (toks p).

(** [token->start != -1 && token->end == -1]. *)
Definition tok_open (t : jsmntok) : bool := negb (t_start t =? -1) && (t_end t =? -1).
Definition is_container (ty : jsmntype) : bool :=
  match ty with JSMN_ARRAY | JSMN_OBJECT => true | _ => false end.

(** ** Characters *)

Definition QUOTE : ascii := "034".
Definition BACKSLASH : ascii := "092".
Definition one_of (s : string) (c : ascii) : bool := is_delim s c.
Definition BLANKS : string := String "009" (String "013" (String "010" " ")).
(** What ends a primitive. *)
Definition ends_primitive (c : ascii) : bool := Ascii.eqb c ":" || one_of BLANKS c || one_of ",]}" c.
Definition printable (c : ascii) : bool := in_range 32 126 c.
Definition is_hex (c : ascii) : bool := in_range 48 57 c || in_range 65 70 c || in_range 97 102 c.
Definition simple_escape (c : ascii) : bool :=
  Ascii.eqb c QUOTE || Ascii.eqb c BACKSLASH || one_of "/bfrnt" c.

(** [js[pos]] while [pos < len && js[pos] != '\0'] holds. *)
Definition js_at (js : string) (i : nat) : option ascii :=
  match String.get i js with
  | Some c => if Ascii.eqb c NUL then None else Some c
  | None => None
  end.

(** The loop of [jsmn_parse_primitive()] on the text that is left: the position
    it stops at; [None] is an invalid character. *)
Fixpoint prim_end (rest : string) (i : nat) : option nat :=
  match rest with
  | EmptyString => Some i
  | String c r =>
      if Ascii.eqb c NUL || ends_primitive c then Some i
      else if printable c then prim_end r (S i) else None
  end.

(** The loop of [jsmn_parse_string()] after the opening quote: the position of
    the closing one, or the error.  [hex] digits of a [\uXXXX] are still due. *)
Fixpoint str_end (rest : string) (i : nat) (hex : nat) : nat + Z :=
  match rest with
  | EmptyString => inr JSMN_ERROR_PART
  | String c r =>
      if Ascii.eqb c NUL then inr JSMN_ERROR_PART
      else match hex with
      | S h => if is_hex c then str_end r (S i) h else inr JSMN_ERROR_INVAL
      | O =>
          if Ascii.eqb c QUOTE then inl i
          else if Ascii.eqb c BACKSLASH then
            match r with
            | EmptyString => inr JSMN_ERROR_PART
            | String e r' =>
                if simple_escape e then str_end r' (S (S i)) 0
                else if Ascii.eqb e "u" then str_end r' (S (S i)) 4
                else inr JSMN_ERROR_INVAL
            end
          else str_end r (S i) 0
      end
  end.

(** ** The parser *)

Section Parser.
Variable js : string.
Variable num_tokens : nat.

Definition set_pos (i : nat) : M jsmn_parser unit := modify (fun p => p <| pos := i |>).
Definition set_super (o : option nat) : M jsmn_parser unit := modify (fun p => p <| toksuper := o |>).

(** [tokens[i]], read and written. *)
Definition get_tok (i : nat) : M jsmn_parser jsmntok := let! p := get in the OutOfBounds (toks p !! i).
Definition mod_tok (i : nat) (f : jsmntok -> jsmntok) : M jsmn_parser unit :=
  let! t := get_tok i in modify (fun p => p <| toks ::= <[i := f t]> |>).

Definition jsmn_alloc_token : M jsmn_parser (option nat) :=
  let! p := get in
  if (num_tokens <=? toknext p)%nat then ret None
  else modify (fun p => p <| toks ::= fun l => (l ++ [Tok JSMN_UNDEFINED (-1) (-1) 0 None])%list |>) ;;
       ret (Some (toknext p)).

Definition jsmn_fill_token (i : nat) (ty : jsmntype) (a b : nat) : M jsmn_parser unit :=
  mod_tok i (fun t => Tok ty (Z.of_nat a) (Z.of_nat b) 0 (t_parent t)).

(** Allocating and filling a string or a primitive token: 0 or an error. *)
Definition leaf_token (ty : jsmntype) (a b : nat) : M jsmn_parser bool :=
  let! i := jsmn_alloc_token in
  match i with
  | None => ret false
  | Some i =>
      jsmn_fill_token i ty a b ;;
      let! p := get in mod_tok i (fun t => t <| t_parent := toksuper p |>) ;; ret true
  end.

Definition jsmn_parse_primitive : M jsmn_parser Z :=
  let! p := get in
  let start := pos p in
  match prim_end (str_drop start js) start with
  | None => ret JSMN_ERROR_INVAL
  | Some e =>
      let! ok := leaf_token JSMN_PRIMITIVE start e in
      if ok : bool then set_pos (pred e) ;; ret 0 else ret JSMN_ERROR_NOMEM
  end.

Definition jsmn_parse_string : M jsmn_parser Z :=
  let! p := get in
  let start := pos p in
  match str_end (str_drop (S start) js) (S start) 0 with
  | inr e => ret e
  | inl e =>
      let! ok := leaf_token JSMN_STRING (S start) e in
      if ok : bool then set_pos e ;; ret 0 else ret JSMN_ERROR_NOMEM
  end.

(** [if (toksuper != -1) tokens[toksuper].size++]. *)
Definition bump_super : M jsmn_parser unit :=
  let! p := get in
  match toksuper p with
  | None => ret tt
  | Some s => mod_tok s (fun t => t <| t_size ::= fun n => n + 1 |>)
  end.

(** A '{' or a '[': [false] is the error return. *)
Definition open_container (ty : jsmntype) : M jsmn_parser bool :=
  let! i := jsmn_alloc_token in
  match i with
  | None => ret false
  | Some i =>
      let! p := get in
      bump_super ;;
      mod_tok i (fun t => t <| t_type := ty |> <| t_start := Z.of_nat (pos p) |> <| t_parent := toksuper p |>) ;;
      set_super (Some i) ;;
      ret true
  end.

(** The loop of a '}' or a ']' from token [i] up its parents: [false] is the
    error return. *)
Fixpoint close_from (fuel : nat) (ty : jsmntype) (i : nat) : M jsmn_parser bool :=
  match fuel with
  | O => crash OutOfFuel
  | S f =>
      let! t := get_tok i in
      if tok_open t then
        if negb (bool_decide (t_type t = ty)) then ret false
        else
          let! p := get in
          mod_tok i (fun t => t <| t_end := Z.of_nat (pos p) + 1 |>) ;;
          set_super (t_parent t) ;; ret true
      else
        match t_parent t with
        | None =>
            let! p := get in
            ret (negb (negb (bool_decide (t_type t = ty)) || (if toksuper p is Some _ then false else true)))
        | Some j => close_from f ty j
        end
  end.
Definition close_container (ty : jsmntype) : M jsmn_parser bool :=
  let! p := get in
  match toknext p with
  | O => ret false
  | S i => close_from (toknext p) ty i
  end.

(** A ',' after a value: back to the container. *)
Definition after_comma : M jsmn_parser unit :=
  let! p := get in
  match toksuper p with
  | None => ret tt
  | Some s =>
      let! t := get_tok s in
      if is_container (t_type t) then ret tt else set_super (t_parent t)
  end.

(** One turn of the loop of [jsmn_parse()]: [inl r] is [return r], [inr k] adds
    [k] to [count]. *)
Definition jsmn_char (c : ascii) : M jsmn_parser (Z + Z) :=
  if Ascii.eqb c "{" || Ascii.eqb c "[" then
    let! ok := open_container (if Ascii.eqb c "{" then JSMN_OBJECT else JSMN_ARRAY) in
    ret (if ok : bool then inr 1 else inl JSMN_ERROR_NOMEM)
  else if Ascii.eqb c "}" || Ascii.eqb c "]" then
    let! ok := close_container (if Ascii.eqb c "}" then JSMN_OBJECT else JSMN_ARRAY) in
    ret (if ok : bool then inr 0 else inl JSMN_ERROR_INVAL)
  else if Ascii.eqb c QUOTE then
    let! r := jsmn_parse_string in
    if r <? 0 then ret (inl r) else bump_super ;; ret (inr 1)
  else if one_of BLANKS c then ret (inr 0)
  else if Ascii.eqb c ":" then
    modify (fun p => p <| toksuper := match toknext p with O => None | S n => Some n end |>) ;; ret (inr 0)
  else if Ascii.eqb c "," then after_comma ;; ret (inr 0)
  else
    let! r := jsmn_parse_primitive in
    if r <? 0 then ret (inl r) else bump_super ;; ret (inr 1).

Fixpoint jsmn_loop (fuel : nat) (count : Z) : M jsmn_parser Z :=
  let! p := get in
  match js_at js (pos p) with
  | None => ret (if existsb tok_open (toks p) then JSMN_ERROR_PART else count)
  | Some c =>
      match fuel with
      | O => crash OutOfFuel
      | S f =>
          let! r := jsmn_char c in
          match r with
          | inl e => ret e
          | inr k => modify (fun p => p <| pos ::= S |>) ;; jsmn_loop f (count + k)
          end
      end
  end.
End Parser.

Definition jsmn_parse (js : string) (num_tokens : nat) : M jsmn_parser Z :=
  let! p := get in jsmn_loop js num_tokens (strlen js) (Z.of_nat (toknext p)).

(** A parse with a parser and an array of its own: the result and the tokens
    that were written. *)
Definition jsmn_run {St} (js : string) (num_tokens : nat) : M St (Z * list jsmntok) :=
  zoom (fun _ => jsmn_init) (fun _ s => s)
       (let! n := jsmn_parse js num_tokens in let! p := get in ret (n, toks p)).
