(* ===== verification/JsmnSpec.v ===== *)
(** * What the tokenizer promises

    For every text and every number of tokens, [jsmn_parse()] returns, stays in
    the token array, and on success writes as many tokens as it says, in the
    order of the text and properly nested. *)
From S2P Require Import Prelude CStr Jsmn.
Open Scope Z_scope.
Open Scope dfx_scope.

(** ** The scanning loops *)

Lemma prim_end_bounds rest i e :
  prim_end rest i = Some e -> (i <= e <= i + strlen rest)%nat.
Proof.
  revert i. induction rest as [|c r IH]; simpl; intros i; [intros [= <-]; lia|].
  destruct (_ || _); [intros [= <-]; lia|]. destruct (printable c); [|done].
  intros He%IH. lia.
Qed.

Lemma str_end_bounds rest i h e :
  str_end rest i h = inl e -> (i <= e < i + strlen rest)%nat.
Proof.
  remember (strlen rest) as n eqn:Hn. revert rest i h Hn.
  induction (lt_wf n) as [n _ IH]. intros [|c r] i h ->; [done|]. simpl.
  assert (Hr : forall r' j h', (strlen r' <= strlen r)%nat -> (S i <= j)%nat ->
            (j + strlen r' <= i + S (strlen r))%nat ->
            str_end r' j h' = inl e -> (i <= e < i + S (strlen r))%nat).
  { intros r' j h' ? ? ? He. apply (IH (strlen r')) in He; simpl; lia || done. }
  destruct (Ascii.eqb c NUL); [done|]. destruct h as [|h].
  - destruct (Ascii.eqb c QUOTE); [intros [= <-]; simpl; lia|].
    destruct (Ascii.eqb c BACKSLASH); [|apply Hr; simpl; lia].
    destruct r as [|x r']; [done|]. destruct (simple_escape x); [apply Hr; simpl; lia|].
    destruct (Ascii.eqb x "u"); [|done]. apply Hr; simpl; lia.
  - destruct (is_hex c); [|done]. apply Hr; simpl; lia.
Qed.

Lemma str_end_error rest i h e : str_end rest i h = inr e -> e = JSMN_ERROR_INVAL \/ e = JSMN_ERROR_PART.
Proof.
  remember (strlen rest) as n eqn:Hn. revert rest i h Hn.
  induction (lt_wf n) as [n _ IH]. intros [|c r] i h ->; [intros [= <-]; by right|]. simpl.
  assert (Hr : forall r' j h', (strlen r' <= strlen r)%nat -> str_end r' j h' = inr e ->
            e = JSMN_ERROR_INVAL \/ e = JSMN_ERROR_PART).
  { intros r' j h' ?. apply (IH (strlen r')); [simpl; lia|done]. }
  destruct (Ascii.eqb c NUL); [intros [= <-]; by right|]. destruct h as [|h].
  - destruct (Ascii.eqb c QUOTE); [done|]. destruct (Ascii.eqb c BACKSLASH); [|by apply Hr].
    destruct r as [|x r']; [intros [= <-]; by right|].
    destruct (simple_escape x); [apply Hr; simpl; lia|].
    destruct (Ascii.eqb x "u"); [apply Hr; simpl; lia|intros [= <-]; by left].
  - destruct (is_hex c); [by apply Hr|intros [= <-]; by left].
Qed.

Lemma strlen_drop n s : strlen (str_drop n s) = (strlen s - n)%nat.
Proof. revert s. induction n as [|n IH]; intros [|c s]; simpl; done. Qed.

Lemma js_at_drop js i : js_at js i = match str_drop i js with
                                     | String c _ => if Ascii.eqb c NUL then None else Some c
                                     | EmptyString => None
                                     end.
Proof.
  unfold js_at. revert i. induction js as [|c js IH]; intros [|i]; simpl; done.
Qed.

Lemma js_at_Some js i c : js_at js i = Some c ->
  (i < strlen js)%nat /\ c <> NUL /\ exists r, str_drop i js = String c r.
Proof.
  rewrite js_at_drop. pose proof (strlen_drop i js) as Hl. destruct (str_drop i js) as [|d r]; [done|].
  destruct (Ascii.eqb_spec d NUL); [done|]. intros [= ->]. simpl in Hl. split_and!; [lia|done|by exists r].
Qed.

(** ** The invariant

    [h], the horizon, is where the text that is still to be read begins. *)

(** [up l i k]: [k] is [i] or one of its ancestors. *)
Inductive up (l : list jsmntok) : nat -> nat -> Prop :=
  | up_refl i : up l i i
  | up_step i j k t : l !! i = Some t -> t_parent t = Some j -> up l j k -> up l i k.

Record tok_ok (h : Z) (i : nat) (t : jsmntok) : Prop := {
  ok_parent : forall j, t_parent t = Some j -> (j < i)%nat;
  ok_start : 0 <= t_start t < h;
  ok_end : if t_end t =? -1 then is_container (t_type t) = true else t_start t <= t_end t <= h;
}.

(** An earlier token starts earlier; when it is closed, a later one is after it
    or inside it. *)
Definition nests (t u : jsmntok) : Prop :=
  t_start t < t_start u /\
  (t_end t = -1 \/ t_end t <= t_start u \/ (t_end u <> -1 /\ t_end u <= t_end t)).

Record inv (num : nat) (h : Z) (p : jsmn_parser) : Prop := {
  i_room : (toknext p <= num)%nat;
  i_super : forall s, toksuper p = Some s -> (s < toknext p)%nat;
  i_toks : forall i t, toks p !! i = Some t -> tok_ok h i t;
  i_nest : forall i j t u, toks p !! i = Some t -> toks p !! j = Some u -> (i < j)%nat -> nests t u;
  (* the open containers are among the ancestors of the super token and of the last *)
  i_open_super : forall i t, toks p !! i = Some t -> t_end t = -1 ->
                   exists s, toksuper p = Some s /\ up (toks p) s i;
  i_open_last : forall i t, toks p !! i = Some t -> t_end t = -1 -> up (toks p) (pred (toknext p)) i;
}.

Lemma tok_open_ok h i t : tok_ok h i t -> tok_open t = (t_end t =? -1).
Proof. intros [_ ? _]. unfold tok_open. destruct (Z.eqb_spec (t_start t) (-1)); [lia|done]. Qed.

Lemma up_le h l i k : (forall i t, l !! i = Some t -> tok_ok h i t) -> up l i k -> (k <= i)%nat.
Proof. intros Hl. induction 1 as [|i j k t Hi Hj _ IH]; [done|]. apply Hl, ok_parent with (j := j) in Hi; [lia|done]. Qed.

(** Ancestors only depend on the parents. *)
Lemma up_parents l l' i k :
  (forall i t, l !! i = Some t -> exists t', l' !! i = Some t' /\ t_parent t' = t_parent t) ->
  up l i k -> up l' i k.
Proof.
  intros Hl. induction 1 as [|i j k t Hi Hj _ IH]; [apply up_refl|].
  destruct (Hl _ _ Hi) as (t' & Hi' & E). eapply up_step; [exact Hi'|by rewrite E|done].
Qed.
Lemma up_app l u i k : up l i k -> up (l ++ [u]) i k.
Proof. apply up_parents. intros j t Hj. exists t. split; [by apply lookup_app_l_Some|done]. Qed.

Lemma tok_ok_horizon h h' i t : h <= h' -> tok_ok h i t -> tok_ok h' i t.
Proof. intros Hh [Hp Hs He]. split; [done|lia|]. destruct (t_end t =? -1); [done|lia]. Qed.
Lemma inv_horizon num h h' p : h <= h' -> inv num h p -> inv num h' p.
Proof. intros Hh []. split; try done. intros i t Hi. by eapply tok_ok_horizon, i_toks0. Qed.

Lemma inv_pos num h p i : inv num h p -> inv num h (p <| pos := i |>).
Proof. intros []. by split. Qed.

(** Rewriting one token: the tokens of the new array. *)
Lemma lookup_update (l : list jsmntok) (i k : nat) (t u v : jsmntok) :
  l !! i = Some t -> <[i := u]> l !! k = Some v -> (k = i /\ v = u) \/ (k <> i /\ l !! k = Some v).
Proof.
  intros Hi. destruct (decide (k = i)) as [->|Hk].
  - rewrite list_lookup_insert_eq by (by apply lookup_lt_Some in Hi). intros [= <-]. by left.
  - rewrite list_lookup_insert_ne by done. by right.
Qed.

(** ** The operations keep it *)

#[local] Arguments bump_super : simpl never.
#[local] Arguments mod_tok : simpl never.

Section Safe.
Variable js : string.
Variable num : nat.
Implicit Types p : jsmn_parser.

(** An update that keeps the type, the span and the parent. *)
Definition same_span (t u : jsmntok) : Prop :=
  t_type u = t_type t /\ t_start u = t_start t /\ t_end u = t_end t /\ t_parent u = t_parent t.

Lemma inv_same_span h p i t u :
  toks p !! i = Some t -> same_span t u -> inv num h p -> inv num h (p <| toks ::= <[i := u]> |>).
Proof.
  intros Hi (Ety & Est & Een & Epa) [].
  assert (Hup : forall a b, up (toks p) a b -> up (<[i := u]> (toks p)) a b).
  { intros a b. apply up_parents. intros k v Hk. destruct (decide (k = i)) as [->|].
    - exists u. rewrite list_lookup_insert_eq by (by apply lookup_lt_Some in Hi). split; [done|congruence].
    - exists v. by rewrite list_lookup_insert_ne. }
  split; cbn; unfold toknext in *; cbn; rewrite ?length_insert; try done.
  - intros k v [[-> ->]|[_ Hk]]%(lookup_update _ _ _ t); [|by apply i_toks0|done].
    destruct (i_toks0 _ _ Hi) as [Hp Hs He]. split; rewrite ?Ety, ?Est, ?Een, ?Epa; done.
  - intros k m v w Hk Hm Hkm. unfold nests.
    assert (Hold : forall k v, <[i := u]> (toks p) !! k = Some v ->
              exists v', toks p !! k = Some v' /\ t_start v = t_start v' /\ t_end v = t_end v').
    { intros k' v' [[-> ->]|[_ Hk']]%(lookup_update _ _ _ t); [by exists t|by exists v'|done]. }
    destruct (Hold _ _ Hk) as (v' & Hk' & -> & ->), (Hold _ _ Hm) as (w' & Hm' & -> & ->).
    exact (i_nest0 _ _ _ _ Hk' Hm' Hkm).
  - intros k v [[-> ->]|[_ Hk]]%(lookup_update _ _ _ t); [| |done]; intros He.
    + destruct (i_open_super0 _ _ Hi) as (s & Hs & ?); [congruence|]. exists s. auto.
    + destruct (i_open_super0 _ _ Hk He) as (s & Hs & ?). exists s. auto.
  - intros k v [[-> ->]|[_ Hk]]%(lookup_update _ _ _ t); [| |done]; intros He.
    + apply Hup, (i_open_last0 _ _ Hi). congruence.
    + by eapply Hup, i_open_last0.
Qed.

(** A new last token whose parent is the super token; when it is an open
    container, it becomes the super token. *)
Definition pushed (u : jsmntok) (o : option nat) (p : jsmn_parser) : jsmn_parser :=
  Parser (pos p) o (toks p ++ [u]).

Lemma inv_push h h' p u o :
  inv num h p -> (toknext p < num)%nat -> h <= t_start u -> tok_ok h' (toknext p) u ->
  t_parent u = toksuper p -> h <= h' -> (t_end u <> -1 /\ o = toksuper p) \/ o = Some (toknext p) ->
  inv num h' (pushed u o p).
Proof.
  intros [] Hn Hu Hok Hp Hh Ho.
  assert (Hcase : forall k v, (toks p ++ [u])%list !! k = Some v ->
            toks p !! k = Some v \/ (k = toknext p /\ v = u)).
  { intros k v [[_ ?]|[? <-]]%lookup_snoc_Some; [by left|by right]. }
  assert (Hlast : (toks p ++ [u])%list !! toknext p = Some u) by (by apply list_lookup_middle).
  assert (Hanc : forall k v, toks p !! k = Some v -> t_end v = -1 -> up (toks p ++ [u]) (toknext p) k).
  { intros k v Hk He. destruct (i_open_super0 _ _ Hk He) as (s & Hs & ?).
    eapply (up_step _ _ s); [exact Hlast|congruence|by apply up_app]. }
  split; cbn; unfold toknext in *; cbn; rewrite ?length_app; simpl.
  - lia.
  - intros s. destruct Ho as [[_ ->]| ->]; [intros Hs%i_super0; lia|intros [= <-]; lia].
  - intros k v [Hk|[-> ->]]%Hcase; [|done]. eapply tok_ok_horizon; [done|by apply i_toks0].
  - intros k m v w Hk Hm Hkm. apply Hcase in Hm as [Hm|[-> ->]].
    + apply Hcase in Hk as [Hk|[-> ->]]; [by eapply i_nest0|]. apply lookup_lt_Some in Hm. lia.
    + apply Hcase in Hk as [Hk|[-> ->]]; [|lia].
      destruct (i_toks0 _ _ Hk) as [_ Hs He]. split; [lia|].
      destruct (Z.eqb_spec (t_end v) (-1)); [by left|right; left; lia].
  - intros k v [Hk|[-> ->]]%Hcase He; destruct Ho as [[Hne ->]| ->]; try done.
    + destruct (i_open_super0 _ _ Hk He) as (s & Hs & ?). exists s. split; [done|by apply up_app].
    + eexists. split; [done|by eapply Hanc].
    + eexists. split; [done|apply up_refl].
  - replace (pred (length (toks p) + 1)) with (length (toks p)) by lia.
    intros k v [Hk|[-> ->]]%Hcase He; [by eapply Hanc|apply up_refl].
Qed.

(** Counting one more child of the super token. *)
Definition bump (o : option nat) (l : list jsmntok) : list jsmntok :=
  match o with
  | None => l
  | Some s => match l !! s with Some t => <[s := t <| t_size ::= fun n => n + 1 |>]> l | None => l end
  end.
Definition bumped p : jsmn_parser := p <| toks ::= bump (toksuper p) |>.

Lemma bump_length o l : length (bump o l) = length l.
Proof. destruct o as [s|]; [|done]. simpl. destruct (l !! s); [|done]. apply length_insert. Qed.

Lemma inv_bumped h p : inv num h p -> inv num h (bumped p).
Proof.
  destruct p as [i [s|] l]; unfold bumped; cbn; [|done]. intros Hi.
  destruct (l !! s) as [t|] eqn:Et; [|done]. by apply (inv_same_span h (Parser i (Some s) l) s t).
Qed.

Definition super_ok p : Prop := forall s, toksuper p = Some s -> (s < toknext p)%nat.

Lemma bump_super_eq p : super_ok p -> bump_super p = Ret tt (bumped p).
Proof.
  destruct p as [i [s|] l]; [|done]. intros Hi.
  destruct (lookup_lt_is_Some_2 l s) as [t Ht]; [by apply (Hi s)|].
  unfold bump_super, bumped, bump, mod_tok, get_tok, bind, get. cbn. by rewrite Ht.
Qed.

(** ** The two ways to a token *)

Lemma insert_middle {A} (l : list A) x y : <[length l := y]> (l ++ [x])%list = (l ++ [y])%list.
Proof. by rewrite insert_app_r_alt, Nat.sub_diag by lia. Qed.

Lemma get_tok_eq p i t : toks p !! i = Some t -> get_tok i p = Ret t p.
Proof. intros Ht. unfold get_tok, bind, get. by rewrite Ht. Qed.

Lemma mod_tok_eq p i t f : toks p !! i = Some t -> mod_tok i f p = Ret tt (p <| toks ::= <[i := f t]> |>).
Proof. intros Ht. unfold mod_tok, get_tok, bind, get. by rewrite Ht. Qed.

Lemma mod_last p (l : list jsmntok) t f :
  toks p = (l ++ [t])%list -> mod_tok (length l) f p = Ret tt (p <| toks := (l ++ [f t])%list |>).
Proof.
  intros E. unfold mod_tok, get_tok, bind, get. rewrite E, list_lookup_middle by done. cbn.
  unfold modify. cbn. by rewrite E, insert_middle.
Qed.

Lemma leaf_token_eq ty a b p :
  leaf_token num ty a b p =
  if (num <=? toknext p)%nat then Ret false p
  else Ret true (pushed (Tok ty (Z.of_nat a) (Z.of_nat b) 0 (toksuper p)) (toksuper p) p).
Proof.
  unfold leaf_token, jsmn_alloc_token, jsmn_fill_token, bind, get.
  destruct (num <=? toknext p)%nat; [done|]. cbn. unfold toknext.
  erewrite mod_last by done. cbn. erewrite mod_last by done. done.
Qed.

Lemma bump_app o l u : (forall s, o = Some s -> (s < length l)%nat) -> bump o (l ++ [u]) = (bump o l ++ [u])%list.
Proof.
  destruct o as [s|]; [|done]. intros Hs. specialize (Hs s eq_refl).
  destruct (lookup_lt_is_Some_2 l s Hs) as [t Ht]. simpl.
  rewrite lookup_app_l, Ht by done. by rewrite insert_app_l.
Qed.

Lemma open_container_eq ty p : super_ok p ->
  open_container num ty p =
  if (num <=? toknext p)%nat then Ret false p
  else Ret true (pushed (Tok ty (Z.of_nat (pos p)) (-1) 0 (toksuper p)) (Some (toknext p)) (bumped p)).
Proof.
  intros Hi. unfold open_container, jsmn_alloc_token, bind, get.
  destruct (num <=? toknext p)%nat; [done|]. unfold modify, ret. cbn.
  set (u := Tok JSMN_UNDEFINED (-1) (-1) 0 None).
  assert (Hsup : forall s, toksuper p = Some s -> (s < length (toks p))%nat) by apply Hi.
  assert (Hb : bump_super (Parser (pos p) (toksuper p) (toks p ++ [u])) =
               Ret tt (Parser (pos p) (toksuper p) (bump (toksuper p) (toks p) ++ [u]))).
  { rewrite <- (bump_app _ _ u Hsup). unfold bump_super, bind, get. cbn.
    destruct (toksuper p) as [s|]; [|done]. destruct (lookup_lt_is_Some_2 (toks p) s (Hsup s eq_refl)) as [t Ht].
    assert (Ha : (toks p ++ [u])%list !! s = Some t) by (by apply lookup_app_l_Some).
    erewrite mod_tok_eq by exact Ha. simpl. by rewrite Ha. }
  rewrite Hb. unfold toknext. rewrite <- (bump_length (toksuper p)) at 1.
  erewrite mod_last by done. unfold set_super, modify, pushed, bumped, toknext. cbn. done.
Qed.

(** Closing the container at [i]. *)
Lemma inv_close p i t :
  inv num (Z.of_nat (pos p)) p -> toks p !! i = Some t -> t_end t = -1 ->
  (forall k v, toks p !! k = Some v -> t_end v = -1 -> up (toks p) i k) ->
  inv num (Z.of_nat (pos p) + 1)
    (Parser (pos p) (t_parent t) (<[i := t <| t_end := Z.of_nat (pos p) + 1 |>]> (toks p))).
Proof.
  intros Hinv Hi He Hopen. pose proof Hinv as [].
  destruct (i_toks0 _ _ Hi) as [Hp Hs _]. pose proof (lookup_lt_Some _ _ _ Hi) as Hlt.
  set (u := t <| t_end := Z.of_nat (pos p) + 1 |>).
  assert (Hup : forall a b, up (toks p) a b -> up (<[i := u]> (toks p)) a b).
  { intros a b. apply up_parents. intros k v Hk. destruct (decide (k = i)) as [->|].
    - exists u. rewrite list_lookup_insert_eq by done. split; [done|]. cbn. congruence.
    - exists v. by rewrite list_lookup_insert_ne. }
  split; cbn; unfold toknext in *; cbn; rewrite ?length_insert; try done.
  - intros s Hs'. apply Hp in Hs'. lia.
  - intros k v [[-> ->]|[_ Hk]]%(lookup_update _ _ _ t); [| |done].
    + split; cbn; [done|lia|]. destruct (Z.eqb_spec (Z.of_nat (pos p) + 1) (-1)); lia.
    + eapply tok_ok_horizon; [|by apply i_toks0]. lia.
  - intros k m v w Hk Hm Hkm.
    apply (lookup_update _ _ _ t) in Hk as [[-> ->]|[Hne Hk]]; [| |done].
    + apply (lookup_update _ _ _ t) in Hm as [[-> ->]|[_ Hm]]; [lia| |done].
      destruct (i_nest0 _ _ _ _ Hi Hm Hkm) as [Hst _]. split; [done|]. right; right. cbn.
      destruct (Z.eqb_spec (t_end w) (-1)) as [Hw|Hw].
      * apply (Hopen _ _ Hm), (up_le (Z.of_nat (pos p))) in Hw; [lia|done].
      * destruct (i_toks0 _ _ Hm) as [_ _ Hwe]. apply Z.eqb_neq in Hw. rewrite Hw in Hwe. apply Z.eqb_neq in Hw. lia.
    + apply (lookup_update _ _ _ t) in Hm as [[-> ->]|[_ Hm]]; [|by eapply i_nest0|done].
      destruct (i_nest0 _ _ _ _ Hk Hi Hkm) as [Hst [?|[?|[? _]]]]; (split; [done|]); cbn; tauto.
  - intros k v [[-> ->]|[Hne Hk]]%(lookup_update _ _ _ t); [| |done]; intros Hv; [cbn in Hv; lia|].
    pose proof (Hopen _ _ Hk Hv) as Hu. inversion Hu as [|? j ? t' Hi' Hj Hjk]; subst; [done|].
    exists j. split; [congruence|by apply Hup].
  - intros k v [[-> ->]|[Hne Hk]]%(lookup_update _ _ _ t); [| |done]; intros Hv; [cbn in Hv; lia|].
    by eapply Hup, i_open_last0.
Qed.

Lemma close_from_wp fuel ty i p :
  inv num (Z.of_nat (pos p)) p -> (i < fuel)%nat -> (i < toknext p)%nat ->
  (forall k v, toks p !! k = Some v -> t_end v = -1 -> up (toks p) i k) ->
  safe (close_from fuel ty i)
    (fun _ p' => inv num (Z.of_nat (pos p) + 1) p' /\ pos p' = pos p /\ toknext p' = toknext p) p.
Proof.
  intros Hinv. revert i. induction fuel as [|f IH]; intros i Hf Hi Hopen; [lia|]. cbn [close_from].
  destruct (lookup_lt_is_Some_2 (toks p) i Hi) as [t Ht].
  unfold wp. rewrite (bind_Ret _ _ _ _ _ (get_tok_eq _ _ _ Ht)).
  rewrite (tok_open_ok _ _ _ (i_toks _ _ _ Hinv _ _ Ht)).
  assert (Hp1 : inv num (Z.of_nat (pos p) + 1) p) by (eapply inv_horizon; [|exact Hinv]; lia).
  destruct (Z.eqb_spec (t_end t) (-1)) as [He|He].
  - destruct (negb _); [done|]. unfold bind, get, set_super, modify. rewrite (mod_tok_eq _ _ _ _ Ht).
    unfold toknext. cbn. rewrite length_insert. split_and!; [|done..]. by apply inv_close.
  - destruct (t_parent t) as [j|] eqn:Ej; [|done].
    assert (Hji : (j < i)%nat) by (by eapply (ok_parent _ _ _ (i_toks _ _ _ Hinv _ _ Ht))).
    apply IH; [lia|lia|]. intros k v Hk Hv. pose proof (Hopen _ _ Hk Hv) as Hu.
    inversion Hu as [|? j' ? t' Hi' Hj Hjk]; subst; congruence.
Qed.

(** ** One character *)

Definition jsmn_error (e : Z) : Prop := e = JSMN_ERROR_NOMEM \/ e = JSMN_ERROR_INVAL \/ e = JSMN_ERROR_PART.

(** What a parser of one value leaves: the last character it took is at [pos]. *)
Definition took (p : jsmn_parser) (r : Z) (p' : jsmn_parser) : Prop :=
  if r <? 0 then jsmn_error r /\ p' = p
  else (pos p <= pos p' < strlen js)%nat /\ inv num (Z.of_nat (pos p') + 1) p' /\ toknext p' = S (toknext p).

Lemma leaf_inv h p ty a b : inv num h p -> is_container ty = false -> (toknext p < num)%nat ->
  h <= Z.of_nat a -> (a <= b)%nat -> forall h', Z.of_nat a < h' -> Z.of_nat b <= h' ->
  inv num h' (pushed (Tok ty (Z.of_nat a) (Z.of_nat b) 0 (toksuper p)) (toksuper p) p).
Proof.
  intros Hi Hty Hn Ha Hab h' Hh Hh'. eapply inv_push; try done; [|lia|left; cbn; split; [lia|done]].
  split; cbn; [intros j Hj; by eapply i_super|lia|]. destruct (Z.eqb_spec (Z.of_nat b) (-1)); lia.
Qed.

Lemma toknext_pushed u o p : toknext (pushed u o p) = S (toknext p).
Proof. unfold toknext, pushed. cbn. rewrite length_app. simpl. lia. Qed.

Lemma parse_primitive_wp p c :
  inv num (Z.of_nat (pos p)) p -> js_at js (pos p) = Some c -> ends_primitive c = false ->
  safe (jsmn_parse_primitive js num) (took p) p.
Proof.
  intros Hi (Hlt & Hc & r & Hr)%js_at_Some Hd. unfold jsmn_parse_primitive. apply wp_bind, wp_get.
  pose proof (strlen_drop (pos p) js) as Hl. rewrite Hr in *. cbn [strlen String.length] in Hl. simpl prim_end.
  destruct (Ascii.eqb_spec c NUL); [done|]. rewrite Hd. simpl.
  destruct (printable c); [|by apply wp_ret; split; [right; left|]].
  destruct (prim_end r (S (pos p))) as [e|] eqn:He; [|by apply wp_ret; split; [right; left|]].
  apply prim_end_bounds in He. unfold wp, bind. rewrite leaf_token_eq.
  destruct (Nat.leb_spec num (toknext p)); [split; [by left|done]|].
  unfold set_pos, modify, ret, took. cbn -[pushed]. fold (strlen r) in Hl.
  split; [lia|]. split; [|apply toknext_pushed].
  replace (Z.of_nat (pred e) + 1) with (Z.of_nat e) by lia.
  apply (inv_pos _ _ (pushed _ _ _)). eapply leaf_inv; try done; lia.
Qed.

Lemma parse_string_wp p c :
  inv num (Z.of_nat (pos p)) p -> js_at js (pos p) = Some c -> safe (jsmn_parse_string js num) (took p) p.
Proof.
  intros Hi (Hlt & _)%js_at_Some. unfold jsmn_parse_string. apply wp_bind, wp_get.
  pose proof (strlen_drop (S (pos p)) js) as Hl.
  destruct (str_end _ _ 0) as [e|e] eqn:He.
  - apply str_end_bounds in He. unfold wp, bind. rewrite leaf_token_eq.
    destruct (Nat.leb_spec num (toknext p)); [split; [by left|done]|].
    unfold set_pos, modify, ret, took. cbn -[pushed strlen].
    split; [lia|]. split; [|apply toknext_pushed].
    apply (inv_pos _ _ (pushed _ _ _)). eapply (leaf_inv (Z.of_nat (pos p))); try done; lia.
  - apply wp_ret. assert (jsmn_error e) as Herr by (right; by eapply str_end_error).
    unfold took. destruct Herr as [-> | [-> | ->]]; (split; [unfold jsmn_error; tauto|done]).
Qed.

Lemma bumped_next p : toknext (bumped p) = toknext p.
Proof. unfold toknext, bumped. cbn. apply bump_length. Qed.

(** A value and its count in the super token. *)
Lemma value_wp (m : M jsmn_parser Z) p :
  safe m (took p) p ->
  safe (let! r := m in if r <? 0 then ret (inl r) else bump_super ;; ret (inr 1))
    (fun r p' => match r with
                 | inl e => jsmn_error e /\ (toknext p' <= num)%nat
                 | inr k => (pos p <= pos p' < strlen js)%nat /\ inv num (Z.of_nat (pos p') + 1) p' /\
                            Z.of_nat (toknext p') = Z.of_nat (toknext p) + k
                 end) p \/ (num < toknext p)%nat.
Proof.
  intros Hm. destruct (decide (toknext p <= num)%nat) as [Hn|]; [left|right; lia].
  apply wp_bind. eapply wp_mono; [exact Hm|]. intros r p' Ht. unfold took in Ht.
  destruct (r <? 0); [destruct Ht as [? ->]; by apply wp_ret|]. destruct Ht as (Hpos & Hi & Hc).
  unfold wp. rewrite (bind_Ret _ _ _ _ _ (bump_super_eq _ (i_super _ _ _ Hi))). cbn -[bumped toknext].
  split; [done|]. rewrite bumped_next. split; [by apply inv_bumped|lia].
Qed.

Definition next_char p (r : Z + Z) p' : Prop :=
  match r with
  | inl e => jsmn_error e /\ (toknext p' <= num)%nat
  | inr k => (pos p <= pos p' < strlen js)%nat /\ inv num (Z.of_nat (pos p') + 1) p' /\
             Z.of_nat (toknext p') = Z.of_nat (toknext p) + k
  end.

Lemma next_value m p : inv num (Z.of_nat (pos p)) p -> safe m (took p) p ->
  safe (let! r := m in if r <? 0 then ret (inl r) else bump_super ;; ret (inr 1)) (next_char p) p.
Proof. intros Hi Hm. destruct (value_wp m p Hm) as [?|Hn]; [done|]. pose proof (i_room _ _ _ Hi). lia. Qed.

Lemma next_open ty p : inv num (Z.of_nat (pos p)) p -> (pos p < strlen js)%nat -> is_container ty = true ->
  safe (let! ok := open_container num ty in ret (if ok : bool then inr 1 else inl JSMN_ERROR_NOMEM)) (next_char p) p.
Proof.
  intros Hi Hlt Hty. unfold wp, bind. rewrite (open_container_eq _ _ (i_super _ _ _ Hi)).
  destruct (Nat.leb_spec num (toknext p)); cbn -[pushed bumped toknext].
  - split; [by left|by eapply i_room].
  - rewrite toknext_pushed, bumped_next. split; [cbn; lia|]. split; [|lia].
    eapply (inv_push (Z.of_nat (pos p)));
      [by apply inv_bumped|rewrite bumped_next; lia|cbn; lia| |done|cbn; lia|right; by rewrite bumped_next].
    rewrite bumped_next. split; cbn; [intros j Hj; by eapply i_super|lia|done].
Qed.

Lemma next_close ty p : inv num (Z.of_nat (pos p)) p -> (pos p < strlen js)%nat ->
  safe (let! ok := close_container ty in ret (if ok : bool then inr 0 else inl JSMN_ERROR_INVAL)) (next_char p) p.
Proof.
  intros Hi Hlt. unfold close_container. apply wp_bind, wp_bind, wp_get.
  destruct (toknext p) as [|i] eqn:En; [split; [by right; left|lia]|].
  eapply wp_mono; [eapply (close_from_wp (S i) ty i p Hi)|]; [lia|lia| |].
  - intros k v Hk Hv. replace i with (pred (toknext p)) by lia. by eapply i_open_last.
  - intros ok p' (Hi' & Hp & Hn). pose proof (i_room _ _ _ Hi').
    destruct ok; apply wp_ret; [|split; [by right; left|done]].
    split; [lia|]. split; [by rewrite Hp|lia].
Qed.

(** Moving the super token to one whose ancestors include the old one's. *)
Lemma inv_super h p o : inv num h p -> (forall s, o = Some s -> (s < toknext p)%nat) ->
  (forall i t, toks p !! i = Some t -> t_end t = -1 -> exists s, o = Some s /\ up (toks p) s i) ->
  inv num h (p <| toksuper := o |>).
Proof. intros [] Ho Hu. by split. Qed.

Lemma next_same p p' : inv num (Z.of_nat (pos p)) p' -> pos p' = pos p -> toknext p' = toknext p ->
  (pos p < strlen js)%nat -> next_char p (inr 0) p'.
Proof. intros Hi Hp Hn Hlt. split; [lia|]. rewrite Hp. split; [by eapply inv_horizon; [|exact Hi]; lia|lia]. Qed.

Lemma after_comma_wp p : inv num (Z.of_nat (pos p)) p -> (pos p < strlen js)%nat ->
  safe (after_comma ;; ret (inr 0)) (next_char p) p.
Proof.
  intros Hi Hlt. unfold after_comma. apply wp_bind, wp_bind, wp_get.
  destruct (toksuper p) as [s|] eqn:Es; [|by apply wp_ret, next_same].
  destruct (lookup_lt_is_Some_2 (toks p) s) as [t Ht]; [by eapply i_super|].
  unfold wp, bind. rewrite (get_tok_eq _ _ _ Ht). destruct (is_container (t_type t)) eqn:Ety; [by apply next_same|].
  change (next_char p (inr 0) (p <| toksuper := t_parent t |>)).
  apply next_same; try done. apply inv_super; [done| |].
  - intros j Hj. pose proof (i_super _ _ _ Hi _ Es). apply (ok_parent _ _ _ (i_toks _ _ _ Hi _ _ Ht)) in Hj. lia.
  - intros i v Hv He. destruct (i_open_super _ _ _ Hi _ _ Hv He) as (s' & Hs' & Hu).
    assert (s' = s) as -> by congruence. inversion Hu as [|? j ? t' Ht' Hj Hji]; subst.
    + destruct (i_toks _ _ _ Hi _ _ Ht) as [_ _ Hend]. assert (v = t) as -> by congruence. rewrite He in Hend. cbn in Hend. congruence.
    + exists j. split; [congruence|done].
Qed.

Lemma jsmn_char_wp c p :
  inv num (Z.of_nat (pos p)) p -> js_at js (pos p) = Some c -> safe (jsmn_char js num c) (next_char p) p.
Proof.
  intros Hi Hc. pose proof (js_at_Some _ _ _ Hc) as (Hlt & _). unfold jsmn_char.
  destruct (Ascii.eqb c "{" || Ascii.eqb c "[") eqn:E1; [by apply next_open; [..|destruct (Ascii.eqb c "{")]|].
  destruct (Ascii.eqb c "}" || Ascii.eqb c "]") eqn:E2; [by apply next_close|].
  destruct (Ascii.eqb c QUOTE); [by eapply next_value, parse_string_wp|].
  destruct (one_of BLANKS c) eqn:E3; [by apply wp_ret, next_same|].
  destruct (Ascii.eqb c ":") eqn:E4.
  - unfold wp, bind, modify, ret. apply next_same; try done. apply inv_super; [done| |].
    + intros s. destruct (toknext p); [done|]. intros [= <-]. lia.
    + intros i t Ht He. pose proof (i_open_last _ _ _ Hi _ _ Ht He) as Hu. apply lookup_lt_Some in Ht.
      unfold toknext in *. destruct (length (toks p)); [lia|]. by exists n.
  - destruct (Ascii.eqb c ",") eqn:E5; [by apply after_comma_wp|].
    eapply next_value; [done|]. eapply parse_primitive_wp; [done..|]. unfold ends_primitive. rewrite E3, E4.
    apply orb_false_iff in E2 as [E2 E2']. unfold one_of, is_delim. cbn [strchr].
    rewrite !(Ascii.eqb_sym _ c), E2, E2', E5. done.
Qed.

(** ** The whole text *)

Definition parsed (n : Z) p : Prop :=
  (toknext p <= num)%nat /\
  (jsmn_error n \/ (n = Z.of_nat (toknext p) /\ inv num (Z.of_nat (strlen js)) p /\
                    forall i t, toks p !! i = Some t -> t_end t <> -1)).

Lemma jsmn_loop_wp fuel p :
  inv num (Z.of_nat (pos p)) p -> (pos p <= strlen js)%nat -> (strlen js <= fuel + pos p)%nat ->
  safe (jsmn_loop js num fuel (Z.of_nat (toknext p))) parsed p.
Proof.
  revert p. induction fuel as [|f IH]; intros p Hi Hp Hf; cbn [jsmn_loop]; apply wp_bind, wp_get;
    (destruct (js_at js (pos p)) as [c|] eqn:Hc;
     [|apply wp_ret; split; [by eapply i_room|];
       destruct (existsb tok_open (toks p)) eqn:Eo; [left; right; by right|right]]).
  1: by apply js_at_Some in Hc as [? _]; lia.
  1, 3: split_and!; [done|by eapply inv_horizon; [|exact Hi]; lia|];
    intros i t Ht He; assert (Ho : tok_open t = true) by
      (rewrite (tok_open_ok _ _ _ (i_toks _ _ _ Hi _ _ Ht)); by apply Z.eqb_eq);
    apply not_true_iff_false in Eo; apply Eo, existsb_exists; exists t; split; [|done];
    by eapply list_elem_of_In, list_elem_of_lookup_2.
  apply wp_bind. eapply wp_mono; [by eapply jsmn_char_wp|]. intros [e|k] p' Hn; unfold next_char in Hn.
  - destruct Hn. apply wp_ret. split; [done|by left].
  - destruct Hn as (Hpos & Hi' & Hk). apply wp_bind, wp_modify. rewrite <- Hk.
    change (toknext p') with (toknext (p' <| pos ::= S |>)). apply IH; cbn; [|lia|lia].
    rewrite Nat2Z.inj_succ. by apply (inv_pos _ _ p').
Qed.
End Safe.

(** What the tokens of a successful parse are: slices of the text, in its order,
    each one after or inside an earlier one, the parents before their children. *)
Definition well_nested (js : string) (ts : list jsmntok) : Prop :=
  (forall i t, ts !! i = Some t ->
     0 <= t_start t <= t_end t /\ t_end t <= Z.of_nat (strlen js) /\
     forall j, t_parent t = Some j -> (j < i)%nat) /\
  (forall i j t u, ts !! i = Some t -> ts !! j = Some u -> (i < j)%nat ->
     t_start t < t_start u /\ (t_end t <= t_start u \/ t_end u <= t_end t)).

Lemma inv_init num : inv num 0 jsmn_init.
Proof. split; cbn; try done. unfold toknext. simpl. lia. Qed.

Lemma jsmn_run_safe {St} js num (s : St) :
  safe (jsmn_run js num)
    (fun r s' => s' = s /\ (length r.2 <= num)%nat /\
                 (jsmn_error r.1 \/ (r.1 = Z.of_nat (length r.2) /\ well_nested js r.2))) s.
Proof.
  unfold jsmn_run. apply wp_zoom, wp_bind. unfold jsmn_parse. apply wp_bind, wp_get.
  eapply wp_mono; [apply jsmn_loop_wp; [exact (inv_init num)|simpl; lia..]|].
  intros n p [Hn Hr]. apply wp_bind, wp_get, wp_ret. cbn. split_and!; [done..|].
  destruct Hr as [?|(-> & Hi & Hc)]; [by left|right]. split; [done|]. split.
  - intros i t Ht. destruct (i_toks _ _ _ Hi _ _ Ht) as [Hp Hs He].
    apply Hc, Z.eqb_neq in Ht. rewrite Ht in He. split_and!; [lia..|done].
  - intros i j t u Ht Hu Hij. destruct (i_nest _ _ _ Hi _ _ _ _ Ht Hu Hij) as [Hs He].
    apply Hc in Ht. split; [done|]. naive_solver.
Qed.

(** A parse never faults, and leaves the state alone. *)
Lemma jsmn_run_ret {St} js num : exists r, forall s : St, jsmn_run js num s = Ret r s.
Proof.
  assert (Hr : safe (jsmn_run js num) (fun _ _ => True) tt)
    by (eapply wp_mono; [apply jsmn_run_safe|done]).
  apply safe_ret in Hr as (r & [] & Hr & _). exists r. intros s. revert Hr. unfold jsmn_run, zoom.
  destruct (bind _ _ jsmn_init); congruence.
Qed.

Lemma always_jsmn_run {St} F js num : always (S := St) F (jsmn_run js num).
Proof. intros s. destruct (jsmn_run_ret (St := St) js num) as [r Hr]. unfold wp. by rewrite Hr. Qed.

Lemma wp_jsmn_run {St} F js num (Q : Z * list jsmntok -> St -> Prop) s :
  (forall r, Q r s) -> wp F (jsmn_run js num) Q s.
Proof. intros HQ. destruct (jsmn_run_ret (St := St) js num) as [r Hr]. unfold wp. rewrite Hr. apply HQ. Qed.

(** C29: for every text and every number of tokens the tokenizer ends, without
    touching a token it has not allocated; it answers an error, or the number of
    tokens it wrote, and these are slices of the text in its order, each inside or
    after the earlier ones. *)
Theorem jsmn_tokens_nest {St} js num (s : St) :
  exists n ts, jsmn_run js num s = Ret (n, ts) s /\ (length ts <= num)%nat /\
               (jsmn_error n \/ (n = Z.of_nat (length ts) /\ well_nested js ts)).
Proof.
  pose proof (jsmn_run_safe js num s) as Hr. apply safe_ret in Hr as ([n ts] & s' & E & -> & Hl & Ho). by exists n, ts.
Qed.

#[export] Hint Resolve always_jsmn_run : tame.
