(* ===== verification/JsonText.v ===== *)
(** * The tokenizer inverts the printer

    JSON trees, their text, and the tokens of that text; parsing the text gives
    exactly these tokens. *)
From S2P Require Import Prelude CStr Decimals Jsmn JsmnSpec.
Open Scope Z_scope.
Open Scope dfx_scope.

#[warnings="-register-all"]
Inductive json : Type :=
  | JStr (s : string)
  | JPrim (s : string)                       (* a number, true, false, null *)
  | JArr (l : list json)
  | JObj (l : list (string * json)).

(** Induction with the nested lists. *)
Section JsonInd.
Variable P : json -> Prop.
Hypothesis Hstr : forall s, P (JStr s).
Hypothesis Hprim : forall s, P (JPrim s).
Hypothesis Harr : forall l, Forall P l -> P (JArr l).
Hypothesis Hobj : forall l, Forall (fun kv => P (snd kv)) l -> P (JObj l).
Fixpoint json_nested_ind (v : json) : P v :=
  match v with
  | JStr s => Hstr s
  | JPrim s => Hprim s
  | JArr l => Harr l (list_rect (Forall P) (Forall_nil_2 _)
                        (fun x t IH => Forall_cons_2 _ _ _ (json_nested_ind x) IH) l)
  | JObj l => Hobj l (list_rect (Forall (fun kv => P (snd kv))) (Forall_nil_2 _)
                        (fun x t IH => Forall_cons_2 _ _ _ (json_nested_ind (snd x)) IH) l)
  end.
End JsonInd.

(** ** Text *)

Definition quoted (s : string) : string := String QUOTE (s ++ String QUOTE "").

(** A string without quotes, escapes or NUL; a primitive. *)
Fixpoint all_chars (f : ascii -> bool) (s : string) : bool :=
  match s with EmptyString => true | String c r => f c && all_chars f r end.
Definition plain_char (c : ascii) : bool :=
  negb (Ascii.eqb c NUL || Ascii.eqb c QUOTE || Ascii.eqb c BACKSLASH).
Definition prim_char (c : ascii) : bool :=
  printable c && negb (ends_primitive c).
Definition starts_prim (s : string) : bool :=
  match s with EmptyString => false | String c _ => negb (one_of (String QUOTE "{}[]") c) end.

Fixpoint printed_ok (v : json) : bool :=
  match v with
  | JStr s => all_chars plain_char s
  | JPrim s => all_chars prim_char s && starts_prim s
  | JArr l => forallb printed_ok l
  | JObj l => forallb (fun kv => all_chars plain_char (fst kv) && printed_ok (snd kv)) l
  end.

Section Text.
(** The white space that is put after every punctuation mark and value. *)
Variable ws : string.

(** [x1 ws , ws x2 ws , ... ws xn ws]. *)
Fixpoint commas (l : list string) : string :=
  match l with
  | [] => ""
  | [x] => x ++ ws
  | x :: l => x ++ ws ++ "," ++ ws ++ commas l
  end.

Fixpoint print (v : json) : string :=
  match v with
  | JStr s => quoted s
  | JPrim s => s
  | JArr l => "[" ++ ws ++ commas (map print l) ++ "]"
  | JObj l => "{" ++ ws ++ commas (map (fun kv => quoted (fst kv) ++ ws ++ ":" ++ ws ++ print (snd kv)) l) ++ "}"
  end.

(** ** Tokens *)

Fixpoint ntoks (v : json) : nat :=
  match v with
  | JStr _ | JPrim _ => 1
  | JArr l => S (list_sum (map ntoks l))
  | JObj l => S (list_sum (map (fun kv => S (ntoks (snd kv))) l))
  end.

(** The tokens of the value printed at [i], numbered from [n]. *)
Fixpoint toks_of (v : json) (i n : nat) (par : option nat) : list jsmntok :=
  let span := Z.of_nat (i + strlen (print v)) in
  match v with
  | JStr s => [Tok JSMN_STRING (Z.of_nat (S i)) (Z.of_nat (S i + strlen s)) 0 par]
  | JPrim s => [Tok JSMN_PRIMITIVE (Z.of_nat i) span 0 par]
  | JArr l =>
      Tok JSMN_ARRAY (Z.of_nat i) span (Z.of_nat (length l)) par ::
      (fix elems l i m :=
         match l with
         | [] => []
         | v :: l => (toks_of v i m (Some n) ++
                      elems l (i + strlen (print v) + strlen ws + 1 + strlen ws)%nat (m + ntoks v)%nat)%list
         end) l (i + 1 + strlen ws)%nat (S n)
  | JObj l =>
      Tok JSMN_OBJECT (Z.of_nat i) span (Z.of_nat (length l)) par ::
      (fix members l i m :=
         match l with
         | [] => []
         | (k, v) :: l =>
             let j := (i + (strlen k + 2) + strlen ws + 1 + strlen ws)%nat in
             Tok JSMN_STRING (Z.of_nat (S i)) (Z.of_nat (S i + strlen k)) 1 (Some n) ::
             (toks_of v j (S m) (Some m) ++
              members l (j + strlen (print v) + strlen ws + 1 + strlen ws)%nat (S m + ntoks v)%nat)%list
         end) l (i + 1 + strlen ws)%nat (S n)
  end.
End Text.

(** ** The tokens of an array's and of an object's children *)

Section Children.
Variable ws : string.
Implicit Types (i n m : nat).

(** Where the text goes on after a child and its comma. *)
Definition after_item (i : nat) (v : json) : nat := (i + strlen (print ws v) + strlen ws + 1 + strlen ws)%nat.
Definition after_key (i : nat) (k : string) : nat := (i + (strlen k + 2) + strlen ws + 1 + strlen ws)%nat.

Definition arr_toks n : list json -> nat -> nat -> list jsmntok :=
  fix elems l i m :=
    match l with
    | [] => []
    | v :: l => (toks_of ws v i m (Some n) ++ elems l (after_item i v) (m + ntoks v)%nat)%list
    end.
Definition key_tok (i n : nat) (k : string) : jsmntok :=
  Tok JSMN_STRING (Z.of_nat (S i)) (Z.of_nat (S i + strlen k)) 1 (Some n).
Definition obj_toks n : list (string * json) -> nat -> nat -> list jsmntok :=
  fix members l i m :=
    match l with
    | [] => []
    | (k, v) :: l =>
        key_tok i n k ::
        (toks_of ws v (after_key i k) (S m) (Some m) ++
         members l (after_item (after_key i k) v) (S m + ntoks v)%nat)%list
    end.

Lemma toks_of_arr l i n par :
  toks_of ws (JArr l) i n par =
  Tok JSMN_ARRAY (Z.of_nat i) (Z.of_nat (i + strlen (print ws (JArr l)))) (Z.of_nat (length l)) par ::
  arr_toks n l (i + 1 + strlen ws) (S n).
Proof. done. Qed.
Lemma toks_of_obj l i n par :
  toks_of ws (JObj l) i n par =
  Tok JSMN_OBJECT (Z.of_nat i) (Z.of_nat (i + strlen (print ws (JObj l)))) (Z.of_nat (length l)) par ::
  obj_toks n l (i + 1 + strlen ws) (S n).
Proof. done. Qed.

(** The children of the token numbered [n], from [m] on: closed, with a parent
    that is [n] or one of them. *)
Definition below (n m : nat) (l : list jsmntok) : Prop :=
  forall j u, l !! j = Some u -> t_end u <> -1 /\ exists k, t_parent u = Some k /\ (n <= k < m + j)%nat.

Lemma below_app n m l r : below n m l -> below n (m + length l) r -> below n m (l ++ r).
Proof.
  intros Hl Hr j u [Hu|[Hj Hu]]%lookup_app_Some; [by apply Hl|].
  destruct (Hr _ _ Hu) as (He & k & Hk & ?). split; [done|]. exists k. split; [done|lia].
Qed.
Lemma below_cons n m u l k : t_end u <> -1 -> t_parent u = Some k -> (n <= k < m)%nat -> below n (S m) l -> below n m (u :: l).
Proof.
  intros He Hk Hkm Hl [|j] v Hv; simpl in Hv.
  - injection Hv as <-. split; [done|]. exists k. split; [done|lia].
  - destruct (Hl _ _ Hv) as (? & k' & ? & ?). split; [done|]. exists k'. split; [done|lia].
Qed.
Lemma below_nil n m : below n m [].
Proof. by intros j u ?. Qed.
Lemma below_le n n' m l : (n <= n')%nat -> below n' m l -> below n m l.
Proof. intros Hn Hl j u Hu. destruct (Hl _ _ Hu) as (? & k & ? & ?). split; [done|]. exists k. split; [done|lia]. Qed.

Definition shaped (v : json) : Prop := forall i n par,
  length (toks_of ws v i n par) = ntoks v /\
  forall q, par = Some q -> (q < n)%nat -> below q n (toks_of ws v i n par).

Lemma arr_shape l n : Forall shaped l -> forall i m, (n < m)%nat ->
  length (arr_toks n l i m) = list_sum (map ntoks l) /\ below n m (arr_toks n l i m).
Proof.
  induction 1 as [|v l Hv _ IH]; intros i m Hm; [split; [done|apply below_nil]|].
  destruct (Hv i m (Some n)) as [Hlen Hb]. destruct (IH (after_item i v) (m + ntoks v)%nat ltac:(lia)) as [Hlen' Hb'].
  cbn [arr_toks map]. simpl. rewrite length_app, Hlen, Hlen'. split; [done|].
  apply below_app; [by apply Hb|by rewrite Hlen].
Qed.

Lemma obj_shape l n : Forall (fun kv => shaped (snd kv)) l -> forall i m, (n < m)%nat ->
  length (obj_toks n l i m) = list_sum (map (fun kv => S (ntoks (snd kv))) l) /\ below n m (obj_toks n l i m).
Proof.
  induction 1 as [|[k v] l Hv _ IH]; intros i m Hm; [split; [done|apply below_nil]|]. simpl in Hv.
  destruct (Hv (after_key i k) (S m) (Some m)) as [Hlen Hb].
  destruct (IH (after_item (after_key i k) v) (S (m + ntoks v))%nat ltac:(lia)) as [Hlen' Hb'].
  cbn [obj_toks map]. simpl. rewrite length_app, Hlen, Hlen'. split; [done|].
  eapply below_cons; [simpl; lia|done|lia|]. apply below_app; [|by rewrite Hlen].
  eapply below_le; [|apply Hb; [done|lia]]. lia.
Qed.

Lemma toks_of_shape v : shaped v.
Proof.
  induction v as [s|s|l IH|l IH] using json_nested_ind; intros i n par.
  1, 2: (split; [done|]; intros q -> Hq; eapply below_cons; [simpl; lia|done|lia|apply below_nil]).
  - rewrite toks_of_arr. destruct (arr_shape l n IH (i + 1 + strlen ws)%nat (S n) ltac:(lia)) as [Hlen Hb].
    split; [simpl; by rewrite Hlen|].
    intros q -> Hq. eapply below_cons; [simpl; lia|done|lia|]. eapply below_le; [|exact Hb]. lia.
  - rewrite toks_of_obj. destruct (obj_shape l n IH (i + 1 + strlen ws)%nat (S n) ltac:(lia)) as [Hlen Hb].
    split; [simpl; by rewrite Hlen|].
    intros q -> Hq. eapply below_cons; [simpl; lia|done|lia|]. eapply below_le; [|exact Hb]. lia.
Qed.

Lemma arr_toks_below l i n : below n (S n) (arr_toks n l i (S n)).
Proof. apply arr_shape; [|lia]. apply Forall_true, toks_of_shape. Qed.
Lemma obj_toks_below l i n : below n (S n) (obj_toks n l i (S n)).
Proof. apply obj_shape; [|lia]. apply Forall_true. intros. apply toks_of_shape. Qed.
End Children.

(** ** Runs of the tokenizer over a piece of text *)

Lemma str_drop_plus m n s : str_drop (m + n) s = str_drop n (str_drop m s).
Proof. revert s. induction m as [|m IH]; intros [|c s]; simpl; [done..| |apply IH]. by destruct n. Qed.
Lemma str_drop_past i s a b : str_drop i s = (a ++ b)%string -> str_drop (i + strlen a) s = b.
Proof. intros E. by rewrite str_drop_plus, E, str_drop_app. Qed.

Section Runs.
Variable js : string.
Variable num : nat.
Implicit Types p q : jsmn_parser.

(** From [p] the loop comes to [q] and has counted [k] tokens more, in no more
    turns than characters. *)
Definition goes p (k : Z) q : Prop :=
  exists d, (d + pos p <= pos q)%nat /\
            forall f c, jsmn_loop js num (d + f) c p = jsmn_loop js num f (c + k) q.

Lemma goes_refl p : goes p 0 p.
Proof. exists 0%nat. split; [done|]. intros f c. by rewrite Z.add_0_r. Qed.
Lemma goes_trans p k q m r n : goes p k q -> goes q m r -> n = k + m -> goes p n r.
Proof.
  intros (d & Hd & E) (d' & Hd' & E') ->. exists (d + d')%nat. split; [lia|].
  intros f c. by rewrite <- Nat.add_assoc, E, E', Z.add_assoc.
Qed.
Lemma goes_eq p k q k' q' : goes p k q -> k = k' -> q = q' -> goes p k' q'.
Proof. by intros ? <- <-. Qed.

Lemma goes_char p c r k q : str_drop (pos p) js = String c r -> c <> NUL ->
  jsmn_char js num c p = Ret (inr k) q -> (pos p <= pos q)%nat -> goes p k (q <| pos ::= S |>).
Proof.
  intros Hc Hn E Hpos. exists 1%nat. split; [cbn; lia|]. intros f n. cbn [jsmn_loop Nat.add].
  unfold bind at 1, get. rewrite js_at_drop, Hc. destruct (Ascii.eqb_spec c NUL); [done|].
  unfold bind. rewrite E. done.
Qed.

Definition blank : string -> bool := all_chars (one_of BLANKS).

Lemma one_of_cases s c : one_of s c = true -> exists i, strchr s c = Some i.
Proof. unfold one_of, is_delim. destruct (strchr s c) as [i|]; [by exists i|done]. Qed.

Lemma blank_cases c : one_of BLANKS c = true ->
  c = "009"%char \/ c = "013"%char \/ c = "010"%char \/ c = " "%char.
Proof.
  intros [i Hi]%one_of_cases. revert Hi. unfold BLANKS. cbn [strchr].
  destruct (Ascii.eqb_spec "009" c) as [<-|]; [tauto|]. destruct (Ascii.eqb_spec "013" c) as [<-|]; [tauto|].
  destruct (Ascii.eqb_spec "010" c) as [<-|]; [tauto|]. destruct (Ascii.eqb_spec " " c) as [<-|]; [tauto|]. done.
Qed.

Lemma goes_blanks w i o l t : blank w = true -> str_drop i js = (w ++ t)%string ->
  goes (Parser i o l) 0 (Parser (i + strlen w) o l).
Proof.
  revert i. induction w as [|c w IH]; intros i Hb Hd; [rewrite Nat.add_0_r; apply goes_refl|].
  apply andb_true_iff in Hb as [Hc Hb]. rewrite app_cons_str in Hd.
  eapply (goes_trans _ 0 (Parser (S i) o l) 0); [| |done].
  - apply (goes_char (Parser i o l) c (w ++ t) 0 (Parser i o l)); try done.
    + by apply blank_cases in Hc as [-> | [-> | [-> | ->]]].
    + by apply blank_cases in Hc as [-> | [-> | [-> | ->]]].
  - eapply goes_eq; [apply (IH (S i)); [done|]|done|].
    + replace (S i) with (i + strlen (String c ""))%nat by (simpl; lia). by apply str_drop_past.
    + simpl. f_equal. lia.
Qed.

(** ** Strings and primitives *)

Lemma str_end_plain a t i : all_chars plain_char a = true ->
  str_end (a ++ String QUOTE t) i 0 = inl (i + strlen a)%nat.
Proof.
  revert i. induction a as [|c a IH]; intros i Ha; [simpl; f_equal; lia|].
  apply andb_true_iff in Ha as [Hc Ha]. apply negb_true_iff, orb_false_iff in Hc as [Hc Hb].
  apply orb_false_iff in Hc as [Hn Hq]. rewrite app_cons_str. cbn [str_end]. rewrite Hn, Hq, Hb, IH by done.
  simpl. f_equal. lia.
Qed.

(** What may follow a primitive. *)
Definition ended (t : string) : Prop :=
  match t with EmptyString => True | String c _ => ends_primitive c = true end.

Lemma prim_end_plain a t i : all_chars prim_char a = true -> ended t -> prim_end (a ++ t) i = Some (i + strlen a)%nat.
Proof.
  intros Ha Ht. revert i Ha. induction a as [|c a IH]; intros i Ha.
  - rewrite app_nil_l_str. destruct t as [|c t]; simpl in *; [f_equal; lia|]. rewrite Ht, orb_true_r. f_equal. lia.
  - apply andb_true_iff in Ha as [Hc Ha]. apply andb_true_iff in Hc as [Hc He]. apply negb_true_iff in He.
    rewrite app_cons_str. cbn [prim_end]. rewrite He, Hc.
    destruct (Ascii.eqb_spec c NUL) as [->|]; [done|]. simpl. rewrite IH by done. f_equal. lia.
Qed.

(** A leaf that the loop reads: the parser of the value leaves it pushed. *)
Lemma value_run (m : M jsmn_parser Z) p u j :
  super_ok p -> m p = Ret 0 (pushed u (toksuper p) p <| pos := j |>) ->
  bind m (fun r => if r <? 0 then ret (inl r) else bump_super ;; ret (inr 1)) p =
  Ret (inr 1) (Parser j (toksuper p) (bump (toksuper p) (toks p) ++ [u])).
Proof.
  intros Hs Hm. rewrite (bind_Ret _ _ _ _ _ Hm). simpl. rewrite (bind_Ret _ _ _ tt (bumped (pushed u (toksuper p) p <| pos := j |>))).
  - unfold ret, bumped, pushed. cbn. by rewrite bump_app.
  - apply bump_super_eq. intros s Hs'. cbn in Hs'. apply Hs in Hs'. unfold toknext in *. cbn. rewrite length_app. lia.
Qed.

Lemma goes_string i o l a t :
  str_drop i js = (quoted a ++ t)%string -> all_chars plain_char a = true ->
  super_ok (Parser i o l) -> (length l < num)%nat ->
  goes (Parser i o l) 1 (Parser (i + strlen (quoted a)) o
         (bump o l ++ [Tok JSMN_STRING (Z.of_nat (S i)) (Z.of_nat (S i + strlen a)) 0 o])).
Proof.
  intros Hd Ha Hs Hn. unfold quoted in Hd. rewrite app_cons_str, app_assoc_str, app_cons_str, app_nil_l_str in Hd.
  eapply goes_eq; [eapply (goes_char _ QUOTE _ 1); [exact Hd|done| |]|done|].
  - change (jsmn_char js num QUOTE) with
      (bind (jsmn_parse_string js num) (fun r => if r <? 0 then ret (inl r) else bump_super ;; ret (inr 1))).
    apply (value_run _ (Parser i o l) (Tok JSMN_STRING (Z.of_nat (S i)) (Z.of_nat (S i + strlen a)) 0 o)
             (S i + strlen a)); [done|].
    assert (Hd' : str_drop (S i) js = (a ++ String QUOTE t)%string).
    { replace (S i) with (i + strlen (String QUOTE ""))%nat by (simpl; lia). by apply str_drop_past. }
    unfold jsmn_parse_string, bind, get. cbn [pos]. rewrite Hd', str_end_plain, leaf_token_eq by done.
    destruct (Nat.leb_spec num (toknext (Parser i o l))); [unfold toknext in *; simpl in *; lia|done].
  - simpl. lia.
  - unfold quoted. simpl. fold (strlen (a ++ String QUOTE "")). rewrite strlen_app. simpl. f_equal. lia.
Qed.

Lemma goes_prim i o l a t :
  str_drop i js = (a ++ t)%string -> ended t -> all_chars prim_char a = true -> starts_prim a = true ->
  super_ok (Parser i o l) -> (length l < num)%nat ->
  goes (Parser i o l) 1 (Parser (i + strlen a) o
         (bump o l ++ [Tok JSMN_PRIMITIVE (Z.of_nat i) (Z.of_nat (i + strlen a)) 0 o])).
Proof.
  intros Hd Ht Ha Hst Hs Hn. destruct a as [|c a]; [done|]. pose proof Ha as Hc.
  apply andb_true_iff in Hc as [Hc _]. apply andb_true_iff in Hc as [Hp He]. apply negb_true_iff in He, Hst.
  eapply goes_eq; [eapply (goes_char _ c _ 1); [exact Hd| | |]|done|].
  - by intros ->.
  - assert (Hj : jsmn_char js num c =
      bind (jsmn_parse_primitive js num) (fun r => if r <? 0 then ret (inl r) else bump_super ;; ret (inr 1))).
    { revert He Hst. unfold ends_primitive, jsmn_char, one_of, is_delim. cbn [strchr].
      rewrite !(Ascii.eqb_sym _ c). unfold QUOTE. destruct (Ascii.eqb c ":"), (Ascii.eqb c "{"), (Ascii.eqb c "}"), (Ascii.eqb c "["), (Ascii.eqb c "]"),
        (Ascii.eqb c "034"), (Ascii.eqb c ","); try done.
      all: destruct (strchr BLANKS c); done. }
    rewrite Hj. apply (value_run _ (Parser i o l)
      (Tok JSMN_PRIMITIVE (Z.of_nat i) (Z.of_nat (i + strlen (String c a))) 0 o) (pred (i + strlen (String c a)))); [done|].
    unfold jsmn_parse_primitive, bind, get. cbn [pos]. rewrite Hd, prim_end_plain, leaf_token_eq by done.
    destruct (Nat.leb_spec num (toknext (Parser i o l))); [unfold toknext in *; simpl in *; lia|done].
  - simpl. lia.
  - simpl. f_equal. lia.
Qed.

(** ** Punctuation *)

Lemma goes_colon i o l u t : str_drop i js = String ":" t ->
  goes (Parser i o (l ++ [u])) 0 (Parser (S i) (Some (length l)) (l ++ [u])).
Proof.
  intros Hd. eapply goes_eq; [eapply (goes_char _ ":" _ 0); [exact Hd|done|done|]|done|]; [simpl; lia|].
  unfold toknext. cbn. rewrite length_app. simpl. by rewrite Nat.add_comm.
Qed.

Lemma goes_comma_in i n l u t : str_drop i js = String "," t ->
  l !! n = Some u -> is_container (t_type u) = true ->
  goes (Parser i (Some n) l) 0 (Parser (S i) (Some n) l).
Proof.
  intros Hd Hu Hc. eapply goes_eq; [eapply (goes_char _ "," _ 0 (Parser i (Some n) l)); [exact Hd|done| |]|done|done]; [|simpl; lia].
  change (jsmn_char js num ",") with (after_comma ;; ret (inr 0 : Z + Z)).
  unfold after_comma, bind, get. cbn [toksuper]. rewrite (get_tok_eq (Parser i (Some n) l) n u Hu). by rewrite Hc.
Qed.

Lemma goes_comma_up i m l u n t : str_drop i js = String "," t ->
  l !! m = Some u -> is_container (t_type u) = false -> t_parent u = Some n ->
  goes (Parser i (Some m) l) 0 (Parser (S i) (Some n) l).
Proof.
  intros Hd Hu Hc Hp. eapply goes_eq; [eapply (goes_char _ "," _ 0 (Parser i (Some n) l)); [exact Hd|done| |]|done|done]; [|simpl; lia].
  change (jsmn_char js num ",") with (after_comma ;; ret (inr 0 : Z + Z)).
  unfold after_comma, bind, get. cbn [toksuper]. rewrite (get_tok_eq (Parser i (Some m) l) m u Hu). by rewrite Hc, Hp.
Qed.

Definition opening (ty : jsmntype) : ascii := if bool_decide (ty = JSMN_OBJECT) then "{" else "[".
Definition closing (ty : jsmntype) : ascii := if bool_decide (ty = JSMN_OBJECT) then "}" else "]".

Lemma goes_open ty i o l t : ty = JSMN_OBJECT \/ ty = JSMN_ARRAY -> str_drop i js = String (opening ty) t ->
  super_ok (Parser i o l) -> (length l < num)%nat ->
  goes (Parser i o l) 1 (Parser (S i) (Some (length l)) (bump o l ++ [Tok ty (Z.of_nat i) (-1) 0 o])).
Proof.
  intros Hty Hd Hs Hn.
  eapply goes_eq; [eapply (goes_char (Parser i o l) (opening ty) _ 1
      (pushed (Tok ty (Z.of_nat i) (-1) 0 o) (Some (length l)) (bumped (Parser i o l)))); [exact Hd| | |]|done|done].
  - by destruct Hty as [-> | ->].
  - assert (Hj : jsmn_char js num (opening ty) =
              bind (open_container num ty) (fun ok => ret (if ok then inr 1 else inl JSMN_ERROR_NOMEM)))
      by (by destruct Hty as [-> | ->]).
    rewrite Hj. unfold bind. rewrite open_container_eq by done.
    destruct (Nat.leb_spec num (toknext (Parser i o l))); [unfold toknext in *; simpl in *; lia|done].
  - done.
Qed.

Lemma close_from_block ty i o l (c : jsmntok) r fuel m :
  below (length l) (S (length l)) r -> t_start c <> -1 -> t_end c = -1 -> t_type c = ty ->
  (length l <= m < S (length l) + length r)%nat -> (m < fuel)%nat ->
  close_from fuel ty m (Parser i o (l ++ c :: r)) =
  Ret true (Parser i (t_parent c) (l ++ c <| t_end := Z.of_nat i + 1 |> :: r)).
Proof.
  intros Hb Hs He Hty. revert m. induction fuel as [|f IH]; intros m Hm Hf; [lia|]. cbn [close_from].
  destruct (decide (m = length l)) as [->|Hne].
  - assert (Hc : (l ++ c :: r)%list !! length l = Some c) by (by apply list_lookup_middle).
    rewrite (bind_Ret _ _ _ _ _ (get_tok_eq (Parser i o (l ++ c :: r)) (length l) c Hc)).
    assert (tok_open c = true) as ->.
    { unfold tok_open. rewrite He. by apply Z.eqb_neq in Hs as ->. }
    rewrite bool_decide_eq_true_2 by done. simpl. unfold bind, get. rewrite (mod_tok_eq (Parser i o (l ++ c :: r)) (length l) c _ Hc).
    unfold set_super, modify, ret. cbn -[insert]. by rewrite insert_app_r_alt, Nat.sub_diag by lia.
  - destruct (lookup_lt_is_Some_2 r (m - S (length l))) as [u Hu]; [lia|].
    assert (Hc : (l ++ c :: r)%list !! m = Some u).
    { rewrite lookup_app_r by lia. destruct (m - length l)%nat as [|x] eqn:Ex; [lia|]. simpl. rewrite <- Hu. f_equal. lia. }
    rewrite (bind_Ret _ _ _ _ _ (get_tok_eq (Parser i o (l ++ c :: r)) m u Hc)).
    destruct (Hb _ _ Hu) as (Hue & k & Hk & Hkm).
    assert (tok_open u = false) as -> by (unfold tok_open; apply Z.eqb_neq in Hue as ->; apply andb_false_r).
    rewrite Hk. apply IH; lia.
Qed.

Lemma goes_close ty i o l c r t : ty = JSMN_OBJECT \/ ty = JSMN_ARRAY -> str_drop i js = String (closing ty) t ->
  below (length l) (S (length l)) r -> t_start c <> -1 -> t_end c = -1 -> t_type c = ty ->
  goes (Parser i o (l ++ c :: r)) 0
       (Parser (S i) (t_parent c) (l ++ c <| t_end := Z.of_nat i + 1 |> :: r)).
Proof.
  intros Hty Hd Hb Hs He Htc.
  eapply goes_eq; [eapply (goes_char _ (closing ty) _ 0
     (Parser i (t_parent c) (l ++ c <| t_end := Z.of_nat i + 1 |> :: r))); [exact Hd| | |]|done|done].
  - by destruct Hty as [-> | ->].
  - assert (Hj : jsmn_char js num (closing ty) =
              bind (close_container ty) (fun ok => ret (if ok then inr 0 else inl JSMN_ERROR_INVAL)))
      by (by destruct Hty as [-> | ->]).
    rewrite Hj. unfold close_container, bind, get. unfold toknext. cbn [toks]. rewrite length_app. cbn [length].
    rewrite Nat.add_succ_r. rewrite (close_from_block ty i o l c r); try done; lia.
  - done.
Qed.

(** ** Values *)

Section Values.
Variable ws : string.
Hypothesis ws_blank : blank ws = true.

Lemma ended_ws t : ended t -> ended (ws ++ t).
Proof.
  intros Ht. destruct ws as [|c w]; [done|]. apply andb_true_iff in ws_blank as [Hc _].
  simpl. by apply blank_cases in Hc as [-> | [-> | [-> | ->]]].
Qed.

Definition runs (v : json) : Prop := forall i o l t,
  str_drop i js = (print ws v ++ t)%string -> ended t -> printed_ok v = true ->
  super_ok (Parser i o l) -> (length l + ntoks v <= num)%nat ->
  goes (Parser i o l) (Z.of_nat (ntoks v))
       (Parser (i + strlen (print ws v)) o (bump o l ++ toks_of ws v i (length l) o)).

Lemma bump_at l u r : bump (Some (length l)) (l ++ u :: r) = (l ++ u <| t_size ::= fun n => n + 1 |> :: r)%list.
Proof. unfold bump. rewrite list_lookup_middle by done. by rewrite insert_app_r_alt, Nat.sub_diag by lia. Qed.

(** A value after white space, up to the white space that follows it. *)
Lemma value_ws v i o l t :
  runs v -> str_drop i js = (print ws v ++ ws ++ t)%string -> ended t -> printed_ok v = true ->
  super_ok (Parser i o l) -> (length l + ntoks v <= num)%nat ->
  goes (Parser i o l) (Z.of_nat (ntoks v))
       (Parser (i + strlen (print ws v) + strlen ws) o (bump o l ++ toks_of ws v i (length l) o)).
Proof.
  intros Hv Hd Ht Hok Hs Hn. eapply goes_trans; [apply (Hv _ _ _ _ Hd); try done; by apply ended_ws| |].
  - eapply goes_blanks; [done|]. by apply str_drop_past.
  - lia.
Qed.

Lemma comma_ws i o o' l t :
  str_drop i js = ("," ++ ws ++ t)%string -> goes (Parser i o l) 0 (Parser (S i) o' l) ->
  goes (Parser i o l) 0 (Parser (i + 1 + strlen ws) o' l).
Proof.
  intros Hd Hc. eapply goes_trans; [exact Hc| |done]. replace (i + 1)%nat with (S i) by lia.
  eapply goes_blanks; [done|]. replace (S i) with (i + strlen ",")%nat by (simpl; lia). by apply str_drop_past.
Qed.

Lemma super_at i n l : (n < length l)%nat -> super_ok (Parser i (Some n) l).
Proof. intros Hn s [= <-]. done. Qed.

Lemma runs_items l : Forall runs l -> forall i pre st par r k t, l <> [] ->
  str_drop i js = (commas ws (map (print ws) l) ++ String "]" t)%string -> forallb printed_ok l = true ->
  (length pre + 1 + length r + list_sum (map ntoks l) <= num)%nat ->
  goes (Parser i (Some (length pre)) (pre ++ Tok JSMN_ARRAY st (-1) k par :: r)) (Z.of_nat (list_sum (map ntoks l)))
       (Parser (i + strlen (commas ws (map (print ws) l))) (Some (length pre))
          (pre ++ Tok JSMN_ARRAY st (-1) (k + Z.of_nat (length l)) par :: r ++
           arr_toks ws (length pre) l i (length pre + 1 + length r))).
Proof.
  induction 1 as [|v l Hv _ IH]; intros i pre st par r k t Hne Hd Hok Hn; [done|]. clear Hne.
  apply andb_true_iff in Hok as [Hok Hoks]. simpl list_sum in Hn.
  set (x := Tok JSMN_ARRAY st (-1) k par) in *.
  assert (Hlen : length (pre ++ x :: r) = (length pre + 1 + length r)%nat) by (rewrite length_app; simpl; lia).
  assert (Hrest : exists u, commas ws (map (print ws) (v :: l)) = (print ws v ++ ws ++ u)%string /\
                  ended (u ++ String "]" t) /\ match l with [] => u = ""%string | _ => u = ("," ++ ws ++ commas ws (map (print ws) l))%string end).
  { destruct l as [|v' l]; [exists ""%string; by rewrite app_nil_r_str|by eexists]. }
  destruct Hrest as (u & Hu & Hend & Hl). rewrite Hu in Hd |- *. rewrite !app_assoc_str in Hd.
  assert (Hso : super_ok (Parser i (Some (length pre)) (pre ++ x :: r))) by (apply super_at; lia).
  assert (Hstep := value_ws v i (Some (length pre)) (pre ++ x :: r) _ Hv Hd Hend Hok Hso ltac:(lia)).
  rewrite bump_at, Hlen, <- app_assoc in Hstep.
  assert (Hd' : str_drop (i + strlen (print ws v) + strlen ws) js = (u ++ String "]" t)%string)
    by (by apply str_drop_past, str_drop_past).
  destruct l as [|v' l].
  - subst u. eapply goes_eq; [exact Hstep|simpl; lia|]. cbn [arr_toks length]. rewrite app_nil_r_str, app_nil_r, strlen_app.
    f_equal. lia.
  - subst u. rewrite !app_assoc_str in Hd'.
    set (ts := toks_of ws v i (length pre + 1 + length r) (Some (length pre))) in *.
    set (j := (i + strlen (print ws v) + strlen ws)%nat) in *.
    assert (Hj : str_drop (j + 1 + strlen ws) js = (commas ws (map (print ws) (v' :: l)) ++ String "]" t)%string)
      by (apply str_drop_past, (str_drop_past _ _ ","), Hd').
    assert (Hc := comma_ws j (Some (length pre)) (Some (length pre)) _ _ Hd'
                    (goes_comma_in j (length pre) (pre ++ (x <| t_size ::= fun n => n + 1 |> :: r) ++ ts) _ _ Hd'
                       (list_lookup_middle _ _ _ _ eq_refl) eq_refl)).
    destruct (toks_of_shape ws v i (length pre + 1 + length r)%nat (Some (length pre))) as [Hts _]. fold ts in Hts.
    assert (HIH := IH (j + 1 + strlen ws)%nat pre st par (r ++ ts)%list (k + 1) t ltac:(done) Hj Hoks
                     ltac:(rewrite length_app, Hts; lia)).
    eapply goes_eq; [eapply goes_trans; [exact Hstep|eapply goes_trans; [exact Hc|exact HIH|reflexivity]|reflexivity]|simpl; lia|].
    rewrite !strlen_app, length_app, Hts. cbn [arr_toks length]. fold ts. rewrite <- app_assoc. unfold after_item. fold j.
    replace (length pre + 1 + (length r + ntoks v))%nat with (length pre + 1 + length r + ntoks v)%nat by lia.
    f_equal; [unfold j; simpl; lia|]. do 3 f_equal. simpl. lia.
Qed.

(** One member of an object, up to the white space after its value. *)
Definition member_text (kv : string * json) : string := quoted (fst kv) ++ ws ++ ":" ++ ws ++ print ws (snd kv).
Definition member_ok (kv : string * json) : bool := all_chars plain_char (fst kv) && printed_ok (snd kv).

Lemma runs_member key v i pre u r t :
  runs v -> str_drop i js = (member_text (key, v) ++ ws ++ t)%string -> ended t ->
  all_chars plain_char key = true -> printed_ok v = true ->
  (length pre + 1 + length r + S (ntoks v) <= num)%nat ->
  let m := (length pre + 1 + length r)%nat in
  goes (Parser i (Some (length pre)) (pre ++ u :: r)) (1 + Z.of_nat (ntoks v))
       (Parser (i + strlen (member_text (key, v)) + strlen ws) (Some m)
          (pre ++ u <| t_size ::= fun n => n + 1 |> :: r ++
           key_tok i (length pre) key :: toks_of ws v (after_key ws i key) (S m) (Some m))).
Proof.
  intros Hv Hd Ht Hk Hok Hn m. unfold member_text in *. cbn [fst snd] in *. rewrite !app_assoc_str in Hd.
  assert (Hlen : forall y : jsmntok, length (pre ++ y :: r) = m) by (intros y; rewrite length_app; simpl; lia).
  set (kt := Tok JSMN_STRING (Z.of_nat (S i)) (Z.of_nat (S i + strlen key)) 0 (Some (length pre))).
  set (u' := u <| t_size ::= fun n => n + 1 |>).
  assert (Hs1 := goes_string i (Some (length pre)) (pre ++ u :: r) key _ Hd Hk
                   ltac:(apply super_at; rewrite length_app; simpl; lia) ltac:(rewrite Hlen; lia)).
  rewrite bump_at in Hs1. fold kt u' in Hs1. apply str_drop_past in Hd.
  set (i1 := (i + strlen (quoted key))%nat) in *.
  assert (Hs2 := goes_blanks ws i1 (Some (length pre)) ((pre ++ u' :: r) ++ [kt]) _ ws_blank Hd).
  apply str_drop_past in Hd. set (i2 := (i1 + strlen ws)%nat) in *.
  assert (Hs3 := goes_colon i2 (Some (length pre)) (pre ++ u' :: r) kt _ Hd). rewrite Hlen in Hs3.
  apply (str_drop_past _ _ ":") in Hd. replace (i2 + strlen ":")%nat with (S i2) in Hd by (simpl; lia).
  assert (Hs4 := goes_blanks ws (S i2) (Some m) ((pre ++ u' :: r) ++ [kt]) _ ws_blank Hd).
  apply str_drop_past in Hd. replace (S i2 + strlen ws)%nat with (after_key ws i key) in Hs4, Hd
    by (unfold after_key, i2, i1, quoted; simpl; fold (strlen (key ++ String QUOTE "")); rewrite strlen_app; simpl; lia).
  assert (Hln : length ((pre ++ u' :: r) ++ [kt]) = S m) by (rewrite length_app, Hlen; simpl; lia).
  assert (Hs5 := value_ws v _ (Some m) ((pre ++ u' :: r) ++ [kt]) _ Hv Hd Ht Hok
                   ltac:(apply super_at; rewrite Hln; lia) ltac:(rewrite Hln; lia)).
  rewrite Hln in Hs5. 
  assert (Hb := bump_at (pre ++ u' :: r) kt []). rewrite Hlen in Hb. rewrite Hb in Hs5.
  eapply goes_eq.
  - eapply goes_trans; [exact Hs1|eapply goes_trans; [exact Hs2|eapply goes_trans;
      [exact Hs3|eapply goes_trans; [exact Hs4|exact Hs5|reflexivity]|reflexivity]|reflexivity]|reflexivity].
  - lia.
  - rewrite <- !app_assoc. cbn [app]. f_equal.
    unfold after_key, quoted. rewrite !strlen_app. simpl. fold (strlen (key ++ String QUOTE "")). rewrite strlen_app. simpl. lia.
Qed.

Definition member_count (kv : string * json) : nat := S (ntoks (snd kv)).

Lemma runs_members l : Forall (fun kv => runs (snd kv)) l -> forall i pre st par r k t, l <> [] ->
  str_drop i js = (commas ws (map member_text l) ++ String "}" t)%string -> forallb member_ok l = true ->
  (length pre + 1 + length r + list_sum (map member_count l) <= num)%nat ->
  exists o, goes (Parser i (Some (length pre)) (pre ++ Tok JSMN_OBJECT st (-1) k par :: r))
       (Z.of_nat (list_sum (map member_count l)))
       (Parser (i + strlen (commas ws (map member_text l))) (Some o)
          (pre ++ Tok JSMN_OBJECT st (-1) (k + Z.of_nat (length l)) par :: r ++
           obj_toks ws (length pre) l i (length pre + 1 + length r))).
Proof.
  induction 1 as [|[key v] l Hv _ IH]; intros i pre st par r k t Hne Hd Hok Hn; [done|]. clear Hne. simpl in Hv.
  apply andb_true_iff in Hok as [Hokk Hoks]. apply andb_true_iff in Hokk as [Hk Hok].
  simpl list_sum in Hn. cbn [fst snd] in *.
  set (x := Tok JSMN_OBJECT st (-1) k par) in *. set (m := (length pre + 1 + length r)%nat) in *.
  assert (Hrest : exists u, commas ws (map member_text ((key, v) :: l)) = (member_text (key, v) ++ ws ++ u)%string /\
                  ended (u ++ String "}" t) /\
                  match l with [] => u = ""%string | _ => u = ("," ++ ws ++ commas ws (map member_text l))%string end).
  { destruct l as [|v' l]; [exists ""%string; by rewrite app_nil_r_str|by eexists]. }
  destruct Hrest as (u & Hu & Hend & Hl). rewrite Hu in Hd |- *. rewrite !app_assoc_str in Hd.
  assert (Hstep := runs_member key v i pre x r _ Hv Hd Hend Hk Hok ltac:(unfold m in *; lia)). cbn zeta in Hstep. fold m in Hstep.
  set (ts := toks_of ws v (after_key ws i key) (S m) (Some m)) in *.
  destruct (toks_of_shape ws v (after_key ws i key) (S m) (Some m)) as [Hts _]. fold ts in Hts.
  assert (Hlk : strlen (member_text (key, v)) = (strlen key + 2 + strlen ws + 1 + strlen ws + strlen (print ws v))%nat).
  { unfold member_text, quoted. cbn [fst snd]. rewrite !strlen_app. simpl. fold (strlen (key ++ String QUOTE "")).
    rewrite strlen_app. simpl. lia. }
  set (j := (i + strlen (member_text (key, v)) + strlen ws)%nat) in *.
  assert (Hd' : str_drop j js = (u ++ String "}" t)%string) by (by apply str_drop_past, str_drop_past).
  destruct l as [|kv' l].
  - subst u. exists m. eapply goes_eq; [exact Hstep|unfold member_count; simpl; lia|].
    cbn [obj_toks length]. rewrite app_nil_r_str, app_nil_r, strlen_app. unfold j. f_equal. lia.
  - subst u. rewrite !app_assoc_str in Hd'.
    assert (Hj : str_drop (j + 1 + strlen ws) js = (commas ws (map member_text (kv' :: l)) ++ String "}" t)%string)
      by (apply str_drop_past, (str_drop_past _ _ ","), Hd').
    set (x' := x <| t_size ::= fun n => n + 1 |>) in *. set (kt := key_tok i (length pre) key) in *.
    assert (Hm : (pre ++ x' :: r ++ kt :: ts)%list !! m = Some kt).
    { replace (pre ++ x' :: r ++ kt :: ts)%list with ((pre ++ x' :: r) ++ kt :: ts)%list by (by rewrite <- app_assoc).
      apply list_lookup_middle. rewrite length_app. unfold m. simpl. lia. }
    assert (Hc := comma_ws j (Some m) (Some (length pre)) _ _ Hd' (goes_comma_up j m _ kt (length pre) _ Hd' Hm eq_refl eq_refl)).
    assert (Hn' : length (r ++ kt :: ts) = (length r + S (ntoks v))%nat) by (rewrite length_app; simpl; by rewrite Hts).
    destruct (IH (j + 1 + strlen ws)%nat pre st par (r ++ kt :: ts)%list (k + 1) t ltac:(done) Hj Hoks
                     ltac:(rewrite Hn'; unfold m, member_count in *; simpl in *; lia)) as [o HIH].
    exists o. eapply goes_eq; [eapply goes_trans; [exact Hstep|eapply goes_trans; [exact Hc|exact HIH|reflexivity]|reflexivity]| |].
    + unfold member_count. simpl. lia.
    + rewrite !strlen_app, Hn'. cbn [obj_toks length]. fold kt ts. rewrite <- app_assoc. cbn [app].
      replace (length pre + 1 + (length r + S (ntoks v)))%nat with (S m + ntoks v)%nat by (unfold m; lia).
      replace (after_item ws (after_key ws i key) v) with (j + 1 + strlen ws)%nat
        by (unfold after_item, after_key, j; lia).
      f_equal; [unfold j; simpl; lia|]. do 3 f_equal. simpl. lia.
Qed.

(** Around the children: the brackets. *)
Lemma runs_brackets ty body i o l size r cnt t :
  ty = JSMN_OBJECT \/ ty = JSMN_ARRAY ->
  str_drop i js = (String (opening ty) "" ++ ws ++ body ++ String (closing ty) t)%string ->
  super_ok (Parser i o l) -> (length l < num)%nat -> below (length l) (S (length l)) r ->
  (exists b, goes (Parser (i + 1 + strlen ws) (Some (length l)) (bump o l ++ [Tok ty (Z.of_nat i) (-1) 0 o])) cnt
        (Parser (i + 1 + strlen ws + strlen body) (Some b) (bump o l ++ Tok ty (Z.of_nat i) (-1) size o :: r))) ->
  let e := (i + 1 + strlen ws + strlen body + 1)%nat in
  goes (Parser i o l) (1 + cnt)
       (Parser e o (bump o l ++ Tok ty (Z.of_nat i) (Z.of_nat e) size o :: r)).
Proof.
  intros Hty Hd Hs Hn Hb [b Hbody] e. pose proof Hd as Hd1.
  apply str_drop_past in Hd1. replace (i + strlen (String (opening ty) ""))%nat with (S i) in Hd1 by (simpl; lia).
  assert (H1 := goes_open ty i o l _ Hty Hd Hs Hn).
  assert (H2 := goes_blanks ws (S i) (Some (length l)) (bump o l ++ [Tok ty (Z.of_nat i) (-1) 0 o]) _ ws_blank Hd1).
  do 2 apply str_drop_past in Hd1. replace (S i + strlen ws)%nat with (i + 1 + strlen ws)%nat in H2, Hd1 by lia.
  rewrite <- (bump_length o l) in Hb.
  assert (H3 := goes_close ty _ (Some b) (bump o l) (Tok ty (Z.of_nat i) (-1) size o) r t Hty Hd1 Hb
                  ltac:(simpl; lia) eq_refl eq_refl).
  eapply goes_eq; [eapply goes_trans; [exact H1|eapply goes_trans; [exact H2|eapply goes_trans;
     [exact Hbody|exact H3|reflexivity]|reflexivity]|reflexivity]|lia|].
  unfold e. cbn [t_parent]. f_equal; [lia|]. f_equal. cbn. f_equal. f_equal. lia.
Qed.

Lemma run_value v : runs v.
Proof.
  induction v as [a|a|l IH|l IH] using json_nested_ind; intros i o pre t Hd Ht Hok Hs Hn.
  - apply goes_string with (t := t); try done. simpl in Hn. lia.
  - apply andb_true_iff in Hok as [Ha Hst]. apply goes_prim with (t := t); try done. simpl in Hn. lia.
  - simpl ntoks in *. rewrite toks_of_arr. set (n := list_sum (map ntoks l)) in *.
    assert (Hp : strlen (print ws (JArr l)) = (1 + strlen ws + strlen (commas ws (map (print ws) l)) + 1)%nat)
      by (cbn [print]; rewrite !strlen_app; simpl; lia).
    cbn [print] in Hd. rewrite !app_assoc_str in Hd.
    eapply goes_eq; [apply (runs_brackets JSMN_ARRAY _ i o pre (Z.of_nat (length l))
        (arr_toks ws (length pre) l (i + 1 + strlen ws) (S (length pre))) (Z.of_nat n) t
        (or_intror eq_refl) Hd Hs)|..].
    + lia.
    + apply arr_toks_below.
    + exists (length pre). destruct l as [|v l]; [rewrite Nat.add_0_r; apply goes_refl|].
      do 2 apply str_drop_past in Hd. replace (i + strlen "[" + strlen ws)%nat with (i + 1 + strlen ws)%nat in Hd by (simpl; lia).
      rewrite <- (bump_length o pre) at 1 2 3.
      eapply goes_eq; [eapply (runs_items (v :: l) IH _ (bump o pre) (Z.of_nat i) o [] 0 t); [done|exact Hd|exact Hok|]|done|].
      * rewrite bump_length. unfold n in *. simpl in *. lia.
      * rewrite bump_length. f_equal. cbn [length app]. do 3 f_equal. lia.
    + lia.
    + rewrite Hp. f_equal; [lia|]. do 3 f_equal; lia.
  - simpl ntoks in *. rewrite toks_of_obj. set (n := list_sum (map member_count l)).
    assert (Ep : print ws (JObj l) = ("{" ++ ws ++ commas ws (map member_text l) ++ "}")%string) by done.
    assert (Hp : strlen (print ws (JObj l)) = (1 + strlen ws + strlen (commas ws (map member_text l)) + 1)%nat)
      by (rewrite Ep, !strlen_app; simpl; lia).
    rewrite Ep, !app_assoc_str in Hd.
    eapply goes_eq; [apply (runs_brackets JSMN_OBJECT _ i o pre (Z.of_nat (length l))
        (obj_toks ws (length pre) l (i + 1 + strlen ws) (S (length pre))) (Z.of_nat n) t
        (or_introl eq_refl) Hd Hs)|..].
    + lia.
    + apply obj_toks_below.
    + destruct l as [|kv l]; [exists (length pre); rewrite Nat.add_0_r; apply goes_refl|].
      do 2 apply str_drop_past in Hd. replace (i + strlen "{" + strlen ws)%nat with (i + 1 + strlen ws)%nat in Hd by (simpl; lia).
      destruct (runs_members (kv :: l) IH (i + 1 + strlen ws) (bump o pre) (Z.of_nat i) o [] 0 t) as [b Hb]; [done|exact Hd|exact Hok| |].
      * rewrite bump_length. unfold member_count. simpl in *. lia.
      * rewrite bump_length in Hb. exists b. eapply goes_eq; [exact Hb|done|].
        f_equal. cbn [length app]. do 3 f_equal. lia.
    + unfold n, member_count. lia.
    + rewrite Hp. f_equal; [lia|]. do 3 f_equal; lia.
Qed.
End Values.
End Runs.

Lemma toks_closed ws v i n par : existsb tok_open (toks_of ws v i n par) = false.
Proof.
  assert (Hb : forall k m l, below k m l -> existsb tok_open l = false).
  { intros k m l Hl. apply not_true_iff_false. intros (u & Hu & Ho)%existsb_exists.
    apply list_elem_of_In, list_elem_of_lookup in Hu as [j Hj]. destruct (Hl _ _ Hj) as [He _].
    unfold tok_open in Ho. apply Z.eqb_neq in He. rewrite He, andb_false_r in Ho. done. }
  assert (Hc : forall ty a b k q l, 0 <= b -> existsb tok_open l = false -> existsb tok_open (Tok ty a b k q :: l) = false).
  { intros ty a b k q l Hb0 Hl. simpl. rewrite Hl, orb_false_r. unfold tok_open. cbn.
    destruct (Z.eqb_spec b (-1)); [lia|apply andb_false_r]. }
  destruct v as [a|a|l|l]; [apply Hc; [lia|done]..| |].
  - rewrite toks_of_arr. apply Hc; [lia|]. eapply Hb, arr_toks_below.
  - rewrite toks_of_obj. apply Hc; [lia|]. eapply Hb, obj_toks_below.
Qed.

Lemma parse_printed ws w v num : blank ws = true -> blank w = true -> printed_ok v = true -> (ntoks v <= num)%nat ->
  let js := (print ws v ++ w)%string in
  jsmn_parse js num jsmn_init = Ret (Z.of_nat (ntoks v)) (Parser (strlen js) None (toks_of ws v 0 0 None)).
Proof.
  intros Hws Hw Hok Hn js.
  assert (Hended : ended w).
  { destruct w as [|c w]; [done|]. apply andb_true_iff in Hw as [Hc _]. simpl.
    by apply blank_cases in Hc as [-> | [-> | [-> | ->]]]. }
  assert (H1 := run_value js num ws Hws v 0%nat None [] w eq_refl Hended Hok ltac:(done) Hn).
  assert (Hd1 : str_drop (0 + strlen (print ws v))%nat js = (w ++ "")%string) by (rewrite app_nil_r_str; by apply str_drop_past).
  assert (H2 := goes_blanks js num w _ None (toks_of ws v 0 0 None) "" Hw Hd1).
  destruct (goes_trans _ _ _ _ _ _ _ _ H1 H2 eq_refl) as (d & Hdl & Hrun). cbn [pos] in Hdl.
  assert (Hlen : strlen js = (strlen (print ws v) + strlen w)%nat) by apply strlen_app.
  unfold jsmn_parse, bind, get. change (toknext jsmn_init) with 0%nat.
  replace (strlen js) with (d + (strlen js - d))%nat at 1 by lia.
  change jsmn_init with (Parser 0 None []). rewrite Hrun, Hlen.
  destruct (strlen (print ws v) + strlen w - d)%nat; cbn [jsmn_loop]; unfold bind, get; cbn [pos toks];
    (rewrite js_at_drop; erewrite str_drop_past by exact Hd1; rewrite toks_closed; unfold ret; f_equal; lia).
Qed.


(** White space as a file has it. *)
Definition sample_json : json :=
  JObj [("shell_type", JStr "PL_DFX"); ("slots", JArr [JPrim "1"; JObj [("a", JPrim "true")]])]%string.

