(* ===== verification/Env.v ===== *)
(** * The environment

    What the program calls and does not implement: the operating system
    (files, directories, processes, sysfs, inotify) and libdfx.  They are
    operations on an abstract world [W]; a pure observation reads the world, an
    action also returns the next world.
    Nothing is assumed of them: every theorem holds for every [Env W]. *)
From S2P Require Import Prelude CStr.

Inductive file_type : Set := DT_REG | DT_DIR | DT_OTHER.
Record dirent := Dirent { d_name : string; d_type : file_type }.

Class Env (W : Type) := {
  (* files and directories *)
  readdir : string -> W -> option (list dirent);     (* opendir + readdir; None: opendir fails *)
  is_dir : string -> W -> bool;                      (* stat() == 0 && S_ISDIR *)
  is_reg : string -> W -> bool;                      (* stat() == 0 && S_ISREG *)
  exists_ : string -> W -> bool;                     (* access(F_OK) == 0, stat() == 0 *)
  read_file : string -> W -> option string;          (* fopen "r" + fread of the whole file *)
  read_line : string -> Z -> W -> option string;     (* fopen "r" + fgets(buf, n); None: NULL *)
  open_ : string -> Z -> W -> Z * W;                 (* open(path, flags): fd or -1 *)
  read_fd : Z -> Z -> W -> option string;            (* read(fd, buf, n); None: -1 *)
  write_fd : Z -> string -> W -> Z * W;
  close_fd : Z -> W -> W;
  mkdir_ : string -> W -> Z * W;
  rmdir_ : string -> W -> Z * W;
  unlink_ : string -> W -> Z * W;
  getenv : string -> W -> option string;
  system : string -> W -> Z * W;                     (* system(cmd) *)
  popen_line : string -> W -> option (option string) * W;  (* popen + fgets + pclose *)
  glob : string -> W -> list string;
  usleep : Z -> W -> W;
  mkdtemp : string -> W -> option string * W;
  get_errno : W -> Z;
  mmap_ : Z -> Z -> Z -> W -> option Z * W;          (* mmap(NULL, size, .., fd, off); None: MAP_FAILED *)
  munmap_ : Z -> Z -> W -> W;
  (* 32-bit volatile accesses to mapped registers *)
  reg_read : Z -> W -> Z * W;
  reg_write : Z -> Z -> W -> W;
  (* VFIO ioctls; the first result is the return value *)
  vfio_set_container : Z -> Z -> W -> Z * W;
  vfio_set_iommu : Z -> W -> Z * W;
  vfio_get_device_fd : Z -> string -> W -> Z * W;
  vfio_num_regions : Z -> W -> Z * Z;                (* VFIO_DEVICE_GET_INFO: ret, num_regions *)
  vfio_region_info : Z -> W -> Z * (bool * Z * Z);   (* ret, (mmap-able, size, offset) *)
  vfio_map_dma : Z -> Z -> Z -> Z -> W -> Z * W;     (* container, vaddr, iova, size *)
  vfio_unmap_dma : Z -> Z -> Z -> W -> Z * W;        (* container, iova, size *)
  (* inotify *)
  inotify_add_watch : string -> W -> Z * W;
  inotify_rm_watch : Z -> W -> W;
  (* libdfx *)
  dfx_cfg_init : string -> Z -> option string -> W -> Z * W;
  dfx_cfg_load : Z -> W -> Z * W;
  dfx_cfg_remove : Z -> W -> Z * W;
  dfx_cfg_destroy : Z -> W -> Z * W;
  dfx_get_fpga_state : Z -> W -> option string;      (* None: a negative result *)
  dfx_set_fpga_flags : Z -> W -> Z * W;
  dfx_set_fpga_key : string -> W -> Z * W;
  dfx_set_fpga_firmware : string -> W -> Z * W;
  dfx_set_firmware_search_path : string -> W -> W;
  dfx_set_overlay_path : string -> string -> W -> Z * W;
  dfx_get_overlay_path : string -> Z -> W -> option string;
  dfx_get_overlay_status : string -> Z -> W -> option string;
  dfx_fpga_readback : Z -> string -> W -> Z * W;
  dfx_get_meta_header : string -> W -> Z * list Z;   (* the return value and the buffer's bytes *)
  dfx_get_active_uid_list : W -> Z * list Z;         (* the return value and the buffer's ints *)
  DFX_NORMAL_EN : Z;
  DFX_EXTERNAL_CONFIG_EN : Z;
  DFX_ENCRYPTION_USERKEY_EN : Z;
  DFX_INVALID_PARAM : Z;
  DFX_INVALID_PLATFORM_ERROR : Z;
  DFX_READBACK_ERROR : Z;
  (* RPMSG_CREATE_EPT_IOCTL: fd, name, src, dst *)
  rpmsg_create_ept : Z -> string -> Z -> Z -> W -> Z * W;
  (* what uninitialised memory happens to hold *)
  junk_bool : W -> bool;
  junk_Z : W -> Z;
  junk_string : W -> string;
  (* (unsigned int)strtof(s, NULL) *)
  strtof_uint : string -> Z;
}.

(** Running an action of the environment in the world monad. *)
Section World.
Context {W : Type} `{Env W}.

Definition look {A} (f : W -> A) : M W A := gets f.
Definition act {A} (f : W -> A * W) : M W A := fun w => let '(a, w') := f w in Ret a w'.
Definition act_ (f : W -> W) : M W unit := modify f.

Lemma wp_act {A} F (f : W -> A * W) Q w : Q (f w).1 (f w).2 -> wp F (act f) Q w.
Proof. unfold wp, act. by destruct (f w). Qed.

Lemma wp_look {A} F (f : W -> A) Q w : Q (f w) w -> wp F (look f) Q w.
Proof. done. Qed.

Lemma always_act {A} F (f : W -> A * W) : always F (act f).
Proof. intros w. by apply wp_act. Qed.
Lemma always_look {A} F (f : W -> A) : always F (look f).
Proof. done. Qed.
Lemma always_act_ F (f : W -> W) : always F (act_ f).
Proof. done. Qed.
End World.

#[export] Hint Resolve always_act always_look always_act_ : tame.
