(* ===== verification/Model.v ===== *)
(** * The runtime data model

    The structures of [src/model.h], [src/accel.h], [src/device.h] and
    [src/dma.h], and the daemon's global state.  A pointer into the static
    array [base_designs] is its index; a heap object with a single owner is a
    value; an object that is shared (a device) lives in a heap of its own. *)
From stdpp Require Export gmap.
From S2P Require Import Prelude CStr Env.
Open Scope Z_scope.
Open Scope dfx_scope.

(** ** Constants *)

Definition ACCEL_NAME_MAX : nat := 128.
Definition RP_SLOTS_MAX : nat := 10.
Definition SLOT_HANDLE_MAX : nat := 30.
Definition WATCH_PATH_LEN : nat := 256.
Definition MAX_WATCH : nat := 500.
Definition NAME_MAX : nat := 255.

Definition DFX_MGR_LOAD_ERROR : Z := 1.
Definition DFX_MGR_NO_PACKAGE_FOUND_ERROR : Z := 2.
Definition DFX_MGR_NO_EMPTY_SLOT_ERROR : Z := 3.
Definition DFX_MGR_SECURE_PLATFORM_ERROR : Z := 4.

Definition ACAPD_ACCEL_STATUS_UNLOADED : Z := 0.
Definition ACAPD_ACCEL_STATUS_LOADING : Z := 1.
Definition ACAPD_ACCEL_STATUS_INUSE : Z := 2.
Definition ACAPD_ACCEL_STATUS_UNLOADING : Z := 3.
Definition ACAPD_ACCEL_SUCCESS : Z := 0.
Definition ACAPD_ACCEL_FAILURE : Z := -1.
Definition ACAPD_ACCEL_INVALID : Z := -6.
Definition ACAPD_ACCEL_INPROGRESS : Z := 1.
Definition ACAPD_ACCEL_PKG_TYPE_NONE : Z := 0.
Definition ACAPD_ACCEL_PKG_TYPE_TAR_GZ : Z := 1.

Definition EINVAL : Z := 22.
Definition EBUSY : Z := 16.

(** ** RPMsg devices of an RPU slot *)

Record rpmsg_dev := RpmsgDev {
  rpmsg_channel_name : string;
  ept_rpmsg_dev_name : string;
  rd_active : bool;
}.

Record rpu_info := RpuInfo {
  virtio_num : Z;
  rpmsg_ctrl_dev_name : string;
  rpmsg_dev_list : option (list rpmsg_dev);   (* None: the list head is not initialised *)
}.
#[export] Instance rpmsg_dev_eta : Eta rpmsg_dev := fun r =>
  RpmsgDev (rpmsg_channel_name r) (ept_rpmsg_dev_name r) (rd_active r).

(** ** Devices, channels, accelerators *)

Inductive dev_ops : Set := linux_generic_dev_ops | vfio_dev_ops.
Inductive dma_ops : Set := axidma_vfio_dma_ops | mcdma_vfio_dma_ops.

Record acapd_vfio_mmap := VfioMmap { m_va : Z; m_da : Z; m_size : Z }.
Record acapd_vfio := Vfio {
  container : Z;
  group : Z;
  vdevice : Z;
  mmaps : list acapd_vfio_mmap;
}.
#[export] Instance vfio_eta : Eta acapd_vfio := fun r =>
  Vfio (container r) (group r) (vdevice r) (mmaps r).

Record acapd_device := Device {
  dev_name : option string;
  bus_name : option string;
  dpath : string;               (* path[64] *)
  reg_pa : Z;
  reg_size : Z;
  did : Z;                      (* id *)
  va : option Z;
  driver : option string;
  iommu_group : Z;
  refs : Z;
  dops : option dev_ops;
  priv : option acapd_vfio;
}.
Definition device0 : acapd_device :=
  Device None None "" 0 0 0 None None 0 0 None None.

Inductive acapd_dir : Set := ACAPD_DMA_DEV_R | ACAPD_DMA_DEV_W | ACAPD_DMA_DEV_RW.
#[export] Instance acapd_dir_eq_dec : EqDecision acapd_dir.
Proof. solve_decision. Defined.

Record acapd_chnl := Chnl {
  cdev : option nat;            (* dev: a device of the heap *)
  chnl_id : Z;
  dir : option acapd_dir;       (* None: the zero calloc() leaves *)
  is_open : bool;
  cops : option dma_ops;
  max_buf_size : Z;
}.
Definition chnl0 : acapd_chnl := Chnl None 0 None false None 0.

Record acapd_accel_pkg_hd := Pkg {
  ptype : Z;
  pname : string;
  ppath : string;
}.

Record acapd_accel := Accel {
  pkg : option acapd_accel_pkg_hd;
  tmp_dir : string;             (* sys_info.tmp_dir[512] *)
  sys_fpga_cfg_id : Z;          (* sys_info.fpga_cfg_id *)
  sys_fpga_state : string;      (* sys_info.fpga_state[64] *)
  atype : string;               (* type[32] *)
  status : Z;
  is_cached : bool;
  load_failure : Z;
  ip_dev : list nat;            (* ip_dev[0 .. num_ip_devs) *)
  rm_slot : Z;
  chnls : option (list acapd_chnl);
  acma_path : string;           (* cma_path[256] *)
}.
Definition accel_zero : acapd_accel :=
  Accel None "" 0 "" "" 0 false 0 [] 0 None "".

#[export] Instance device_eta : Eta acapd_device := fun r =>
  Device (dev_name r) (bus_name r) (dpath r) (reg_pa r) (reg_size r) (did r) (va r)
         (driver r) (iommu_group r) (refs r) (dops r) (priv r).
#[export] Instance chnl_eta : Eta acapd_chnl := fun r =>
  Chnl (cdev r) (chnl_id r) (dir r) (is_open r) (cops r) (max_buf_size r).
#[export] Instance accel_eta : Eta acapd_accel := fun r =>
  Accel (pkg r) (tmp_dir r) (sys_fpga_cfg_id r) (sys_fpga_state r) (atype r) (status r)
        (is_cached r) (load_failure r) (ip_dev r) (rm_slot r) (chnls r) (acma_path r).

(** ** Slots, packages, base designs *)

Record slot_info := SlotInfo {
  s_name : string;
  is_aie : bool;
  is_rpu : bool;
  slot_handle : Z;
  s_accel : option acapd_accel;
  rpu : rpu_info;
}.
#[export] Instance slot_info_eta : Eta slot_info := fun r =>
  SlotInfo (s_name r) (is_aie r) (is_rpu r) (slot_handle r) (s_accel r) (rpu r).
#[export] Instance rpu_info_eta : Eta rpu_info := fun r =>
  RpuInfo (virtio_num r) (rpmsg_ctrl_dev_name r) (rpmsg_dev_list r).

(** [malloc(sizeof(slot_info_t))] and [slot->accel = NULL]: every other field
    holds what the memory held. *)
Definition malloc_slot {W} `{Env W} (w : W) : slot_info :=
  SlotInfo (junk_string w) (junk_bool w) (junk_bool w) (junk_Z w) None
           (RpuInfo (junk_Z w) (junk_string w) None).

Record accel_info := AccelInfo {
  a_uid : Z;
  a_pid : Z;
  a_name : string;              (* name[128] *)
  a_path : string;              (* path[512] *)
  a_parent_path : string;       (* parent_path[512] *)
  a_wd : Z;
  accel_type : string;          (* accel_type[32] *)
  a_list_id : Z;
  rpu_slot_num : Z;             (* rpu.slot_num *)
}.
Definition accel_info0 : accel_info := AccelInfo 0 0 "" "" "" 0 "" 0 0.
#[export] Instance accel_info_eta : Eta accel_info := fun r =>
  AccelInfo (a_uid r) (a_pid r) (a_name r) (a_path r) (a_parent_path r) (a_wd r)
            (accel_type r) (a_list_id r) (rpu_slot_num r).

Record basePLDesign := Base {
  uid : Z;
  pid : Z;
  fpga_cfg_id : Z;
  b_name : string;              (* name[128] *)
  base_path : string;           (* base_path[512] *)
  b_parent_path : string;       (* parent_path[512] *)
  b_type : string;              (* type[128] *)
  num_pl_slots : Z;             (* uint8_t *)
  num_aie_slots : Z;            (* uint8_t *)
  active : Z;
  b_wd : Z;
  load_base_design : bool;
  slots : option (list (option slot_info));   (* None: NULL *)
  accel_list : list accel_info;               (* accel_list[RP_SLOTS_MAX] *)
  is_user_load : bool;
  user_load_type : bool;        (* 0 full, 1 partial *)
  user_load_handle : Z;
  user_load_region : string;    (* user_load_region[128] *)
  list_id : Z;
}.
Definition base0 : basePLDesign :=
  Base 0 0 0 "" "" "" "" 0 0 0 0 false None (replicate RP_SLOTS_MAX accel_info0)
       false false 0 "" 0.
#[export] Instance base_eta : Eta basePLDesign := fun r =>
  Base (uid r) (pid r) (fpga_cfg_id r) (b_name r) (base_path r) (b_parent_path r) (b_type r)
       (num_pl_slots r) (num_aie_slots r) (active r) (b_wd r) (load_base_design r) (slots r)
       (accel_list r) (is_user_load r) (user_load_type r) (user_load_handle r)
       (user_load_region r) (list_id r).

(** ** Platform, configuration, watches *)

Inductive fpga_mgr_type : Set := FPGA_MGR_UNKNOWN | FPGA_MGR_ZYNQ | FPGA_MGR_ZYNQMP | FPGA_MGR_VERSAL.
#[export] Instance fpga_mgr_type_eq_dec : EqDecision fpga_mgr_type.
Proof. solve_decision. Defined.

Record platform_info := Platform {
  boardName : string;
  active_base : option nat;             (* index into base_designs *)
  active_rpu_base : option nat;
  available_slot_handle : list Z;       (* available_slot_handle[SLOT_HANDLE_MAX] *)
  fpga_mgr : fpga_mgr_type;
  use_user_load_path : bool;
  boot_pdi_uid : Z;
}.
#[export] Instance platform_eta : Eta platform_info := fun r =>
  Platform (boardName r) (active_base r) (active_rpu_base r) (available_slot_handle r)
           (fpga_mgr r) (use_user_load_path r) (boot_pdi_uid r).

Record daemon_config := Config {
  defaul_accel_name : string;
  firmware_locations : list string;
  rpu_fw_uptime_msec : Z;
  cma_path : option string;
  eeprom_location : list string;
  eeprom_name_map : list (string * string);
}.
#[export] Instance config_eta : Eta daemon_config := fun r =>
  Config (defaul_accel_name r) (firmware_locations r) (rpu_fw_uptime_msec r) (cma_path r)
         (eeprom_location r) (eeprom_name_map r).
Definition config0 : daemon_config := Config "" [] 0 None [] [].

Record watch := Watch {
  w_wd : Z;
  w_name : string;
  w_path : string;
  w_parent_name : string;
  w_parent_path : string;
}.
Definition watch0 : watch := Watch (-1) "" "" "" "".
#[export] Instance watch_eta : Eta watch := fun r =>
  Watch (w_wd r) (w_name r) (w_path r) (w_parent_name r) (w_parent_path r).

(** ** The daemon *)

Record daemon := Daemon {
  config : daemon_config;
  active_watch : list watch;            (* active_watch[MAX_WATCH] *)
  base_designs : list basePLDesign;     (* base_designs[MAX_WATCH] *)
  platform : platform_info;
  pkg_listing_dirty : bool;
  firmware_rescan_pending : bool;
}.
#[export] Instance daemon_eta : Eta daemon := fun r =>
  Daemon (config r) (active_watch r) (base_designs r) (platform r) (pkg_listing_dirty r)
         (firmware_rescan_pending r).

Definition platform0 : platform_info :=
  Platform "Xilinx board" None None (replicate SLOT_HANDLE_MAX 0) FPGA_MGR_UNKNOWN false 0.
Definition daemon0 : daemon :=
  Daemon config0 (replicate MAX_WATCH watch0) (replicate MAX_WATCH base0) platform0 false false.

(** The device layer: the devices the accelerators use, the shell's two
    devices ([static acapd_shell_t shell]) and the world. *)
Record hw (W : Type) := Hw {
  devs : list acapd_device;
  shell_dev : acapd_device;
  shell_clock_dev : acapd_device;
  hw_world : W;
}.
Arguments Hw {W} _ _ _ _.
Arguments devs {W} _.
Arguments shell_dev {W} _.
Arguments shell_clock_dev {W} _.
Arguments hw_world {W} _.
#[export] Instance hw_eta {W} : Eta (hw W) := fun r =>
  Hw (devs r) (shell_dev r) (shell_clock_dev r) (hw_world r).

Record sys (W : Type) := Sys { dm : daemon; machine : hw W }.
Arguments Sys {W} _ _.
Arguments dm {W} _.
Arguments machine {W} _.
#[export] Instance sys_eta {W} : Eta (sys W) := fun r => Sys (dm r) (machine r).

(** ** Running a layer inside the next one *)

Definition in_world {W A} (m : M W A) : M (hw W) A :=
  zoom hw_world (fun w h => h <| hw_world := w |>) m.
Definition in_hw {W A} (m : M (hw W) A) : M (sys W) A :=
  zoom machine (fun h s => s <| machine := h |>) m.
Definition in_dm {W A} (m : M daemon A) : M (sys W) A :=
  zoom dm (fun d s => s <| dm := d |>) m.
Definition env {W A} (m : M W A) : M (sys W) A := in_hw (in_world m).

Definition getd {W} : M (sys W) daemon := gets dm.
Definition gp {W A} (f : platform_info -> A) : M (sys W) A := gets (fun s => f (platform (dm s))).
Definition modd {W} (f : daemon -> daemon) : M (sys W) unit := modify (fun s => s <| dm ::= f |>).
Definition modp {W} (f : platform_info -> platform_info) : M (sys W) unit :=
  modd (fun d => d <| platform ::= f |>).

(** [base_designs[i]]. *)
Definition get_base {W} (i : nat) : M (sys W) basePLDesign :=
  let! d := getd in the OutOfBounds (base_designs d !! i).
Definition set_base {W} (i : nat) (b : basePLDesign) : M (sys W) unit :=
  modd (fun d => d <| base_designs ::= <[i := b]> |>).
Definition mod_base {W} (i : nat) (f : basePLDesign -> basePLDesign) : M (sys W) unit :=
  let! b := get_base i in set_base i (f b).

(** The first index, in array order, whose element satisfies [p]. *)
Fixpoint find_index {A} (p : A -> bool) (l : list A) : option nat :=
  match l with
  | [] => None
  | x :: r => if p x then Some 0%nat else S <$> find_index p r
  end.

(** ** Lemmas *)

Section FindIndex.
Context {A : Type}.
Implicit Types (p : A -> bool) (l : list A).

Lemma find_index_Some p l i :
  find_index p l = Some i <->
  exists x, l !! i = Some x /\ p x = true /\ forall j y, (j < i)%nat -> l !! j = Some y -> p y = false.
Proof.
  revert i. induction l as [|x l IH]; intros i; simpl.
  - split; [done|]. by intros (? & ? & ?).
  - destruct (p x) eqn:E.
    + split.
      * intros [= <-]. exists x. repeat split; [done|]. intros; lia.
      * intros (y & Hy & Hp & Hlt). destruct i as [|i]; [done|].
        specialize (Hlt 0%nat x). simpl in Hlt. rewrite Hlt in E; [done|lia|done].
    + destruct (find_index p l) as [k|] eqn:Ek; simpl.
      * split.
        -- intros [= <-]. destruct (proj1 (IH k) eq_refl) as (y & Hy & Hp & Hlt).
           exists y. repeat split; [done..|]. intros [|j] z Hj; simpl; [by intros [= <-]|].
           apply Hlt. lia.
        -- intros (y & Hy & Hp & Hlt). destruct i as [|i]; simpl in *; [congruence|].
           f_equal. assert (Some k = Some i) as [= ->]; [|done]. apply IH.
           exists y. repeat split; [done..|]. intros j z Hj. apply (Hlt (S j)). lia.
      * split; [done|]. intros (y & Hy & Hp & Hlt). destruct i as [|i]; simpl in *; [congruence|].
        assert (None = Some i); [|done]. apply IH. exists y. repeat split; [done..|].
        intros j z Hj. apply (Hlt (S j)). lia.
Qed.

Lemma find_index_None p l : find_index p l = None <-> forall i x, l !! i = Some x -> p x = false.
Proof.
  induction l as [|x l IH]; simpl.
  - split; [|done]. intros _ i y Hy. by rewrite lookup_nil in Hy.
  - destruct (p x) eqn:E.
    + split; [done|]. intros H. specialize (H 0%nat x eq_refl). congruence.
    + destruct (find_index p l) as [k|]; simpl.
      * split; [done|]. intros H. assert (Some k = None); [|done]. apply IH.
        intros i y. apply (H (S i)).
      * split; [|done]. intros _ [|i] y; simpl; [by intros [= <-]|]. by apply IH.
Qed.

Lemma find_index_lookup p l i : find_index p l = Some i -> exists x, l !! i = Some x /\ p x = true.
Proof. rewrite find_index_Some. naive_solver. Qed.
End FindIndex.

Section Wp.
Context {W : Type} (F : fault -> Prop).
Implicit Types (s : sys W).

Lemma wp_getd Q s : Q (dm s) s -> wp F getd Q s.
Proof. done. Qed.

Lemma wp_gp {A} (f : platform_info -> A) Q s : Q (f (platform (dm s))) s -> wp F (gp f) Q s.
Proof. done. Qed.

Lemma wp_modd f Q s : Q tt (s <| dm ::= f |>) -> wp F (modd f) Q s.
Proof. done. Qed.

Lemma wp_modp f Q s : Q tt (s <| dm ::= record_set platform f |>) -> wp F (modp f) Q s.
Proof. done. Qed.

Lemma wp_get_base i b Q s : base_designs (dm s) !! i = Some b -> Q b s -> wp F (get_base i) Q s.
Proof. intros Hb HQ. unfold get_base. apply wp_bind, wp_getd. by eapply wp_the_Some. Qed.

Lemma wp_set_base i b Q s :
  Q tt (s <| dm ::= record_set base_designs <[i := b]> |>) -> wp F (set_base i b) Q s.
Proof. done. Qed.

Lemma wp_mod_base i f b Q s :
  base_designs (dm s) !! i = Some b ->
  Q tt (s <| dm ::= record_set base_designs <[i := f b]> |>) -> wp F (mod_base i f) Q s.
Proof. intros Hb HQ. unfold mod_base. apply wp_bind. by eapply wp_get_base. Qed.

(** What a lower layer does leaves the daemon's state alone. *)
Lemma wp_in_hw {A} (m : M (hw W) A) Q s :
  wp F m (fun a h => Q a (Sys (dm s) h)) (machine s) -> wp F (in_hw m) Q s.
Proof. intros H. apply wp_zoom. done. Qed.

Lemma wp_in_world {A} (m : M W A) Q (h : hw W) :
  wp F m (fun a w => Q a (h <| hw_world := w |>)) (hw_world h) -> wp F (in_world m) Q h.
Proof. intros H. by apply wp_zoom. Qed.

Lemma wp_in_hw_frame {A} (m : M (hw W) A) (P : hw W -> Prop) Q s :
  P (machine s) -> (forall h, P h -> wp F m (fun _ _ => True) h) ->
  (forall a h, Q a (Sys (dm s) h)) -> wp F (in_hw m) Q s.
Proof.
  intros HP Hm HQ. apply wp_in_hw. eapply wp_mono; [by apply Hm|]. intros a h _. apply HQ.
Qed.
End Wp.

Lemma always_in_world {W A} F (m : M W A) : always F m -> always F (in_world m).
Proof. apply always_zoom. Qed.
Lemma always_in_hw {W A} F (m : M (hw W) A) : always F m -> always F (in_hw m).
Proof. apply always_zoom. Qed.
#[export] Hint Resolve always_in_world always_in_hw : tame.
