(* ===== verification/UserLoad.v ===== *)
(** * Loading through sysfs/configfs

    [src/user_load.c]: programming a bitstream with or without a device-tree
    overlay, discovering the files of a package directory, and the platform
    predicate.  The functions act on the world only. *)
From S2P Require Import Prelude CStr Env Model.
Open Scope Z_scope.
Open Scope dfx_scope.

Definition DTBO_ROOT_DIR : string := "/sys/kernel/config/device-tree/overlays".
Definition join_path (dir name : string) : string := (dir ++ "/" ++ name)%string.
Definition overlay_dir (region : string) : string := trunc 512 (join_path DTBO_ROOT_DIR region).

Definition path_basename (path : string) : string :=
  match strrchr path "/" with Some i => str_drop (S i) path | None => path end.

Definition is_user_load_platform (m : fpga_mgr_type) : bool := bool_decide (m = FPGA_MGR_ZYNQ).

(** [user_load_init_accel()]: the fields unload and listPackage rely on. *)
Definition user_load_init_accel (a : acapd_accel) (p : acapd_accel_pkg_hd) (slot_num : Z)
    (accel_type : string) : acapd_accel :=
  a <| atype := trunc 32 accel_type |> <| pkg := Some p |> <| rm_slot := slot_num |>
    <| tmp_dir := trunc 512 (ppath p) |>.

Section UserLoad.
Context {W : Type} `{Env W}.

(** [fpga_state()]: 0 when the manager reports a usable state. *)
Definition fpga_state : M W Z :=
  let! st := look (dfx_get_fpga_state 128) in
  match st with
  | None => ret (-1)
  | Some s => if streq s "operating" || streq s "unknown" then ret 0 else ret (-1)
  end.

Definition check_overlay_was_applied (dir requested : string) : M W Z :=
  let! p := look (dfx_get_overlay_path dir 128) in
  match p with
  | None => ret (-1)
  | Some p =>
      if negb (streq p requested) then ret (-1)
      else
        let! st := look (dfx_get_overlay_status dir 128) in
        match st with
        | None => ret (-1)
        | Some st => if negb (streq st "applied") then ret (-1) else ret 0
        end
  end.

Definition user_load_sysfs (bin : string) : M W Z :=
  let! r := act (dfx_set_fpga_firmware bin) in
  if negb (r =? 0) then ret (-1)
  else let! st := fpga_state in if negb (st =? 0) then ret (-1) else ret 0.

Definition remove_overlay_dir (dir : string) : M W unit :=
  let! _ := act (rmdir_ dir) in ret tt.

Definition user_load_overlay (ov region : string) : M W Z :=
  let ov_dir := overlay_dir region in
  let! there := look (is_dir ov_dir) in
  if there : bool then ret (-1)
  else
    let! r := act (mkdir_ ov_dir) in
    if negb (r =? 0) then ret (-1)
    else
      let! r := act (dfx_set_overlay_path ov_dir ov) in
      if negb (r =? 0) then remove_overlay_dir ov_dir ;; ret (-1)
      else
        let! r := check_overlay_was_applied ov_dir ov in
        if negb (r =? 0) then remove_overlay_dir ov_dir ;; ret (-1)
        else
          let! r := fpga_state in
          if negb (r =? 0) then remove_overlay_dir ov_dir ;; ret (-1)
          else ret 0.

Definition has_extension (extensions : list string) (name : string) : bool :=
  existsb (fun e => (strlen e <? strlen name)%nat &&
                    streq (str_drop (strlen name - strlen e) name) e) extensions.

Definition find_file_with_extensions (path : string) (extensions : list string) : M W (option string) :=
  let! entries := look (readdir path) in
  match entries with
  | None => ret None
  | Some l =>
      let hit e := match d_type e with DT_REG => has_extension extensions (d_name e) | _ => false end in
      ret (match List.find hit l with Some e => Some (join_path path (d_name e)) | None => None end)
  end.

Definition find_bitstream_file (path : string) : M W (option string) :=
  find_file_with_extensions path [".bin"; ".bit"; ".pdi"]%string.

Definition find_overlay_file (path : string) : M W (option string) :=
  find_file_with_extensions path [".dtbo"]%string.

(** [user_load_bitstream()]. [st] is the caller's fpga_state buffer ([None] is
    a NULL pointer) and [sz] its size; the result is the return value and the
    buffer's new contents. *)
Definition user_load_bitstream (bitstream overlay region : option string) (flags : Z)
    (aes_key : option string) (st : option string) (sz : Z) : M W (Z * option string) :=
  match bitstream with
  | None => ret (-1, st)
  | Some bitstream =>
      let! r := act (dfx_set_fpga_flags flags) in
      if negb (r =? 0) then ret (-1, st)
      else
        let! r :=
          match aes_key with
          | Some k =>
              if negb (Z.land flags DFX_ENCRYPTION_USERKEY_EN =? 0) && negb (streq k "")
              then act (dfx_set_fpga_key k) else ret 0
          | None => ret 0
          end in
        if negb (r =? 0) then ret (-1, st)
        else
          let! rv :=
            match overlay, region with
            | Some overlay, Some region =>
                act_ (dfx_set_firmware_search_path overlay) ;;
                user_load_overlay (path_basename overlay) region
            | _, _ =>
                act_ (dfx_set_firmware_search_path bitstream) ;;
                user_load_sysfs (path_basename bitstream)
            end in
          act_ (dfx_set_firmware_search_path "") ;;
          match st with
          | Some _ =>
              if negb (sz =? 0) then
                let! s := look (dfx_get_fpga_state sz) in
                ret (rv, Some (match s with Some s => s | None => ""%string end))
              else ret (rv, st)
          | None => ret (rv, st)
          end
  end.

Definition user_load_from_dir (search_path region : string) (is_partial : Z)
    (st : option string) (sz : Z) : M W (Z * option string) :=
  let! bitstream := find_bitstream_file search_path in
  match bitstream with
  | None => ret (-1, st)
  | Some b =>
      let! overlay := find_overlay_file search_path in
      user_load_bitstream (Some b) overlay (Some region) is_partial None st sz
  end.

Definition fpga_readback (type : Z) (out_path : string) : M W Z :=
  act (dfx_fpga_readback type out_path).

Definition readback_error_str (code : Z) : string :=
  if - code =? DFX_INVALID_PARAM then "invalid readback arguments (check name and -t 0 or -t 1)"
  else if - code =? DFX_INVALID_PLATFORM_ERROR then "PL readback is supported on ZynqMP only"
  else if - code =? DFX_READBACK_ERROR then "failed to write readback data to file"
  else "PL readback failed".

(** ** Lemmas *)

(** None of these operations can fault, whatever the environment does. *)
Lemma fpga_state_returns Q w : (forall r, r = 0 \/ r = -1 -> Q r w) -> safe fpga_state Q w.
Proof.
  intros HQ. unfold fpga_state. apply wp_bind, wp_look.
  destruct (dfx_get_fpga_state 128 w); [|apply HQ; lia].
  destruct (_ || _); apply HQ; lia.
Qed.

Lemma user_load_sysfs_returns bin w :
  safe (user_load_sysfs bin) (fun r _ => r = 0 \/ r = -1) w.
Proof.
  unfold user_load_sysfs. apply wp_bind, wp_act. destruct (negb _); [apply wp_ret; lia|].
  apply wp_bind. apply fpga_state_returns. intros r Hr. destruct (negb _); apply wp_ret; lia.
Qed.

Lemma check_overlay_returns dir req Q w :
  (forall r, r = 0 \/ r = -1 -> Q r w) -> safe (check_overlay_was_applied dir req) Q w.
Proof.
  intros HQ. unfold check_overlay_was_applied. apply wp_bind, wp_look.
  destruct (dfx_get_overlay_path dir 128 w); [|apply HQ; lia].
  destruct (negb _); [apply HQ; lia|]. apply wp_bind, wp_look.
  destruct (dfx_get_overlay_status dir 128 w); [|apply HQ; lia].
  destruct (negb _); apply HQ; lia.
Qed.

Lemma remove_overlay_dir_wp F dir Q w : Q tt (rmdir_ dir w).2 -> wp F (remove_overlay_dir dir) Q w.
Proof. intros. unfold remove_overlay_dir. by apply wp_bind, wp_act, wp_ret. Qed.

(** An overlay that does not apply leaves no configfs directory behind: either
    nothing was created, or the last action was [rmdir] of the directory. *)
Definition overlay_outcome (region : string) (w : W) (r : Z) (w' : W) : Prop :=
  (r = 0 /\ (mkdir_ (overlay_dir region) w).1 = 0) \/
  (r = -1 /\ (is_dir (overlay_dir region) w = true /\ w' = w \/
              (mkdir_ (overlay_dir region) w).1 <> 0 /\ w' = (mkdir_ (overlay_dir region) w).2 \/
              exists w1, w' = (rmdir_ (overlay_dir region) w1).2)).

Lemma user_load_overlay_outcome ov region w :
  safe (user_load_overlay ov region) (overlay_outcome region w) w.
Proof.
  unfold user_load_overlay, overlay_outcome. apply wp_bind, wp_look.
  destruct (is_dir _ w); [apply wp_ret; naive_solver|].
  apply wp_bind, wp_act.
  destruct (Z.eqb_spec (mkdir_ (overlay_dir region) w).1 0) as [Em|Em]; simpl; [|apply wp_ret; naive_solver].
  rewrite Em. set (w1 := (mkdir_ _ w).2).
  assert (Hrm : forall w2, safe (remove_overlay_dir (overlay_dir region) ;; ret (-1))
      (fun r w' => r = 0 /\ 0 = 0 \/ r = -1 /\ (false = true /\ w' = w \/ 0 <> 0 /\ w' = w1 \/
         exists w3, w' = (rmdir_ (overlay_dir region) w3).2)) w2).
  { intros w2. apply wp_bind, remove_overlay_dir_wp, wp_ret. right. split; [done|]. eauto. }
  apply wp_bind, wp_act. destruct (negb _); [apply Hrm|].
  apply wp_bind, check_overlay_returns. intros r _. destruct (negb _); [apply Hrm|].
  apply wp_bind, fpga_state_returns. intros r' _. destruct (negb _); [apply Hrm|].
  apply wp_ret. by left.
Qed.

Lemma find_file_safe path exts w : safe (find_file_with_extensions path exts) (fun _ w' => w' = w) w.
Proof. unfold find_file_with_extensions. apply wp_bind, wp_look. by destruct (readdir path w). Qed.

(** [user_load_bitstream] returns 0 or -1 and, once it starts programming,
    leaves the firmware search path reset. *)
Lemma user_load_bitstream_outcome bs ov region flags key st sz w :
  safe (user_load_bitstream bs ov region flags key st sz)
       (fun r w' => (r.1 = 0 /\ exists w1, w' = dfx_set_firmware_search_path "" w1) \/ r.1 = -1) w.
Proof.
  unfold user_load_bitstream. destruct bs as [bs|]; [|apply wp_ret; by right].
  apply wp_bind, wp_act. destruct (negb _); [apply wp_ret; by right|].
  apply wp_bind. apply (wp_mono _ _ (fun _ _ => True)).
  { destruct key; [destruct (_ && _); [apply wp_act|]|]; done. }
  intros r w1 _. destruct (negb _); [apply wp_ret; by right|].
  apply wp_bind. apply (wp_mono _ _ (fun rv _ => rv = 0 \/ rv = -1)).
  { destruct ov as [ov|], region as [region|]; apply wp_bind, wp_modify; try apply user_load_sysfs_returns.
    eapply wp_mono; [apply user_load_overlay_outcome|]. intros ? ? [[-> _]|[-> _]]; auto. }
  intros rv w2 Hrv. apply wp_bind, wp_modify.
  destruct st; [destruct (negb _); [apply wp_bind, wp_look|]|]; apply wp_ret; simpl;
    (destruct Hrv as [-> | ->]; [left; eauto | by right]).
Qed.

Lemma user_load_from_dir_returns path region p st sz w :
  safe (user_load_from_dir path region p st sz) (fun r _ => r.1 = 0 \/ r.1 = -1) w.
Proof.
  unfold user_load_from_dir. apply wp_bind. eapply wp_mono; [apply find_file_safe|].
  intros b ? ->. destruct b; [|apply wp_ret; by right].
  apply wp_bind. eapply wp_mono; [apply find_file_safe|]. intros o ? ->.
  eapply wp_mono; [apply user_load_bitstream_outcome|]. naive_solver.
Qed.

Lemma tame_find_file path exts : tame (find_file_with_extensions path exts).
Proof. intros w. apply wp_safe. eapply wp_mono; [apply find_file_safe|done]. Qed.
Lemma tame_user_load_bitstream bs ov region flags key st sz :
  tame (user_load_bitstream bs ov region flags key st sz).
Proof. intros w. apply wp_safe. eapply wp_mono; [apply user_load_bitstream_outcome|done]. Qed.
Lemma tame_user_load_from_dir path region p st sz : tame (user_load_from_dir path region p st sz).
Proof. intros w. apply wp_safe. eapply wp_mono; [apply user_load_from_dir_returns|done]. Qed.
End UserLoad.

#[export] Hint Resolve tame_find_file tame_user_load_bitstream tame_user_load_from_dir : tame.
