(* ===== verification/Device.v ===== *)
(** * Devices

    [src/device.c], [src/sys/linux/device.c], [src/sys/linux/generic-device.c]
    and [src/sys/linux/acapd-vfio-common.c]: opening and closing a device
    through UIO or VFIO, the reference count of [acapd_device_get] and
    [acapd_device_put], and the allocation of device addresses (IOVAs). *)
From S2P Require Import Prelude CStr Env Model.
Open Scope Z_scope.
Open Scope dfx_scope.

Definition O_RDONLY : Z := 0.
Definition O_WRONLY : Z := 1.
Definition O_RDWR : Z := 2.
Definition VFIO_CONTAINER : string := "/dev/vfio/vfio".
Definition uio_pdrv_genirq : string := "uio_pdrv_genirq".
Definition vfio_platform : string := "vfio-platform".

(** [printf("%s", p)] of a pointer that may be NULL. *)
Definition shown (o : option string) : string := default "(null)"%string o.

(** ** Device addresses

    [acapd_vfio_device_attach()] walks the mappings of the device, in order,
    and pushes the candidate address [da] past a mapping when the new one would
    end inside it. *)

Definition acapd_align_up (size align : Z) : Z := Z.land (u64 (size + align - 1)) (u64 (Z.lnot (align - 1))).

Definition da_step (size da : Z) (m : acapd_vfio_mmap) : Z :=
  let tmp := u64 (m_da m + m_size m) in
  if u64 (da + size) <? m_da m then da
  else if u64 (da + size) <=? tmp then tmp else da.
Definition choose_da (size : Z) (ms : list acapd_vfio_mmap) : Z := fold_left (da_step size) ms 0x1000.

(** [acapd_vfio_device_va_to_da()]: the first mapping that holds [va]. *)
Definition in_mmap (v : Z) (m : acapd_vfio_mmap) : bool := (m_va m <=? v) && (v <? m_va m + m_size m).
Definition va_to_da (ms : list acapd_vfio_mmap) (v : Z) : Z :=
  match List.find (in_mmap v) ms with
  | Some m => u64 (m_da m + (v - m_va m))
  | None => u64 (-1)
  end.

Section Device.
Context {W : Type} `{Env W}.

Definition get_dev (d : nat) : M (hw W) acapd_device :=
  let! h := get in the WildPtr (devs h !! d).
Definition mod_dev (d : nat) (f : acapd_device -> acapd_device) : M (hw W) unit :=
  let! x := get_dev d in modify (fun h => h <| devs ::= <[d := f x]> |>).
Definition errno_ret : M (hw W) Z := let! e := in_world (look get_errno) in ret (- e).

(** One open and write of a sysfs attribute; [Some r] leaves with [r].  The
    descriptor is closed after a failure; after a success only where [closes]. *)
Definition sysfs_write (closes : bool) (path data : string) : M (hw W) (option Z) :=
  let! fd := in_world (act (open_ path O_WRONLY)) in
  if fd <? 0 then let! r := errno_ret in ret (Some r)
  else
    let! r := in_world (act (write_fd fd data)) in
    (if closes || (r <? 0) then in_world (act_ (close_fd fd)) else ret tt) ;;
    ret (if r <? 0 then Some r else None).

(** ** UIO: [src/sys/linux/generic-device.c] *)

Definition bus_path (d : acapd_device) (rest : string) : string :=
  ("/sys/bus/" ++ shown (bus_name d) ++ rest)%string.

Definition unbind_entry (d : nat) (drv : string) (e : dirent) : M (hw W) (option Z) :=
  let! x := get_dev d in
  if (match d_type e with DT_DIR => true | _ => false end) && (strlen (d_name e) <=? 64)%nat then
    let! tmpstr := sprintf_into 384 (bus_path x ("/drivers/" ++ d_name e ++ "/" ++ shown (dev_name x))) in
    let! there := in_world (look (exists_ tmpstr)) in
    if there : bool then
      if streq (d_name e) drv then ret (Some 0)
      else
        let! tmpstr := sprintf_into 384 (bus_path x ("/drivers/" ++ d_name e ++ "/unbind")) in
        let! name := the NullArg (dev_name x) in
        sysfs_write true tmpstr name
    else ret None
  else ret None.

Definition acapd_generic_device_bind (d : nat) (drv : string) : M (hw W) Z :=
  mod_dev d (fun x => x <| bus_name ::= fun b => Some (default "platform"%string b) |>) ;;
  let! x := get_dev d in
  let! tmpstr := sprintf_into 384 (bus_path x "/drivers") in
  let! entries := in_world (look (readdir tmpstr)) in
  match entries with
  | None => errno_ret
  | Some l =>
      let! early := for_ret (unbind_entry d drv) l in
      match early with
      | Some r => ret r
      | None =>
          let! tmpstr := sprintf_into 384 (bus_path x ("/devices/" ++ shown (dev_name x) ++ "/driver_override")) in
          let! r := sysfs_write false tmpstr drv in
          match r with
          | Some r => ret r
          | None =>
              let! tmpstr := sprintf_into 384 (bus_path x ("/drivers/" ++ drv ++ "/bind")) in
              let! name := the NullArg (dev_name x) in
              let! r := sysfs_write true tmpstr name in
              match r with Some r => ret r | None => ret 0 end
          end
      end
  end.

Definition uio_entry (d : nat) (e : dirent) : M (hw W) (option Z) :=
  let! x := get_dev d in
  if (match d_type e with DT_DIR => true | _ => false end) && strneq (d_name e) "uio" 3 then
    let! tmpname := sprintf_into 8 (d_name e) in
    mod_dev d (fun x => x <| dpath := ("/dev/" ++ tmpname)%string |>) ;;
    let! tmpstr := sprintf_into 384
      (bus_path x ("/devices/" ++ shown (dev_name x) ++ "/uio/" ++ d_name e ++ "/maps/map0/size")) in
    let! fd := in_world (act (open_ tmpstr O_RDONLY)) in
    if fd <? 0 then let! r := errno_ret in ret (Some r)
    else
      let! size_str := in_world (look (read_fd fd 32)) in
      in_world (act_ (close_fd fd)) ;;
      match size_str with
      | None => ret (Some (-1))
      | Some s => mod_dev d (fun x => x <| reg_size := strtoull 16 s |>) ;; ret (Some 0)
      end
  else ret None.

Definition acapd_generic_device_get_uio_path (d : nat) : M (hw W) Z :=
  let! x := get_dev d in
  let! tmpstr := sprintf_into 384 (bus_path x ("/devices/" ++ shown (dev_name x) ++ "/uio")) in
  let! entries := in_world (look (readdir tmpstr)) in
  match entries with
  | None => errno_ret
  | Some l =>
      let! r := for_ret (uio_entry d) l in
      ret (default (- EINVAL) r)
  end.

(** The part of [acapd_generic_device_open()] that maps the register file. *)
Definition generic_device_map (d : nat) : M (hw W) Z :=
  let! x := get_dev d in
  let! there := in_world (look (exists_ (dpath x))) in
  if negb (strlen (dpath x) =? 0)%nat && there then
    let! fd := in_world (act (open_ (dpath x) O_RDWR)) in
    if fd <? 0 then ret (- EINVAL)
    else if reg_size x =? 0 then in_world (act_ (close_fd fd)) ;; ret (- EINVAL)
    else
      let! v := in_world (act (mmap_ (reg_size x) fd 0)) in
      match v with
      | None =>
          mod_dev d (fun x => x <| va := None |>) ;;
          in_world (act_ (close_fd fd)) ;; ret (- EINVAL)
      | Some v => mod_dev d (fun x => x <| va := Some v |> <| did := fd |>) ;; ret 0
      end
  else ret (- EINVAL).

Definition acapd_generic_device_open (d : nat) : M (hw W) Z :=
  let! x := get_dev d in
  if (if va x is Some _ then true else false) && (if priv x is Some _ then true else false) then ret 0
  else
    mod_dev d (fun x => x <| bus_name ::= fun b => Some (default "platform"%string b) |>) ;;
    let! x := get_dev d in
    let! there := in_world (look (exists_ (dpath x))) in
    if (strlen (dpath x) =? 0)%nat || negb there then
      match dev_name x with
      | Some _ =>
          let! r := acapd_generic_device_bind d uio_pdrv_genirq in
          if r <? 0 then ret (- EINVAL)
          else
            let! r := acapd_generic_device_get_uio_path d in
            if r <? 0 then ret (- EINVAL) else generic_device_map d
      | None => ret (- EINVAL)
      end
    else generic_device_map d.

Definition acapd_generic_device_close (d : nat) : M (hw W) Z :=
  let! x := get_dev d in
  match va x with
  | None => ret 0
  | Some _ =>
      mod_dev d (fun x => x <| va := None |>) ;;
      in_world (act_ (close_fd (did x))) ;; ret 0
  end.

(** ** VFIO: [src/sys/linux/acapd-vfio-common.c] *)

Definition acapd_vfio_bind (d : nat) : M (hw W) Z :=
  mod_dev d (fun x => x <| bus_name := Some "platform"%string |>) ;;
  let! there := in_world (look (exists_ "/sys/bus/platform/drivers/vfio-platform")) in
  if there : bool then acapd_generic_device_bind d vfio_platform else ret 0.

(** One turn of the region loop of [acapd_vfio_device_open()]. *)
Definition vfio_map_region (d : nat) (device : Z) (_ : nat) : M (hw W) (option Z) :=
  let! r := in_world (look (vfio_region_info device)) in
  let '(ret_, (mmapable, size, offset)) := r in
  if ret_ <? 0 then ret (Some (- EINVAL))
  else if mmapable : bool then
    let! v := in_world (act (mmap_ size device offset)) in
    match v with
    | None => mod_dev d (fun x => x <| va := None |>) ;; ret (Some (- EINVAL))
    | Some v => mod_dev d (fun x => x <| va := Some v |> <| reg_size := size |>) ;; ret None
    end
  else ret None.

Definition acapd_vfio_device_open (d : nat) : M (hw W) Z :=
  let! x := get_dev d in
  match priv x with
  | Some _ => ret 0
  | None =>
      let group_path := trunc 64 ("/dev/vfio/" ++ dec (iommu_group x)) in
      let! r := acapd_vfio_bind d in
      if r <? 0 then ret (- EINVAL)
      else
        let! c := in_world (act (open_ VFIO_CONTAINER O_RDWR)) in
        if c <? 0 then ret (- EINVAL)
        else
          let! g := in_world (act (open_ group_path O_RDWR)) in
          if g <? 0 then ret (- EINVAL)
          else
            let! r := in_world (act (vfio_set_container g c)) in
            if r <? 0 then ret (- EINVAL)
            else
              let! r := in_world (act (vfio_set_iommu c)) in
              if r <? 0 then ret (- EINVAL)
              else
                let! fd := in_world (act (vfio_get_device_fd g (shown (dev_name x)))) in
                if fd <? 0 then ret (- EINVAL)
                else
                  let! info := in_world (look (vfio_num_regions fd)) in
                  if info.1 <? 0 then ret (- EINVAL)
                  else
                    let! early := for_ret (vfio_map_region d fd) (seq 0 (Z.to_nat (u32 info.2))) in
                    match early with
                    | Some r => ret r
                    | None => mod_dev d (fun x => x <| priv := Some (Vfio c g fd []) |>) ;; ret 0
                    end
  end.

Definition acapd_vfio_device_close (d : nat) : M (hw W) Z :=
  let! x := get_dev d in
  match priv x with
  | None => ret 0
  | Some v =>
      mod_dev d (fun x => x <| priv := None |>) ;;
      for_each (fun m => let! _ := in_world (act (vfio_unmap_dma (container v) (m_da m) (m_size m))) in ret tt)
               (mmaps v) ;;
      ret 0
  end.

(** Attaching shared memory at [shm_va] of [shm_size] bytes; [None] is NULL. *)
Definition acapd_vfio_device_attach (d : nat) (shm_va shm_size : Z) : M (hw W) (option Z) :=
  let! x := get_dev d in
  match priv x with
  | None => ret None
  | Some v =>
      let size := acapd_align_up shm_size (4 * 1024) in
      let da := choose_da size (mmaps v) in
      let! r := in_world (act (vfio_map_dma (container v) shm_va da size)) in
      if negb (r =? 0) then ret None
      else
        mod_dev d (fun x => x <| priv := Some (v <| mmaps ::= fun l => l ++ [VfioMmap shm_va da size] |>) |>) ;;
        ret (Some shm_va)
  end.

Definition acapd_vfio_device_detach (d : nat) (shm_va shm_size : Z) : M (hw W) Z :=
  let! x := get_dev d in
  match priv x with
  | None => ret (- EINVAL)
  | Some v =>
      match find_index (fun m => m_va m =? shm_va) (mmaps v) with
      | None => ret (- EINVAL)
      | Some i =>
          let! m := the OutOfBounds (mmaps v !! i) in
          let! r := in_world (act (vfio_unmap_dma (container v) (m_da m) shm_size)) in
          mod_dev d (fun x => x <| priv := Some (v <| mmaps ::= delete i |>) |>) ;;
          ret r
      end
  end.

Definition acapd_vfio_device_va_to_da (d : nat) (v : Z) : M (hw W) Z :=
  let! x := get_dev d in
  match priv x with
  | None => ret (u64 (- EINVAL))
  | Some p => ret (va_to_da (mmaps p) v)
  end.

(** ** Dispatch and reference counts: [src/sys/linux/device.c], [src/device.c] *)

Definition dev_ops_open (o : dev_ops) (d : nat) : M (hw W) Z :=
  match o with
  | linux_generic_dev_ops => acapd_generic_device_open d
  | vfio_dev_ops => acapd_vfio_device_open d
  end.

Definition sys_device_open (d : nat) : M (hw W) Z :=
  let! x := get_dev d in
  match dops x with
  | Some o => dev_ops_open o d
  | None =>
      let drv := default uio_pdrv_genirq (driver x) in
      mod_dev d (fun x => x <| driver := Some drv |>) ;;
      if streq drv uio_pdrv_genirq then
        mod_dev d (fun x => x <| dops := Some linux_generic_dev_ops |>) ;;
        dev_ops_open linux_generic_dev_ops d
      else if streq drv vfio_platform then
        mod_dev d (fun x => x <| dops := Some vfio_dev_ops |>) ;;
        dev_ops_open vfio_dev_ops d
      else ret (- EINVAL)
  end.

Definition acapd_device_open (d : nat) : M (hw W) Z := sys_device_open d.

Definition acapd_device_close (d : nat) : M (hw W) Z :=
  let! x := get_dev d in
  match dops x with
  | Some linux_generic_dev_ops => acapd_generic_device_close d
  | Some vfio_dev_ops => acapd_vfio_device_close d
  | None => ret 0
  end.

Definition acapd_device_get (d : nat) : M (hw W) Z :=
  let! x := get_dev d in
  let! r := match priv x with
            | None => mod_dev d (fun x => x <| refs := 0 |>) ;; acapd_device_open d
            | Some _ => ret 0
            end in
  if r <? 0 then ret (- EINVAL)
  else mod_dev d (fun x => x <| refs ::= fun r => int32 (r + 1) |>) ;; ret 0.

Definition acapd_device_put (d : nat) : M (hw W) Z :=
  let! x := get_dev d in
  match priv x with
  | None => ret 0
  | Some _ =>
      if refs x =? 0 then ret 0
      else
        mod_dev d (fun x => x <| refs ::= fun r => int32 (r - 1) |>) ;;
        if int32 (refs x - 1) =? 0 then acapd_device_close d else ret 0
  end.

(** [NULL] is printed, and returned. *)
Definition acapd_device_get_reg_va (d : nat) : M (hw W) (option Z) := let! x := get_dev d in ret (va x).
Definition acapd_device_get_id (d : nat) : M (hw W) Z := let! x := get_dev d in ret (did x).

(** ** Lemmas *)

Lemma tame_get_dev d : tame (get_dev d).
Proof. unfold get_dev. tame_go. Qed.
Lemma tame_mod_dev d f : tame (mod_dev d f).
Proof. unfold mod_dev. pose proof tame_get_dev. tame_go. Qed.
Lemma tame_errno_ret : tame errno_ret.
Proof. unfold errno_ret. tame_go. Qed.
#[local] Hint Resolve tame_get_dev tame_mod_dev tame_errno_ret : tame.
Lemma tame_sysfs_write b p x : tame (sysfs_write b p x).
Proof. unfold sysfs_write. tame_go. Qed.
#[local] Hint Resolve tame_sysfs_write : tame.
Lemma tame_unbind_entry d drv e : tame (unbind_entry d drv e).
Proof. unfold unbind_entry. tame_go. Qed.
#[local] Hint Resolve tame_unbind_entry : tame.
Lemma tame_generic_bind d drv : tame (acapd_generic_device_bind d drv).
Proof. unfold acapd_generic_device_bind. tame_go. Qed.
Lemma tame_uio_entry d e : tame (uio_entry d e).
Proof. unfold uio_entry. tame_go. Qed.
#[local] Hint Resolve tame_generic_bind tame_uio_entry : tame.
Lemma tame_uio_path d : tame (acapd_generic_device_get_uio_path d).
Proof. unfold acapd_generic_device_get_uio_path. tame_go. Qed.
Lemma tame_generic_map d : tame (generic_device_map d).
Proof. unfold generic_device_map. tame_go. Qed.
#[local] Hint Resolve tame_uio_path tame_generic_map : tame.
Lemma tame_generic_open d : tame (acapd_generic_device_open d).
Proof. unfold acapd_generic_device_open. tame_go. Qed.
Lemma tame_generic_close d : tame (acapd_generic_device_close d).
Proof. unfold acapd_generic_device_close. tame_go. Qed.
Lemma tame_vfio_bind d : tame (acapd_vfio_bind d).
Proof. unfold acapd_vfio_bind. tame_go. Qed.
Lemma tame_vfio_map_region d v i : tame (vfio_map_region d v i).
Proof. unfold vfio_map_region. tame_go. Qed.
#[local] Hint Resolve tame_vfio_bind tame_vfio_map_region : tame.
Lemma tame_vfio_open d : tame (acapd_vfio_device_open d).
Proof. unfold acapd_vfio_device_open. tame_go. Qed.
Lemma tame_vfio_close d : tame (acapd_vfio_device_close d).
Proof. unfold acapd_vfio_device_close. tame_go. Qed.
#[local] Hint Resolve tame_generic_open tame_generic_close tame_vfio_open tame_vfio_close : tame.
Lemma tame_device_open d : tame (acapd_device_open d).
Proof. unfold acapd_device_open, sys_device_open, dev_ops_open. tame_go. Qed.
Lemma tame_device_close d : tame (acapd_device_close d).
Proof. unfold acapd_device_close. tame_go. Qed.
End Device.

#[export] Hint Resolve tame_get_dev tame_mod_dev tame_errno_ret tame_device_open tame_device_close : tame.
