(* ===== verification/Dma.v ===== *)
(** * DMA channels

    [src/dma.c] and the two channel drivers [src/sys/linux/dma-axidma-vfio.c]
    and [src/sys/linux/dma-mcdma-vfio.c]: the driver is selected by the
    channel's [ops] pointer, and touches the registers of the channel's device
    through its mapping. *)
From S2P Require Import Prelude CStr Env Model Device.
Open Scope Z_scope.
Open Scope dfx_scope.

(** ** Constants *)

Definition ACAPD_CHNL_IDLE : Z := 0.
Definition ACAPD_CHNL_INPROGRESS : Z := 1.
Definition ACAPD_CHNL_STALLED : Z := 2.
Definition ACAPD_CHNL_ERRORS : Z := 4.

Definition XAXIDMA_TX_OFFSET : Z := 0x0.
Definition XAXIDMA_RX_OFFSET : Z := 0x30.
Definition XAXIDMA_CR_OFFSET : Z := 0x0.
Definition XAXIDMA_SR_OFFSET : Z := 0x4.
Definition XAXIDMA_SRCADDR_OFFSET : Z := 0x18.
Definition XAXIDMA_SRCADDR_MSB_OFFSET : Z := 0x1C.
Definition XAXIDMA_DESTADDR_OFFSET : Z := 0x18.
Definition XAXIDMA_DESTADDR_MSB_OFFSET : Z := 0x1C.
Definition XAXIDMA_BUFFLEN_OFFSET : Z := 0x28.
Definition XAXIDMA_CR_RUNSTOP_MASK : Z := 0x1.
Definition XAXIDMA_CR_RESET_MASK : Z := 0x4.
Definition XAXIDMA_HALTED_MASK : Z := 0x1.
Definition XAXIDMA_IDLE_MASK : Z := 0x2.
Definition XAXIDMA_ERR_ALL_MASK : Z := 0x770.

Definition MM2S_CR : Z := 0x0.
Definition MM2S_SR : Z := 0x4.
Definition S2MM_CR : Z := 0x500.
Definition S2MM_SR : Z := 0x504.
Definition MM2S_CHEN : Z := 0x8.
Definition MM2S_ERR : Z := 0x10.
Definition MM2S_CH1CR : Z := 0x40.
Definition MM2S_CH1CURDESC_LSB : Z := 0x48.
Definition MM2S_CH1CURDESC_MSB : Z := 0x4C.
Definition MM2S_CH1TAILDESC_LSB : Z := 0x50.
Definition MM2S_CH1TAILDESC_MSB : Z := 0x54.
Definition S2MM_CHEN : Z := 0x508.
Definition S2MM_ERR : Z := 0x510.
Definition S2MM_CH1CR : Z := 0x540.
Definition S2MM_CH1CURDESC_LSB : Z := 0x548.
Definition S2MM_CH1CURDESC_MSB : Z := 0x54C.
Definition S2MM_CH1TAILDESC_LSB : Z := 0x550.
Definition S2MM_CH1TAILDESC_MSB : Z := 0x554.
Definition MCDMA_BD_SIZE : Z := 0x40.
Definition MCDMA_CHANNELS_MASK : Z := 0x1.
Definition MCDMA_CHANNEL_FETCH_MASK : Z := 0x1.
Definition MCDMA_RUNSTOP_MASK : Z := 0x1.
Definition MCDMA_IDLE_MASK : Z := 0x2.
Definition MCDMA_HALTED_MASK : Z := 0x1.
Definition MCDMA_RESET_MASK : Z := 0x4.

(** How many times a busy-wait on the hardware is unrolled. *)
Definition POLL_FUEL : nat := 4096.

Definition is_write (c : acapd_chnl) : bool := bool_decide (dir c = Some ACAPD_DMA_DEV_W).
Definition has_bits (v mask : Z) : bool := negb (Z.land v mask =? 0).

(** [acapd_dma_config_t]: the shared memory by its number; the stride, the
    fence and [auto_repeat] are set and never read. *)
Record acapd_dma_config := DmaConfig { cfg_shm : option nat; cfg_va : Z; cfg_size : Z; cfg_tid : Z }.
Definition acapd_dma_init_config (shm : option nat) (va size tid : Z) : acapd_dma_config :=
  DmaConfig shm va size tid.

Section Dma.
Context {W : Type} `{Env W}.

Definition rd (a : Z) : M (hw W) Z := in_world (act (reg_read a)).
Definition wr (a v : Z) : M (hw W) unit := in_world (act_ (reg_write a (u32 v))).

(** [dev = chnl->dev], whose members are used next: [acapd_assert()] does nothing
    in the Linux build, which does not define DEBUG. *)
Definition chnl_dev (c : acapd_chnl) : M (hw W) nat := the NullDeref (cdev c).
(** [base_va = dev->va], and the registers at it. *)
Definition chnl_va (c : acapd_chnl) : M (hw W) (option Z) :=
  let! d := chnl_dev c in let! x := get_dev d in ret (va x).
Definition chnl_base (c : acapd_chnl) : M (hw W) Z := let! v := chnl_va c in the NullDeref v.

(** [dev->ops->va_to_da(dev, va)]: the UIO operations have no [va_to_da]. *)
Definition dev_va_to_da (d : nat) (v : Z) : M (hw W) Z :=
  let! x := get_dev d in
  match dops x with
  | Some vfio_dev_ops => acapd_vfio_device_va_to_da d v
  | _ => crash NullDeref
  end.

(** ** AXI DMA *)

Definition axi_dir_offset (c : acapd_chnl) : Z :=
  if is_write c then XAXIDMA_TX_OFFSET else XAXIDMA_RX_OFFSET.

Definition axidma_vfio_dma_transfer (c : acapd_chnl) (cfg : acapd_dma_config) : M (hw W) Z :=
  let! base_va := chnl_va c in
  let! d := chnl_dev c in
  let! da := dev_va_to_da d (cfg_va cfg) in
  if da =? u64 (-1) then ret (- EINVAL)
  else
    let! base := the NullDeref base_va in
    let base := base + axi_dir_offset c in
    let! v := rd (base + XAXIDMA_CR_OFFSET) in
    wr (base + XAXIDMA_CR_OFFSET) (Z.lor v XAXIDMA_CR_RUNSTOP_MASK) ;;
    let! v := rd (base + XAXIDMA_SR_OFFSET) in
    if has_bits v XAXIDMA_HALTED_MASK then ret (- EINVAL)
    else
      wr (base + (if is_write c then XAXIDMA_SRCADDR_OFFSET else XAXIDMA_DESTADDR_OFFSET))
         (Z.land da 0xFFFFFFFF) ;;
      wr (base + (if is_write c then XAXIDMA_SRCADDR_MSB_OFFSET else XAXIDMA_DESTADDR_MSB_OFFSET))
         (Z.shiftr (Z.land da 0xFFFFFFFF00000000) 32) ;;
      wr (base + XAXIDMA_BUFFLEN_OFFSET) (cfg_size cfg) ;;
      ret (int32 (cfg_size cfg)).

Definition axidma_vfio_dma_stop (c : acapd_chnl) : M (hw W) Z :=
  let! base := chnl_base c in
  let base := base + axi_dir_offset c in
  let! v := rd (base + XAXIDMA_CR_OFFSET) in
  wr (base + XAXIDMA_CR_OFFSET) (Z.land v (Z.lnot XAXIDMA_CR_RUNSTOP_MASK)) ;;
  ret 0.

Definition axidma_vfio_dma_poll (c : acapd_chnl) : M (hw W) Z :=
  let! base := chnl_base c in
  let base := base + axi_dir_offset c in
  let! v := rd (base + XAXIDMA_CR_OFFSET) in
  if negb (has_bits v XAXIDMA_CR_RUNSTOP_MASK) then ret ACAPD_CHNL_IDLE
  else
    let! v := rd (base + XAXIDMA_SR_OFFSET) in
    ret (if has_bits v XAXIDMA_ERR_ALL_MASK then ACAPD_CHNL_ERRORS
         else if has_bits v XAXIDMA_IDLE_MASK then ACAPD_CHNL_IDLE
         else ACAPD_CHNL_INPROGRESS).

Definition axidma_vfio_dma_reset (c : acapd_chnl) : M (hw W) Z :=
  let! base := chnl_base c in
  wr (base + axi_dir_offset c + XAXIDMA_CR_OFFSET) XAXIDMA_CR_RESET_MASK ;; ret 0.

(** [do v = read(a); while (v & RESET)]. *)
Fixpoint wait_reset (fuel : nat) (a : Z) : M (hw W) unit :=
  match fuel with
  | O => crash OutOfFuel
  | S n => let! v := rd a in if has_bits v XAXIDMA_CR_RESET_MASK then wait_reset n a else ret tt
  end.

Definition axi_reset_and_wait (d : nat) : M (hw W) unit :=
  let! x := get_dev d in
  let! base := the NullDeref (va x) in
  let reg_va := base + XAXIDMA_TX_OFFSET + XAXIDMA_CR_OFFSET in
  wr reg_va XAXIDMA_CR_RESET_MASK ;; wait_reset POLL_FUEL reg_va.

Definition axidma_vfio_dma_open (c : acapd_chnl) : M (hw W) Z :=
  let! d := chnl_dev c in
  let! r := acapd_device_get d in
  if r <? 0 then ret (- EINVAL)
  else
    let! x := get_dev d in
    (if refs x =? 1 then axi_reset_and_wait d else ret tt) ;; ret 0.

Definition axidma_vfio_dma_close (c : acapd_chnl) : M (hw W) Z :=
  let! d := chnl_dev c in
  let! x := get_dev d in
  (if refs x =? 1 then axi_reset_and_wait d else ret tt) ;;
  acapd_device_put d.

(** ** MCDMA *)

Definition mcdma_cr (c : acapd_chnl) : Z := if is_write c then MM2S_CR else S2MM_CR.

Definition mcdma_vfio_dma_stop (c : acapd_chnl) : M (hw W) Z :=
  let! base := chnl_base c in
  let! v := rd (base + mcdma_cr c) in
  wr (base + mcdma_cr c) (Z.land v (Z.lnot MCDMA_RUNSTOP_MASK)) ;; ret 0.

Definition mcdma_vfio_dma_poll (c : acapd_chnl) : M (hw W) Z :=
  let! base := chnl_base c in
  let! v := rd (base + (if is_write c then MM2S_SR else S2MM_SR)) in
  ret (if has_bits v MCDMA_HALTED_MASK then ACAPD_CHNL_STALLED
       else if has_bits v MCDMA_IDLE_MASK then ACAPD_CHNL_IDLE
       else ACAPD_CHNL_INPROGRESS).

Definition mcdma_vfio_dma_reset (c : acapd_chnl) : M (hw W) Z :=
  let! base := chnl_base c in
  wr (base + mcdma_cr c) MCDMA_RESET_MASK ;; ret 0.

Definition mcdma_pulse_reset (d : nat) : M (hw W) unit :=
  let! x := get_dev d in
  let! base := the NullDeref (va x) in
  wr (base + MM2S_CR) MCDMA_RESET_MASK ;;
  in_world (act_ (usleep 1000000)) ;;
  wr (base + MM2S_CR) 0.

Definition mcdma_vfio_dma_open (c : acapd_chnl) : M (hw W) Z :=
  let! d := chnl_dev c in
  let! r := acapd_device_get d in
  if r <? 0 then ret (- EINVAL)
  else
    let! x := get_dev d in
    (if refs x =? 1 then mcdma_pulse_reset d else ret tt) ;; ret 0.

Definition mcdma_vfio_dma_close (c : acapd_chnl) : M (hw W) Z :=
  let! d := chnl_dev c in
  let! x := get_dev d in
  (if refs x =? 1 then mcdma_pulse_reset d else ret tt) ;;
  acapd_device_put d.

(** ** [src/dma.c] *)

Definition ops_open (o : dma_ops) := match o with
  | axidma_vfio_dma_ops => axidma_vfio_dma_open | mcdma_vfio_dma_ops => mcdma_vfio_dma_open end.
Definition ops_close (o : dma_ops) := match o with
  | axidma_vfio_dma_ops => axidma_vfio_dma_close | mcdma_vfio_dma_ops => mcdma_vfio_dma_close end.
Definition ops_stop (o : dma_ops) := match o with
  | axidma_vfio_dma_ops => axidma_vfio_dma_stop | mcdma_vfio_dma_ops => mcdma_vfio_dma_stop end.
Definition ops_reset (o : dma_ops) := match o with
  | axidma_vfio_dma_ops => axidma_vfio_dma_reset | mcdma_vfio_dma_ops => mcdma_vfio_dma_reset end.
Definition ops_poll (o : dma_ops) := match o with
  | axidma_vfio_dma_ops => axidma_vfio_dma_poll | mcdma_vfio_dma_ops => mcdma_vfio_dma_poll end.

Definition acapd_dma_stop (c : acapd_chnl) : M (hw W) Z :=
  match cops c with None => ret (- EINVAL) | Some o => ops_stop o c end.

Definition acapd_dma_reset (c : acapd_chnl) : M (hw W) Z :=
  match cops c with None => ret (- EINVAL) | Some o => ops_reset o c end.

(** The [do .. while (wait_for_complete)] loop. *)
Fixpoint poll_loop (fuel : nat) (o : dma_ops) (c : acapd_chnl) (wait : bool) : M (hw W) Z :=
  match fuel with
  | O => crash OutOfFuel
  | S n =>
      let! status := ops_poll o c in
      if status =? ACAPD_CHNL_ERRORS then ret (- status)
      else if status =? ACAPD_CHNL_IDLE then ret 0
      else if status =? ACAPD_CHNL_STALLED then ret ACAPD_CHNL_STALLED
      else if wait then poll_loop n o c wait else ret ACAPD_CHNL_INPROGRESS
  end.
Definition acapd_dma_poll (c : acapd_chnl) (wait : bool) : M (hw W) Z :=
  match cops c with None => ret (- EINVAL) | Some o => poll_loop POLL_FUEL o c wait end.

(** The result and the channel. *)
Definition acapd_dma_open (c : acapd_chnl) : M (hw W) (Z * acapd_chnl) :=
  if is_open c then ret (0, c)
  else
    match cops c with
    | None => ret (- EINVAL, c)
    | Some o =>
        let! r := ops_open o c in
        if negb (r =? 0) then ret (- EINVAL, c) else ret (0, c <| is_open := true |>)
    end.

Definition acapd_dma_close (c : acapd_chnl) : M (hw W) (Z * acapd_chnl) :=
  if negb (is_open c) then ret (0, c)
  else
    let c := c <| is_open := false |> in
    match cops c with
    | None => ret (0, c)
    | Some o => let! r := ops_close o c in ret (r, c)
    end.

Definition acapd_create_dma_channel (d : option nat) (id : Z) (dr : acapd_dir) (c : acapd_chnl) :
    M (hw W) (Z * acapd_chnl) :=
  match d with
  | None => ret (- EINVAL, c)
  | Some d => acapd_dma_open (c <| cdev := Some d |> <| chnl_id := id |> <| dir := Some dr |>)
  end.

Definition acapd_destroy_dma_channel (c : acapd_chnl) : M (hw W) (Z * acapd_chnl) := acapd_dma_close c.
End Dma.
