(* ===== verification/Ring.v ===== *)
(** * Intrusive lists

    [src/helper.h]: circular doubly linked lists whose head and nodes are
    embedded in other structures.  The store maps the address of a node to its
    [next] and [prev]; reading or writing a node that is not there is a fault.
    [ring m h l] says that the list of head [h] holds the nodes [l]; the
    operations act on it as on a sequence. *)
From stdpp Require Import gmap.
From S2P Require Import Prelude.
Open Scope dfx_scope.

Section Ring.
Context {N : Type} `{Countable N}.

Record acapd_list := Links { next : N; prev : N }.
#[local] Abbreviation store := (gmap N acapd_list).

Definition get_node (x : N) : M store acapd_list := fun m => the WildPtr (m !! x) m.
Definition set_next (x v : N) : M store unit :=
  let! n := get_node x in modify (<[x := Links v (prev n)]>).
Definition set_prev (x v : N) : M store unit :=
  let! n := get_node x in modify (<[x := Links (next n) v]>).

Definition acapd_list_init (l : N) : M store unit :=
  set_prev l l ;; set_next l l.

(** The last two assignments go through [new_node]'s own pointers, as written. *)
Definition acapd_list_add_before (node new_node : N) : M store unit :=
  let! n := get_node node in
  set_prev new_node (prev n) ;;
  set_next new_node node ;;
  let! w := get_node new_node in set_prev (next w) new_node ;;
  let! w := get_node new_node in set_next (prev w) new_node.

Definition acapd_list_add_after (node new_node : N) : M store unit :=
  set_prev new_node node ;;
  let! n := get_node node in
  set_next new_node (next n) ;;
  let! w := get_node new_node in set_prev (next w) new_node ;;
  let! w := get_node new_node in set_next (prev w) new_node.

Definition acapd_list_add_head (l node : N) : M store unit := acapd_list_add_after l node.
Definition acapd_list_add_tail (l node : N) : M store unit := acapd_list_add_before l node.

Definition acapd_list_is_empty (l : N) : M store bool :=
  let! n := get_node l in ret (bool_decide (next n = l)).

Definition acapd_list_del (node : N) : M store unit :=
  let! n := get_node node in
  set_prev (next n) (prev n) ;;
  let! n := get_node node in
  set_next (prev n) (next n) ;;
  set_prev node node ;;
  set_next node node.

Definition acapd_list_first (l : N) : M store (option N) :=
  let! e := acapd_list_is_empty l in
  if e : bool then ret None else let! n := get_node l in ret (Some (next n)).

(** [acapd_list_for_each(list, node)] with a body that may leave the enclosing
    function: from [node] on, [Some r] is [return r]. *)
Fixpoint each_from {R} (fuel : nat) (l node : N) (body : N -> M store (option R)) : M store (option R) :=
  match fuel with
  | O => crash OutOfFuel
  | S f =>
      if bool_decide (node = l) then ret None
      else
        let! r := body node in
        match r with
        | Some r => ret (Some r)
        | None => let! n := get_node node in each_from f l (next n) body
        end
  end.
Definition acapd_list_for_each {R} (fuel : nat) (l : N) (body : N -> M store (option R)) : M store (option R) :=
  let! n := get_node l in each_from fuel l (next n) body.

(** [acapd_list_for_each_safe(list, node, tmp)]: [tmp] is read before the body, which
    may unlink or free the node. *)
Fixpoint each_safe_from (fuel : nat) (l node tmp : N) (body : N -> M store unit) : M store unit :=
  match fuel with
  | O => crash OutOfFuel
  | S f =>
      if bool_decide (node = l) then ret tt
      else body node ;; let! n := get_node tmp in each_safe_from f l tmp (next n) body
  end.
Definition acapd_list_for_each_safe (fuel : nat) (l : N) (body : N -> M store unit) : M store unit :=
  let! n := get_node l in
  let node := next n in
  let! n := get_node node in each_safe_from fuel l node (next n) body.

(** [delete_rpmsg_dev_list()] of [src/rpu.c]: every node is unlinked and freed. *)
Definition unlink_free (node : N) : M store unit := acapd_list_del node ;; modify (delete node).
Definition delete_rpmsg_dev_list (o : option N) : M store unit :=
  match o with
  | None => ret tt
  | Some l => let! m := get in acapd_list_for_each_safe (S (size m)) l unlink_free
  end.

(** ** The sequence a store represents *)

Definition nx (m : store) (x : N) : option N := next <$> m !! x.
Definition pv (m : store) (x : N) : option N := prev <$> m !! x.

(** From [a] on, both links along [l]. *)
Fixpoint linked (m : store) (a : N) (l : list N) : Prop :=
  match l with
  | [] => True
  | x :: l => nx m a = Some x /\ pv m x = Some a /\ linked m x l
  end.
Definition ring (m : store) (h : N) (l : list N) : Prop := NoDup (h :: l) /\ linked m h (l ++ [h]).

Fixpoint end_of (a : N) (l : list N) : N := match l with [] => a | x :: l => end_of x l end.

Lemma linked_app m a l1 l2 : linked m a (l1 ++ l2) <-> linked m a l1 /\ linked m (end_of a l1) l2.
Proof. revert a. induction l1 as [|x l1 IH]; intros a; simpl; [tauto|]. rewrite IH. tauto. Qed.

Lemma end_of_snoc a l x : end_of a (l ++ [x]) = x.
Proof. revert a. induction l as [|y l IH]; intros a; simpl; [done|]. apply IH. Qed.
Lemma end_of_in a l : end_of a l ∈ a :: l.
Proof. revert a. induction l as [|x l IH]; intros a; simpl; [by left|]. right. apply IH. Qed.

(** Only the [next] of the nodes before the last and the [prev] of the others
    matter. *)
Lemma linked_ext m m' a l :
  (forall x, x ∈ a :: l -> x <> end_of a l -> nx m' x = nx m x) ->
  (forall x, x ∈ l -> pv m' x = pv m x) ->
  NoDup (a :: l) -> linked m a l -> linked m' a l.
Proof.
  revert a. induction l as [|x l IH]; intros a Hn Hp Hd; simpl; [done|]. intros (Hax & Hxa & Hl).
  apply NoDup_cons in Hd as [Ha Hd].
  split_and!.
  - rewrite Hn; [done|by left|]. simpl. intros E. apply Ha. rewrite E. apply end_of_in.
  - rewrite Hp; [done|by left].
  - apply IH; [|intros y Hy; apply Hp; by right|done|done].
    intros y Hy He. apply Hn; [by right|done].
Qed.

(** ** Single assignments *)

Lemma nx_Some m x v : nx m x = Some v -> exists n, m !! x = Some n /\ next n = v.
Proof. unfold nx. intros (n & Hn & E)%fmap_Some. by exists n. Qed.
Lemma pv_Some m x v : pv m x = Some v -> exists n, m !! x = Some n /\ prev n = v.
Proof. unfold pv. intros (n & Hn & E)%fmap_Some. by exists n. Qed.

Definition with_next (m : store) (x v : N) : store :=
  match m !! x with Some n => <[x := Links v (prev n)]> m | None => m end.
Definition with_prev (m : store) (x v : N) : store :=
  match m !! x with Some n => <[x := Links (next n) v]> m | None => m end.

Lemma set_next_eq m x v : is_Some (m !! x) -> set_next x v m = Ret tt (with_next m x v).
Proof. intros [n Hn]. unfold set_next, with_next, get_node, bind. by rewrite Hn. Qed.
Lemma set_prev_eq m x v : is_Some (m !! x) -> set_prev x v m = Ret tt (with_prev m x v).
Proof. intros [n Hn]. unfold set_prev, with_prev, get_node, bind. by rewrite Hn. Qed.

Lemma nx_with_next m x v y : is_Some (m !! x) -> nx (with_next m x v) y = if decide (y = x) then Some v else nx m y.
Proof.
  intros [n Hn]. unfold nx, with_next. rewrite Hn. destruct (decide (y = x)) as [->|].
  - by rewrite lookup_insert_eq.
  - by rewrite lookup_insert_ne.
Qed.
Lemma pv_with_next m x v y : pv (with_next m x v) y = pv m y.
Proof.
  unfold pv, with_next. destruct (m !! x) as [n|] eqn:Hn; [|done]. destruct (decide (y = x)) as [->|].
  - by rewrite lookup_insert_eq, Hn.
  - by rewrite lookup_insert_ne.
Qed.
Lemma pv_with_prev m x v y : is_Some (m !! x) -> pv (with_prev m x v) y = if decide (y = x) then Some v else pv m y.
Proof.
  intros [n Hn]. unfold pv, with_prev. rewrite Hn. destruct (decide (y = x)) as [->|].
  - by rewrite lookup_insert_eq.
  - by rewrite lookup_insert_ne.
Qed.
Lemma nx_with_prev m x v y : nx (with_prev m x v) y = nx m y.
Proof.
  unfold nx, with_prev. destruct (m !! x) as [n|] eqn:Hn; [|done]. destruct (decide (y = x)) as [->|].
  - by rewrite lookup_insert_eq, Hn.
  - by rewrite lookup_insert_ne.
Qed.
Lemma with_next_Some m x v y : is_Some (with_next m x v !! y) <-> is_Some (m !! y).
Proof.
  unfold with_next. destruct (m !! x) as [n|] eqn:Hn; [|done]. destruct (decide (y = x)) as [->|].
  - rewrite lookup_insert_eq, Hn. split; intros _; by eexists.
  - by rewrite lookup_insert_ne.
Qed.
Lemma with_prev_Some m x v y : is_Some (with_prev m x v !! y) <-> is_Some (m !! y).
Proof.
  unfold with_prev. destruct (m !! x) as [n|] eqn:Hn; [|done]. destruct (decide (y = x)) as [->|].
  - rewrite lookup_insert_eq, Hn. split; intros _; by eexists.
  - by rewrite lookup_insert_ne.
Qed.

(** Running an operation on a node whose fields are known. *)
Lemma get_node_links {A} m x p n (k : acapd_list -> M store A) :
  pv m x = Some p -> nx m x = Some n -> bind (get_node x) k m = k (Links n p) m.
Proof.
  intros (v & Hv & Ev)%pv_Some (w & Hw & Ew)%nx_Some. unfold bind, get_node. rewrite Hv. cbn.
  assert (w = v) as -> by congruence. destruct v; simpl in *; congruence.
Qed.

(** ** The operations *)

(** The store after [y] is put between the neighbours [p] and [q]. *)
Definition spliced (m : store) (p y q : N) : store -> Prop := fun m' =>
  (forall x, pv m' x = if decide (x = y) then Some p else if decide (x = q) then Some y else pv m x) /\
  (forall x, nx m' x = if decide (x = y) then Some q else if decide (x = p) then Some y else nx m x).

Lemma is_Some_nx m x v : nx m x = Some v -> is_Some (m !! x).
Proof. intros (n & ? & _)%nx_Some. by exists n. Qed.
Lemma is_Some_pv m x v : pv m x = Some v -> is_Some (m !! x).
Proof. intros (n & ? & _)%pv_Some. by exists n. Qed.
Lemma nx_is_Some m x : is_Some (m !! x) -> exists n p, nx m x = Some n /\ pv m x = Some p.
Proof. intros [[n p] Hx]. exists n, p. unfold nx, pv. by rewrite Hx. Qed.

(** Both insertions end with the same two assignments: the new node points at
    its neighbours, and they do not point at it yet. *)
Definition hooked (m : store) (p y q : N) (m' : store) : Prop :=
  (forall x, pv m' x = if decide (x = y) then Some p else pv m x) /\
  (forall x, nx m' x = if decide (x = y) then Some q else nx m x).

Lemma hook_both m p y q m' :
  hooked m p y q m' -> is_Some (m !! p) -> is_Some (m !! q) -> y <> p -> y <> q ->
  exists m'', (let! w := get_node y in set_prev (next w) y ;;
               let! w := get_node y in set_next (prev w) y) m' = Ret tt m'' /\
              spliced m p y q m''.
Proof.
  intros [Hp Hn] Sp Sq Hyp Hyq.
  assert (Sq' : is_Some (m' !! q)).
  { destruct (nx_is_Some _ _ Sq) as (? & _ & E & _). eapply (is_Some_nx _ _ _). rewrite Hn, decide_False by done. exact E. }
  assert (Sp' : is_Some (m' !! p)).
  { destruct (nx_is_Some _ _ Sp) as (? & _ & E & _). eapply (is_Some_nx _ _ _). rewrite Hn, decide_False by done. exact E. }
  exists (with_next (with_prev m' q y) p y). split.
  - rewrite (get_node_links m' y p q); [|rewrite Hp|rewrite Hn]; [|by rewrite decide_True..].
    cbn [next]. rewrite (bind_Ret _ _ _ _ _ (set_prev_eq m' q y Sq')). rewrite (get_node_links _ y p q).
    + apply set_next_eq. by apply with_prev_Some.
    + rewrite pv_with_prev, decide_False by done. by rewrite Hp, decide_True.
    + rewrite nx_with_prev. by rewrite Hn, decide_True.
  - split; intros x.
    + rewrite pv_with_next, pv_with_prev, Hp by done. destruct (decide (x = q)), (decide (x = y)); congruence.
    + rewrite nx_with_next by (by apply with_prev_Some). rewrite nx_with_prev, Hn.
      destruct (decide (x = p)), (decide (x = y)); congruence.
Qed.

Section Splice.
Context (m : store) (p y q : N).
Hypothesis Hp : nx m p = Some q.
Hypothesis Hq : pv m q = Some p.
Hypothesis Hy : is_Some (m !! y).
Hypothesis Hyp : y <> p.
Hypothesis Hyq : y <> q.

Lemma hooked_now : hooked m p y q (with_next (with_prev m y p) y q).
Proof.
  assert (Sy : is_Some (with_prev m y p !! y)) by (by apply with_prev_Some).
  split; intros x.
  - by rewrite pv_with_next, pv_with_prev.
  - by rewrite nx_with_next, nx_with_prev.
Qed.

Lemma add_before_eq : exists m', acapd_list_add_before q y m = Ret tt m' /\ spliced m p y q m'.
Proof.
  pose proof (is_Some_nx _ _ _ Hp) as Sp. pose proof (is_Some_pv _ _ _ Hq) as Sq.
  destruct (nx_is_Some m q Sq) as (nq & _ & Hnq & _).
  destruct (hook_both m p y q _ hooked_now Sp Sq Hyp Hyq) as (m' & E & Hs). exists m'. split; [|done].
  unfold acapd_list_add_before. rewrite (get_node_links _ _ _ _ _ Hq Hnq). cbn [prev].
  rewrite (bind_Ret _ _ _ _ _ (set_prev_eq m y p Hy)).
  rewrite (bind_Ret _ _ _ _ _ (set_next_eq _ y q (proj2 (with_prev_Some m y p y) Hy))).
  exact E.
Qed.

Lemma add_after_eq : exists m', acapd_list_add_after p y m = Ret tt m' /\ spliced m p y q m'.
Proof.
  pose proof (is_Some_nx _ _ _ Hp) as Sp. pose proof (is_Some_pv _ _ _ Hq) as Sq.
  destruct (nx_is_Some m p Sp) as (_ & pp & _ & Hpp).
  destruct (hook_both m p y q _ hooked_now Sp Sq Hyp Hyq) as (m' & E & Hs). exists m'. split; [|done].
  unfold acapd_list_add_after. rewrite (bind_Ret _ _ _ _ _ (set_prev_eq m y p Hy)).
  rewrite (get_node_links _ p pp q); [|by rewrite pv_with_prev, decide_False by done|by rewrite nx_with_prev].
  cbn [next]. rewrite (bind_Ret _ _ _ _ _ (set_next_eq _ y q (proj2 (with_prev_Some m y p y) Hy))).
  exact E.
Qed.
End Splice.

(** Taking [y] out from between [p] and [q]. *)
Definition unlinked (m : store) (p y q : N) (m' : store) : Prop :=
  (forall x, pv m' x = if decide (x = y) then Some y else if decide (x = q) then Some p else pv m x) /\
  (forall x, nx m' x = if decide (x = y) then Some y else if decide (x = p) then Some q else nx m x).

Lemma list_del_eq m p y q :
  pv m y = Some p -> nx m y = Some q -> is_Some (m !! p) -> is_Some (m !! q) -> y <> p -> y <> q ->
  exists m', acapd_list_del y m = Ret tt m' /\ unlinked m p y q m'.
Proof.
  intros Hp Hq Sp Sq Hyp Hyq. pose proof (is_Some_pv _ _ _ Hp) as Sy.
  set (m1 := with_prev m q p). set (m2 := with_next m1 p q). set (m3 := with_prev m2 y y).
  assert (Sp1 : is_Some (m1 !! p)) by (by apply with_prev_Some).
  assert (Sy2 : is_Some (m2 !! y)) by (by apply with_next_Some, with_prev_Some).
  assert (Sy3 : is_Some (m3 !! y)) by (by apply with_prev_Some).
  exists (with_next m3 y y). split.
  - unfold acapd_list_del. rewrite (get_node_links _ _ _ _ _ Hp Hq). cbn [next prev].
    rewrite (bind_Ret _ _ _ _ _ (set_prev_eq m q p Sq)).
    rewrite (get_node_links _ y p q); [|by rewrite pv_with_prev, decide_False by done|by rewrite nx_with_prev].
    cbn [next prev]. rewrite (bind_Ret _ _ _ _ _ (set_next_eq m1 p q Sp1)).
    rewrite (bind_Ret _ _ _ _ _ (set_prev_eq m2 y y Sy2)). by apply set_next_eq.
  - split; intros x.
    + rewrite pv_with_next. unfold m3, m2, m1. rewrite pv_with_prev, pv_with_next, pv_with_prev by done. done.
    + rewrite nx_with_next by done. unfold m3, m2, m1. rewrite nx_with_prev, nx_with_next, nx_with_prev by done. done.
Qed.

(** ** The operations on sequences *)

Lemma cut_ring m h l1 l2 : ring m h (l1 ++ l2) ->
  exists q r, l2 ++ [h] = q :: r /\ linked m h l1 /\ linked m q r /\
              nx m (end_of h l1) = Some q /\ pv m q = Some (end_of h l1).
Proof.
  intros [_ Hl]. rewrite <- app_assoc in Hl. apply linked_app in Hl as [Hl1 Hl2].
  destruct (l2 ++ [h]) as [|q r] eqn:E; [by destruct l2|]. simpl in Hl2. exists q, r. tauto.
Qed.

Lemma linked_frame m m' (W : N -> Prop) a l :
  (forall x, x ∈ a :: l -> ~ W x) -> (forall x, ~ W x -> nx m' x = nx m x /\ pv m' x = pv m x) ->
  linked m a l -> linked m' a l.
Proof.
  intros Hw Heq. revert a Hw. induction l as [|x l IH]; intros a Hw; simpl; [done|]. intros (H1 & H2 & H3).
  split_and!.
  - rewrite (proj1 (Heq a (Hw a ltac:(by left)))). done.
  - rewrite (proj2 (Heq x (Hw x ltac:(right; by left)))). done.
  - apply IH; [|done]. intros y Hy. apply Hw. by right.
Qed.

Lemma ring_frame m m' h l (W : N -> Prop) :
  ring m h l -> (forall x, x ∈ h :: l -> ~ W x) ->
  (forall x, ~ W x -> nx m' x = nx m x /\ pv m' x = pv m x) -> ring m' h l.
Proof.
  intros [Hd Hl] Hw Heq. split; [done|]. apply (linked_frame m m' W); [|done..].
  intros x [->|Hx]%elem_of_cons; [apply Hw; by left|].
  apply elem_of_app in Hx as [?|Hx%list_elem_of_singleton]; [apply Hw; by right|subst x; apply Hw; by left].
Qed.

(** The nodes on the two sides of a cut are different. *)
Lemma cut_facts h l1 l2 q r :
  NoDup (h :: l1 ++ l2) -> l2 ++ [h] = q :: r ->
  NoDup (h :: l1) /\ NoDup (q :: r) /\ end_of q r = h /\
  (forall x, x ∈ l1 -> x <> q) /\ (forall x, x ∈ l2 -> x <> end_of h l1) /\
  (forall x, x ∈ h :: l1 ++ l2 <-> x ∈ h :: l1 \/ x ∈ q :: r) /\ (forall x, x ∈ q :: r -> x <> h -> x ∈ l2).
Proof.
  intros Hd Eq. apply NoDup_cons in Hd as [Hh Hd]. apply NoDup_app in Hd as (Hd1 & Hd12 & Hd2).
  rewrite elem_of_app in Hh. rewrite <- Eq.
  assert (Hin : forall x, x ∈ l2 ++ [h] <-> x ∈ l2 \/ x = h)
    by (intros x; by rewrite elem_of_app, list_elem_of_singleton).
  assert (Hq : q ∈ l2 \/ q = h) by (apply Hin; rewrite Eq; by left).
  split_and!.
  - apply NoDup_cons. tauto.
  - apply NoDup_app. split_and!; [done| |apply NoDup_singleton].
    intros z Hz Hz'%list_elem_of_singleton. subst z. tauto.
  - rewrite <- (end_of_snoc q l2 h), Eq. done.
  - intros x Hx ->. destruct Hq as [Hq| ->]; [by apply (Hd12 q)|tauto].
  - intros x Hx ->. pose proof (end_of_in h l1) as Hp. apply elem_of_cons in Hp as [Hp|Hp].
    + rewrite Hp in Hx. tauto.
    + by apply (Hd12 _ Hp).
  - intros x. rewrite Hin, !elem_of_cons, elem_of_app. tauto.
  - intros x [?|?]%Hin; done.
Qed.

(** The two parts keep their links when only the cut is rewired. *)
Lemma parts_kept m m' h l1 l2 q r y :
  NoDup (h :: l1 ++ l2) -> l2 ++ [h] = q :: r ->
  (forall x, x ∈ h :: l1 ++ l2 -> x <> y /\ (x <> end_of h l1 -> nx m' x = nx m x) /\ (x <> q -> pv m' x = pv m x)) ->
  linked m h l1 -> linked m q r -> linked m' h l1 /\ linked m' q r.
Proof.
  intros Hd Eq Hm H1 H2. destruct (cut_facts h l1 l2 q r Hd Eq) as (Hd1 & Hdq & Hend & Hl1 & Hl2 & Hin & Hq2).
  split.
  - apply (linked_ext m); [| |done|done].
    + intros x Hx Hp. apply Hm; [apply Hin; by left|done].
    + intros x Hx. apply Hm; [apply Hin; left; by right|by apply Hl1].
  - apply (linked_ext m); [| |done|done].
    + intros x Hx Hne. rewrite Hend in Hne. apply Hm; [apply Hin; by right|]. by apply Hl2, Hq2.
    + intros x Hx. apply Hm; [apply Hin; right; by right|]. apply NoDup_cons in Hdq as [Hnq _]. by intros ->.
Qed.

Lemma ring_insert m m' h l1 l2 y q r :
  ring m h (l1 ++ l2) -> y ∉ h :: l1 ++ l2 -> l2 ++ [h] = q :: r ->
  spliced m (end_of h l1) y q m' -> ring m' h (l1 ++ y :: l2).
Proof.
  intros Hr Hy Eq [Hpv Hnx]. pose proof Hr as [Hd _].
  destruct (cut_ring m h l1 l2 Hr) as (q' & r' & Eq' & Hl1 & Hqr & Hp & Hq).
  rewrite Eq in Eq'. injection Eq' as <- <-.
  destruct (cut_facts h l1 l2 q r Hd Eq) as (_ & _ & _ & _ & _ & Hin & _).
  set (p := end_of h l1) in *.
  assert (Hpy : p <> y) by (intros <-; apply Hy, Hin; left; apply end_of_in).
  assert (Hqy : q <> y) by (intros <-; apply Hy, Hin; right; by left).
  destruct (parts_kept m m' h l1 l2 q r y Hd Eq) as [H1 H2]; [|done|done|].
  - intros x Hx. assert (x <> y) by (by intros ->). rewrite Hnx, Hpv. fold p.
    split_and!; [done|intros ?; by rewrite !decide_False|intros ?; by rewrite !decide_False].
  - split.
    + change (h :: l1 ++ y :: l2) with ((h :: l1) ++ y :: l2). rewrite <- Permutation_middle. by apply NoDup_cons.
    + rewrite <- app_assoc. cbn [app]. rewrite Eq. apply linked_app. split; [done|]. fold p. cbn [linked].
      rewrite !Hnx, !Hpv.
      rewrite !(decide_True (P := y = y)), (decide_True (P := p = p)), (decide_True (P := q = q)) by done.
      by rewrite !decide_False by done.
Qed.

Lemma ring_remove m m' h l1 l2 y q r :
  ring m h (l1 ++ y :: l2) -> l2 ++ [h] = q :: r -> unlinked m (end_of h l1) y q m' -> ring m' h (l1 ++ l2).
Proof.
  intros [Hd Hl] Eq [Hpv Hnx].
  change (h :: l1 ++ y :: l2) with ((h :: l1) ++ y :: l2) in Hd. rewrite <- Permutation_middle in Hd.
  apply NoDup_cons in Hd as [Hy Hd]. change ((h :: l1) ++ l2) with (h :: l1 ++ l2) in *.
  destruct (cut_facts h l1 l2 q r Hd Eq) as (_ & _ & _ & _ & _ & Hin & _).
  rewrite <- app_assoc in Hl. cbn [app] in Hl. rewrite Eq in Hl. apply linked_app in Hl as (Hl1 & Hpy' & Hyp' & _ & _ & Hqr).
  set (p := end_of h l1) in *.
  assert (Hpy : p <> y) by (intros <-; apply Hy, Hin; left; apply end_of_in).
  assert (Hqy : q <> y) by (intros <-; apply Hy, Hin; right; by left).
  destruct (parts_kept m m' h l1 l2 q r y Hd Eq) as [H1 H2]; [|done|done|].
  - intros x Hx. assert (x <> y) by (by intros ->). rewrite Hnx, Hpv. fold p.
    split_and!; [done|intros ?; by rewrite !decide_False|intros ?; by rewrite !decide_False].
  - split; [done|]. rewrite <- app_assoc, Eq. apply linked_app. split; [done|]. fold p. cbn [linked].
    rewrite Hnx, Hpv, (decide_True (P := p = p)), (decide_True (P := q = q)) by done. by rewrite !decide_False by done.
Qed.

(** ** The operations act on the sequence *)

Lemma ring_next m h l : ring m h l -> nx m h = Some (default h (head l)).
Proof. intros [_ Hl]. by destruct l as [|x l]; destruct Hl as [? _]. Qed.

Lemma linked_alloc m a l x : linked m a l -> x ∈ l -> is_Some (m !! x).
Proof.
  revert a. induction l as [|z l IH]; intros a; [by intros _ ?%elem_of_nil|].
  intros (_ & Hp & Hl) [->|Hx]%elem_of_cons; [by eapply is_Some_pv|by eapply IH].
Qed.
Lemma ring_alloc m h l x : ring m h l -> x ∈ h :: l -> is_Some (m !! x).
Proof.
  intros [_ Hl] Hx. eapply linked_alloc; [exact Hl|].
  apply elem_of_app. apply elem_of_cons in Hx as [->|?]; [right; by left|by left].
Qed.

Definition others_kept (W : N -> Prop) (m m' : store) : Prop :=
  (forall x, is_Some (m !! x) -> is_Some (m' !! x)) /\
  (forall x, ~ W x -> nx m' x = nx m x /\ pv m' x = pv m x).

Lemma add_tail_ring m h l y : ring m h l -> y ∉ h :: l -> is_Some (m !! y) ->
  exists m', acapd_list_add_tail h y m = Ret tt m' /\ ring m' h (l ++ [y]) /\
             others_kept (fun x => x ∈ y :: h :: l) m m'.
Proof.
  intros Hr Hy Sy. assert (Hr0 : ring m h (l ++ [])) by (by rewrite app_nil_r).
  destruct (cut_ring m h l [] Hr0) as (q & r & [= <- <-] & _ & _ & Hp & Hq).
  pose proof (end_of_in h l) as Hin.
  destruct (add_before_eq m (end_of h l) y h Hp Hq Sy) as (m' & E & Hs);
    [intros ->; by apply Hy|intros ->; apply Hy; by left|].
  exists m'. split; [exact E|]. split.
  - eapply (ring_insert m m' h l [] y h []); [done|by rewrite app_nil_r|done|exact Hs].
  - destruct Hs as [Hpv Hnx]. split.
    + intros x (n & p & Hn & _)%nx_is_Some. specialize (Hnx x).
      destruct (decide (x = y)), (decide (x = end_of h l)); eapply is_Some_nx; rewrite Hnx; done.
    + intros x Hx. rewrite Hpv, Hnx. rewrite !decide_False; [done|..]; intros ->; apply Hx;
        first [by left | right; by left | by right].
Qed.

Lemma add_head_ring m h l y : ring m h l -> y ∉ h :: l -> is_Some (m !! y) ->
  exists m', acapd_list_add_head h y m = Ret tt m' /\ ring m' h (y :: l) /\
             others_kept (fun x => x ∈ y :: h :: l) m m'.
Proof.
  intros Hr Hy Sy. destruct (cut_ring m h [] l Hr) as (q & r & Eq & _ & _ & Hp & Hq). cbn [end_of] in *.
  assert (Hqin : q ∈ h :: l).
  { assert (q ∈ l ++ [h]) as [?|?%list_elem_of_singleton]%elem_of_app by (rewrite Eq; by left); [by right|subst; by left]. }
  destruct (add_after_eq m h y q Hp Hq Sy) as (m' & E & Hs); [intros ->; apply Hy; by left|by intros ->|].
  exists m'. split; [exact E|]. split.
  - by eapply (ring_insert m m' h [] l y q r).
  - destruct Hs as [Hpv Hnx]. split.
    + intros x (n & p & Hn & _)%nx_is_Some. specialize (Hnx x).
      destruct (decide (x = y)), (decide (x = h)); eapply is_Some_nx; rewrite Hnx; done.
    + intros x Hx. rewrite Hpv, Hnx. rewrite !elem_of_cons in Hx. rewrite elem_of_cons in Hqin.
      rewrite !decide_False; [done|..]; intros ->; apply Hx; tauto.
Qed.

Lemma del_ring m h l1 l2 y : ring m h (l1 ++ y :: l2) ->
  exists m', acapd_list_del y m = Ret tt m' /\ ring m' h (l1 ++ l2) /\ ring m' y [] /\
             others_kept (fun x => x ∈ h :: l1 ++ y :: l2) m m'.
Proof.
  intros Hr. pose proof Hr as [Hd Hl]. destruct (cut_ring m h l1 (y :: l2) Hr) as (y' & r' & [= <- <-] & _ & Hyr & Hp & Hpy).
  destruct (l2 ++ [h]) as [|q r] eqn:Eq; [by destruct l2|]. destruct Hyr as (Hyq & Hqy & Hqr).
  change (h :: l1 ++ y :: l2) with ((h :: l1) ++ y :: l2) in Hd. rewrite <- Permutation_middle in Hd.
  apply NoDup_cons in Hd as [Hy Hd]. change ((h :: l1) ++ l2) with (h :: l1 ++ l2) in *.
  destruct (cut_facts h l1 l2 q r Hd Eq) as (_ & _ & _ & _ & _ & Hin & _).
  pose proof (end_of_in h l1) as Hpin.
  assert (Hqin : q ∈ h :: l1 ++ l2) by (apply Hin; right; by left).
  assert (Hpin' : end_of h l1 ∈ h :: l1 ++ l2) by (apply Hin; by left).
  destruct (list_del_eq m (end_of h l1) y q) as (m' & E & Hs); try done;
    [by eapply is_Some_nx|by eapply is_Some_pv|by intros ->|by intros ->|].
  exists m'. split; [done|]. split; [by eapply ring_remove|].
  assert (Hsub : forall x, x ∈ h :: l1 ++ l2 -> x ∈ h :: l1 ++ y :: l2).
  { intros x. rewrite !elem_of_cons, !elem_of_app, elem_of_cons. tauto. }
  destruct Hs as [Hpv Hnx]. split; [|split].
  - split; [apply NoDup_singleton|]. simpl. by rewrite Hnx, Hpv, !decide_True.
  - intros x (n & p & Hn & _)%nx_is_Some. specialize (Hnx x).
    destruct (decide (x = y)), (decide (x = end_of h l1)); eapply is_Some_nx; rewrite Hnx; done.
  - intros x Hx. rewrite Hpv, Hnx. rewrite !decide_False; [done|..]; intros ->; apply Hx;
      first [by apply Hsub | apply elem_of_cons; right; apply elem_of_app; right; by left].
Qed.

(** A body that leaves the store alone until it leaves the function sees the
    nodes in order, each once. *)
Lemma each_from_ring {R} m h l a (body : N -> M store (option R)) fuel :
  linked m a (l ++ [h]) -> h ∉ l -> (length l < fuel)%nat ->
  (forall x, x ∈ l -> body x m = Ret None m \/ exists r m', body x m = Ret (Some r) m') ->
  each_from fuel h (default h (head l)) body m = for_ret body l m.
Proof.
  revert a fuel. induction l as [|x l IH]; intros a [|fuel] Hl Hh Hf Hb; simpl in Hf; try lia; cbn [each_from head default for_ret].
  - by rewrite bool_decide_eq_true_2.
  - destruct Hl as (_ & Hxa & Hl). apply not_elem_of_cons in Hh as [Hhx Hh].
    rewrite bool_decide_eq_false_2 by done. destruct (Hb x ltac:(by left)) as [E|(r & m' & E)]; rewrite !(bind_Ret _ _ _ _ _ E); [|done].
    assert (Hn : nx m x = Some (default h (head l))) by (by destruct l as [|z l]; destruct Hl as [? _]).
    unfold from_option. rewrite (get_node_links m x a _ _ Hxa Hn). cbn [next].
    apply (IH x fuel Hl Hh ltac:(lia)). intros y Hy. apply Hb. by right.
Qed.

Lemma for_each_ring {R} m h l (body : N -> M store (option R)) fuel :
  ring m h l -> (length l < fuel)%nat ->
  (forall x, x ∈ l -> body x m = Ret None m \/ exists r m', body x m = Ret (Some r) m') ->
  acapd_list_for_each fuel h body m = for_ret body l m.
Proof.
  intros Hr Hf Hb. pose proof Hr as [Hd Hl]. apply NoDup_cons in Hd as [Hh _].
  destruct (nx_is_Some m h (ring_alloc _ _ _ h Hr ltac:(by left))) as (n & p & Hn & Hp).
  unfold acapd_list_for_each. rewrite (get_node_links m h p n _ Hp Hn). cbn [next].
  rewrite (ring_next m h l Hr) in Hn. injection Hn as <-. by eapply each_from_ring.
Qed.

Lemma init_ring m h : is_Some (m !! h) ->
  exists m', acapd_list_init h m = Ret tt m' /\ ring m' h [] /\ others_kept (fun x => x = h) m m'.
Proof.
  intros Sh. assert (Sh' : is_Some (with_prev m h h !! h)) by (by apply with_prev_Some).
  exists (with_next (with_prev m h h) h h). split; [|split; [|split]].
  - unfold acapd_list_init. rewrite (bind_Ret _ _ _ _ _ (set_prev_eq m h h Sh)). by apply set_next_eq.
  - split; [apply NoDup_singleton|]. simpl. rewrite nx_with_next, pv_with_next, pv_with_prev by done. by rewrite !(decide_True (P := h = h)).
  - intros x Hx. by apply with_next_Some, with_prev_Some.
  - intros x Hx. rewrite nx_with_next, pv_with_next, nx_with_prev, pv_with_prev by done. by rewrite !decide_False.
Qed.

Lemma first_ring m h l : ring m h l -> acapd_list_first h m = Ret (head l) m /\
                                       acapd_list_is_empty h m = Ret (bool_decide (l = [])) m.
Proof.
  intros Hr. pose proof Hr as [Hd _]. apply NoDup_cons in Hd as [Hh _].
  destruct (nx_is_Some m h (ring_alloc _ _ _ h Hr ltac:(by left))) as (n & p & Hn & Hp).
  assert (He : acapd_list_is_empty h m = Ret (bool_decide (l = [])) m).
  { unfold acapd_list_is_empty. rewrite (get_node_links m h p n _ Hp Hn). cbn [next]. unfold ret. f_equal.
    rewrite (ring_next m h l Hr) in Hn. injection Hn as <-. destruct l as [|x l]; [by rewrite !bool_decide_eq_true_2|].
    simpl. rewrite !bool_decide_eq_false_2; [done..|]. intros ->. apply Hh. by left. }
  split; [|done]. unfold acapd_list_first. rewrite (bind_Ret _ _ _ _ _ He).
  destruct l as [|x l]; [by rewrite bool_decide_eq_true_2|]. rewrite bool_decide_eq_false_2 by done.
  rewrite (get_node_links m h p n _ Hp Hn). rewrite (ring_next m h _ Hr) in Hn. by injection Hn as <-.
Qed.

(** ** Emptying a list *)

Lemma ring_length m h l : ring m h l -> (length l < S (size m))%nat.
Proof.
  intros Hr. pose proof Hr as [Hd _]. apply NoDup_cons in Hd as [_ Hd].
  assert (Hs : list_to_set l ⊆ dom m).
  { intros x Hx%elem_of_list_to_set. apply elem_of_dom. eapply ring_alloc; [exact Hr|by right]. }
  apply subseteq_size in Hs. rewrite size_dom, size_list_to_set in Hs by done. lia.
Qed.

Lemma ring_second m h x l : ring m h (x :: l) -> nx m x = Some (default h (head l)).
Proof. intros [_ (_ & _ & Hl)]. by destruct l as [|y l]; destruct Hl as [? _]. Qed.

(** Unlinking and freeing the first node. *)
Lemma unlink_free_first m h x l : ring m h (x :: l) -> exists m', unlink_free x m = Ret tt m' /\ ring m' h l /\
  m' !! x = None /\ forall y, m !! y = None -> y <> x -> y ∉ h :: x :: l -> m' !! y = None.
Proof.
  intros Hr. destruct (del_ring m h [] l x Hr) as (m1 & E & Hr1 & _ & Hk1 & Hk2).
  exists (delete x m1). unfold unlink_free. rewrite (bind_Ret _ _ _ _ _ E). split; [done|]. split_and!.
  - eapply (ring_frame m1 _ h l (fun y => y = x)); [exact Hr1| |].
    + intros y Hy ->. destruct Hr as [Hd _]. change (h :: x :: l) with ([h] ++ x :: l) in Hd.
      rewrite <- Permutation_middle in Hd. by apply NoDup_cons in Hd as [? _].
    + intros y Hy. unfold nx, pv. by rewrite lookup_delete_ne by congruence.
  - apply lookup_delete_eq.
  - intros y Hy Hyx Hin. rewrite lookup_delete_ne by congruence. destruct (Hk2 y Hin) as [Hn _].
    unfold nx in Hn. rewrite Hy in Hn. by destruct (m1 !! y).
Qed.

Lemma each_safe_empties fuel : forall m h l tmp,
  ring m h l -> (length l < fuel)%nat -> (forall x l', l = x :: l' -> tmp = default h (head l')) ->
  exists m', each_safe_from fuel h (default h (head l)) tmp unlink_free m = Ret tt m' /\ ring m' h [] /\
    forall x, x ∈ l \/ (x <> h /\ m !! x = None) -> m' !! x = None.
Proof.
  induction fuel as [|fuel IH]; intros m h l tmp Hr Hf Htmp; [lia|]. cbn [each_safe_from]. destruct l as [|x l]; cbn [head].
  - unfold default. rewrite bool_decide_eq_true_2 by done. exists m. split_and!; [done|done|].
    intros x [?%elem_of_nil|[_ ?]]; done.
  - pose proof Hr as [Hd _]. apply NoDup_cons in Hd as [Hh _].
    unfold from_option at 1, id. rewrite bool_decide_eq_false_2 by (intros ->; apply Hh; by left).
    destruct (unlink_free_first m h x l Hr) as (m1 & E & Hr1 & Hx1 & Hk1). rewrite (bind_Ret _ _ _ _ _ E).
    rewrite (Htmp x l eq_refl). set (t := default h (head l)).
    assert (Ht : is_Some (m1 !! t)).
    { apply (ring_alloc m1 h l t Hr1). unfold t. destruct l; simpl; [by left|right; by left]. }
    destruct (nx_is_Some m1 t Ht) as (n & p & Hn & Hp). rewrite (get_node_links m1 t p n _ Hp Hn). cbn [next].
    destruct (IH m1 h l n Hr1 ltac:(simpl in Hf; lia)) as (m' & E' & Hr' & Hnone).
    { intros y l' ->. unfold t in Hn. simpl in Hn. rewrite (ring_second m1 h y l' Hr1) in Hn. congruence. }
    exists m'. split; [exact E'|]. split; [done|]. intros y Hy. apply Hnone.
    destruct (decide (y ∈ l)) as [?|Hnl]; [by left|]. right.
    destruct Hy as [[->|?]%elem_of_cons|[Hyh Hym]]; [|done|].
    + split; [|done]. intros ->. apply Hh. by left.
    + split; [done|]. destruct (decide (y = x)) as [->|]; [done|]. apply Hk1; [done..|].
      rewrite !not_elem_of_cons. done.
Qed.

(** Every node of the list is unlinked and freed, once, and the list is empty. *)
Lemma delete_list_empties m h l : ring m h l ->
  exists m', delete_rpmsg_dev_list (Some h) m = Ret tt m' /\ ring m' h [] /\ forall x, x ∈ l -> m' !! x = None.
Proof.
  intros Hr. unfold delete_rpmsg_dev_list, acapd_list_for_each_safe, bind at 1, get.
  destruct (nx_is_Some m h (ring_alloc _ _ _ h Hr ltac:(by left))) as (n & p & Hn & Hp).
  rewrite (get_node_links m h p n _ Hp Hn). cbn [next]. rewrite (ring_next m h l Hr) in Hn. injection Hn as <-.
  assert (Ht : is_Some (m !! default h (head l))).
  { apply (ring_alloc m h l _ Hr). destruct l; simpl; [by left|right; by left]. }
  destruct (nx_is_Some m _ Ht) as (n' & p' & Hn' & Hp'). rewrite (get_node_links m _ p' n' _ Hp' Hn'). cbn [next].
  destruct (each_safe_empties (S (size m)) m h l n' Hr (ring_length m h l Hr)) as (m' & E & Hr' & Hx).
  - intros x l' ->. simpl in Hn'. rewrite (ring_second m h x l' Hr) in Hn'. congruence.
  - exists m'. split_and!; [exact E|done|]. intros x Hin. apply Hx. by left.
Qed.

(** ** Refinement *)

Inductive list_op := AddHead (x : N) | AddTail (x : N) | Del (x : N).
Definition run_op (h : N) (o : list_op) : M store unit :=
  match o with
  | AddHead x => acapd_list_add_head h x
  | AddTail x => acapd_list_add_tail h x
  | Del x => acapd_list_del x
  end.
Definition run_ops (h : N) (os : list list_op) : M store unit := for_each (run_op h) os.

(** The same on sequences. *)
Definition spec_op (o : list_op) (l : list N) : list N :=
  match o with AddHead x => x :: l | AddTail x => l ++ [x] | Del x => filter (fun y => y <> x) l end.
Definition op_ok (m : store) (h : N) (o : list_op) (l : list N) : Prop :=
  match o with AddHead x | AddTail x => (x ∉ h :: l) /\ is_Some (m !! x) | Del x => x ∈ l end.
Fixpoint ops_ok (m : store) (h : N) (os : list list_op) (l : list N) : Prop :=
  match os with [] => True | o :: os => op_ok m h o l /\ ops_ok m h os (spec_op o l) end.
Definition spec_ops (os : list list_op) (l : list N) : list N := fold_left (fun l o => spec_op o l) os l.
Definition op_node (o : list_op) : N := match o with AddHead x | AddTail x | Del x => x end.

Lemma filter_out (l1 l2 : list N) x : NoDup (l1 ++ x :: l2) -> filter (fun y => y <> x) (l1 ++ x :: l2) = l1 ++ l2.
Proof.
  intros Hd. rewrite <- Permutation_middle in Hd. apply NoDup_cons in Hd as [Hx _]. rewrite elem_of_app in Hx.
  assert (Hid : forall l : list N, x ∉ l -> filter (fun y => y <> x) l = l).
  { induction l as [|z l IH]; [done|]. intros [Hz Hl]%not_elem_of_cons. rewrite filter_cons_True by done. by rewrite IH. }
  rewrite filter_app, filter_cons_False by tauto. rewrite !Hid by tauto. done.
Qed.

Lemma run_op_ring m h o l : ring m h l -> op_ok m h o l ->
  exists m', run_op h o m = Ret tt m' /\ ring m' h (spec_op o l) /\ others_kept (fun x => x ∈ op_node o :: h :: l) m m'.
Proof.
  intros Hr Ho. destruct o as [x|x|x]; simpl in Ho.
  - destruct Ho. by apply add_head_ring.
  - destruct Ho. by apply add_tail_ring.
  - apply list_elem_of_split in Ho as (l1 & l2 & ->). destruct (del_ring m h l1 l2 x Hr) as (m' & E & Hr' & _ & Hk).
    exists m'. split; [done|]. cbn [spec_op op_node]. split.
    + rewrite filter_out; [done|]. destruct Hr as [Hd _]. by apply NoDup_cons in Hd as [_ ?].
    + destruct Hk as [Hk1 Hk2]. split; [done|]. intros z Hz. apply Hk2. intros Hin. apply Hz. by right.
Qed.

(** C32: the intrusive lists are sequences: any run of insertions at either end
    (of nodes that are in no list of this store's head) and of deletions returns
    and leaves the list that the same run leaves of the sequence, and it does not
    disturb a list that shares no node with it. *)
Theorem list_ops_refine_sequence os : forall m h l h' l',
  ring m h l -> ops_ok m h os l -> ring m h' l' ->
  (forall x, x ∈ h' :: l' -> x ∉ h :: l ++ map op_node os) ->
  exists m', run_ops h os m = Ret tt m' /\ ring m' h (spec_ops os l) /\ ring m' h' l'.
Proof.
  induction os as [|o os IH]; intros m h l h' l' Hr Hok Hr' Hd; [by exists m|].
  destruct Hok as [Ho Hos]. destruct (run_op_ring m h o l Hr Ho) as (m1 & E & Hr1 & Hk & Hkeep).
  assert (Hsub : forall x, x ∈ spec_op o l -> x = op_node o \/ x ∈ l).
  { intros x. destruct o; simpl; rewrite ?elem_of_cons, ?elem_of_app, ?list_elem_of_singleton, ?list_elem_of_filter; tauto. }
  destruct (IH m1 h (spec_op o l) h' l' Hr1) as (m' & E' & Hm' & Hm''); [| | |].
  - clear -Hk Hos. revert Hos. generalize (spec_op o l). induction os as [|o' os IH]; intros l'; [done|].
    intros [Ho' Hos]. split; [|by apply IH]. destruct o'; simpl in *; [destruct Ho'; split; [done|by apply Hk]..|done].
  - eapply ring_frame; [exact Hr'| |exact Hkeep]. intros x Hx Hin. apply (Hd x Hx). simpl.
    rewrite !elem_of_cons, ?elem_of_app, ?elem_of_cons in *. tauto.
  - intros x Hx Hin. apply (Hd x Hx). simpl. rewrite !elem_of_cons, ?elem_of_app, ?elem_of_cons in *.
    destruct Hin as [?|[Hin|?]]; [by left| |tauto]. apply Hsub in Hin. tauto.
  - exists m'. split; [|done]. unfold run_ops. cbn [for_each]. by rewrite (bind_Ret _ _ _ _ _ E).
Qed.

(** A node has one pair of links: put into a second list while it is in a first
    one, it takes the walk of the first list over to the second, which never
    comes back to the first head. *)
Lemma node_in_two_lists m h1 h2 x m' fuel (body : N -> M store (option unit)) :
  ring m h1 [x] -> ring m h2 [] -> h1 <> h2 -> x <> h2 ->
  acapd_list_add_tail h2 x m = Ret tt m' -> (forall y, body y m' = Ret None m') ->
  acapd_list_for_each fuel h1 body m' = Fault OutOfFuel.
Proof.
  intros [Hd1 (Hn1 & Hp1 & _)] [_ (Hn2 & Hp2 & _)] Hne Hx Ha Hb.
  assert (Hx1 : x <> h1) by (apply NoDup_cons in Hd1 as [Hh _]; intros ->; apply Hh; by left).
  destruct (add_before_eq m h2 x h2 Hn2 Hp2 (is_Some_pv _ _ _ Hp1) Hx Hx) as (m1 & E & [Hpv Hnx]).
  unfold acapd_list_add_tail in Ha. rewrite Ha in E. injection E as <-.
  assert (N1 : nx m' h1 = Some x) by (rewrite Hnx, !decide_False; done).
  assert (N2 : nx m' x = Some h2) by (by rewrite Hnx, decide_True).
  assert (N3 : nx m' h2 = Some x) by (by rewrite Hnx, decide_False, decide_True).
  assert (Hget : forall y n {B} (k : acapd_list -> M store B), nx m' y = Some n -> exists p, bind (get_node y) k m' = k (Links n p) m').
  { intros y n B k Hy. destruct (nx_is_Some m' y (is_Some_nx _ _ _ Hy)) as (n' & p & Hn & Hp). exists p.
    rewrite (get_node_links m' y p n' _ Hp Hn). congruence. }
  assert (Hwalk : forall f y, y = x \/ y = h2 -> each_from f h1 y body m' = Fault OutOfFuel).
  { induction f as [|f IH]; intros y Hy; [done|]. cbn [each_from]. rewrite bool_decide_eq_false_2 by (destruct Hy; congruence).
    rewrite (bind_Ret _ _ _ _ _ (Hb y)). destruct Hy as [-> | ->].
    - destruct (Hget x h2 _ (fun n => each_from f h1 (next n) body) N2) as [p ->]. apply IH. by right.
    - destruct (Hget h2 x _ (fun n => each_from f h1 (next n) body) N3) as [p ->]. apply IH. by left. }
  unfold acapd_list_for_each. destruct (Hget h1 x _ (fun n => each_from fuel h1 (next n) body) N1) as [p ->]. apply Hwalk. by left.
Qed.
End Ring.
Arguments acapd_list N : clear implicits.

(** *** Witness *)

Lemma list_ops_refine_sequence_witness :
  let m : gmap nat (acapd_list nat) := {[ 0 := Links 0 0; 1 := Links 1 1; 2 := Links 2 2; 9 := Links 9 9 ]}%nat in
  exists m', run_ops 0%nat [AddTail 1; AddHead 2; Del 1]%nat m = Ret tt m' /\ ring m' 0%nat [2%nat] /\ ring m' 9%nat [].
Proof.
  intros m. apply (list_ops_refine_sequence [AddTail 1; AddHead 2; Del 1]%nat m 0%nat [] 9%nat []).
  - split; [apply NoDup_singleton|by vm_compute].
  - cbn [ops_ok op_ok spec_op app]. split_and!; [|by eexists| |by eexists|right; by left|done].
    + by intros ?%list_elem_of_singleton.
    + simpl. rewrite !not_elem_of_cons. split_and!; [done..|apply not_elem_of_nil].
  - split; [apply NoDup_singleton|by vm_compute].
  - intros x ->%list_elem_of_singleton. simpl. rewrite !not_elem_of_cons. split_and!; [done..|apply not_elem_of_nil].
Defined.
