(* ===== verification/Shm.v ===== *)
(** * Shared memory

    [src/shm.c], [src/sys/linux/shm.c] and the part of [src/device.c] that
    attaches a shared memory to a device.  A shared memory is an object of its
    own, numbered; the devices attached to it are the nodes of its [refs] list,
    an intrusive list that links the [node] fields of the devices themselves. *)
From stdpp Require Import gmap.
From S2P Require Import Prelude CStr Env Model Device Dma Ring.
Open Scope Z_scope.
Open Scope dfx_scope.

Record acapd_shm := Shm {
  s_va : Z;                     (* va: 0 is NULL *)
  s_size : Z;
  s_flags : Z;
  s_id : Z;
  s_refcount : Z;
}.
#[export] Instance shm_eta : Eta acapd_shm := fun r =>
  Shm (s_va r) (s_size r) (s_flags r) (s_id r) (s_refcount r).
Definition shm_zero : acapd_shm := Shm 0 0 0 0 0.

(** [MAP_FAILED], [MAP_PRIVATE | MAP_ANONYMOUS]. *)
Definition MAP_FAILED : Z := u64 (-1).
Definition MAP_PRIVATE_ANONYMOUS : Z := 0x22.

(** The addresses of list nodes: [&shm->refs] and [&dev->node]. *)
Abbreviation ref := (nat + nat)%type.
Definition RefsOf (s : nat) : ref := inl s.
Definition NodeOf (d : nat) : ref := inr d.

(** The hardware, the shared memories, and the links of the nodes. *)
Record dm (W : Type) := Dm { d_hw : hw W; shms : gmap nat acapd_shm; links : gmap ref (acapd_list ref) }.
Arguments Dm {W} d_hw shms links.
Arguments d_hw {W} d.
Arguments shms {W} d.
Arguments links {W} d.
#[export] Instance dm_eta {W} : Eta (dm W) := fun s => Dm (d_hw s) (shms s) (links s).

Section Shm.
Context {W : Type} `{Env W}.

Definition in_dev {A} (m : M (hw W) A) : M (dm W) A := zoom d_hw (fun h s => s <| d_hw := h |>) m.
Definition in_links {A} (m : M (gmap ref (acapd_list ref)) A) : M (dm W) A :=
  zoom links (fun l s => s <| links := l |>) m.

Definition get_shm (s : nat) : M (dm W) acapd_shm := let! x := get in the WildPtr (shms x !! s).
Definition mod_shm (s : nat) (f : acapd_shm -> acapd_shm) : M (dm W) unit :=
  let! x := get_shm s in modify (fun st => st <| shms ::= <[s := f x]> |>).

(** A walk over the list of [s] needs no more turns than there are nodes. *)
Definition each_ref {R} (s : nat) (body : ref -> M (gmap ref (acapd_list ref)) (option R)) : M (dm W) (option R) :=
  let! st := get in in_links (acapd_list_for_each (S (size (links st))) (RefsOf s) body).

(** ** The default allocator: [src/sys/linux/shm.c] *)

Definition acapd_vfio_alloc_shm (s : nat) (size : Z) : M (dm W) Z :=
  mod_shm s (fun x => x <| s_id ::= fun i => if i <? 0 then 0 else i |>
                        <| s_flags ::= fun f => if f =? 0 then MAP_PRIVATE_ANONYMOUS else f |>) ;;
  let! x := get_shm s in
  let! v := in_dev (in_world (act (mmap_ size (s_id x) 0))) in
  mod_shm s (fun x => x <| s_va := default MAP_FAILED v |> <| s_size := size |>) ;;
  ret 0.

Definition acapd_vfio_free_shm (s : nat) : M (dm W) unit :=
  let! x := get_shm s in in_dev (in_world (act_ (munmap_ (s_va x) (s_size x)))).

(** ** Allocation: [src/shm.c] *)

Definition acapd_alloc_shm (s : nat) (size : Z) : M (dm W) Z :=
  mod_shm s (fun x => x <| s_refcount := 0 |>) ;;
  in_links (acapd_list_init (RefsOf s)) ;;
  acapd_vfio_alloc_shm s size.

(** The loop takes the nodes of [refs] for members of channels, which they are
    not: the device it computes from a node is not one. *)
Definition acapd_free_shm (s : nat) : M (dm W) Z :=
  let! _ := each_ref (R := unit) s (fun _ => crash WildPtr) in
  mod_shm s (fun x => x <| s_refcount := 0 |>) ;;
  in_links (acapd_list_init (RefsOf s)) ;;
  acapd_vfio_free_shm s ;;
  ret 0.

(** The address, or 0. *)
Definition acapd_accel_alloc_shm (size : Z) (shm : option nat) : M (dm W) Z :=
  match shm with
  | None => ret 0
  | Some s =>
      let! r := acapd_alloc_shm s size in
      if r <? 0 then ret 0 else let! x := get_shm s in ret (s_va x)
  end.

(** ** Attaching to a device: [src/device.c] *)

Definition attached (d : nat) (s : nat) : M (dm W) bool :=
  let! hit := each_ref s (fun n => ret (if bool_decide (n = NodeOf d) then Some tt else None)) in
  ret (if hit is Some _ then true else false).

Definition acapd_device_attach_shm (d : nat) (s : nat) : M (dm W) Z :=
  let! hit := attached d s in
  let! x := get_shm s in
  if hit : bool then ret (s_va x)
  else
    let! dev := in_dev (get_dev d) in
    let! va :=
      match dops dev with
      | Some vfio_dev_ops =>
          let! v := in_dev (acapd_vfio_device_attach d (s_va x) (s_size x)) in
          let va := default 0 v in
          (if va =? 0 then ret tt
           else mod_shm s (fun x => x <| s_va ::= fun v => if v =? 0 then va else v |>)) ;;
          ret (if va =? 0 then None else Some va)
      | _ => ret (Some (s_va x))
      end in
    match va with
    | None => ret 0
    | Some va =>
        in_links (acapd_list_add_tail (RefsOf s) (NodeOf d)) ;;
        mod_shm s (fun x => x <| s_refcount ::= fun r => int32 (r + 1) |>) ;;
        ret va
    end.

Definition acapd_device_detach_shm (d : nat) (s : nat) : M (dm W) Z :=
  let! hit := attached d s in
  if negb hit then ret (- EINVAL)
  else
    let! dev := in_dev (get_dev d) in
    let! x := get_shm s in
    let! r := match dops dev with
              | Some vfio_dev_ops => in_dev (acapd_vfio_device_detach d (s_va x) (s_size x))
              | _ => ret 0
              end in
    if r <? 0 then ret r
    else
      in_links (acapd_list_del (NodeOf d)) ;;
      mod_shm s (fun x => x <| s_refcount ::= fun r => int32 (r - 1) |>) ;;
      ret 0.

(** ** Attaching to a channel: [src/dma.c], [src/shm.c] *)

Definition acapd_dma_attach (c : acapd_chnl) (shm : option nat) : M (dm W) Z :=
  match shm with
  | None => ret 0
  | Some s => let! d := in_dev (chnl_dev c) in acapd_device_attach_shm d s
  end.
Definition acapd_dma_detach (c : acapd_chnl) (shm : option nat) : M (dm W) Z :=
  match shm with
  | None => ret (- EINVAL)
  | Some s => let! d := in_dev (chnl_dev c) in acapd_device_detach_shm d s
  end.

Definition acapd_attach_shm (c : acapd_chnl) (shm : option nat) : M (dm W) Z := acapd_dma_attach c shm.
Definition acapd_detach_shm (c : acapd_chnl) (shm : option nat) : M (dm W) Z := acapd_dma_detach c shm.
End Shm.
