(* ===== verification/Bare.v ===== *)
(** * The bare-metal port

    [src/sys/generic]: devices without an operating system, the AXI DMA driver
    with its cache maintenance, the allocator of shared memories and the load of
    an accelerator through the FPGA library.  [src/device.c] is the same file as
    on Linux, over the devices of this layer. *)
From S2P Require Import Prelude CStr Env Model Device Dma Shm.
Open Scope Z_scope.
Open Scope dfx_scope.

(** [acapd_assert()] of [src/assert.c]: this port is built with DEBUG, and a failed
    assertion prints a line and loops forever.  The Linux build does not define
    DEBUG, and nothing is checked there. *)
Definition acapd_assert {S} (cond : bool) : M S unit := if cond then ret tt else crash AssertFailed.

(** [acapd_device_t] as this layer uses it: [ops] is NULL or
    [sys_generic_dev_ops], [priv] an address. *)
Record bare_device := BareDevice {
  g_reg_pa : Z;
  g_va : Z;                     (* 0 is NULL *)
  g_ops : bool;
  g_priv : Z;
  g_refs : Z;
  g_dev_name : option string;
  g_driver : option string;
  g_reg_size : Z;
  g_iommu_group : Z;
}.
#[export] Instance bare_device_eta : Eta bare_device := fun r =>
  BareDevice (g_reg_pa r) (g_va r) (g_ops r) (g_priv r) (g_refs r) (g_dev_name r) (g_driver r)
    (g_reg_size r) (g_iommu_group r).
(** [calloc]. *)
Definition bare_device0 : bare_device := BareDevice 0 0 false 0 0 None None 0 0.

Record bare (W : Type) := Bare { gdevs : list bare_device; b_world : W }.
Arguments Bare {W} gdevs b_world.
Arguments gdevs {W} b.
Arguments b_world {W} b.
#[export] Instance bare_eta {W} : Eta (bare W) := fun s => Bare (gdevs s) (b_world s).

(** The caches, the heap and the FPGA library. *)
Class Board (W : Type) := {
  Xil_DCacheFlushRange : Z -> Z -> W -> W;
  Xil_DCacheInvalidateRange : Z -> Z -> W -> W;
  malloc_ : Z -> W -> Z * W;                     (* 0 is NULL *)
  free_ : Z -> W -> W;
  XFpga_Initialize : W -> Z * W;
  XFpga_PL_BitStream_Load : Z -> W -> Z * W;
}.
Definition XST_SUCCESS : Z := 0.
Definition XFPGA_SUCCESS : Z := 0.

(** [acapd_accel_sys_t]. *)
Record acapd_accel_sys := AccelSys {
  accel_json_pa : Z;
  accel_json_size : Z;
  accel_pdi_pa : Z;
  accel_pdi_size : Z;
}.

Section Bare.
Context {W : Type} `{Env W} `{Board W}.

Definition on_board {A} (m : M W A) : M (bare W) A := zoom b_world (fun w s => s <| b_world := w |>) m.
Definition brd (a : Z) : M (bare W) Z := on_board (act (reg_read a)).
Definition bwr (a v : Z) : M (bare W) unit := on_board (act_ (reg_write a (u32 v))).

Definition get_gdev (d : nat) : M (bare W) bare_device := let! s := get in the WildPtr (gdevs s !! d).
Definition mod_gdev (d : nat) (f : bare_device -> bare_device) : M (bare W) unit :=
  let! x := get_gdev d in modify (fun s => s <| gdevs ::= <[d := f x]> |>).

(** ** Devices: [device.c] of this layer *)

Definition sys_generic_device_open (d : nat) : M (bare W) Z :=
  let! x := get_gdev d in
  if g_va x =? 0 then ret (- EINVAL)
  else mod_gdev d (fun x => x <| g_priv := g_va x |>) ;; ret 0.

Definition sys_generic_device_close (d : nat) : M (bare W) Z := ret 0.
Definition sys_generic_device_attach (d : nat) (x : acapd_shm) : M (bare W) Z := ret (s_va x).
Definition sys_generic_device_detach (d : nat) (x : acapd_shm) : M (bare W) Z := ret 0.
Definition sys_generic_device_va_to_da (d : nat) (v : Z) : M (bare W) Z := ret (u64 v).

Definition bare_sys_device_open (d : nat) : M (bare W) Z :=
  let! x := get_gdev d in
  (if g_ops x then ret tt else mod_gdev d (fun x => x <| g_ops := true |>)) ;;
  sys_generic_device_open d.

(** [src/device.c] over them. *)
Definition bare_device_close (d : nat) : M (bare W) Z :=
  let! x := get_gdev d in if g_ops x then sys_generic_device_close d else ret 0.

Definition bare_device_get (d : nat) : M (bare W) Z :=
  let! x := get_gdev d in
  let! r := (if g_priv x =? 0
             then mod_gdev d (fun x => x <| g_refs := 0 |>) ;; bare_sys_device_open d
             else ret 0) in
  if r <? 0 then ret (- EINVAL)
  else mod_gdev d (fun x => x <| g_refs ::= fun r => int32 (r + 1) |>) ;; ret 0.

Definition bare_device_put (d : nat) : M (bare W) Z :=
  let! x := get_gdev d in
  if g_priv x =? 0 then ret 0
  else if g_refs x =? 0 then ret 0
  else
    mod_gdev d (fun x => x <| g_refs ::= fun r => int32 (r - 1) |>) ;;
    if int32 (g_refs x - 1) =? 0 then bare_device_close d else ret 0.

(** ** AXI DMA: [dma-axidma.c] *)

Definition bchnl_dev (c : acapd_chnl) : M (bare W) nat := the AssertFailed (cdev c).
Definition bchnl_base (c : acapd_chnl) : M (bare W) Z :=
  let! d := bchnl_dev c in
  let! x := get_gdev d in
  acapd_assert (negb (g_va x =? 0)) ;; ret (g_va x).

Definition axidma_generic_transfer (c : acapd_chnl) (cfg : acapd_dma_config) : M (bare W) Z :=
  let! base := bchnl_base c in
  let! d := bchnl_dev c in
  let! x := get_gdev d in
  acapd_assert (g_ops x) ;;
  let! da := sys_generic_device_va_to_da d (cfg_va cfg) in
  if da =? u64 (-1) then ret (- EINVAL)
  else
    on_board (act_ (if is_write c then Xil_DCacheFlushRange (cfg_va cfg) (cfg_size cfg)
                    else Xil_DCacheInvalidateRange (cfg_va cfg) (cfg_size cfg))) ;;
    let base := base + axi_dir_offset c in
    let! v := brd (base + XAXIDMA_CR_OFFSET) in
    bwr (base + XAXIDMA_CR_OFFSET) (Z.lor v XAXIDMA_CR_RUNSTOP_MASK) ;;
    let! v := brd (base + XAXIDMA_SR_OFFSET) in
    if has_bits v XAXIDMA_HALTED_MASK then ret (- EINVAL)
    else
      bwr (base + (if is_write c then XAXIDMA_SRCADDR_OFFSET else XAXIDMA_DESTADDR_OFFSET))
          (Z.land da 0xFFFFFFFF) ;;
      bwr (base + (if is_write c then XAXIDMA_SRCADDR_MSB_OFFSET else XAXIDMA_DESTADDR_MSB_OFFSET))
          (Z.shiftr (Z.land da 0xFFFFFFFF00000000) 32) ;;
      bwr (base + XAXIDMA_BUFFLEN_OFFSET) (cfg_size cfg) ;;
      ret (int32 (cfg_size cfg)).

Definition axidma_generic_stop (c : acapd_chnl) : M (bare W) Z :=
  let! base := bchnl_base c in
  let base := base + axi_dir_offset c in
  let! v := brd (base + XAXIDMA_CR_OFFSET) in
  bwr (base + XAXIDMA_CR_OFFSET) (Z.land v (Z.lnot XAXIDMA_CR_RUNSTOP_MASK)) ;;
  ret 0.

Definition axidma_generic_poll (c : acapd_chnl) : M (bare W) Z :=
  let! base := bchnl_base c in
  let base := base + axi_dir_offset c in
  let! v := brd (base + XAXIDMA_CR_OFFSET) in
  if negb (has_bits v XAXIDMA_CR_RUNSTOP_MASK) then ret ACAPD_CHNL_IDLE
  else
    let! v := brd (base + XAXIDMA_SR_OFFSET) in
    ret (if has_bits v XAXIDMA_ERR_ALL_MASK then ACAPD_CHNL_ERRORS
         else if has_bits v XAXIDMA_IDLE_MASK then ACAPD_CHNL_IDLE
         else ACAPD_CHNL_INPROGRESS).

Definition axidma_generic_reset (c : acapd_chnl) : M (bare W) Z :=
  let! base := bchnl_base c in
  bwr (base + axi_dir_offset c + XAXIDMA_CR_OFFSET) XAXIDMA_CR_RESET_MASK ;; ret 0.

Fixpoint bare_wait_reset (fuel : nat) (a : Z) : M (bare W) unit :=
  match fuel with
  | O => crash OutOfFuel
  | S n => let! v := brd a in if has_bits v XAXIDMA_CR_RESET_MASK then bare_wait_reset n a else ret tt
  end.
Definition bare_reset_and_wait (d : nat) : M (bare W) unit :=
  let! x := get_gdev d in
  guard_that NullDeref (negb (g_va x =? 0)) ;;
  let reg_va := g_va x + XAXIDMA_TX_OFFSET + XAXIDMA_CR_OFFSET in
  bwr reg_va XAXIDMA_CR_RESET_MASK ;; bare_wait_reset POLL_FUEL reg_va.

Definition axidma_generic_open (c : acapd_chnl) : M (bare W) Z :=
  let! d := bchnl_dev c in
  let! r := bare_device_get d in
  if r <? 0 then ret (- EINVAL)
  else
    let! x := get_gdev d in
    (if g_refs x =? 1 then bare_reset_and_wait d else ret tt) ;; ret 0.

Definition axidma_generic_close (c : acapd_chnl) : M (bare W) Z :=
  let! d := bchnl_dev c in
  let! x := get_gdev d in
  (if g_refs x =? 1 then bare_reset_and_wait d else ret tt) ;;
  bare_device_put d.

(** ** Shared memories: [shm.c] *)

Definition acapd_generic_alloc_shm (x : acapd_shm) (size : Z) : M (bare W) (Z * acapd_shm) :=
  let! p := on_board (act (malloc_ size)) in
  ret (0, x <| s_id ::= fun i => if i <? 0 then 0 else i |> <| s_va := p |> <| s_size := size |>).

Definition acapd_generic_free_shm (x : acapd_shm) : M (bare W) acapd_shm :=
  if s_va x =? 0 then ret x
  else on_board (act_ (free_ (s_va x))) ;; ret (x <| s_va := 0 |> <| s_size := 0 |>).

(** ** Accelerators: [accel.c] *)

(** The result, and the accelerator. *)
Definition bare_sys_load_accel (sys_pkg : option acapd_accel_sys) (a : acapd_accel) : M (bare W) (Z * acapd_accel) :=
  let! p := the AssertFailed sys_pkg in
  acapd_assert (negb (accel_pdi_pa p =? 0)) ;;
  acapd_assert (negb (accel_pdi_size p =? 0)) ;;
  let! r := on_board (act XFpga_Initialize) in
  if negb (r =? XST_SUCCESS) then
    ret (ACAPD_ACCEL_FAILURE, a <| status := ACAPD_ACCEL_STATUS_UNLOADED |> <| load_failure := ACAPD_ACCEL_INVALID |>)
  else
    let! r := on_board (act (XFpga_PL_BitStream_Load (accel_pdi_pa p))) in
    ret (if negb (r =? XFPGA_SUCCESS) then ACAPD_ACCEL_FAILURE else ACAPD_ACCEL_SUCCESS, a).

Definition bare_sys_needs_load_accel : Z := 1.
Definition bare_sys_fetch_accel : Z := ACAPD_ACCEL_SUCCESS.
Definition bare_sys_close_accel : Z := 0.
Definition bare_sys_remove_accel : Z := ACAPD_ACCEL_SUCCESS.
End Bare.
