(* ===== verification/Transfer.v ===== *)
(** * Transfers

    The transfer operations of the channel drivers, [acapd_dma_transfer()] of
    [src/dma.c], and moving data between a shared memory and an accelerator
    ([src/shm.c]). *)
From stdpp Require Import gmap fin_maps.
From S2P Require Import Prelude CStr Env Model Device Dma Ring Shm.
Open Scope Z_scope.
Open Scope dfx_scope.

Definition EBUSY : Z := 16.
Definition BD_AREA : Z := 0x1000.

Section Transfer.
Context {W : Type} `{Env W}.

(** ** MCDMA: [src/sys/linux/dma-mcdma-vfio.c] *)

(** A store to the descriptor memory [bd]: outside its mapping it faults. *)
Definition bd_store (bd : nat) (off v : Z) : M (dm W) unit :=
  let! x := get_shm bd in
  guard_that WildPtr (negb (s_va x =? MAP_FAILED)) ;;
  guard_that OutOfBounds ((0 <=? off) && (off + 4 <=? s_size x)) ;;
  in_dev (wr (s_va x + off) v).

(** One descriptor: the next one, the buffer, the length, the tid. *)
Definition bd_write (bd : nat) (c : acapd_chnl) (off next_pa buf len tid : Z) : M (dm W) unit :=
  bd_store bd (off + 0x0) (Z.land next_pa 0xFFFFFFC0) ;;
  bd_store bd (off + 0x4) (Z.shiftr next_pa 32) ;;
  bd_store bd (off + 0x8) (Z.land buf 0xFFFFFFFF) ;;
  bd_store bd (off + 0xC) (Z.shiftr buf 32) ;;
  bd_store bd (off + 0x14) (Z.lor (Z.lor (Z.land len 0x3FFFFFF) 0x80000000) 0x40000000) ;;
  if is_write c then bd_store bd (off + 0x18) (Z.land tid 0xFF000000) else ret tt.

(** The loop over the buffer: [left] bytes from [buf] on, the next descriptor
    at [off], its device address [pa]; the result is the last [next_bd_pa].  A
    turn that leaves bytes advances the descriptor, and the descriptor memory
    ends after 64 of them. *)
Fixpoint mcdma_descs (fuel : nat) (bd : nat) (c : acapd_chnl) (tid left off pa buf : Z) : M (dm W) Z :=
  if left =? 0 then ret pa
  else
    match fuel with
    | O => crash OutOfFuel
    | S f =>
        let len := if max_buf_size c <? left then max_buf_size c else left in
        let left := u32 (left - len) in
        let more := negb (left =? 0) in
        let pa := if more then u64 (pa + MCDMA_BD_SIZE) else pa in
        bd_write bd c off pa buf len tid ;;
        mcdma_descs f bd c tid left (if more then off + MCDMA_BD_SIZE else off) pa
          (if more then u64 (buf + len) else buf)
    end.
Definition BD_FUEL : nat := 65.

(** Starting the engine on the descriptors from [bd_pa] to [tail]. *)
Definition mcdma_start (c : acapd_chnl) (base bd_pa tail : Z) : M (hw W) unit :=
  let offset := u32 (0x40 * chnl_id c) in
  let w := is_write c in
  let! st := rd (base + (if w then S2MM_SR else MM2S_SR)) in
  let! err := rd (base + (if w then S2MM_ERR else MM2S_ERR)) in
  (if (has_bits st MCDMA_HALTED_MASK && negb (err =? 0)) || has_bits st MCDMA_IDLE_MASK
   then wr (base + (if w then MM2S_CR else S2MM_CR)) MCDMA_RESET_MASK else ret tt) ;;
  wr (base + (if w then MM2S_CHEN else S2MM_CHEN)) MCDMA_CHANNELS_MASK ;;
  wr (base + offset + (if w then MM2S_CH1CURDESC_LSB else S2MM_CH1CURDESC_LSB)) (Z.land bd_pa 0xFFFFFFC0) ;;
  wr (base + offset + (if w then MM2S_CH1CURDESC_MSB else S2MM_CH1CURDESC_MSB)) (Z.shiftr bd_pa 32) ;;
  wr (base + offset + (if w then MM2S_CH1CR else S2MM_CH1CR)) MCDMA_CHANNEL_FETCH_MASK ;;
  wr (base + (if w then MM2S_CR else S2MM_CR)) MCDMA_RUNSTOP_MASK ;;
  wr (base + offset + (if w then MM2S_CH1TAILDESC_LSB else S2MM_CH1TAILDESC_LSB)) (Z.land tail 0xFFFFFFC0) ;;
  wr (base + offset + (if w then MM2S_CH1TAILDESC_MSB else S2MM_CH1TAILDESC_MSB)) (Z.shiftr tail 32).

(** The local [bd_shm]: a zeroed shared memory that is gone at the return,
    while the list node of the device keeps pointing at its head. *)
Definition with_bd_shm (body : nat -> M (dm W) Z) : M (dm W) Z :=
  let! st := get in
  let bd := fresh (dom (shms st)) in
  modify (fun st => st <| shms ::= <[bd := shm_zero]> |> <| links ::= <[RefsOf bd := Links (RefsOf bd) (RefsOf bd)]> |>) ;;
  let! r := body bd in
  modify (fun st => st <| shms ::= delete bd |> <| links ::= delete (RefsOf bd) |>) ;;
  ret r.

Definition mcdma_vfio_dma_transfer (c : acapd_chnl) (cfg : acapd_dma_config) : M (dm W) Z :=
  let! d := in_dev (chnl_dev c) in
  let! base_va := in_dev (chnl_va c) in
  let buf_size := u32 (cfg_size cfg) in
  let! buf_addr := in_dev (dev_va_to_da d (cfg_va cfg)) in
  if buf_addr =? u64 (-1) then ret (- EINVAL)
  else with_bd_shm (fun bd =>
    let! r := acapd_alloc_shm bd BD_AREA in
    let! x := get_shm bd in
    if (r <? 0) || (s_va x =? 0) then ret (- EINVAL)
    else
      let! retva := acapd_attach_shm c (Some bd) in
      if retva =? 0 then ret (- EINVAL)
      else
        let! bd_pa := in_dev (dev_va_to_da d (s_va x)) in
        if bd_pa =? u64 (-1) then ret (- EINVAL)
        else
          let tid := u32 (Z.shiftl (cfg_tid cfg) 24) in
          let! tail := mcdma_descs BD_FUEL bd c tid buf_size 0 bd_pa buf_addr in
          let! base := the NullDeref base_va in
          in_dev (mcdma_start c base bd_pa tail) ;;
          ret (int32 buf_size)).

Definition ops_transfer (o : dma_ops) (c : acapd_chnl) (cfg : acapd_dma_config) : M (dm W) Z :=
  match o with
  | axidma_vfio_dma_ops => in_dev (axidma_vfio_dma_transfer c cfg)
  | mcdma_vfio_dma_ops => mcdma_vfio_dma_transfer c cfg
  end.

(** ** [acapd_dma_transfer()]: [src/dma.c] *)

(** Pointers wrap around at 64 bits. *)
Definition outside_shm (x : acapd_shm) (va size : Z) : bool :=
  (va <? s_va x) || (u64 (s_va x + s_size x) <? u64 (va + size)).

Definition acapd_dma_transfer (c : acapd_chnl) (cfg : acapd_dma_config) : M (dm W) Z :=
  match cops c with
  | None => ret (- EINVAL)
  | Some o =>
      match cfg_shm cfg with
      | None => ret (- EINVAL)
      | Some s =>
          let! x := get_shm s in
          if outside_shm x (cfg_va cfg) (cfg_size cfg) then ret (- EINVAL) else ops_transfer o c cfg
      end
  end.

(** ** Moving data: [src/shm.c] *)

(** The first channel of a direction. *)
Definition chnl_with_dir (dr : acapd_dir) (l : list acapd_chnl) : option (nat * acapd_chnl) :=
  match find_index (fun c => bool_decide (dir c = Some dr)) l with
  | Some i => (fun c => (i, c)) <$> l !! i
  | None => None
  end.
Definition set_chnl (a : acapd_accel) (i : nat) (c : acapd_chnl) : acapd_accel :=
  a <| chnls ::= fmap <[i := c]> |>.

(** From the attachment of the shared memory on. *)
Definition start_transfer (c : acapd_chnl) (shm : option nat) (va size : Z) (wait : bool) (tid : Z) : M (dm W) Z :=
  let! retva := acapd_attach_shm c shm in
  if retva =? 0 then ret (- EINVAL)
  else
    let! r := in_dev (acapd_dma_poll c false) in
    if r <? 0 then ret (- EINVAL)
    else if r =? ACAPD_CHNL_INPROGRESS then ret (- EBUSY)
    else
      let! r := acapd_dma_transfer c (acapd_dma_init_config shm va size tid) in
      if r <? 0 then ret (- EINVAL)
      else if wait then
        let! p := in_dev (acapd_dma_poll c true) in
        ret (if p <? 0 then - EINVAL else r)
      else ret r.

(** What [acapd_accel_write_data()] and [acapd_accel_read_data()] share: the
    channel of the direction, opened, and the transfer. *)
Definition move_data (dr : acapd_dir) (accel : option acapd_accel) (shm : option nat) (va size : Z) (wait : bool)
    (tid : Z) : M (dm W) (Z * option acapd_accel) :=
  match accel with
  | None => ret (- EINVAL, accel)
  | Some a =>
      match chnls a with
      | None => ret (- EINVAL, accel)
      | Some l =>
          match chnl_with_dir dr l with
          | None => ret (- EINVAL, accel)
          | Some (i, c) =>
              let! rc := in_dev (acapd_dma_open c) in
              let accel := Some (set_chnl a i rc.2) in
              if rc.1 <? 0 then ret (- EINVAL, accel)
              else let! r := start_transfer rc.2 shm va size wait tid in ret (r, accel)
          end
      end
  end.
Definition acapd_accel_write_data := move_data ACAPD_DMA_DEV_W.
Definition acapd_accel_read_data (accel : option acapd_accel) (shm : option nat) (va size : Z) (wait : bool) :=
  move_data ACAPD_DMA_DEV_R accel shm va size wait 0.

Definition acapd_accel_read_complete (accel : option acapd_accel) : M (dm W) (Z * option acapd_accel) :=
  match accel with
  | None => ret (- EINVAL, accel)
  | Some a =>
      match chnls a with
      | None => ret (- EINVAL, accel)
      | Some l =>
          match chnl_with_dir ACAPD_DMA_DEV_R l with
          | None => ret (- EINVAL, accel)
          | Some (i, c) =>
              let! rc := in_dev (acapd_dma_open c) in
              let accel := Some (set_chnl a i rc.2) in
              if rc.1 <? 0 then ret (- EINVAL, accel)
              else
                let! r := in_dev (acapd_dma_poll rc.2 true) in
                ret (if r <? 0 then - EINVAL else 0, accel)
          end
      end
  end.
End Transfer.
