(* ===== verification/Json.v ===== *)
(** * Reading JSON

    [src/sys/linux/json-config.c].  The tokenizer is that of [Jsmn.v], over an
    array of 128 tokens: its return value and the tokens it wrote.  The
    loops over the tokens are the code's, and a read of a token that was never
    written is a [BadToken] fault. *)
From S2P Require Import Prelude CStr Jsmn JsmnSpec Env Model.
Open Scope Z_scope.
Open Scope dfx_scope.

(** ** Token access *)

(** [jsmntok_t token[128]]. *)
Definition NUM_TOKENS : nat := 128.

Fixpoint cut_nul (s : string) : string :=
  match s with
  | EmptyString => EmptyString
  | String c r => if Ascii.eqb c NUL then EmptyString else String c (cut_nul r)
  end.

(** [strndup(jsonData + t->start, t->end - t->start)]. *)
Definition slice (json : string) (t : jsmntok) : string :=
  cut_nul (substring (Z.to_nat (t_start t)) (Z.to_nat (t_end t - t_start t)) json).
(** [jsonData + t->start]. *)
Definition text_at (json : string) (t : jsmntok) : string :=
  cut_nul (str_drop (Z.to_nat (t_start t)) json).

(** [!jsoneq(json, tok, s)]. *)
Definition jsoneq (json : string) (t : jsmntok) (s : string) : bool :=
  bool_decide (t_type t = JSMN_STRING) && (Z.of_nat (strlen s) =? t_end t - t_start t) &&
  streq (slice json t) s.

Definition is_object (t : jsmntok) : bool := bool_decide (t_type t = JSMN_OBJECT).
Definition is_array (t : jsmntok) : bool := bool_decide (t_type t = JSMN_ARRAY).

Section Json.
Context {W : Type} `{Env W}.

(** [token[i]]. *)
Definition tok {St} (ts : list jsmntok) (i : nat) : M St jsmntok := the BadToken (ts !! i).

(** The part the readers share: [fopen], [stat], [fread], [jsmn_parse()].  [None]
    is the early [return -1]. *)
Definition load_json (filename : string) : M W (option (string * Z * list jsmntok)) :=
  let! text := look (read_file filename) in
  match text with
  | None => ret None
  | Some text =>
      let! reg := look (is_reg filename) in
      if negb reg then ret None
      else
        let! r := jsmn_run text NUM_TOKENS in
        ret (Some (text, r.1, r.2))
  end.

(** [for (i = 1; i < n; i++)] over the tokens: the body gets [i] and the local
    state and returns the [i] of the next turn, which is larger.  [fuel] turns
    are enough as soon as [n <= fuel]. *)
Fixpoint token_loop {St A} (fuel : nat) (n : Z) (body : nat -> A -> M St (nat * A)) (i : nat) (a : A) :
    M St A :=
  if Z.of_nat i <? n then
    match fuel with
    | O => crash OutOfFuel
    | S f => let! r := body i a in token_loop f n body (S r.1) r.2
    end
  else ret a.

Definition over_tokens {St A} (n : Z) (body : nat -> A -> M St (nat * A)) (a : A) : M St A :=
  token_loop (Z.to_nat n) n body 1 a.

(** ** Shell.json *)

Record shell_devs := ShellDevs { sd_dev : acapd_device; sd_clk : acapd_device }.
#[export] Instance shell_devs_eta : Eta shell_devs := fun r => ShellDevs (sd_dev r) (sd_clk r).

(** [if (jsoneq(token[i], key)) field = f(token[i + 1])]. *)
Definition on_key {St A} (json : string) (ts : list jsmntok) (i : nat) (key : string)
    (f : jsmntok -> A -> A) (a : A) : M St A :=
  let! t := tok ts i in
  if jsoneq json t key then let! v := tok ts (S i) in ret (f v a) else ret a.

Definition hex_of (s : string) : Z := u64 (strtol 16 s).1.

Definition shell_body {St} (json : string) (ts : list jsmntok) (i : nat) (d : shell_devs) :
    M St (nat * shell_devs) :=
  let! t := tok ts i in
  if is_object t then ret (i, d)
  else
    let! d := on_key json ts i "device_name"
                (fun v d => d <| sd_dev ::= fun x => x <| dev_name := Some (slice json v) |> |>) d in
    let! d := on_key json ts i "reg_base"
                (fun v d => d <| sd_dev ::= fun x => x <| reg_pa := hex_of (slice json v) |> |>) d in
    let! d := on_key json ts i "reg_size"
                (fun v d => d <| sd_dev ::= fun x => x <| reg_size := hex_of (slice json v) |> |>) d in
    let! d := on_key json ts i "clock_device_name"
                (fun v d => d <| sd_clk ::= fun x => x <| dev_name := Some (slice json v) |> |>) d in
    let! d := on_key json ts i "clock_reg_base"
                (fun v d => d <| sd_clk ::= fun x => x <| reg_pa := hex_of (slice json v) |> |>) d in
    let! d := on_key json ts i "clock_reg_size"
                (fun v d => d <| sd_clk ::= fun x => x <| reg_size := hex_of (slice json v) |> |>) d in
    ret (i, d).

Definition parseShellJson (filename : string) : M (hw W) Z :=
  let! j := in_world (load_json filename) in
  match j with
  | None => ret (-1)
  | Some (json, n, ts) =>
      let! h := get in
      let! d := over_tokens n (shell_body json ts) (ShellDevs (shell_dev h) (shell_clock_dev h)) in
      modify (fun h => h <| shell_dev := sd_dev d |> <| shell_clock_dev := sd_clk d |>) ;;
      ret 0
  end.

(** ** The base design's Shell.json *)

(** [strncpy(dst, src, MIN(end - start, sz - 1))] and the terminating NUL. *)
Definition bounded (sz : nat) (json : string) (t : jsmntok) : string :=
  cut_nul (substring 0 (Nat.min (Z.to_nat (t_end t - t_start t)) (sz - 1)) (text_at json t)).

Definition says_no (p : string) : bool :=
  (Ascii.eqb (str_nth p 0) "n" || Ascii.eqb (str_nth p 0) "N") && Ascii.eqb (str_nth p 1) "o".

Definition base_body {St} (json : string) (ts : list jsmntok) (i : nat) (b : basePLDesign) :
    M St (nat * basePLDesign) :=
  let! t := tok ts i in
  if is_object t then ret (i, b)
  else
    let! b := on_key json ts i "shell_type" (fun v b => b <| b_type := bounded 128 json v |>) b in
    let! b := on_key json ts i "num_pl_slots"
                (fun v b => b <| num_pl_slots := u8 (strtol 10 (text_at json v)).1 |>) b in
    let! b := on_key json ts i "num_aie_slots"
                (fun v b => b <| num_aie_slots := u8 (strtol 10 (text_at json v)).1 |>) b in
    let! b := on_key json ts i "uid"
                (fun v b => b <| uid := int32 (strtol 16 (text_at json v)).1 |>) b in
    let! b := on_key json ts i "load_base_design"
                (fun v b => if says_no (text_at json v) then b <| load_base_design := false |> else b) b in
    ret (i, b).

Definition is_flat_type (t : string) : bool := streq t "XRT_FLAT" || streq t "PL_FLAT".

(** [initBaseDesign()]; [n_rpu] is [get_number_of_rpu()]. *)
Definition initBaseDesign (b : basePLDesign) (shell_path : string) (n_rpu : Z) :
    M W (Z * basePLDesign) :=
  if strneq (b_name b) "rpu" 3 || strneq (b_name b) "RPU" 3 then
    ret (0, b <| b_type := "RPU"%string |> <| load_base_design := false |>
              <| num_aie_slots := 0 |> <| num_pl_slots := u8 n_rpu |>)
  else
    let! j := load_json shell_path in
    match j with
    | None => ret (-1, b)
    | Some (json, n, ts) =>
        let b := b <| load_base_design := true |> <| num_pl_slots := 0 |> <| num_aie_slots := 0 |> in
        let! b := over_tokens n (base_body json ts) b in
        ret (0, if is_flat_type (b_type b) then b <| num_pl_slots := 1 |> else b)
    end.

(** ** accel.json: the package's entry *)

Definition accel_body {St} (json : string) (ts : list jsmntok) (i : nat) (a : accel_info) :
    M St (nat * accel_info) :=
  let! t := tok ts i in
  if is_object t then ret (i, a)
  else
    let! a := on_key json ts i "accel_type" (fun v a => a <| accel_type := bounded 32 json v |>) a in
    let! a := on_key json ts i "uid" (fun v a => a <| a_uid := int32 (strtol 16 (text_at json v)).1 |>) a in
    let! a := on_key json ts i "pid" (fun v a => a <| a_pid := int32 (strtol 16 (text_at json v)).1 |>) a in
    ret (i, a).

Definition initAccel (a : accel_info) (path : string) : M W (Z * accel_info) :=
  let! json_path := sprintf_into 256 (path ++ "/accel.json")%string in
  let! j := load_json json_path in
  match j with
  | None => ret (-1, a)
  | Some (json, n, ts) => let! a := over_tokens n (accel_body json ts) a in ret (0, a)
  end.

(** ** accel.json: the loaded accelerator *)

Record accel_parse := AccelParse {
  p_accel : acapd_accel;
  p_dma_ops : string;
  p_buff_size : Z;
}.
#[export] Instance accel_parse_eta : Eta accel_parse := fun r =>
  AccelParse (p_accel r) (p_dma_ops r) (p_buff_size r).

(** [if (jsoneq(token[k], key)) f(token[k + 1])] at an offset of its own. *)
Definition read_device {St} (json : string) (ts : list jsmntok) (k : nat) : M St acapd_device :=
  let! d := on_key json ts k "dev_name" (fun v d => d <| dev_name := Some (slice json v) |>) device0 in
  let! d := on_key json ts (k + 2) "reg_base" (fun v d => d <| reg_pa := hex_of (slice json v) |>) d in
  on_key json ts (k + 4) "reg_size" (fun v d => d <| reg_size := hex_of (slice json v) |>) d.

(** The [for (j ..)] loop of "accel_devices": the token index runs 7 per turn
    (6 and the [j] it is added to). *)
Fixpoint read_devices {St} (json : string) (ts : list jsmntok) (k : nat) (num : nat) :
    M St (list acapd_device) :=
  match num with
  | O => ret []
  | S num => let! d := read_device json ts k in
             let! r := read_devices json ts (k + 7) num in ret (d :: r)
  end.

Definition dir_of (s : string) (d : option acapd_dir) : option acapd_dir :=
  if streq s "ACAPD_DMA_DEV_R" then Some ACAPD_DMA_DEV_R
  else if streq s "ACAPD_DMA_DEV_W" then Some ACAPD_DMA_DEV_W
  else if streq s "ACAPD_DMA_DEV_RW" then Some ACAPD_DMA_DEV_RW else d.
Definition ops_of (s : string) : option dma_ops :=
  if streq s "axidma" then Some axidma_vfio_dma_ops
  else if streq s "mcdma" then Some mcdma_vfio_dma_ops else None.

Definition read_chnl {St} (json : string) (ts : list jsmntok) (dma : nat) (p : accel_parse) (k : nat) :
    M St acapd_chnl :=
  let! c := on_key json ts k "chnl_id" (fun v c => c <| chnl_id := atoi (slice json v) |>) chnl0 in
  let! c := on_key json ts (k + 2) "chnl_dir" (fun v c => c <| dir ::= dir_of (slice json v) |>) c in
  ret (c <| cdev := Some dma |> <| max_buf_size := p_buff_size p |> <| cops := ops_of (p_dma_ops p) |>).

Fixpoint read_chnls {St} (json : string) (ts : list jsmntok) (dma : nat) (p : accel_parse) (k : nat)
    (num : nat) : M St (list acapd_chnl) :=
  match num with
  | O => ret []
  | S num => let! c := read_chnl json ts dma p k in
             let! r := read_chnls json ts dma p (k + 5) num in ret (c :: r)
  end.

(** [calloc] of one device, and of the [accel_devices] array. *)
Definition new_devs (l : list acapd_device) : M (hw W) (list nat) :=
  let! h := get in
  modify (fun h => h <| devs ::= fun ds => ds ++ l |>) ;;
  ret (seq (length (devs h)) (length l)).

Definition parse_devices (json : string) (ts : list jsmntok) (i : nat) (p : accel_parse) :
    M (hw W) (nat * accel_parse) :=
  let! t := tok ts i in
  if jsoneq json t "accel_devices" then
    let! v := tok ts (i + 1) in
    let num := Z.to_nat (t_size v) in
    let! l := read_devices json ts (i + 3) num in
    let! ids := new_devs l in
    ret ((i + 2 + 6 * num)%nat, p <| p_accel ::= fun a => a <| ip_dev := ids |> |>)
  else ret (i, p).

Definition parse_chnls (json : string) (ts : list jsmntok) (dma : nat) (i : nat) (p : accel_parse) :
    M (hw W) (nat * accel_parse) :=
  let! t := tok ts i in
  if jsoneq json t "dataMoverChnls" then
    let! v := tok ts (i + 1) in
    let num := Z.to_nat (t_size v) in
    let! l := read_chnls json ts dma p (i + 3) num in
    ret ((i + 2 + 4 * num)%nat, p <| p_accel ::= fun a => a <| chnls := Some l |> |>)
  else ret (i, p).

Definition on_dma_key (json : string) (ts : list jsmntok) (dma i : nat) (key : string)
    (f : jsmntok -> acapd_device -> acapd_device) : M (hw W) unit :=
  let! t := tok ts i in
  if jsoneq json t key then
    let! v := tok ts (S i) in
    modify (fun h => h <| devs ::= alter (f v) dma |>)
  else ret tt.

Definition parse_body (json : string) (ts : list jsmntok) (dma : nat) (i : nat) (p : accel_parse) :
    M (hw W) (nat * accel_parse) :=
  let! t := tok ts i in
  if is_object t then ret (i, p)
  else
    let! ip := parse_devices json ts i p in
    let '(i, p) := ip in
    on_dma_key json ts dma i "dma_dev_name" (fun v d => d <| dev_name := Some (slice json v) |>) ;;
    on_dma_key json ts dma i "dma_driver" (fun v d => d <| driver := Some (slice json v) |>) ;;
    on_dma_key json ts dma i "iommu_group" (fun v d => d <| iommu_group := atoi (slice json v) |>) ;;
    let! p := on_key json ts i "max_buf_size"
                (fun v p => p <| p_buff_size := u32 (atoi (slice json v)) |>) p in
    let! p := on_key json ts i "HWType" (fun v p => p <| p_dma_ops := slice json v |>) p in
    let! ip := parse_chnls json ts dma i p in
    let '(i, p) := ip in
    let! _ := tok ts i in
    ret (i, p).

(** [parseAccelJson()]: the return value and the accelerator.  [calloc] is
    taken to succeed. *)
Definition parseAccelJson (a : acapd_accel) (filename : string) : M (hw W) (Z * acapd_accel) :=
  let! j := in_world (load_json filename) in
  match j with
  | None => ret (-1, a)
  | Some (json, n, ts) =>
      let! ids := new_devs [device0] in
      let! dma := the WildPtr (head ids) in
      let! p := over_tokens n (parse_body json ts dma) (AccelParse a "" 0) in
      ret (0, p_accel p)
  end.

(** ** daemon.conf *)

(** [fscanf(f, "%s", buf)] into [char buf[128]]: the return value ([EOF] is -1)
    and the word. *)
Fixpoint take_word (s : string) : string :=
  match s with
  | EmptyString => EmptyString
  | String c r => if isspace c then EmptyString else String c (take_word r)
  end.
Definition scan_word {St} (text dflt : string) : M St (Z * string) :=
  match take_word (skip_space text) with
  | EmptyString => ret (-1, dflt)
  | w => let! w := sprintf_into ACCEL_NAME_MAX w in ret (1, w)
  end.

(** [n] elements of an array, from token [k]. *)
Fixpoint read_strings {St} (json : string) (ts : list jsmntok) (k : nat) (n : nat) : M St (list string) :=
  match n with
  | O => ret []
  | S n => let! t := tok ts k in let! r := read_strings json ts (S k) n in ret (slice json t :: r)
  end.
Fixpoint read_pairs {St} (json : string) (ts : list jsmntok) (k : nat) (n : nat) :
    M St (list (string * string)) :=
  match n with
  | O => ret []
  | S n => let! kt := tok ts k in let! vt := tok ts (S k) in
           let! r := read_pairs json ts (S (S k)) n in ret ((slice json kt, slice json vt) :: r)
  end.

(** Local state of [parse_config()]: its [ret] is both the number of tokens,
    tested by the loop, and the result of [fscanf]. *)
Record config_parse := ConfigParse { c_ret : Z; c_config : daemon_config }.
#[export] Instance config_parse_eta : Eta config_parse := fun r => ConfigParse (c_ret r) (c_config r).

(** A turn ends by [continue] ([inl]) or goes on to the next test ([inr]). *)
Definition conf_default_accel (json : string) (ts : list jsmntok) (i : nat) (p : config_parse) :
    M W (config_parse + config_parse) :=
  let! t := tok ts i in
  if jsoneq json t "default_accel" then
    let! v := tok ts (S i) in
    let! text := look (read_file (slice json v)) in
    match text with
    | None => ret (inl p)
    | Some text =>
        let! r := scan_word text (defaul_accel_name (c_config p)) in
        ret (inr (p <| c_ret := r.1 |> <| c_config ::= fun c => c <| defaul_accel_name := r.2 |> |>))
    end
  else ret (inr p).

Definition conf_array (json : string) (ts : list jsmntok) (key : string)
    (f : list string -> daemon_config -> daemon_config) (i : nat) (p : config_parse) :
    M W ((config_parse + nat * config_parse)) :=
  let! t := tok ts i in
  if jsoneq json t key then
    let! v := tok ts (S i) in
    if negb (is_array v) then ret (inl p)
    else
      let! l := read_strings json ts (i + 2) (Z.to_nat (t_size v)) in
      ret (inr ((i + Z.to_nat (t_size v))%nat, p <| c_config ::= f l |>))
  else ret (inr (i, p)).

Definition conf_name_map (json : string) (ts : list jsmntok) (i : nat) (p : config_parse) :
    M W (config_parse + nat * config_parse) :=
  let! t := tok ts i in
  if jsoneq json t "eeprom_name_map" then
    let! v := tok ts (S i) in
    if negb (is_object v) then ret (inl p)
    else
      let n := Z.to_nat (t_size v) in
      let! l := read_pairs json ts (i + 2) n in
      ret (inr ((i + 2 * n)%nat, p <| c_config ::= fun c => c <| eeprom_name_map := l |> |>))
  else ret (inr (i, p)).

Definition config_body (json : string) (ts : list jsmntok) (i : nat) (p : config_parse) :
    M W (nat * config_parse) :=
  let! t := tok ts i in
  if is_object t then ret (i, p)
  else
    let! r := conf_default_accel json ts i p in
    match r with
    | inl p => ret (i, p)
    | inr p =>
        let! r := conf_array json ts "firmware_location"
                    (fun l c => c <| firmware_locations := l |>) i p in
        match r with
        | inl p => ret (i, p)
        | inr (i, p) =>
            let! p := on_key json ts i "rpu_fw_uptime_msec"
                        (fun v p => p <| c_config ::= fun c =>
                           c <| rpu_fw_uptime_msec := strtof_uint (text_at json v) |> |>) p in
            let! p := on_key json ts i "cma_path"
                        (fun v p => p <| c_config ::= fun c => c <| cma_path := Some (slice json v) |> |>) p in
            let! r := conf_array json ts "eeprom_location"
                        (fun l c => c <| eeprom_location := l |>) i p in
            match r with
            | inl p => ret (i, p)
            | inr (i, p) =>
                let! r := conf_name_map json ts i p in
                match r with
                | inl p => ret (i, p)
                | inr (i, p) => ret (i, p)
                end
            end
        end
    end.

Fixpoint config_loop (fuel : nat) (json : string) (ts : list jsmntok) (i : nat) (p : config_parse) :
    M W config_parse :=
  if Z.of_nat i <? c_ret p then
    match fuel with
    | O => crash OutOfFuel
    | S f => let! r := config_body json ts i p in config_loop f json ts (S r.1) r.2
    end
  else ret p.

(** [parse_config()]: the configuration it leaves in [*config]. *)
Definition parse_config (config_path : string) (c : daemon_config) : M W daemon_config :=
  let! text := look (read_file config_path) in
  match text with
  | None => ret c
  | Some text =>
      let! reg := look (is_reg config_path) in
      if negb reg then ret config0
      else
        let! r := jsmn_run text NUM_TOKENS in
        let! p := config_loop (Z.to_nat r.1) text r.2 1 (ConfigParse r.1 config0) in
        ret (c_config p)
  end.

(** ** Lemmas *)

(** The token loops terminate: a body that never moves backwards is run at most
    [n] times, so the fuel [over_tokens] gives is enough. *)
Lemma wp_token_loop {St A} F fuel n (body : nat -> A -> M St (nat * A)) (I : A -> St -> Prop) i a s :
  (forall i a s, I a s -> wp F (body i a) (fun r s' => (i <= r.1)%nat /\ I r.2 s') s) ->
  n <= Z.of_nat (fuel + i) -> I a s -> wp F (token_loop fuel n body i a) I s.
Proof.
  intros Hb. revert i a s. induction fuel as [|f IH]; intros i a s Hn HI; simpl.
  - destruct (Z.ltb_spec (Z.of_nat i) n); [lia|]. by apply wp_ret.
  - destruct (Z.of_nat i <? n); [|by apply wp_ret].
    apply wp_bind. eapply wp_mono; [by apply Hb|]. simpl. intros [i' a'] s' [Hi HI']. simpl in *.
    apply IH; [lia|done].
Qed.

Lemma wp_over_tokens {St A} F n (body : nat -> A -> M St (nat * A)) (I : A -> St -> Prop) a s :
  (forall i a s, I a s -> wp F (body i a) (fun r s' => (i <= r.1)%nat /\ I r.2 s') s) ->
  I a s -> wp F (over_tokens n body a) I s.
Proof. intros Hb HI. apply wp_token_loop; [done|lia|done]. Qed.

Lemma wp_tok {St} F ts i Q (s : St) : F BadToken -> (forall t, Q t s) -> wp F (tok ts i) Q s.
Proof. intros HF HQ. apply wp_the; auto. Qed.

Lemma wp_on_key {St A} F json ts i key (f : jsmntok -> A -> A) a Q (s : St) :
  F BadToken -> (forall v, Q (f v a) s) -> Q a s -> wp F (on_key json ts i key f a) Q s.
Proof.
  intros HF Hf Ha. unfold on_key. apply wp_bind, wp_tok; [done|]. intros t.
  destruct (jsoneq json t key); [|done]. by apply wp_bind, wp_tok.
Qed.

Lemma tame_tok {St} ts i : tame (tok (St := St) ts i).
Proof. unfold tok. tame_go. Qed.
#[local] Hint Resolve tame_tok : tame.
Lemma tame_on_key {St A} json ts i key (f : jsmntok -> A -> A) a : tame (on_key (St := St) json ts i key f a).
Proof. unfold on_key. tame_go. Qed.
Lemma tame_load_json f : tame (load_json f).
Proof. unfold load_json. tame_go. Qed.
#[local] Hint Resolve tame_on_key tame_load_json : tame.

(** What reading Shell.json may change in a base design. *)
Definition reconfigured (b b' : basePLDesign) : Prop :=
  b' = b <| b_type := b_type b' |> <| num_pl_slots := num_pl_slots b' |>
         <| num_aie_slots := num_aie_slots b' |> <| uid := uid b' |>
         <| load_base_design := load_base_design b' |>.

Lemma reconfigured_refl b : reconfigured b b.
Proof. by destruct b. Qed.
Lemma reconfigured_trans a b c : reconfigured a b -> reconfigured b c -> reconfigured a c.
Proof. unfold reconfigured. intros -> ->. done. Qed.

(** The slot counts are bytes, the type fits its array. *)
Definition slots_in_range (b : basePLDesign) : Prop :=
  0 <= num_pl_slots b < 256 /\ 0 <= num_aie_slots b < 256 /\ fits 128 (b_type b) = true.

Lemma u8_range z : 0 <= u8 z < 256.
Proof. apply Z.mod_pos_bound. lia. Qed.

Lemma cut_nul_length s : (strlen (cut_nul s) <= strlen s)%nat.
Proof. induction s as [|c s IH]; simpl; [done|]. destruct (Ascii.eqb c NUL); simpl; lia. Qed.
Lemma substring_length n s : (strlen (substring 0 n s) <= n)%nat.
Proof. revert n. induction s as [|c s IH]; intros [|n]; simpl; try lia. specialize (IH n). lia. Qed.
Lemma bounded_fits sz json t : (0 < sz)%nat -> fits sz (bounded sz json t) = true.
Proof.
  intros Hsz. unfold bounded, fits. apply Nat.ltb_lt.
  eapply Nat.le_lt_trans; [apply cut_nul_length|]. eapply Nat.le_lt_trans; [apply substring_length|]. lia.
Qed.

Lemma base_body_wp {St} json ts i b0 b (s : St) :
  reconfigured b0 b /\ slots_in_range b ->
  wp lib_fault (base_body json ts i b) (fun r _ => (i <= r.1)%nat /\ (reconfigured b0 r.2 /\ slots_in_range r.2)) s.
Proof.
  intros HI. unfold base_body. apply wp_bind, wp_tok; [split; discriminate|]. intros t.
  destruct (is_object t); [by apply wp_ret|].
  set (I := fun (b : basePLDesign) (_ : St) => reconfigured b0 b /\ slots_in_range b).
  assert (HF : lib_fault BadToken) by (split; discriminate).
  pose proof u8_range as Hu.
  do 5 (apply (wp_seq _ I); [apply wp_on_key; [done| |done]; intros v; destruct HI as [Hr (? & ? & ?)];
    try destruct (says_no _); (split; [first [done | by apply (reconfigured_trans _ _ _ Hr); destruct b] | split; [|split]; simpl; first [by apply bounded_fits; lia | auto]]) |
    clear dependent b; intros b ? HI]).
  by apply wp_ret.
Qed.

(** [initBaseDesign()] touches only the configuration of the entry, leaves slot
    counts a byte can hold, and gives a flat design exactly one slot. *)
Lemma initBaseDesign_wp b path n_rpu w :
  slots_in_range b ->
  wp lib_fault (initBaseDesign b path n_rpu)
     (fun r _ => reconfigured b r.2 /\ slots_in_range r.2 /\
                 (r.2 = b \/ (is_flat_type (b_type r.2) = true -> num_pl_slots r.2 = 1))) w.
Proof.
  intros Hs. unfold initBaseDesign. destruct (_ || _).
  { apply wp_ret. split; [by destruct b|]. split; [split; [|split]; simpl; [apply u8_range|lia|done]|by right]. }
  apply wp_bind. eapply wp_mono; [apply tame_load_json|]. intros [[[json n] ts]|] w' _; [|apply wp_ret; split; [by destruct b|]; split; [done|by left]].
  apply wp_bind. eapply wp_mono.
  { apply (wp_over_tokens _ _ _ (fun b' _ => reconfigured b b' /\ slots_in_range b')).
    - intros. by apply base_body_wp.
    - split; [by destruct b|]. split; [|split]; simpl; [lia|lia|apply Hs]. }
  intros b' w'' [Hr (? & ? & ?)]. apply wp_ret. simpl. destruct (is_flat_type (b_type b')) eqn:E.
  - split; [apply (reconfigured_trans _ _ _ Hr); by destruct b'|]. split; [split; [|split]; simpl; [lia|lia|done]|by right].
  - split; [done|]. split; [done|]. right. congruence.
Qed.

(** [accel_type] still fits its field. *)
Definition keeps_type (a a' : accel_info) : Prop := fits 32 (accel_type a) = true -> fits 32 (accel_type a') = true.

Lemma accel_body_wp {St} json ts i a (s : St) :
  wp lib_fault (accel_body json ts i a)
     (fun r _ => (i <= r.1)%nat /\ a_path r.2 = a_path a /\ a_name r.2 = a_name a /\
                 a_parent_path r.2 = a_parent_path a /\ keeps_type a r.2) s.
Proof.
  unfold accel_body, keeps_type. apply wp_bind, wp_tok; [split; discriminate|]. intros t.
  destruct (is_object t); [by apply wp_ret|].
  set (I := fun (a' : accel_info) (_ : St) =>
              a_path a' = a_path a /\ a_name a' = a_name a /\ a_parent_path a' = a_parent_path a /\
              (fits 32 (accel_type a) = true -> fits 32 (accel_type a') = true)).
  assert (HF : lib_fault BadToken) by (split; discriminate).
  assert (HI : I a s) by (split; [done|]; split; [done|]; split; [done|]; by intros ?).
  apply (wp_seq _ I); [apply wp_on_key; [done| |done]; intros v; split; [done|]; split; [done|]; split; [done|]; intros _; apply (bounded_fits 32); lia|].
  intros a1 s1 H1. do 2 (apply (wp_seq _ I); [by apply wp_on_key|intros ? ? (? & ? & ? & ?)]).
  by apply wp_ret.
Qed.

Lemma initAccel_wp a path w :
  wp lib_fault (initAccel a path)
     (fun r _ => a_path r.2 = a_path a /\ a_name r.2 = a_name a /\ a_parent_path r.2 = a_parent_path a /\
                 keeps_type a r.2) w.
Proof.
  unfold initAccel, keeps_type. apply wp_bind. eapply wp_mono; [apply tame_sprintf_into|]. intros p w' _.
  apply wp_bind. eapply wp_mono; [apply tame_load_json|]. intros [[[json n] ts]|] w'' _; [|apply wp_ret; by split_and!].
  apply wp_bind. eapply wp_mono.
  { apply (wp_over_tokens _ _ _ (fun a' _ => a_path a' = a_path a /\ a_name a' = a_name a /\
                                             a_parent_path a' = a_parent_path a /\
                                             (fits 32 (accel_type a) = true -> fits 32 (accel_type a') = true))); [|by split_and!].
    intros i a' s (Hp & Hn & Hpp & Ht). eapply wp_mono; [apply accel_body_wp|]. simpl.
    intros r _ (? & -> & -> & -> & Ht'). split_and!; try done. unfold keeps_type in Ht'. auto. }
  intros a' w3 Ha. by apply wp_ret.
Qed.

(** Reading accel.json fills in the devices and the channels, nothing else; the
    channels are closed and have a device. *)
Definition discovered (a a' : acapd_accel) : Prop :=
  a' = a <| ip_dev := ip_dev a' |> <| chnls := chnls a' |>.
Definition chnls_idle (a : acapd_accel) : Prop :=
  forall l c, chnls a = Some l -> c ∈ l -> is_open c = false /\ cdev c <> None.

Lemma discovered_trans a b c : discovered a b -> discovered b c -> discovered a c.
Proof. unfold discovered. intros -> ->. done. Qed.

Lemma read_chnls_wp {St} json ts dma p k num (s : St) :
  wp lib_fault (read_chnls json ts dma p k num)
     (fun l _ => forall c, c ∈ l -> is_open c = false /\ cdev c <> None) s.
Proof.
  revert k s. induction num as [|num IH]; intros k s; simpl.
  { apply wp_ret. intros c Hc. by apply elem_of_nil in Hc. }
  assert (HF : lib_fault BadToken) by (split; discriminate).
  apply (wp_seq _ (fun c _ => is_open c = false /\ cdev c <> None)).
  { unfold read_chnl. apply (wp_seq _ (fun c _ => is_open c = false)); [by apply wp_on_key|].
    intros c s' Hc. apply (wp_seq _ (fun c _ => is_open c = false)); [by apply wp_on_key|].
    intros c' s'' Hc'. by apply wp_ret. }
  intros c s' Hc. apply wp_bind. eapply wp_mono; [apply IH|]. intros l s'' Hl.
  apply wp_ret. intros c' [-> | Hin]%elem_of_cons; auto.
Qed.

Lemma tame_read_devices {St} json ts k num : tame (read_devices (St := St) json ts k num).
Proof.
  revert k. induction num as [|num IH]; intros k; simpl; [by auto with tame|].
  unfold read_device. tame_go; apply IH.
Qed.

Definition parse_inv (a : acapd_accel) (p : accel_parse) : Prop :=
  discovered a (p_accel p) /\ chnls_idle (p_accel p).

Lemma parse_devices_wp json ts i a p h :
  parse_inv a p ->
  wp lib_fault (parse_devices json ts i p) (fun r _ => (i <= r.1)%nat /\ parse_inv a r.2) h.
Proof.
  intros [Hd Hc]. unfold parse_devices. apply wp_bind, wp_tok; [split; discriminate|]. intros t.
  destruct (jsoneq _ _ _); [|by apply wp_ret].
  apply wp_bind, wp_tok; [split; discriminate|]. intros v.
  apply wp_bind. eapply wp_mono; [apply tame_read_devices|]. intros l h' _.
  unfold new_devs. apply wp_bind, wp_bind, wp_get, wp_bind, wp_modify, wp_ret, wp_ret. simpl.
  split; [lia|]. split; [|done]. apply (discovered_trans _ _ _ Hd). by destruct (p_accel p).
Qed.

Lemma parse_chnls_wp json ts dma i a p h :
  parse_inv a p ->
  wp lib_fault (parse_chnls json ts dma i p) (fun r _ => (i <= r.1)%nat /\ parse_inv a r.2) h.
Proof.
  intros [Hd Hc]. unfold parse_chnls. apply wp_bind, wp_tok; [split; discriminate|]. intros t.
  destruct (jsoneq _ _ _); [|by apply wp_ret].
  apply wp_bind, wp_tok; [split; discriminate|]. intros v.
  apply wp_bind. eapply wp_mono; [apply read_chnls_wp|]. intros l h' Hl. apply wp_ret. simpl.
  split; [lia|]. split.
  - apply (discovered_trans _ _ _ Hd). by destruct (p_accel p).
  - intros l' c [= <-]. apply Hl.
Qed.

Lemma tame_on_dma_key json ts dma i key f : tame (on_dma_key json ts dma i key f).
Proof. unfold on_dma_key. tame_go. Qed.

Lemma parse_body_wp json ts dma i a p h :
  parse_inv a p ->
  wp lib_fault (parse_body json ts dma i p) (fun r _ => (i <= r.1)%nat /\ parse_inv a r.2) h.
Proof.
  intros HI. unfold parse_body. assert (HF : lib_fault BadToken) by (split; discriminate).
  apply wp_bind, wp_tok; [done|]. intros t. destruct (is_object t); [by apply wp_ret|].
  apply wp_bind. eapply wp_mono; [by apply parse_devices_wp|]. intros [i1 p1] h1 [Hi1 HI1]. simpl in *.
  do 3 (apply wp_bind; eapply wp_mono; [apply tame_on_dma_key|]; intros ? ? _).
  apply (wp_seq _ (fun p _ => parse_inv a p)); [by apply wp_on_key|]. intros p2 h2 HI2.
  apply (wp_seq _ (fun p _ => parse_inv a p)); [by apply wp_on_key|]. intros p3 h3 HI3.
  apply wp_bind. eapply wp_mono; [by apply parse_chnls_wp|]. intros [i4 p4] h4 [Hi4 HI4]. simpl in *.
  apply wp_bind, wp_tok; [done|]. intros _. apply wp_ret. simpl. split; [lia|done].
Qed.

Lemma parseAccelJson_wp a f h :
  chnls_idle a ->
  wp lib_fault (parseAccelJson a f) (fun r _ => discovered a r.2 /\ chnls_idle r.2) h.
Proof.
  intros Ha. unfold parseAccelJson. apply wp_bind, wp_in_world.
  eapply wp_mono; [apply tame_load_json|]. intros [[[json n] ts]|] w _; [|by apply wp_ret; destruct a].
  unfold new_devs. apply wp_bind, wp_bind, wp_get, wp_bind, wp_modify, wp_ret. simpl.
  apply wp_bind, wp_ret, wp_bind. eapply wp_mono.
  - apply (wp_over_tokens _ _ _ (fun p _ => parse_inv a p)).
    + intros. by apply parse_body_wp.
    + split; [by destruct a|done].
  - intros p h' [Hd Hc]. by apply wp_ret.
Qed.

Lemma tame_shell_body {St} json ts i d : tame (shell_body (St := St) json ts i d).
Proof. unfold shell_body. tame_go. Qed.

Lemma load_json_returns F f : always F (load_json f).
Proof.
  intros w. unfold load_json. apply wp_bind, wp_look. destruct (read_file f w) as [text|]; [|by apply wp_ret].
  apply wp_bind, wp_look. destruct (negb _); [by apply wp_ret|].
  apply wp_bind. eapply wp_mono; [apply always_jsmn_run|]. intros r w' _. by apply wp_ret.
Qed.

(** Reading shell.json stops for one reason only: the member after a key is not
    among the tokens. *)
Lemma parseShellJson_stops f : always (eq BadToken) (parseShellJson f).
Proof.
  intros h. unfold parseShellJson. apply wp_bind, wp_in_world.
  eapply wp_mono; [apply load_json_returns|]. intros [[[json n] ts]|] w _; [|by apply wp_ret].
  apply wp_bind, wp_get, wp_bind. eapply wp_mono.
  - apply (wp_over_tokens _ _ _ (fun _ _ => True)); [|done]. intros i d s _. unfold shell_body.
    apply wp_bind, wp_tok; [done|]. intros t. destruct (is_object t); [by apply wp_ret|].
    do 6 (apply (wp_seq _ (fun _ _ => True)); [by apply wp_on_key|intros ? ? _]). by apply wp_ret.
  - intros d h' _. by apply wp_bind, wp_modify, wp_ret.
Qed.

Lemma tame_parseShellJson f : tame (parseShellJson f).
Proof. intros h. eapply wp_weaken; [|apply parseShellJson_stops]. by intros ? <-. Qed.
End Json.
#[export] Hint Resolve always_jsmn_run : tame.
#[export] Hint Resolve tame_tok tame_on_key tame_load_json tame_parseShellJson : tame.
