(* ===== verification/Accel.v ===== *)
(** * Accelerators

    [src/accel.c], [src/sys/linux/accel.c], [src/shell.c] and
    [src/sys/linux/shell.c]: configuring, fetching, loading, closing and
    removing one accelerator through libdfx.  An [acapd_accel_t] has a single
    owner, so an operation takes its value and returns the updated one. *)
From S2P Require Import Prelude CStr Env Model UserLoad Device Dma Json.
Open Scope Z_scope.
Open Scope dfx_scope.

Definition remove_fuel : nat := 4096.     (* PATH_MAX: the depth of a path *)

(** [init_accel()]. *)
Definition init_accel (p : acapd_accel_pkg_hd) : acapd_accel :=
  accel_zero <| pkg := Some p |> <| rm_slot := -1 |> <| status := ACAPD_ACCEL_STATUS_UNLOADED |>.

Definition chnl_list (a : acapd_accel) : list acapd_chnl := default [] (chnls a).

Section Accel.
Context {W : Type} `{Env W}.

(** ** The shell: [src/shell.c], [src/sys/linux/shell.c] *)

Definition file_there (p : string) : M (hw W) bool := in_world (look (exists_ p)).

Definition sys_shell_config (config : option string) : M (hw W) Z :=
  let! config := match config with
                 | Some c => ret (Some c)
                 | None => in_world (look (getenv "ACAPD_SHELL_CONFIG"))
                 end in
  let! there := match config with Some c => file_there c | None => ret false end in
  let config := if there then default ""%string config else "./shell.json"%string in
  let! there := file_there config in
  if there : bool then
    let! r := parseShellJson config in
    if r <? 0 then ret ACAPD_ACCEL_FAILURE else ret ACAPD_ACCEL_SUCCESS
  else ret ACAPD_ACCEL_SUCCESS.

Definition acapd_shell_config (config : option string) : M (hw W) Z := sys_shell_config config.

Definition names (d : acapd_device) (str : string) : bool :=
  match dev_name d with Some n => has_sub n str | None => false end.
Definition dfx_shell_uio_by_name (str : string) : M (hw W) (option string) :=
  let! h := get in
  ret (if names (shell_dev h) str then Some (dpath (shell_dev h))
       else if names (shell_clock_dev h) str then Some (dpath (shell_clock_dev h)) else None).

Definition uio_line (d : acapd_device) : string :=
  match dev_name d with
  | Some n => (pad_right 30 n ++ " " ++ dpath d ++ String "010" "")%string
  | None => ""
  end.
(** What is printed at [buf]; the caller says that [sz] bytes are left there
    ([sz] is a [size_t]). *)
Definition dfx_shell_uio_list (sz : Z) : M (hw W) string :=
  guard_that AssertFailed (256 <? u64 sz) ;;
  let! h := get in
  ret (uio_line (shell_dev h) ++ uio_line (shell_clock_dev h))%string.

(** ** [src/sys/linux/accel.c] *)

(** [remove_directory()]; the entries are visited until one fails. *)
Fixpoint remove_directory (fuel : nat) (path : string) : M W Z :=
  match fuel with
  | O => crash OutOfFuel
  | S fuel =>
      let! d := look (readdir path) in
      match d with
      | None => ret (-1)
      | Some l =>
          let! bad := for_ret (fun e =>
              if streq (d_name e) "." || streq (d_name e) ".." then ret None
              else
                let buf := join_path path (d_name e) in
                let! there := look (exists_ buf) in
                let! r :=
                  if there : bool then
                    let! dir := look (is_dir buf) in
                    if dir : bool then remove_directory fuel buf else act (unlink_ buf)
                  else ret (-1) in
                ret (if r =? 0 then None else Some r)) l in
          match bad with
          | Some r => ret r
          | None => act (rmdir_ path)
          end
      end
  end.

(** 0 when [ACCEL_CONFIG_PATH] is set: the bitstream is already there. *)
Definition sys_needs_load_accel : M (hw W) Z :=
  let! e := in_world (look (getenv "ACCEL_CONFIG_PATH")) in
  ret (match e with Some _ => 0 | None => 1 end).

(** The [config_path] that [sys_accel_config()] builds, and the accelerator
    with its [tmp_dir]; [inl r] is an early return. *)
Definition accel_config_path (a : acapd_accel) : M (hw W) (Z * acapd_accel + string * acapd_accel) :=
  let! e := in_world (look (getenv "ACCEL_CONFIG_PATH")) in
  match e with
  | Some e =>
      if (128 <? strlen e)%nat then ret (inl (ACAPD_ACCEL_FAILURE, a))
      else let! p := sprintf_into 128 e in ret (inr (p, a))
  | None =>
      let! k := the NullDeref (pkg a) in
      if ptype k =? ACAPD_ACCEL_PKG_TYPE_TAR_GZ then
        let! t := in_world (act (mkdtemp "/tmp/accel.XXXXXX")) in
        match t with
        | None => ret (inl (ACAPD_ACCEL_FAILURE, a))
        | Some t =>
            let! d := sprintf_into 512 (t ++ "/")%string in
            let a := a <| tmp_dir := d |> in
            let! cmd := sprintf_into 512 ("tar -C " ++ t ++ " -xzf " ++ ppath k)%string in
            let! r := in_world (act (system cmd)) in
            if negb (r =? 0) then ret (inl (ACAPD_ACCEL_FAILURE, a))
            else if (strlen d <? 117)%nat then
              let! p := sprintf_into 128 (d ++ "accel.json")%string in ret (inr (p, a))
            else ret (inl (ACAPD_ACCEL_FAILURE, a))
        end
      else if ptype k =? ACAPD_ACCEL_PKG_TYPE_NONE then
        let! d := sprintf_into 512 (ppath k ++ "/")%string in
        let a := a <| tmp_dir := d |> in
        let! p := sprintf_into 128 (d ++ "accel.json")%string in
        ret (inr (p, a))
      else ret (inl (ACAPD_ACCEL_FAILURE, a))
  end.

(** [ACCEL_IP<i>_PATH] overrides the path of device [i]; a missing one ends the
    loop with success, a long one with failure. *)
Definition override_path (ix : nat * nat) : M (hw W) (option Z) :=
  let '(i, d) := ix in
  let! p := in_world (look (getenv ("ACCEL_IP" ++ dec (Z.of_nat i) ++ "_PATH"))) in
  match p with
  | None => ret (Some ACAPD_ACCEL_SUCCESS)
  | Some p =>
      if (64 <=? strlen p)%nat then ret (Some ACAPD_ACCEL_FAILURE)
      else mod_dev d (fun x => x <| dpath := p |>) ;; ret None
  end.

Definition sys_accel_config (a : acapd_accel) : M (hw W) (Z * acapd_accel) :=
  let! cp := accel_config_path a in
  match cp with
  | inl ra => ret ra
  | inr (config_path, a) =>
      let! ra := parseAccelJson a config_path in
      let a := ra.2 in
      let! n := sys_needs_load_accel in
      if n =? 0 then
        let! r := for_ret override_path (imap (fun i d => (i, d)) (ip_dev a)) in
        ret (default ACAPD_ACCEL_SUCCESS r, a)
      else ret (ACAPD_ACCEL_SUCCESS, a)
  end.

Definition sys_fetch_accel (a : acapd_accel) (flags : Z) : M (hw W) (Z * acapd_accel) :=
  let cma := if streq (acma_path a) "" then None else Some (acma_path a) in
  let! r := in_world (act (dfx_cfg_init (tmp_dir a) flags cma)) in
  if r <? 0 then ret (ACAPD_ACCEL_FAILURE, a)
  else ret (ACAPD_ACCEL_SUCCESS, a <| sys_fpga_cfg_id := r |>).

Definition open_ip_dev (d : nat) : M (hw W) (option Z) :=
  let! r := acapd_device_open d in ret (if negb (r =? 0) then Some (- EINVAL) else None).

Definition sys_load_accel (a : acapd_accel) : M (hw W) (Z * acapd_accel) :=
  if negb (is_cached a) then ret (ACAPD_ACCEL_FAILURE, a)
  else
    let! r := in_world (act (dfx_cfg_load (sys_fpga_cfg_id a))) in
    let! st := in_world (look (dfx_get_fpga_state 64)) in
    let a := a <| sys_fpga_state := default ""%string st |> in
    if negb (r =? 0) then
      let! _ := in_world (act (dfx_cfg_destroy (sys_fpga_cfg_id a))) in
      ret (ACAPD_ACCEL_FAILURE, a)
    else if is_flat_type (atype a) then ret (ACAPD_ACCEL_SUCCESS, a)
    else
      let! r := for_ret open_ip_dev (ip_dev a) in
      ret (default ACAPD_ACCEL_SUCCESS r, a).

Definition close_ip_dev (d : nat) : M (hw W) unit :=
  let! _ := acapd_device_close d in mod_dev d (fun x => x <| dev_name := None |>).

(** [sys_close_accel()]: the channels, then the devices; both lists are freed. *)
Definition sys_close_accel (a : acapd_accel) : M (hw W) (Z * acapd_accel) :=
  for_each (fun c => let! _ := acapd_dma_close c in ret tt) (chnl_list a) ;;
  let! a := match chnl_list a with
            | [] => ret a
            | c :: _ =>
                let! d := the NullDeref (cdev c) in
                mod_dev d (fun x => x <| dev_name := None |>) ;;
                ret (a <| chnls := None |>)
            end in
  for_each close_ip_dev (ip_dev a) ;;
  ret (0, a <| ip_dev := [] |>).

Definition sys_remove_base (id : Z) : M (hw W) Z :=
  let! r := in_world (act (dfx_cfg_remove id)) in
  if negb (r =? 0) then ret (-1)
  else
    let! r := in_world (act (dfx_cfg_destroy id)) in
    if negb (r =? 0) then ret (-1) else ret 0.

Definition sys_remove_accel (a : acapd_accel) : M (hw W) Z :=
  let! k := the NullDeref (pkg a) in
  (if ptype k =? ACAPD_ACCEL_PKG_TYPE_TAR_GZ
   then let! _ := in_world (remove_directory remove_fuel (tmp_dir a)) in ret tt else ret tt) ;;
  if sys_fpga_cfg_id a <=? 0 then ret ACAPD_ACCEL_FAILURE
  else
    let! r := in_world (act (dfx_cfg_remove (sys_fpga_cfg_id a))) in
    if negb (r =? 0) then ret ACAPD_ACCEL_SUCCESS
    else
      let! _ := in_world (act (dfx_cfg_destroy (sys_fpga_cfg_id a))) in
      ret ACAPD_ACCEL_SUCCESS.

(** ** [src/accel.c] *)

Definition acapd_parse_config (a : acapd_accel) (shell_config : option string) :
    M (hw W) (Z * acapd_accel) :=
  let! ra := if streq (atype a) "XRT_AIE_DFX" then sys_accel_config a else ret (0, a) in
  let '(r, a) := ra in
  if r <? 0 then ret (ACAPD_ACCEL_FAILURE, a)
  else
    let! r := acapd_shell_config shell_config in
    if r <? 0 then ret (ACAPD_ACCEL_FAILURE, a) else ret (r, a).

Definition get_fpga_flags (a : acapd_accel) : M W Z :=
  let! dtbo := find_overlay_file (tmp_dir a) in
  match dtbo with
  | None => ret DFX_NORMAL_EN
  | Some p =>
      let! text := look (read_file p) in
      match text with
      | None => ret DFX_NORMAL_EN
      | Some t => ret (if has_sub t "external-fpga-config" then DFX_EXTERNAL_CONFIG_EN else DFX_NORMAL_EN)
      end
  end.

Definition load_accel (a : acapd_accel) (shell_config : option string) : M (hw W) (Z * acapd_accel) :=
  let! ra := acapd_parse_config a shell_config in
  let '(r, a) := ra in
  if r <? 0 then ret (ACAPD_ACCEL_FAILURE, a)
  else
    let! n := sys_needs_load_accel in
    if n =? 0 then ret (0, a)
    else
      let! ra :=
        if is_cached a then ret (ACAPD_ACCEL_SUCCESS, a)
        else
          let! flags := in_world (get_fpga_flags a) in
          let! ra := sys_fetch_accel a flags in
          ret (ra.1, if ra.1 =? ACAPD_ACCEL_SUCCESS then ra.2 <| is_cached := true |> else ra.2) in
      let '(r, a) := ra in
      if negb (r =? ACAPD_ACCEL_SUCCESS) then ret (r, a)
      else
        let! ra := sys_load_accel a in
        let '(r, a) := ra in
        if r =? ACAPD_ACCEL_SUCCESS then ret (r, a <| status := ACAPD_ACCEL_STATUS_INUSE |>)
        else if r =? ACAPD_ACCEL_INPROGRESS then ret (r, a <| status := ACAPD_ACCEL_STATUS_LOADING |>)
        else ret (r, a <| load_failure := r |>).

Definition accel_load_status (a : acapd_accel) : Z :=
  if negb (load_failure a =? ACAPD_ACCEL_SUCCESS) then load_failure a
  else if negb (status a =? ACAPD_ACCEL_STATUS_INUSE) then ACAPD_ACCEL_INVALID
  else ACAPD_ACCEL_SUCCESS.

Definition acapd_accel_wait_for_data_ready (a : acapd_accel) : Z := 1.

Definition remove_base (id : Z) : M (hw W) Z :=
  if id <=? 0 then ret (-1) else sys_remove_base id.

Definition remove_accel (a : acapd_accel) : M (hw W) (Z * acapd_accel) :=
  if status a =? ACAPD_ACCEL_STATUS_UNLOADED then ret (ACAPD_ACCEL_SUCCESS, a)
  else if status a =? ACAPD_ACCEL_STATUS_UNLOADING then ret (ACAPD_ACCEL_INPROGRESS, a)
  else
    let! ra := sys_close_accel a in
    let '(r, a) := ra in
    if r <? 0 then ret (ACAPD_ACCEL_FAILURE, a)
    else
      let! n := sys_needs_load_accel in
      if n =? 0 then ret (ACAPD_ACCEL_SUCCESS, a <| status := ACAPD_ACCEL_STATUS_UNLOADED |>)
      else
        let! r := sys_remove_accel a in
        if r =? ACAPD_ACCEL_SUCCESS then ret (r, a <| status := ACAPD_ACCEL_STATUS_UNLOADED |>)
        else ret (r, a <| status := ACAPD_ACCEL_STATUS_UNLOADING |>).

(** The channels, as an array whose elements are opened in turn. *)
Fixpoint open_channels (done todo : list acapd_chnl) : M (hw W) (Z * list acapd_chnl) :=
  match todo with
  | [] => ret (0, done)
  | c :: todo =>
      let! rc := acapd_dma_open c in
      if rc.1 <? 0 then ret (rc.1, done ++ rc.2 :: todo)
      else open_channels (done ++ [rc.2]) todo
  end.

(** Without channels [chnls] may be NULL: the loop has no turn. *)
Definition acapd_accel_open_channel (a : acapd_accel) : M (hw W) (Z * acapd_accel) :=
  match chnls a with
  | None => ret (0, a)
  | Some l => let! rl := open_channels [] l in ret (rl.1, a <| chnls := Some rl.2 |>)
  end.

Definition acapd_accel_reset_channel (a : acapd_accel) : M (hw W) (Z * acapd_accel) :=
  let! ra := acapd_accel_open_channel a in
  let '(r, a) := ra in
  if r <? 0 then ret (r, a)
  else
    for_each (fun c => let! _ := acapd_dma_stop c in let! _ := acapd_dma_reset c in ret tt) (chnl_list a) ;;
    ret (0, a).

(** The first device whose name contains [name]: [strstr(NULL, ..)] faults. *)
Fixpoint find_ip_dev (l : list nat) (name : string) : M (hw W) (option nat) :=
  match l with
  | [] => ret None
  | d :: l =>
      let! x := get_dev d in
      let! n := the NullArg (dev_name x) in
      if has_sub n name then ret (Some d) else find_ip_dev l name
  end.

Definition acapd_accel_get_reg_va (a : acapd_accel) (name : option string) : M (hw W) (option Z) :=
  match name with
  | None => ret None
  | Some name =>
      let! d := find_ip_dev (ip_dev a) name in
      match d with
      | None => ret None
      | Some d =>
          let! x := get_dev d in
          match va x with
          | Some v => ret (Some v)
          | None =>
              let! r := acapd_device_open d in
              if r <? 0 then ret None else let! x := get_dev d in ret (va x)
          end
      end
  end.

(** ** Lemmas *)

Lemma tame_remove_directory fuel path : tame (remove_directory fuel path).
Proof.
  revert path. induction fuel as [|fuel IH]; intros path; simpl; [by tame_go|].
  tame_go; apply IH.
Qed.

Lemma tame_sys_shell_config c : tame (sys_shell_config c).
Proof. unfold sys_shell_config, file_there. tame_go. Qed.

Lemma tame_get_fpga_flags a : tame (get_fpga_flags a).
Proof. unfold get_fpga_flags, find_overlay_file. tame_go. Qed.

Lemma tame_needs_load : tame sys_needs_load_accel.
Proof. unfold sys_needs_load_accel. tame_go. Qed.

Lemma tame_open_ip_dev d : tame (open_ip_dev d).
Proof. unfold open_ip_dev. tame_go. Qed.

Lemma tame_close_ip_dev d : tame (close_ip_dev d).
Proof. unfold close_ip_dev. tame_go. Qed.

Lemma tame_override_path ix : tame (override_path ix).
Proof. unfold override_path. destruct ix. tame_go. Qed.

Lemma tame_sys_remove_base id : tame (sys_remove_base id).
Proof. unfold sys_remove_base. tame_go. Qed.

Lemma tame_remove_base id : tame (remove_base id).
Proof. unfold remove_base. pose proof tame_sys_remove_base. tame_go. Qed.

#[local] Hint Resolve tame_remove_directory tame_sys_shell_config tame_get_fpga_flags tame_needs_load
  tame_open_ip_dev tame_close_ip_dev tame_override_path : tame.

(** What stays with an accelerator over its life: its package, its slot and its
    type; its channels stay closed. *)
Definition same_package (a a' : acapd_accel) : Prop :=
  pkg a' = pkg a /\ rm_slot a' = rm_slot a /\ atype a' = atype a /\ status a' = status a /\
  is_cached a' = is_cached a /\ chnls_idle a'.

Lemma accel_config_path_wp a h :
  pkg a <> None -> chnls_idle a ->
  wp lib_fault (accel_config_path a)
     (fun r _ => match r with
                 | inl (z, a') => z = ACAPD_ACCEL_FAILURE /\ same_package a a'
                 | inr (_, a') => same_package a a'
                 end) h.
Proof.
  intros Hp Hc. unfold accel_config_path. apply wp_bind, wp_in_world, wp_look. simpl.
  destruct (getenv _ _) as [e|].
  - destruct (_ <? _)%nat; [by apply wp_ret|].
    apply wp_bind. eapply wp_mono; [apply tame_sprintf_into|]. intros p ? _. by apply wp_ret.
  - apply wp_bind, wp_the; [|done]. intros k Hk.
    destruct (ptype k =? ACAPD_ACCEL_PKG_TYPE_TAR_GZ).
    + apply wp_bind, wp_in_world, wp_act. destruct (mkdtemp _ _).1 as [t|]; [|by apply wp_ret].
      apply wp_bind. eapply wp_mono; [apply tame_sprintf_into|]. intros d ? _. simpl.
      apply wp_bind. eapply wp_mono; [apply tame_sprintf_into|]. intros cmd ? _. simpl.
      apply wp_bind, wp_in_world, wp_act. destruct (negb _); [by apply wp_ret|].
      destruct (_ <? _)%nat; [|by apply wp_ret].
      apply wp_bind. eapply wp_mono; [apply tame_sprintf_into|]. intros p ? _. by apply wp_ret.
    + destruct (ptype k =? ACAPD_ACCEL_PKG_TYPE_NONE); [|by apply wp_ret].
      apply wp_bind. eapply wp_mono; [apply tame_sprintf_into|]. intros d ? _. simpl.
      apply wp_bind. eapply wp_mono; [apply tame_sprintf_into|]. intros p ? _. by apply wp_ret.
Qed.

Lemma sys_accel_config_wp a h :
  pkg a <> None -> chnls_idle a ->
  wp lib_fault (sys_accel_config a) (fun r _ => same_package a r.2) h.
Proof.
  intros Hp Hc. unfold sys_accel_config. apply wp_bind.
  eapply wp_mono; [by apply accel_config_path_wp|]. intros [[z a1]|[p a1]] h1.
  - intros [_ Ha]. by apply wp_ret.
  - intros (Hp1 & Hr1 & Ht1 & Hs1 & Hi1 & Hc1). apply wp_bind.
    eapply wp_mono; [by apply parseAccelJson_wp|]. intros [z a2] h2 [Hd Hc2]. simpl in Hd, Hc2.
    assert (Ha2 : same_package a a2) by (split_and!; [rewrite Hd; done..|exact Hc2]).
    apply wp_bind. eapply wp_mono; [apply tame_needs_load|]. intros n h3 _.
    destruct (n =? 0); [|by apply wp_ret].
    apply wp_bind. eapply wp_mono; [apply always_for_ret; auto with tame|]. intros r h4 _. by apply wp_ret.
Qed.

Lemma same_package_refl a : chnls_idle a -> same_package a a.
Proof. done. Qed.

Lemma acapd_parse_config_wp a sc h :
  pkg a <> None -> chnls_idle a ->
  wp lib_fault (acapd_parse_config a sc) (fun r _ => same_package a r.2) h.
Proof.
  intros Hp Hc. unfold acapd_parse_config, acapd_shell_config.
  apply (wp_seq _ (fun r _ => same_package a r.2)).
  { destruct (streq _ _); [by apply sys_accel_config_wp|by apply wp_ret]. }
  intros [r a1] h1 Ha1. destruct (r <? 0); [by apply wp_ret|].
  apply wp_bind. eapply wp_mono; [apply tame_sys_shell_config|]. intros r2 h2 _.
  destruct (r2 <? 0); by apply wp_ret.
Qed.

(** The outcomes of [sys_load_accel()] and [sys_fetch_accel()]. *)
Definition load_result (r : Z) : Prop := r = ACAPD_ACCEL_SUCCESS \/ r = ACAPD_ACCEL_FAILURE \/ r = - EINVAL.

Lemma open_ip_devs_wp l h :
  wp lib_fault (for_ret open_ip_dev l) (fun r _ => r = None \/ r = Some (- EINVAL)) h.
Proof.
  revert h. induction l as [|d l IH]; intros h; simpl; [by apply wp_ret; left|].
  unfold open_ip_dev at 1. apply wp_bind, wp_bind. eapply wp_mono; [apply tame_device_open|].
  intros r h' _. apply wp_ret. destruct (negb _); [by apply wp_ret; right|apply IH].
Qed.

(** libdfx accepted to load the configuration of [a]. *)
Definition accepted (a : acapd_accel) : Prop := exists w, (dfx_cfg_load (sys_fpga_cfg_id a) w).1 = 0.

Lemma sys_load_accel_wp a h :
  chnls_idle a ->
  wp lib_fault (sys_load_accel a)
     (fun r _ => same_package a r.2 /\ load_result r.1 /\ (r.1 = ACAPD_ACCEL_SUCCESS -> accepted r.2)) h.
Proof.
  intros Hc. unfold sys_load_accel, load_result. destruct (negb (is_cached a)); [apply wp_ret; split_and!; [done|auto|done]|].
  apply wp_bind, wp_in_world, wp_act, wp_bind, wp_in_world, wp_look. simpl.
  destruct (Z.eqb_spec (dfx_cfg_load (sys_fpga_cfg_id a) (hw_world h)).1 0) as [Eok|]; cbn [negb].
  2: { apply wp_bind, wp_in_world, wp_act, wp_ret. split_and!; [done|auto|done]. }
  assert (Hacc : forall st, accepted (a <| sys_fpga_state := st |>)) by (intros st; by exists (hw_world h)).
  destruct (is_flat_type _); [apply wp_ret; split_and!; [done|auto|intros _; apply Hacc]|].
  apply wp_bind. eapply wp_mono; [apply open_ip_devs_wp|]. intros r h' Hr. apply wp_ret. simpl.
  split; [done|]. destruct Hr as [-> | ->]; simpl; split; [auto|intros _; apply Hacc|auto|done].
Qed.

(** [sys_needs_load_accel()] answers for the world it leaves. *)
Lemma needs_load_wp h :
  wp lib_fault sys_needs_load_accel
     (fun n h' => h' = h /\ (n = 0 <-> getenv "ACCEL_CONFIG_PATH" (hw_world h') <> None)) h.
Proof.
  apply wp_bind, wp_in_world, wp_look, wp_ret. destruct h as [? ? ? w]. cbn.
  split; [done|]. by destruct (getenv _ w).
Qed.

(** What a caller relies on: the accelerator it gets back. *)
Definition carried (a a' : acapd_accel) : Prop :=
  pkg a' = pkg a /\ rm_slot a' = rm_slot a /\ atype a' = atype a /\ chnls_idle a'.

Lemma same_carried a a1 a2 : carried a a1 -> same_package a1 a2 -> carried a a2.
Proof. intros (? & ? & ? & ?) (? & ? & ? & ? & ? & ?). split_and!; [congruence..|done]. Qed.
Lemma carried_refl a : chnls_idle a -> carried a a.
Proof. done. Qed.

(** A load that succeeded: libdfx has it, or the platform comes with it loaded. *)
Definition in_use (a : acapd_accel) : Prop :=
  status a = ACAPD_ACCEL_STATUS_INUSE /\ is_cached a = true /\ accepted a.
Definition preloaded (a a' : acapd_accel) (h : hw W) : Prop :=
  getenv "ACCEL_CONFIG_PATH" (hw_world h) <> None /\ status a' = status a /\ is_cached a' = is_cached a.

Lemma load_accel_wp a sc h :
  pkg a <> None -> chnls_idle a ->
  wp lib_fault (load_accel a sc)
     (fun r h' => carried a r.2 /\ load_result r.1 /\
                 (r.1 = ACAPD_ACCEL_SUCCESS -> in_use r.2 \/ preloaded a r.2 h') /\
                 (r.1 <> ACAPD_ACCEL_SUCCESS -> status r.2 = status a)) h.
Proof.
  intros Hp Hc. unfold load_accel.
  apply wp_bind. eapply wp_mono; [by apply acapd_parse_config_wp|].
  intros [r a1] h1 Hsame. simpl in *. unfold load_result.
  assert (Hcar : carried a a1) by (by apply (same_carried a a)).
  destruct Hsame as (Hp1 & Hr1 & Ht1 & Hs1 & Hi1 & Hc1).
  destruct (r <? 0); [apply wp_ret; split_and!; [done|auto|done|auto]|].
  apply wp_bind. eapply wp_mono; [apply needs_load_wp|]. intros n h2 [_ Hn].
  destruct (Z.eqb_spec n 0) as [En|]; [apply wp_ret; split_and!; [done|by left|right; split_and!; tauto|done]|].
  apply (wp_seq _ (fun ra _ => carried a ra.2 /\ status ra.2 = status a /\ load_result ra.1 /\
                               (ra.1 = ACAPD_ACCEL_SUCCESS -> is_cached ra.2 = true))).
  { unfold load_result. destruct (is_cached a1) eqn:Ec; [apply wp_ret; auto|].
    apply wp_bind, wp_in_world. eapply wp_mono; [apply tame_get_fpga_flags|]. intros flags w _.
    unfold sys_fetch_accel. apply wp_bind, wp_bind, wp_in_world, wp_act.
    destruct (_ <? 0); apply wp_ret, wp_ret; (split_and!; [exact Hcar|exact Hs1|auto|done]). }
  intros [r2 a2] h3 (Hcar2 & Hs2 & Hl2 & Hca2). simpl in *. unfold load_result in Hl2.
  destruct (Z.eqb_spec r2 ACAPD_ACCEL_SUCCESS); simpl; [|apply wp_ret; split_and!; [done|auto|done|auto]].
  pose proof Hcar2 as (Hp2 & Hr2 & Ht2 & Hc2).
  apply wp_bind. eapply wp_mono; [by apply sys_load_accel_wp|].
  intros [r3 a3] h4 (Hsame & Hl3 & Hacc). simpl in *.
  assert (Hcar3 : carried a a3) by (by apply (same_carried a a2)).
  destruct Hsame as (Hp3 & Hr3 & Ht3 & Hs3 & Hi3 & Hc3).
  unfold load_result in Hl3.
  destruct (Z.eqb_spec r3 ACAPD_ACCEL_SUCCESS).
  - apply wp_ret. simpl. split; [done|]. split; [auto|]. split; [|done]. left. split; [done|].
    split; [cbn; rewrite Hi3; auto|by apply Hacc].
  - destruct (Z.eqb_spec r3 ACAPD_ACCEL_INPROGRESS) as [->|]; [naive_solver lia|].
    apply wp_ret. simpl. split; [done|]. split; [auto|]. split; [done|]. intros _. congruence.
Qed.

(** Closing channels that are not open touches no device. *)
Lemma close_idle_wp F l h :
  (forall c, c ∈ l -> is_open c = false) ->
  wp F (for_each (fun c => let! _ := acapd_dma_close c in ret tt) l) (fun _ h' => h' = h) h.
Proof.
  intros Hl. apply (wp_for_each _ _ (fun h' => h' = h)); [|done].
  intros c h' Hc ->. unfold acapd_dma_close. rewrite (Hl c Hc). by apply wp_bind, wp_ret, wp_ret.
Qed.

Lemma sys_close_accel_wp a h :
  chnls_idle a ->
  wp lib_fault (sys_close_accel a)
     (fun r _ => r.1 = 0 /\ same_package a r.2 /\ ip_dev r.2 = [] /\ chnl_list r.2 = []) h.
Proof.
  intros Hc. unfold sys_close_accel.
  assert (Hl : forall c, c ∈ chnl_list a -> is_open c = false /\ cdev c <> None).
  { unfold chnl_list. destruct (chnls a) as [l|] eqn:E; simpl; [intros c; by apply Hc|].
    intros c Hin. by apply elem_of_nil in Hin. }
  apply wp_bind. eapply wp_mono; [apply close_idle_wp; intros c Hin; by apply Hl|]. intros [] ? ->.
  apply (wp_seq _ (fun a' _ => same_package a a' /\ chnl_list a' = [])).
  { destruct (chnl_list a) as [|c l] eqn:E; [by apply wp_ret|].
    destruct (Hl c) as [_ Hd]; [left|]. destruct (cdev c) as [d|]; [|done].
    apply wp_bind, wp_ret, wp_bind. eapply wp_mono; [apply tame_mod_dev|]. intros [] ? _.
    by apply wp_ret. }
  intros a' h' [Ha' Hch]. apply wp_bind. eapply wp_mono; [apply always_for_each; auto with tame|].
  intros [] h'' _. by apply wp_ret.
Qed.

Lemma sys_remove_accel_wp a h :
  pkg a <> None ->
  wp lib_fault (sys_remove_accel a) (fun r _ => r = ACAPD_ACCEL_SUCCESS \/ r = ACAPD_ACCEL_FAILURE) h.
Proof.
  intros Hp. unfold sys_remove_accel. apply wp_bind, wp_the; [|done]. intros k _.
  apply (wp_seq _ (fun _ _ => True)).
  { destruct (_ =? _); [|by apply wp_ret]. apply wp_bind, wp_in_world.
    eapply wp_mono; [apply tame_remove_directory|]. intros. by apply wp_ret. }
  intros _ h' _. destruct (_ <=? 0); [apply wp_ret; auto|].
  apply wp_bind, wp_in_world, wp_act. destruct (negb _); [apply wp_ret; auto|].
  apply wp_bind, wp_in_world, wp_act, wp_ret. auto.
Qed.

Lemma remove_accel_wp a h :
  pkg a <> None -> chnls_idle a ->
  wp lib_fault (remove_accel a)
     (fun r _ => carried a r.2 /\
        (r.1 = ACAPD_ACCEL_SUCCESS -> status r.2 = ACAPD_ACCEL_STATUS_UNLOADED) /\
        (r.1 <> ACAPD_ACCEL_SUCCESS -> status r.2 = ACAPD_ACCEL_STATUS_UNLOADING)) h.
Proof.
  intros Hp Hc. unfold remove_accel.
  assert (Hcar : carried a a) by done.
  destruct (Z.eqb_spec (status a) ACAPD_ACCEL_STATUS_UNLOADED); [by apply wp_ret|].
  destruct (Z.eqb_spec (status a) ACAPD_ACCEL_STATUS_UNLOADING); [by apply wp_ret|].
  apply wp_bind. eapply wp_mono; [by apply sys_close_accel_wp|].
  intros [r a1] h1 (Hr & Hsame & _ & _). simpl in Hr, Hsame. subst r. simpl.
  assert (Hcar1 : carried a a1) by (by apply (same_carried a a)).
  destruct Hsame as (Hp1 & _).
  apply wp_bind. eapply wp_mono; [apply tame_needs_load|]. intros m h2 _.
  destruct (m =? 0); [by apply wp_ret|].
  apply wp_bind. eapply wp_mono; [apply sys_remove_accel_wp; congruence|]. intros r h3 Hr. simpl.
  destruct (Z.eqb_spec r ACAPD_ACCEL_SUCCESS); by apply wp_ret.
Qed.

(** ** The accelerators of the daemon

    The daemon loads packages that are directories, and never reads their
    channels and devices: its accelerators are plain.  Loading one can only fault
    as the reader of shell.json does, and removing one cannot. *)

Definition plain (a : acapd_accel) : Prop :=
  chnls a = None /\ ip_dev a = [] /\ forall k, pkg a = Some k -> ptype k = ACAPD_ACCEL_PKG_TYPE_NONE.

Lemma plain_idle a : plain a -> chnls_idle a.
Proof. intros (Hc & _) l c E. congruence. Qed.

(** A fault of the reader of shell.json: it has one. *)
Definition shell_fault (f : fault) : Prop := exists c (h : hw W), sys_shell_config c h = Fault f.

Lemma shell_fault_bad_token f : shell_fault f -> f = BadToken.
Proof.
  intros (c & h & E). assert (Ht : always (eq BadToken) (sys_shell_config c)).
  { intros h0. unfold sys_shell_config.
    apply (wp_seq _ (fun _ _ => True)); [destruct c; [by apply wp_ret|by apply wp_in_world, wp_look]|].
    intros o h1 _. apply (wp_seq _ (fun _ _ => True)).
    { destruct o; [|by apply wp_ret]. by apply wp_in_world, wp_look. }
    intros b h2 _. apply (wp_seq _ (fun _ _ => True)); [by apply wp_in_world, wp_look|].
    intros [] h3 _; [|by apply wp_ret]. apply (wp_seq _ (fun _ _ => True)); [apply parseShellJson_stops|].
    intros r h4 _. destruct (r <? 0); by apply wp_ret. }
  specialize (Ht h). unfold wp in Ht. by rewrite E in Ht.
Qed.

Lemma shell_fault_lib f : shell_fault f -> lib_fault f.
Proof. by intros ->%shell_fault_bad_token. Qed.

Lemma fpga_flags_return a Q w : (forall r, Q r w) -> safe (get_fpga_flags a) Q w.
Proof.
  intros HQ. apply (wp_seq _ (fun _ w' => w' = w)).
  - apply wp_bind, wp_look. destruct (readdir _ _) as [l|]; by apply wp_ret.
  - intros [q|] ? ->; [|by apply wp_ret]. apply wp_bind, wp_look. destruct (read_file _ _); by apply wp_ret.
Qed.

Definition keeps (a a' : acapd_accel) : Prop := pkg a' = pkg a /\ chnls a' = chnls a /\ ip_dev a' = ip_dev a.
Lemma keeps_plain a a' : plain a -> keeps a a' -> pkg a' = pkg a /\ plain a'.
Proof. intros Ha (Hp & Hc & Hi). split; [done|]. unfold plain. by rewrite Hp, Hc, Hi. Qed.

Lemma fetch_keeps a fl h : wp shell_fault (sys_fetch_accel a fl) (fun ra _ => keeps a ra.2) h.
Proof. apply wp_bind, wp_in_world, wp_act. cbv beta. destruct (_ <? 0); by apply wp_ret. Qed.

Lemma sys_load_keeps a h : ip_dev a = [] -> wp shell_fault (sys_load_accel a) (fun ra _ => keeps a ra.2) h.
Proof.
  intros Hi. unfold sys_load_accel. destruct (negb _); [by apply wp_ret|].
  apply wp_bind, wp_in_world, wp_act, wp_bind, wp_in_world, wp_look. cbv beta.
  destruct (negb _); [by apply wp_bind, wp_in_world, wp_act, wp_ret|].
  destruct (is_flat_type _); [by apply wp_ret|].
  apply wp_bind. change (ip_dev (a <| sys_fpga_state := _ |>)) with (ip_dev a). rewrite Hi. by apply wp_ret, wp_ret.
Qed.

Lemma load_accel_plain a sc h :
  plain a -> atype a <> "XRT_AIE_DFX"%string ->
  wp shell_fault (load_accel a sc) (fun r _ => pkg r.2 = pkg a /\ plain r.2) h.
Proof.
  intros Ha Hty. assert (Hdone : forall (r : Z) a' (h' : hw W), keeps a a' ->
    wp shell_fault (ret (r, a')) (fun r _ => pkg r.2 = pkg a /\ plain r.2) h').
  { intros r a' h' Hk. apply wp_ret. by apply keeps_plain. }
  apply wp_bind, wp_bind. replace (streq (atype a) "XRT_AIE_DFX") with false by (symmetry; by apply streq_false).
  apply wp_ret. cbn [fst snd]. change (0 <? 0) with false. cbv iota. apply (wp_seq _ (fun _ _ => True)).
  { unfold wp, acapd_shell_config. destruct (sys_shell_config sc h) eqn:E; [done|by exists sc, h]. }
  intros r h1 _. destruct (r <? 0) eqn:Er; [apply wp_ret; by apply Hdone|]. apply wp_ret. rewrite Er.
  apply wp_bind, wp_bind, wp_in_world, wp_look, wp_ret. destruct (_ =? 0); [by apply Hdone|].
  apply (wp_seq _ (fun ra _ => keeps a ra.2)).
  { destruct (is_cached a); [by apply wp_ret|]. apply wp_bind, wp_in_world, wp_safe, fpga_flags_return. intros fl.
    apply wp_bind. eapply wp_mono; [apply fetch_keeps|]. intros ra h2 Hra. apply wp_ret. cbn. by destruct (_ =? _). }
  intros [r2 a2] h2 Ha2. cbn [snd fst] in Ha2. destruct (negb _); [by apply Hdone|].
  assert (Hi2 : ip_dev a2 = []) by (destruct Ha2 as (_ & _ & ->); apply Ha).
  apply wp_bind. eapply wp_mono; [by apply sys_load_keeps|].
  intros [r3 a3] h3 Ha3. assert (Hk : keeps a a3) by (unfold keeps in *; cbn in *; intuition congruence).
  repeat (destruct (_ =? _); [by apply Hdone|]). by apply Hdone.
Qed.

Lemma close_plain a Q h : plain a -> (forall a', keeps a a' -> status a' = status a -> Q (0, a') h) -> safe (sys_close_accel a) Q h.
Proof.
  intros (Hc & Hi & _) HQ. unfold sys_close_accel. assert (Hl : chnl_list a = []) by (unfold chnl_list; by rewrite Hc).
  rewrite Hl. apply wp_bind, wp_ret, wp_bind, wp_ret. rewrite Hi. apply wp_bind, wp_ret, wp_ret.
  apply HQ; [|done]. split; [done|]. by split.
Qed.

Lemma sys_remove_plain a k Q h :
  pkg a = Some k -> ptype k = ACAPD_ACCEL_PKG_TYPE_NONE -> (forall r h', Q r h') -> safe (sys_remove_accel a) Q h.
Proof.
  intros Hp Hk HQ. unfold sys_remove_accel. apply wp_bind. eapply wp_the_Some; [exact Hp|]. rewrite Hk.
  apply wp_bind, wp_ret. destruct (_ <=? 0); [by apply wp_ret|]. apply wp_bind, wp_in_world, wp_act.
  destruct (negb _); [by apply wp_ret|]. by apply wp_bind, wp_in_world, wp_act, wp_ret.
Qed.

Lemma remove_accel_plain a h :
  plain a -> pkg a <> None -> safe (remove_accel a) (fun r _ => pkg r.2 = pkg a /\ plain r.2) h.
Proof.
  intros Ha Hp. assert (Hdone : forall (r : Z) a' (h' : hw W), keeps a a' ->
    safe (ret (r, a')) (fun r _ => pkg r.2 = pkg a /\ plain r.2) h').
  { intros r a' h' Hk. apply wp_ret. by apply keeps_plain. }
  unfold remove_accel. do 2 (destruct (_ =? _); [by apply Hdone|]).
  apply wp_bind, close_plain; [done|]. intros a' Hk _. change (0 <? 0) with false. cbv iota beta.
  apply wp_bind, wp_bind, wp_in_world, wp_look, wp_ret. destruct (_ =? 0); [by apply Hdone|].
  pose proof (keeps_plain a a' Ha Hk) as [Hp' (_ & _ & Ht)]. destruct (pkg a') as [k|] eqn:Ek; [|congruence].
  apply wp_bind. eapply sys_remove_plain; [exact Ek|by apply Ht|]. intros r h'. destruct (r =? _); by apply Hdone.
Qed.
End Accel.

#[export] Hint Resolve tame_sys_shell_config tame_needs_load tame_remove_base : tame.
