(* ===== verification/BareJson.v ===== *)
(** * The bare-metal configuration readers

    [src/sys/generic/json-config.c] and its callers in [shell.c] and [accel.c] of
    this layer: the configuration is text in memory, and every device is used at
    its physical address.  The file uses jsmn and does not include it, so the
    tokenizer is a parameter: from a text it gives [jsmn_parse()]'s result and the
    tokens that were written to the array of 128. *)
From S2P Require Import Prelude CStr Jsmn Env Model Device Dma Json Shm Bare.
Open Scope Z_scope.
Open Scope dfx_scope.

(** A channel of this layer: its [ops] is NULL or [axidma_generic_ops]. *)
Record bare_chnl := BareChnl { b_chnl : acapd_chnl; b_generic_ops : bool }.

(** The arrays of [acapd_accel_t] that the configuration fills in. *)
Record bare_accel := BareAccel { ba_ip_dev : list nat; ba_chnls : list bare_chnl }.
#[export] Instance bare_accel_eta : Eta bare_accel := fun r => BareAccel (ba_ip_dev r) (ba_chnls r).

(** The text at an address of a given size, and the text between
    [__START_SHELL_JSON] and [__END_SHELL_JSON]. *)
Class Image (W : Type) := {
  text_in_memory : Z -> Z -> W -> string;
  SHELL_JSON : string;
}.

Section BareJson.
Context {W : Type} `{Env W} `{Board W} `{Image W}.
Variable jsmn : string -> Z * list jsmntok.

(** ** The shell *)

(** The test of "reg_size" guards an empty block: the assignment after it is made
    for every token. *)
Definition bare_shell_body (json : string) (ts : list jsmntok) (i : nat) (d : bare_device) :
    M (bare W) (nat * bare_device) :=
  let! t := tok ts i in
  if is_object t then ret (i, d)
  else
    let! d := on_key json ts i "device_name" (fun v d => d <| g_dev_name := Some (slice json v) |>) d in
    let! d := on_key json ts i "shell_type" (fun v d => d) d in
    let! d := on_key json ts i "reg_base" (fun v d => d <| g_reg_pa := hex_of (slice json v) |>) d in
    let! v := tok ts (S i) in
    ret (i, d <| g_reg_size := hex_of (slice json v) |>).

Definition bare_parseShellJson (dev : bare_device) (config : string) : M (bare W) (Z * bare_device) :=
  let '(n, ts) := jsmn config in
  let! d := over_tokens n (bare_shell_body config ts) dev in
  ret (0, d).

(** [sys_shell_config()]: the device of the shell. *)
Definition bare_sys_shell_config (dev : bare_device) : M (bare W) (Z * bare_device) :=
  let! rd := bare_parseShellJson dev SHELL_JSON in
  if negb (rd.1 =? 0) then ret (ACAPD_ACCEL_FAILURE, rd.2)
  else ret (ACAPD_ACCEL_SUCCESS, rd.2 <| g_va := g_reg_pa rd.2 |>).

(** ** The accelerator *)

Definition bare_new_devs (l : list bare_device) : M (bare W) (list nat) :=
  let! s := get in
  modify (fun s => s <| gdevs ::= fun ds => ds ++ l |>) ;;
  ret (seq (length (gdevs s)) (length l)).

Definition bare_read_device (json : string) (ts : list jsmntok) (k : nat) : M (bare W) bare_device :=
  let! d := on_key json ts k "dev_name" (fun v d => d <| g_dev_name := Some (slice json v) |>) bare_device0 in
  let! d := on_key json ts (k + 2) "reg_base" (fun v d => d <| g_reg_pa := hex_of (slice json v) |>) d in
  on_key json ts (k + 4) "reg_size" (fun v d => d <| g_reg_size := hex_of (slice json v) |>) d.

Fixpoint bare_read_devices (json : string) (ts : list jsmntok) (k : nat) (num : nat) :
    M (bare W) (list bare_device) :=
  match num with
  | O => ret []
  | S num => let! d := bare_read_device json ts k in
             let! r := bare_read_devices json ts (k + 7) num in ret (d :: r)
  end.

Definition bare_parse_devices (json : string) (ts : list jsmntok) (i : nat) (a : bare_accel) :
    M (bare W) (nat * bare_accel) :=
  let! t := tok ts i in
  if jsoneq json t "accel_devices" then
    let! v := tok ts (i + 1) in
    let num := Z.to_nat (t_size v) in
    let! l := bare_read_devices json ts (i + 3) num in
    let! ids := bare_new_devs l in
    ret ((i + 2 + 6 * num)%nat, a <| ba_ip_dev := ids |>)
  else ret (i, a).

Definition bare_dma_key (json : string) (ts : list jsmntok) (dma i : nat) (key : string)
    (f : jsmntok -> bare_device -> bare_device) : M (bare W) unit :=
  let! t := tok ts i in
  if jsoneq json t key then let! v := tok ts (S i) in mod_gdev dma (f v) else ret tt.

Definition bare_read_chnl (json : string) (ts : list jsmntok) (dma k : nat) : M (bare W) bare_chnl :=
  let! c := on_key json ts k "chnl_id" (fun v c => c <| chnl_id := atoi (slice json v) |>) chnl0 in
  let! c := on_key json ts (k + 2) "chnl_dir" (fun v c => c <| dir ::= dir_of (slice json v) |>) c in
  ret (BareChnl (c <| cdev := Some dma |>) true).

Fixpoint bare_read_chnls (json : string) (ts : list jsmntok) (dma k : nat) (num : nat) :
    M (bare W) (list bare_chnl) :=
  match num with
  | O => ret []
  | S num => let! c := bare_read_chnl json ts dma k in
             let! r := bare_read_chnls json ts dma (k + 5) num in ret (c :: r)
  end.

Definition bare_parse_chnls (json : string) (ts : list jsmntok) (dma i : nat) (a : bare_accel) :
    M (bare W) (nat * bare_accel) :=
  let! t := tok ts i in
  if jsoneq json t "dataMoverChnls" then
    let! v := tok ts (i + 1) in
    let num := Z.to_nat (t_size v) in
    let! l := bare_read_chnls json ts dma (i + 3) num in
    ret ((i + 2 + 4 * num)%nat, a <| ba_chnls := l |>)
  else ret (i, a).

(** One turn.  The keys that the code tests and then ignores only read the
    token again. *)
Definition bare_accel_body (json : string) (ts : list jsmntok) (dma i : nat) (a : bare_accel) :
    M (bare W) (nat * bare_accel) :=
  let! t := tok ts i in
  if is_object t then ret (i, a)
  else
    let! ia := bare_parse_devices json ts i a in
    let '(i, a) := ia in
    bare_dma_key json ts dma i "dma_dev_name" (fun v d => d <| g_dev_name := Some (slice json v) |>) ;;
    bare_dma_key json ts dma i "dma_driver" (fun v d => d <| g_driver := Some (slice json v) |>) ;;
    bare_dma_key json ts dma i "dma_reg_base" (fun v d => d <| g_reg_pa := hex_of (slice json v) |>) ;;
    bare_dma_key json ts dma i "dma_reg_size" (fun v d => d <| g_reg_size := hex_of (slice json v) |>) ;;
    bare_dma_key json ts dma i "iommu_group" (fun v d => d <| g_iommu_group := atoi (slice json v) |>) ;;
    let! ia := bare_parse_chnls json ts dma i a in
    let '(i, a) := ia in
    let! _ := tok ts i in
    ret (i, a).

Definition bare_parseAccelJson (a : bare_accel) (config : string) : M (bare W) (Z * bare_accel) :=
  let! ids := bare_new_devs [bare_device0] in
  let! dma := the WildPtr (head ids) in
  let '(n, ts) := jsmn config in
  let! a := over_tokens n (bare_accel_body config ts dma) a in
  ret (0, a).

(** [dev->va = dev->reg_pa]. *)
Definition map_at_pa (d : nat) : M (bare W) unit := mod_gdev d (fun x => x <| g_va := g_reg_pa x |>).

(** [sys_accel_config()]: the package is in memory. *)
Definition bare_sys_accel_config (sys_pkg : option acapd_accel_sys) (a : bare_accel) :
    M (bare W) (Z * bare_accel) :=
  let! p := the AssertFailed sys_pkg in
  acapd_assert (negb (accel_json_pa p =? 0)) ;;
  acapd_assert (negb (accel_json_size p =? 0)) ;;
  let! text := on_board (look (text_in_memory (accel_json_pa p) (accel_json_size p))) in
  let! ra := bare_parseAccelJson a text in
  for_each map_at_pa (ba_ip_dev ra.2) ;;
  for_each (fun c => let! d := the NullDeref (cdev (b_chnl c)) in map_at_pa d) (ba_chnls ra.2) ;;
  ret ra.
End BareJson.
