(* ===== verification/Rpu.v ===== *)
(** * RPU slots

    [src/rpu.c] and [src/rpu_helper.c]: starting and stopping RPU firmware
    through remoteproc, and the RPMsg control device and endpoint devices a
    firmware creates.  The intrusive list [rpmsg_dev_list] has one owner, its
    slot, and is a value here; [Ring] has the list operations themselves and
    [delete_rpmsg_dev_list()]. *)
From S2P Require Import Prelude CStr Env Model.
Open Scope Z_scope.
Open Scope dfx_scope.

Definition RPU_TYPE_STR : string := "RPU".
Definition RPU_FIRMWARE_EXT : string := ".elf".
Definition RPMSG_BUS_SYS : string := "/sys/bus/rpmsg".
Definition RPMSG_DEVICES : string := "/sys/bus/rpmsg/devices".
Definition O_NONBLOCK : Z := 0x800.
Definition EPT_DEV_LEN : nat := 32.

Definition self_or_parent (n : string) : bool := streq n "." || streq n "..".

(** ** Numbers in a device name *)

Fixpoint last_number (fuel : nat) (s : string) (v : Z) : Z :=
  match fuel, s with
  | S f, String c r =>
      if isdigit c then let '(n, rest) := strtol 10 s in last_number f rest (int32 n)
      else last_number f r v
  | _, _ => v
  end.

(** [get_virtio_number()]: the last number in what precedes the first ['.']. *)
Definition get_virtio_number (name : string) : Z :=
  match strtok "." name with
  | None => 0
  | Some (t, _) => last_number (strlen t) t 0
  end.

(** ** The list of RPMsg devices *)

Definition reset_active (l : list rpmsg_dev) : list rpmsg_dev :=
  map (fun d => d <| rd_active := false |>) l.

(** [strncmp("virtio<n>.<channel>", name, strlen(name)) == 0]. *)
Definition names_dev (virtio : Z) (name : string) (d : rpmsg_dev) : bool :=
  strneq ("virtio" ++ dec virtio ++ "." ++ rpmsg_channel_name d) name (strlen name).

(** [check_rpmsg_dev_active()]: marks the first device with that name. *)
Fixpoint check_rpmsg_dev_active (l : list rpmsg_dev) (name : string) (virtio : Z) : bool * list rpmsg_dev :=
  match l with
  | [] => (false, [])
  | d :: r =>
      if names_dev virtio name d then (true, d <| rd_active := true |> :: r)
      else let '(f, r) := check_rpmsg_dev_active r name virtio in (f, d :: r)
  end.

Definition delete_inactive_rpmsgdev (l : list rpmsg_dev) : list rpmsg_dev :=
  List.filter rd_active l.

Section Rpu.
Context {W : Type} `{Env W}.

(** ** Firmware *)

Definition get_number_of_rpu : M W Z :=
  let! d := look (readdir "/sys/class/remoteproc/") in
  match d with
  | None => ret 0
  | Some l => ret (Z.of_nat (length (List.filter
      (fun e => negb (self_or_parent (d_name e)) && has_sub (d_name e) "remoteproc") l)))
  end.

Definition remoteproc (n : Z) (attr : string) : string :=
  ("/sys/class/remoteproc/remoteproc" ++ dec n ++ "/" ++ attr)%string.

Definition start_rpu_firmware (fw_name : string) (rpu_slot : Z) : M W Z :=
  let! r := act (system (trunc 1024 ("echo " ++ fw_name ++ " > " ++ remoteproc rpu_slot "firmware"))) in
  if negb (r =? 0) then ret (-1)
  else
    let! r := act (system (trunc 1024 ("echo start > " ++ remoteproc rpu_slot "state"))) in
    if negb (r =? 0) then ret (-1) else ret 0.

Definition load_rpu (rpu_path : string) (rpu_slot : Z) (firmware_name : option string) : M W Z :=
  let! r := act (system (trunc 1024
                 ("echo -n " ++ rpu_path ++ " > /sys/module/firmware_class/parameters/path"))) in
  if negb (r =? 0) then ret (-1)
  else
    match firmware_name with
    | Some fw =>
        let! r := start_rpu_firmware fw rpu_slot in ret (if r =? 0 then rpu_slot else -1)
    | None =>
        let! d := look (readdir rpu_path) in
        match d with
        | None => ret (-1)
        | Some l =>
            let fws := List.filter (fun e => negb (self_or_parent (d_name e))) l in
            let! bad := for_ret (fun e =>
                let! r := start_rpu_firmware (d_name e) rpu_slot in
                ret (if negb (r =? 0) then Some (-1) else None)) fws in
            match bad with
            | Some r => ret r
            | None => ret (match fws with [] => -1 | _ => rpu_slot end)
            end
        end
    end.

Definition remove_rpu (rpu_num : Z) : M W Z :=
  let! cmd := sprintf_into 1024 ("echo stop > " ++ remoteproc rpu_num "state") in
  let! r := act (system cmd) in
  ret (if negb (r =? 0) then -1 else 0).

(** ** Endpoint devices: [src/rpu_helper.c] *)

Definition app_rpmsg_create_ept (fd : Z) (name : string) (src dst : Z) : M W Z :=
  act (rpmsg_create_ept fd name src dst).

(** One turn of the loop of [get_rpmsg_ept_dev_name()]: [Some None] is NULL. *)
Definition ept_dev_turn (char_name ept_name : string) (i : nat) : M W (option (option string)) :=
  let! path := sprintf_into 64
    ("/sys/class/rpmsg/" ++ char_name ++ "/rpmsg" ++ dec (Z.of_nat i) ++ "/name") in
  let! there := look (exists_ path) in
  if negb there then ret None
  else
    let! svc := look (read_line path 64) in
    match svc with
    | None => ret (Some None)
    | Some svc =>
        if negb (strlen ept_name =? strlen svc - 1)%nat || (strlen svc =? 0)%nat then ret None
        else if strneq svc ept_name (strlen ept_name) then ret (Some (Some ("rpmsg" ++ dec (Z.of_nat i))%string))
        else ret None
    end.
Definition get_rpmsg_ept_dev_name (char_name ept_name : string) : M W (option string) :=
  let! r := for_ret (ept_dev_turn char_name ept_name) (seq 0 128) in
  ret (default None r).

Definition bind_rpmsg_chrdev (dev : string) : M W Z :=
  let! fpath := sprintf_into 512 (RPMSG_BUS_SYS ++ "/devices/" ++ dev ++ "/driver_override") in
  let! fd := act (open_ fpath 2) in
  if fd <? 0 then ret (- EINVAL)
  else
    let! ov := look (read_fd fd 64) in
    match ov with
    | None => act_ (close_fd fd) ;; ret (-1)
    | Some ov =>
        if strneq ov "rpmsg_chrdev" 12 then act_ (close_fd fd) ;; ret 0
        else if negb (strneq ov "(null)" 6) then act_ (close_fd fd) ;; ret (- EBUSY)
        else
          let! r := act (write_fd fd "rpmsg_chrdev") in
          act_ (close_fd fd) ;;
          if r <? 0 then ret (- EINVAL)
          else
            let! fd := act (open_ (RPMSG_BUS_SYS ++ "/drivers/rpmsg_chrdev/bind") 1) in
            if fd <? 0 then ret (- EINVAL)
            else
              let! r := act (write_fd fd dev) in
              act_ (close_fd fd) ;;
              ret (if r <? 0 then - EINVAL else 0)
    end.

(** The descriptor (or an error) and the control device's name. *)
Definition get_rpmsg_chrdev_fd (dev : string) : M W (Z * option string) :=
  let! dpath := sprintf_into 510 (RPMSG_BUS_SYS ++ "/devices/" ++ dev ++ "/rpmsg") in
  let! d := look (readdir dpath) in
  match d with
  | None => ret (- EINVAL, None)
  | Some l =>
      match List.find (fun e => strneq (d_name e) "rpmsg_ctrl" 10) l with
      | None => ret (- EINVAL, None)
      | Some e =>
          let! path := sprintf_into 510 ("/dev/" ++ d_name e) in
          let! fd := act (open_ path (2 + O_NONBLOCK)) in
          if fd <? 0 then ret (fd, None)
          else let! n := sprintf_into 16 (d_name e) in ret (fd, Some n)
      end
  end.

(** [set_src_dst()]: the destination; [dflt] is what the field held. *)
Definition set_src_dst (out : string) (errno dflt : Z) : Z :=
  match strrchr out "." with
  | None => dflt
  | Some i =>
      let v := (strtol 10 (str_drop (S i) out)).1 in
      if ((errno =? 34) && ((v =? LONG_MAX) || (v =? - LONG_MAX - 1))) || (negb (errno =? 0) && (v =? 0))
      then dflt else u32 v
  end.

(** The endpoint name: the second ['.']-separated token. *)
Definition ept_name_of (dev : string) : option string :=
  match strtok "." dev with
  | None => None
  | Some (_, r) => match strtok "." r with None => None | Some (t, _) => Some t end
  end.

(** [setup_rpmsg_ept_dev()]: the endpoint device's name, or [None] (-1). *)
Definition setup_rpmsg_ept_dev (dev ctrl : string) : M W (option string) :=
  let! name := the NullArg (ept_name_of dev) in
  let! name := sprintf_into 32 name in
  let! e := look get_errno in
  let! junk := look junk_Z in
  let dst := set_src_dst dev e junk in
  let! r := bind_rpmsg_chrdev dev in
  if r <? 0 then ret None
  else
    let! fn := get_rpmsg_chrdev_fd ctrl in
    let! fn := if fn.1 <? 0 then get_rpmsg_chrdev_fd dev else ret fn in
    match fn with
    | (fd, Some char_name) =>
        let! r := app_rpmsg_create_ept fd name 0 dst in
        let! res := if negb (r =? 0) then ret None else get_rpmsg_ept_dev_name char_name name in
        act_ (close_fd fd) ;; ret res
    | (_, None) => ret None
    end.

Definition create_rpmsg_dev (dev ctrl : string) : M W (option rpmsg_dev) :=
  let! ept := setup_rpmsg_ept_dev dev ctrl in
  match ept with
  | None => ret None
  | Some ept =>
      let! i := the NullArg (strchr dev ".") in
      let! chan := sprintf_into NAME_MAX (str_drop (S i) dev) in
      let! name := sprintf_into EPT_DEV_LEN ("/dev/" ++ ept) in
      ret (Some (RpmsgDev chan name true))
  end.

(** ** [update_rpmsg_dev_list()] *)

Definition is_endpoint (name : string) : bool :=
  negb (self_or_parent name || has_sub name "rpmsg_ns" || has_sub name "rpmsg_ctrl").

Fixpoint scan_rpmsg_devs (names : list string) (ctrl : string) (virtio : Z) (l : list rpmsg_dev) :
    M W (list rpmsg_dev) :=
  match names with
  | [] => ret l
  | n :: names =>
      if negb (is_endpoint n) || negb (get_virtio_number n =? virtio) then scan_rpmsg_devs names ctrl virtio l
      else
        let '(found, l) := check_rpmsg_dev_active l n virtio in
        if found then scan_rpmsg_devs names ctrl virtio l
        else
          let! d := create_rpmsg_dev n ctrl in
          scan_rpmsg_devs names ctrl virtio (match d with Some d => l ++ [d] | None => l end)
  end.

Definition update_rpmsg_dev_list (l : list rpmsg_dev) (ctrl : string) (virtio : Z) : M W (list rpmsg_dev) :=
  let! d := look (readdir RPMSG_DEVICES) in
  match d with
  | None => ret l
  | Some es =>
      let! l := scan_rpmsg_devs (map d_name es) ctrl virtio (reset_active l) in
      ret (delete_inactive_rpmsgdev l)
  end.

(** ** Lemmas *)

Lemma tame_start_rpu fw n : tame (start_rpu_firmware fw n).
Proof. unfold start_rpu_firmware. tame_go. Qed.
#[local] Hint Resolve tame_start_rpu : tame.
Lemma tame_load_rpu p n fw : tame (load_rpu p n fw).
Proof. unfold load_rpu. tame_go. Qed.
Lemma tame_remove_rpu n : tame (remove_rpu n).
Proof. unfold remove_rpu. tame_go. Qed.
Lemma tame_number_of_rpu : tame get_number_of_rpu.
Proof. unfold get_number_of_rpu. tame_go. Qed.
Lemma tame_bind_chrdev d : tame (bind_rpmsg_chrdev d).
Proof. unfold bind_rpmsg_chrdev. tame_go. Qed.
Lemma tame_chrdev_fd d : tame (get_rpmsg_chrdev_fd d).
Proof. unfold get_rpmsg_chrdev_fd. tame_go. Qed.
Lemma tame_ept_dev c e : tame (get_rpmsg_ept_dev_name c e).
Proof. unfold get_rpmsg_ept_dev_name, ept_dev_turn. tame_go. Qed.
#[local] Hint Resolve tame_bind_chrdev tame_chrdev_fd tame_ept_dev : tame.
Lemma tame_setup_rpmsg d c : tame (setup_rpmsg_ept_dev d c).
Proof. unfold setup_rpmsg_ept_dev, app_rpmsg_create_ept. tame_go. Qed.
#[local] Hint Resolve tame_setup_rpmsg : tame.
Lemma tame_create_rpmsg_dev d c : tame (create_rpmsg_dev d c).
Proof. unfold create_rpmsg_dev. tame_go. Qed.
End Rpu.

#[export] Hint Resolve tame_load_rpu tame_remove_rpu tame_number_of_rpu
  tame_create_rpmsg_dev : tame.
