(* ===== verification/Pdi.v ===== *)
(** * PDI metadata

    [src/pdi_parse.c] and [src/pdi-config.c]: decoding the metaheader that the
    platform firmware normalises, choosing the PDI of a directory, and deriving
    from it what shell.json and accel.json say in the JSON flow.  Bytes are
    numbers in [0, 256). *)
From S2P Require Import Prelude CStr Env Model.
Open Scope Z_scope.
Open Scope dfx_scope.

Definition PDI_META_BUF_BYTES : nat := 4096.
Definition PDI_IHT_LEN : Z := 0x80.
Definition PDI_IHT_NUM_IMGS_OFF : Z := 0x04.
Definition PDI_IH_LEN : Z := 0x40.
Definition PDI_IH_IMG_ID_OFF : Z := 0x20.
Definition PDI_IH_UID_OFF : Z := 0x24.
Definition PDI_IH_PUID_OFF : Z := 0x28.
Definition PDI_IMG_ID_CLASS_MASK : Z := 0xFFF00000.
Definition PDI_IMG_ID_PL : Z := 0x18700000.
Definition PDI_IMG_ID_AIE : Z := 0x18800000.
Definition PDI_MAX_IMAGES : Z := 32.
Definition PDI_UID_ENTRY_WORDS : nat := 4.
Definition PDI_SLOT_PATH_MAX : nat := 1024.

Record pdi_image := PdiImage { img_id : Z; img_uid : Z; img_puid : Z }.
Record pdi_meta := PdiMeta { meta_uid : Z; meta_puid : Z; images : list pdi_image }.

Definition img_class (m : pdi_image) : Z := Z.land (img_id m) PDI_IMG_ID_CLASS_MASK.

(** ** The metaheader: [src/pdi_parse.c] *)

Definition byte_at {St} (buf : list Z) (i : Z) : M St Z :=
  if i <? 0 then crash BufOverflow else the BufOverflow (buf !! Z.to_nat i).

Definition pdi_rd_u32 {St} (buf : list Z) (off : Z) : M St Z :=
  let! b0 := byte_at buf off in
  let! b1 := byte_at buf (off + 1) in
  let! b2 := byte_at buf (off + 2) in
  let! b3 := byte_at buf (off + 3) in
  ret (Z.lor (Z.lor (Z.lor b0 (Z.shiftl b1 8)) (Z.shiftl b2 16)) (Z.shiftl b3 24)).

Definition rd_image {St} (buf : list Z) (base : Z) : M St pdi_image :=
  let! id := pdi_rd_u32 buf (base + PDI_IH_IMG_ID_OFF) in
  let! u := pdi_rd_u32 buf (base + PDI_IH_UID_OFF) in
  let! p := pdi_rd_u32 buf (base + PDI_IH_PUID_OFF) in
  ret (PdiImage id u p).

(** The image loop: [todo] images from the one at [base], stopping at the
    first that [len] cuts. *)
Fixpoint rd_images {St} (buf : list Z) (len base : Z) (todo : nat) : M St (list pdi_image) :=
  match todo with
  | O => ret []
  | S n =>
      if len <? base + PDI_IH_LEN then ret []
      else
        let! i := rd_image buf base in
        let! r := rd_images buf len (base + PDI_IH_LEN) n in
        ret (i :: r)
  end.

Definition is_pl (m : pdi_image) : bool := img_class m =? PDI_IMG_ID_PL.
(** The PL image, or the first one. *)
Definition pl_image (l : list pdi_image) : option pdi_image :=
  match List.find is_pl l with Some m => Some m | None => head l end.

Definition pdi_parse_meta_buffer {St} (buf : list Z) (len : Z) : M St (option pdi_meta) :=
  if len <? PDI_IHT_LEN then ret None
  else
    let! n := pdi_rd_u32 buf PDI_IHT_NUM_IMGS_OFF in
    let num := int32 n in
    if num <? 0 then ret None
    else
      let! l := rd_images buf len PDI_IHT_LEN (Z.to_nat (Z.min num PDI_MAX_IMAGES)) in
      ret (match pl_image l with
           | None => None
           | Some m => Some (PdiMeta (img_uid m) (img_puid m) l)
           end).

Definition suffixed (suf1 suf2 name : string) : bool :=
  (strlen suf1 <? strlen name)%nat && (ends_with name suf1 || ends_with name suf2).
Definition name_is_pdi (name : string) : bool := suffixed ".pdi" ".PDI" name.

(** The lexicographically first PDI of the names, in [readdir()] order. *)
Definition best_pdi (names : list string) : option string :=
  fold_left (fun best n =>
    if negb (name_is_pdi n) then best
    else match best with
         | None => Some (trunc (NAME_MAX + 1) n)
         | Some b => if strlt n b then Some (trunc (NAME_MAX + 1) n) else best
         end) names None.

(** The uid-read table: entries of four 32-bit words, as signed ints. *)
Fixpoint boot_pl_uid_of (words : list Z) (n : nat) : Z :=
  match n, words with
  | S n, id :: u :: pu :: _ :: rest =>
      if (u32 pu =? 0) && negb (u32 u =? 0) && (Z.land (u32 id) PDI_IMG_ID_CLASS_MASK =? PDI_IMG_ID_PL)
      then int32 u else boot_pl_uid_of rest n
  | _, _ => 0
  end.
Definition pdi_filter_boot_pl_uid (entries : list Z) (nbytes : Z) : Z :=
  if nbytes <=? 0 then 0 else boot_pl_uid_of entries (Z.to_nat (nbytes / 16)).

(** ** Names: [src/pdi-config.c] *)

Definition name_is_xclbin (name : string) : bool := suffixed ".xclbin" ".XCLBIN" name.

Definition RM_SLOT_TAG : string := "_slot".

(** [slot_index_from_dir()]: the [N] of ["<accel>_slot<N>"], or -1. *)
Definition slot_index_from_dir (accel_name dir_name : string) : Z :=
  let n := strlen accel_name in
  let rest := str_drop n dir_name in
  if negb (strneq dir_name accel_name n) || negb (strneq rest RM_SLOT_TAG 5) then -1
  else
    let digits := str_drop 5 rest in
    if negb (isdigit (str_nth digits 0)) then -1
    else
      let '(idx, tail) := strtol 10 digits in
      if negb (streq tail "") || (idx <? 0) || (Z.of_nat RP_SLOTS_MAX <=? idx) then -1 else int32 idx.

Definition pdi_accel_type (m : list pdi_image) : string :=
  if existsb (fun i => img_class i =? PDI_IMG_ID_AIE) m then "XRT_AIE_DFX" else "XRT_PL_DFX".

Record pdi_slot := PdiSlot { ps_has_pdi : bool; ps_index : Z; ps_path : string }.

Section Pdi.
Context {W : Type} `{Env W}.

Definition pdi_parse_file (path : string) : M W (option pdi_meta) :=
  let! r := look (dfx_get_meta_header path) in
  let '(n, bytes) := r in
  if n <=? 0 then ret None
  else pdi_parse_meta_buffer (take PDI_META_BUF_BYTES bytes) n.

Definition pdi_parse_dir (folder : string) : M W (option pdi_meta) :=
  let! d := look (readdir folder) in
  match d with
  | None => ret None
  | Some l =>
      match best_pdi (map d_name l) with
      | None => ret None
      | Some n =>
          let p := (folder ++ "/" ++ n)%string in
          if (4096 <=? strlen p)%nat then ret None else pdi_parse_file p
      end
  end.

Definition pdi_boot_pl_uid : M W Z :=
  let! r := look dfx_get_active_uid_list in
  let '(n, words) := r in
  if n <=? 0 then ret 0 else ret (pdi_filter_boot_pl_uid words n).

Definition dir_has (p : string -> bool) (dir : string) : M W bool :=
  let! d := look (readdir dir) in
  match d with None => ret false | Some l => ret (existsb (fun e => p (d_name e)) l) end.
Definition dir_has_pdi : string -> M W bool := dir_has name_is_pdi.
Definition dir_has_xclbin : string -> M W bool := dir_has name_is_xclbin.
Definition dir_has_shell_json (dir : string) : M W bool :=
  look (exists_ (trunc 600 (dir ++ "/shell.json"))).

Definition init_accel_from_pdi (a : accel_info) (path : string) : M W (Z * accel_info) :=
  let! m := pdi_parse_dir path in
  match m with
  | None => ret (-1, a)
  | Some m => ret (0, a <| accel_type := pdi_accel_type (images m) |>
                        <| a_uid := int32 (meta_uid m) |> <| a_pid := int32 (meta_puid m) |>)
  end.

(** What [scan_accel_slots()] skips. *)
Definition d_name_filter (n : string) : bool :=
  (ACCEL_NAME_MAX - 1 <? strlen n)%nat || streq n "." || streq n "..".

Fixpoint scan_slots (accel_path accel_name : string) (names : list string) (room : nat) :
    M W (list pdi_slot) :=
  match names, room with
  | [], _ | _, O => ret []
  | n :: names, S room' =>
      if d_name_filter n then scan_slots accel_path accel_name names room
      else
        let sub := trunc PDI_SLOT_PATH_MAX (accel_path ++ "/" ++ n) in
        let! dir := look (is_dir sub) in
        if negb dir then scan_slots accel_path accel_name names room
        else
          let! p := dir_has_pdi sub in
          let idx := if p : bool then slot_index_from_dir accel_name n else -1 in
          let! r := scan_slots accel_path accel_name names room' in
          ret (PdiSlot (0 <=? idx) idx sub :: r)
  end.
Definition scan_accel_slots (accel_path accel_name : string) (max : Z) : M W (list pdi_slot) :=
  if max <=? 0 then ret []
  else
    let! d := look (readdir accel_path) in
    match d with
    | None => ret []
    | Some l => scan_slots accel_path accel_name (map d_name l) (Z.to_nat max)
    end.

Definition init_base_from_pdi (b : basePLDesign) : M W (Z * basePLDesign) :=
  let! m := pdi_parse_dir (base_path b) in
  match m with
  | None => ret (-1, b)
  | Some m => ret (0, b <| uid := int32 (meta_uid m) |> <| pid := int32 (meta_puid m) |>
                        <| num_aie_slots := 0 |> <| load_base_design := true |>
                        <| num_pl_slots := 0 |> <| b_type := ""%string |>)
  end.

Definition pdi_classify_base (b : basePLDesign) (slot_range : Z) (path : string) : M W basePLDesign :=
  let! x := dir_has_xclbin path in
  let b := b <| b_type := (if x : bool then "XRT_FLAT" else "PL_FLAT")%string |> <| num_pl_slots := 1 |> in
  ret (if 0 <? slot_range then b <| b_type := "PL_DFX"%string |> <| num_pl_slots := u8 slot_range |> else b).
End Pdi.
