(* ===== verification/Slots.v ===== *)
(** * Slots and slot handles

    The bookkeeping shared by loading and unloading ([src/daemon_helper.c] and
    the slot functions of [src/rpu.c]): looking a package up, the slot array of
    a base design, and the table of slot handles. *)
From S2P Require Import Prelude CStr Env Model Json Accel Rpu.
Open Scope Z_scope.
Open Scope dfx_scope.

(** ** Lookup *)

Definition ISZERO (s : string) : bool := streq s "".
Definition in_use (b : basePLDesign) : bool := negb (ISZERO (base_path b)).
Definition num_slots (b : basePLDesign) : nat := Z.to_nat (num_pl_slots b + num_aie_slots b).

Definition is_named (name : string) (b : basePLDesign) : bool :=
  in_use b && (streq (b_name b) name || existsb (fun a => streq (a_name a) name) (accel_list b)).
Definition has_path (path : string) (b : basePLDesign) : bool :=
  in_use b && (streq (base_path b) path || existsb (fun a => streq (a_path a) path) (accel_list b)).

(** [findBaseDesign()] and [findBaseDesign_path()]: the index of the entry. *)
Definition findBaseDesign (d : daemon) (name : string) : option nat :=
  find_index (is_named name) (base_designs d).
Definition findBaseDesign_path (d : daemon) (path : string) : option nat :=
  find_index (has_path path) (base_designs d).

(** [is_base_externally_managed()]. *)
Definition is_base_externally_managed (d : daemon) : bool :=
  match active_base (platform d) with
  | Some _ => false
  | None => existsb (fun b => is_user_load b && user_load_type b) (base_designs d)
  end.

(** ** The table of slot handles *)

(** [get_free_slot_handle()] on the table: the handle, or -1, and the table. *)
Definition take_handle (t : list Z) : Z * list Z :=
  match find_index (fun v => v =? 0) t with
  | Some i => (Z.of_nat i, <[i := 1]> t)
  | None => (-1, t)
  end.

Section Slots.
Context {W : Type} `{Env W}.

Definition get_free_slot_handle : M (sys W) Z :=
  let! t := gp available_slot_handle in
  let '(h, t) := take_handle t in
  modp (fun p => p <| available_slot_handle := t |>) ;; ret h.

(** [platform.available_slot_handle[h] = 0]. *)
Definition release_handle (h : Z) : M (sys W) unit :=
  let! t := gp available_slot_handle in
  guard_that OutOfBounds ((0 <=? h) && (h <? Z.of_nat (length t))) ;;
  modp (fun p => p <| available_slot_handle ::= <[Z.to_nat h := 0]> |>).

(** ** Slot arrays *)

(** [base->slots[k]] and its assignment. *)
Definition get_slot (i k : nat) : M (sys W) (option slot_info) :=
  let! b := get_base i in
  let! l := the NullDeref (slots b) in
  the OutOfBounds (l !! k).
Definition set_slot (i k : nat) (s : option slot_info) : M (sys W) unit :=
  let! b := get_base i in
  let! l := the NullDeref (slots b) in
  guard_that OutOfBounds (k <? length l)%nat ;;
  set_base i (b <| slots := Some (<[k := s]> l) |>).

(** [find_slot_from_handle()]: [None] is -1. *)
Definition find_slot_from_handle (i : nat) (h : Z) : M (sys W) (option nat) :=
  let! b := get_base i in
  for_ret (fun k =>
    let! s := get_slot i k in
    ret (match s with Some s => if h =? slot_handle s then Some k else None | None => None end))
    (seq 0 (num_slots b)).

Definition pl_cap (b : basePLDesign) : Z :=
  if Z.of_nat RP_SLOTS_MAX <? num_pl_slots b then num_pl_slots b else Z.of_nat RP_SLOTS_MAX.

Definition alloc_base_slots (i : nat) : M (sys W) unit :=
  mod_base i (fun b => match slots b with
    | Some _ => b
    | None => b <| slots := Some (replicate (Z.to_nat (pl_cap b + num_aie_slots b)) None) |>
    end).

Definition new_slot : M (sys W) slot_info := env (look malloc_slot).

(** [assign_slot()]: the junk [is_rpu] of the malloc'ed slot stays. *)
Definition assign_slot (i : nat) (slot : slot_info) (a : acapd_accel) (accel_name : string) (n : nat) :
    M (sys W) Z :=
  let slot := slot <| s_name := trunc ACCEL_NAME_MAX accel_name |> <| s_accel := Some a |>
                   <| is_aie := false |> in
  set_slot i n (Some slot) ;;
  let! h := get_free_slot_handle in
  set_slot i n (Some (slot <| slot_handle := h |>)) ;;
  ret h.

(** [base->active += 1], [base->active -= 1] of a base the platform points to. *)
Definition add_active (o : option nat) (n : Z) : M (sys W) unit :=
  let! i := the NullDeref o in mod_base i (fun b => b <| active ::= fun a => int32 (a + n) |>).

(** ** RPU slots: [src/rpu.c] *)

Definition validate_rpu_slot_availability (i : nat) (n : Z) : M (sys W) Z :=
  let! b := get_base i in
  if num_pl_slots b <=? n then ret (- DFX_MGR_NO_EMPTY_SLOT_ERROR)
  else
    let! s := get_slot i (Z.to_nat n) in
    ret (match s with Some _ => - DFX_MGR_NO_EMPTY_SLOT_ERROR | None => 0 end).

(** Is [name] the recorded control device of an occupied slot? *)
Definition ctrl_recorded (i : nat) (name : string) : M (sys W) bool :=
  let! b := get_base i in
  for_until (fun k =>
    let! s := get_slot i k in
    ret (match s with
         | Some s => strneq (rpmsg_ctrl_dev_name (rpu s)) name (strlen name)
         | None => false
         end)) (seq 0 (num_slots b)).

Definition get_new_rpmsg_ctrl_dev (i : nat) (buflen : nat) : M (sys W) (option string) :=
  let! d := env (look (readdir RPMSG_DEVICES)) in
  match d with
  | None => ret None
  | Some l =>
      for_ret (fun e =>
        if negb (self_or_parent (d_name e) || has_sub (d_name e) "rpmsg_ns") &&
           has_sub (d_name e) "rpmsg_ctrl"
        then
          let! known := ctrl_recorded i (d_name e) in
          ret (if known then None else Some (trunc buflen (d_name e)))
        else ret None) l
  end.

Definition finalize_rpu_slot_setup (i : nat) (slot : slot_info) (a : acapd_accel) (accel_name : string)
    (n : nat) (uptime : Z) : M (sys W) Z :=
  let slot := slot <| s_name := trunc ACCEL_NAME_MAX accel_name |> <| is_aie := false |> <| is_rpu := true |> in
  env (act_ (usleep (u32 (uptime * 1000)))) ;;
  let! c := get_new_rpmsg_ctrl_dev i NAME_MAX in
  let slot := match c with
              | Some c => slot <| rpu ::= fun r =>
                            r <| rpmsg_ctrl_dev_name := trunc NAME_MAX c |> <| virtio_num := get_virtio_number c |> |>
              | None => slot
              end in
  let slot := slot <| rpu ::= fun r => r <| rpmsg_dev_list := Some [] |> |> <| s_accel := Some a |> in
  set_slot i n (Some slot) ;;
  let! h := get_free_slot_handle in
  set_slot i n (Some (slot <| slot_handle := h |>)) ;;
  ret h.
End Slots.
