(* ===== verification/Invariant.v ===== *)
(** * The invariant of the daemon's tables

    What [base_designs], the platform record and the table of slot handles have
    to do with each other between two requests, and the elementary changes
    that keep it.  Handles and occupied slots are counted, so that one
    equation says both that a handle has one owner and that the table marks
    exactly the owned handles. *)
From S2P Require Import Prelude CStr Env Model Json Accel Slots.
Open Scope Z_scope.
Open Scope dfx_scope.

(** ** Counting *)

Definition is_occupied (s : option slot_info) : nat := match s with Some _ => 1 | None => 0 end.
Definition has_handle (s : option slot_info) : nat :=
  match s with Some s => if 0 <=? slot_handle s then 1 else 0 | None => 0 end.
Definition holds (h : nat) (s : option slot_info) : nat :=
  match s with Some s => if slot_handle s =? Z.of_nat h then 1 else 0 | None => 0 end.

Definition slot_list (b : basePLDesign) : list (option slot_info) := default [] (slots b).
Definition occupied (b : basePLDesign) : nat := sum_list_with is_occupied (slot_list b).
Definition occupied_valid (b : basePLDesign) : nat := sum_list_with has_handle (slot_list b).

(** How often handle [h] is held by a slot of [b], by [b] itself, by anyone. *)
Definition slot_occ (h : nat) (b : basePLDesign) : nat := sum_list_with (holds h) (slot_list b).
Definition user_occ (h : nat) (b : basePLDesign) : nat :=
  if is_user_load b && (user_load_handle b =? Z.of_nat h) then 1 else 0.
Definition occ (h : nat) (b : basePLDesign) : nat := slot_occ h b + user_occ h b.
Definition holders (d : daemon) (h : nat) : nat := sum_list_with (occ h) (base_designs d).

Definition marked (t : list Z) (h : nat) : nat :=
  match t !! h with Some v => if v =? 0 then 0 else 1 | None => 0 end.

Definition is_partial (b : basePLDesign) : bool := is_user_load b && user_load_type b.
Definition partials (ds : list basePLDesign) : nat :=
  sum_list_with (fun b => if is_partial b then 1 else 0)%nat ds.

(** ** One entry *)

Definition is_pl_type (t : string) : bool := is_flat_type t || streq t "PL_DFX".

(** A free entry, a user-loaded design, a package directory. *)
Definition blank (b : basePLDesign) : Prop := b_type b = ""%string /\ num_slots b = 0%nat /\ slots b = None.
Definition package (b : basePLDesign) : Prop := base_path b <> ""%string /\ base_path b <> "User"%string.

Definition slot_ok (ty : string) (s : option slot_info) : Prop :=
  match s with
  | None => True
  | Some s => is_aie s = false /\
              (ty = "RPU"%string -> is_rpu s = true) /\
              exists a, s_accel s = Some a /\ plain a /\ (ty <> "RPU"%string -> pkg a <> None)
  end.

(** The texts of an accelerator fit the buffers they are copied to. *)
Definition accel_texts (a : accel_info) : Prop :=
  fits ACCEL_NAME_MAX (a_name a) = true /\ fits 512 (a_path a) = true /\ fits 32 (accel_type a) = true.

(** An accelerator that a free entry or a user load has: it is in no directory. *)
Definition accel_bare (a : accel_info) : Prop := a_parent_path a = ""%string /\ a_path a = ""%string.

Record entry_wf (b : basePLDesign) : Prop := {
  ew_pl : 0 <= num_pl_slots b < 256;
  ew_aie : 0 <= num_aie_slots b < 256;
  ew_accels : length (accel_list b) = RP_SLOTS_MAX;
  ew_free : base_path b = ""%string -> is_user_load b = false /\ blank b;
  ew_user : is_user_load b = true <-> base_path b = "User"%string;
  ew_blank : is_user_load b = true -> blank b;
  ew_handle : is_user_load b = true -> -1 <= user_load_handle b;
  ew_parent : forall a, a ∈ accel_list b -> package b ->
                a_parent_path a = base_path b \/ a_parent_path a = ""%string;
  ew_slots : forall l, slots b = Some l ->
               (num_slots b <= length l)%nat /\ (RP_SLOTS_MAX <= length l <= 510)%nat /\
               forall s, s ∈ l -> slot_ok (b_type b) s;
  ew_scanned : forall l k s, slots b = Some l -> l !! k = Some (Some s) -> (k < num_slots b)%nat;
  ew_flat : is_flat_type (b_type b) = true -> 0 < num_pl_slots b;
  ew_texts : forall a, a ∈ accel_list b -> accel_texts a;
  ew_fits : fits 512 (base_path b) = true;
  ew_named : fits ACCEL_NAME_MAX (b_name b) = true /\ fits 128 (b_type b) = true;
  ew_bare : ~ package b -> forall a, a ∈ accel_list b -> accel_bare a;
}.

(** What an entry owes to the platform's two pointers: [pa], [ra] say whether
    [active_base], [active_rpu_base] point to it. *)
Definition role_ok (pa ra : bool) (np : nat) (b : basePLDesign) : Prop :=
  (pa = true ->
     (is_user_load b = true /\ user_load_type b = false /\ active b = Z.of_nat np) \/
     (package b /\ is_pl_type (b_type b) = true /\ slots b <> None /\ active b = Z.of_nat (occupied b) /\ np = 0%nat /\
      (is_flat_type (b_type b) = true -> (occupied b <= 1)%nat))) /\
  (ra = true ->
     package b /\ b_type b = "RPU"%string /\ slots b <> None /\ active b = Z.of_nat (occupied_valid b)) /\
  (pa = false -> ra = false -> active b = 0 /\ occupied b = 0%nat).

Definition points_to (o : option nat) (i : nat) : bool := bool_decide (o = Some i).

Definition valid_ptr (o : option nat) : Prop := match o with Some i => (i < MAX_WATCH)%nat | None => True end.

Record wf_core (ds : list basePLDesign) (t : list Z) : Prop := {
  wc_len : length ds = MAX_WATCH;
  wc_table : length t = SLOT_HANDLE_MAX;
  wc_entry : forall i b, ds !! i = Some b -> entry_wf b;
  wc_paths : forall i j b c, ds !! i = Some b -> ds !! j = Some c ->
               package b -> base_path b = base_path c -> i = j;
  wc_handles : forall h, sum_list_with (occ h) ds = marked t h;
}.

Record wf_tables (ds : list basePLDesign) (t : list Z) (pa ra : option nat) : Prop := {
  wf_c : wf_core ds t;
  wf_pl : valid_ptr pa;
  wf_rpu : valid_ptr ra;
  wf_role : forall i b, ds !! i = Some b -> role_ok (points_to pa i) (points_to ra i) (partials ds) b;
}.

Section Core.
Context (ds : list basePLDesign) (t : list Z) (pa ra : option nat) (Hwf : wf_tables ds t pa ra).
Definition wf_len := wc_len _ _ (wf_c _ _ _ _ Hwf).
Definition wf_table := wc_table _ _ (wf_c _ _ _ _ Hwf).
Definition wf_entry := wc_entry _ _ (wf_c _ _ _ _ Hwf).
Definition wf_paths := wc_paths _ _ (wf_c _ _ _ _ Hwf).
Definition wf_handles := wc_handles _ _ (wf_c _ _ _ _ Hwf).
End Core.

Definition wf (d : daemon) : Prop :=
  wf_tables (base_designs d) (available_slot_handle (platform d))
            (active_base (platform d)) (active_rpu_base (platform d)).

(** ** Counting lemmas *)

Lemma holds_le h s : (holds h s <= has_handle s)%nat.
Proof. destruct s as [s|]; simpl; [|lia]. destruct (Z.eqb_spec (slot_handle s) (Z.of_nat h)); [|lia].
  destruct (Z.leb_spec 0 (slot_handle s)); lia. Qed.
Lemma has_handle_le s : (has_handle s <= is_occupied s)%nat.
Proof. destruct s as [s|]; simpl; [|lia]. destruct (0 <=? _); lia. Qed.

Lemma slot_occ_le h b : (slot_occ h b <= occupied_valid b)%nat.
Proof. apply sum_le. intros. apply holds_le. Qed.
Lemma occupied_valid_le b : (occupied_valid b <= occupied b)%nat.
Proof. apply sum_le. intros. apply has_handle_le. Qed.

Lemma occupied_bound b : entry_wf b -> (occupied b <= 510)%nat.
Proof.
  intros Hb. unfold occupied, slot_list. destruct (slots b) as [l|] eqn:E; simpl; [|lia].
  destruct (ew_slots b Hb l E) as (_ & [_ Hl] & _).
  etrans; [apply sum_bound|done]. intros [s|]; simpl; lia.
Qed.

Lemma partials_bound ds : (partials ds <= length ds)%nat.
Proof. apply sum_bound. intros b. destruct (is_partial b); lia. Qed.

Lemma managed_partials ds :
  existsb (fun b => is_user_load b && user_load_type b) ds = false <-> partials ds = 0%nat.
Proof. apply (existsb_sum is_partial). Qed.

Lemma marked_le t h : (marked t h <= 1)%nat.
Proof. unfold marked. destruct (t !! h) as [v|]; [|lia]. destruct (v =? 0); lia. Qed.

(** [get_free_slot_handle()] marks the handle it returns, which was not marked,
    and no other; -1 means the table is full. *)
Lemma take_handle_spec t r t' :
  take_handle t = (r, t') ->
  length t' = length t /\ -1 <= r < Z.of_nat (length t) /\
  (forall h, marked t' h = marked t h + (if (r =? Z.of_nat h)%Z then 1 else 0))%nat /\
  (r = -1 -> forall h, (h < length t)%nat -> marked t h = 1%nat).
Proof.
  unfold take_handle. destruct (find_index _ t) as [i|] eqn:E; intros [= <- <-].
  - apply find_index_lookup in E as (v & Hv & Ev%Z.eqb_eq). subst v.
    pose proof (lookup_lt_Some _ _ _ Hv) as Hlt. rewrite length_insert.
    split_and!; [done|lia|lia| |lia].
    intros h. unfold marked. destruct (decide (i = h)) as [->|Hne].
    + rewrite list_lookup_insert_eq by done. by rewrite Hv, (Z.eqb_refl (Z.of_nat h)).
    + rewrite list_lookup_insert_ne by done.
      destruct (Z.eqb_spec (Z.of_nat i) (Z.of_nat h)); lia.
  - rewrite find_index_None in E. split_and!; [done|lia|lia| |].
    + intros h. destruct (Z.eqb_spec (-1) (Z.of_nat h)); lia.
    + intros _ h Hh. unfold marked. destruct (lookup_lt_is_Some_2 t h Hh) as [v Hv].
      rewrite Hv. by rewrite (E h v Hv).
Qed.

Lemma release_marked t k h :
  (k < length t)%nat ->
  marked (<[k := 0]> t) h = if decide (h = k) then 0%nat else marked t h.
Proof.
  intros Hk. unfold marked. destruct (decide (h = k)) as [->|Hne].
  - by rewrite list_lookup_insert_eq.
  - by rewrite list_lookup_insert_ne.
Qed.

Lemma points_to_true o i : points_to o i = true <-> o = Some i.
Proof. unfold points_to. by rewrite bool_decide_eq_true. Qed.
Lemma points_to_false o i : points_to o i = false <-> o <> Some i.
Proof. unfold points_to. by rewrite bool_decide_eq_false. Qed.

(** ** Elementary changes

    Replacing one entry and the table keeps the tables consistent as soon as
    the handles balance. *)
Definition path_kept (ds : list basePLDesign) (b b' : basePLDesign) : Prop :=
  package b' -> base_path b' = base_path b \/ (forall j c, ds !! j = Some c -> base_path c <> base_path b').

Lemma wf_core_change ds t i b b' t' :
  wf_core ds t -> ds !! i = Some b ->
  entry_wf b' -> path_kept ds b b' -> length t' = length t ->
  (forall h, (occ h b' + marked t h = occ h b + marked t' h)%nat) ->
  wf_core (<[i := b']> ds) t'.
Proof.
  intros Hwf Hi Hb' Hpath Ht Hocc. pose proof (lookup_lt_Some _ _ _ Hi) as Hlt.
  assert (Hl : forall j c, <[i := b']> ds !! j = Some c -> (j = i /\ c = b') \/ (j <> i /\ ds !! j = Some c)).
  { intros j c. destruct (decide (j = i)) as [->|Hne].
    - rewrite list_lookup_insert_eq by done. intros [= <-]. auto.
    - rewrite list_lookup_insert_ne by done. auto. }
  assert (Hnew : forall k c, package b' -> ds !! k = Some c -> base_path b' = base_path c -> k = i).
  { intros k c Hp Hk He. destruct (Hpath Hp) as [Hpb|Hfresh]; [|by destruct (Hfresh k c Hk)].
    symmetry. apply (wc_paths _ _ Hwf i k b c); [done|done|unfold package in *|]; congruence. }
  split.
  - rewrite length_insert. apply Hwf.
  - rewrite Ht. apply Hwf.
  - intros j c [[-> ->]|[_ Hj]]%Hl; [done|by apply (wc_entry _ _ Hwf j)].
  - intros j k c c' [[-> ->]|[Hne Hj]]%Hl [[-> ->]|[Hne' Hk]]%Hl Hp He; [done| | |].
    + symmetry. by apply (Hnew k c').
    + apply (Hnew j c); [unfold package in *; congruence|done..].
    + by apply (wc_paths _ _ Hwf j k c c').
  - intros h. pose proof (sum_insert (occ h) ds i b b' Hi). pose proof (wc_handles _ _ Hwf h).
    specialize (Hocc h). lia.
Qed.

Lemma wf_core_update ds t i b b' t' :
  wf_core ds t -> ds !! i = Some b ->
  entry_wf b' -> (package b' -> base_path b' = base_path b) -> length t' = length t ->
  (forall h, (occ h b' + marked t h = occ h b + marked t' h)%nat) ->
  wf_core (<[i := b']> ds) t'.
Proof. intros Hwf Hi Hb' Hpath. apply (wf_core_change ds t i b); auto. intros Hp. left. auto. Qed.

(** ... and keeps the whole invariant if every entry still plays its role. *)
Lemma wf_change ds t pa ra i b b' t' pa' ra' :
  wf_tables ds t pa ra -> ds !! i = Some b ->
  entry_wf b' -> path_kept ds b b' ->
  length t' = length t -> valid_ptr pa' -> valid_ptr ra' ->
  (forall h, (occ h b' + marked t h = occ h b + marked t' h)%nat) ->
  role_ok (points_to pa' i) (points_to ra' i) (partials (<[i := b']> ds)) b' ->
  (forall j c, j <> i -> ds !! j = Some c ->
     role_ok (points_to pa j) (points_to ra j) (partials ds) c ->
     role_ok (points_to pa' j) (points_to ra' j) (partials (<[i := b']> ds)) c) ->
  wf_tables (<[i := b']> ds) t' pa' ra'.
Proof.
  intros Hwf Hi Hb' Hpath Ht Hpa Hra Hocc Hrole Hothers.
  pose proof (lookup_lt_Some _ _ _ Hi) as Hlt. split; [|done|done|].
  - apply (wf_core_change ds t i b); auto. apply Hwf.
  - intros j c. destruct (decide (j = i)) as [->|Hne].
    + rewrite list_lookup_insert_eq by done. by intros [= <-].
    + rewrite list_lookup_insert_ne by done. intros Hj. apply (Hothers j c Hne Hj).
      by apply (wf_role _ _ _ _ Hwf j).
Qed.

Lemma wf_update ds t pa ra i b b' t' pa' ra' :
  wf_tables ds t pa ra -> ds !! i = Some b ->
  entry_wf b' -> (package b' -> base_path b' = base_path b) ->
  length t' = length t -> valid_ptr pa' -> valid_ptr ra' ->
  (forall h, (occ h b' + marked t h = occ h b + marked t' h)%nat) ->
  role_ok (points_to pa' i) (points_to ra' i) (partials (<[i := b']> ds)) b' ->
  (forall j c, j <> i -> ds !! j = Some c ->
     role_ok (points_to pa j) (points_to ra j) (partials ds) c ->
     role_ok (points_to pa' j) (points_to ra' j) (partials (<[i := b']> ds)) c) ->
  wf_tables (<[i := b']> ds) t' pa' ra'.
Proof. intros Hwf Hi Hb' Hpath. apply (wf_change ds t pa ra i b); auto. intros Hp. left. auto. Qed.

(** *** Changes that keep an entry's shape *)

(** What the invariant says of an accelerator. *)
Definition accel_key (a : accel_info) : string * string * string * string :=
  (a_parent_path a, a_path a, a_name a, accel_type a).

Record same_shape (b b' : basePLDesign) : Prop := {
  ss_path : base_path b' = base_path b;
  ss_name : b_name b' = b_name b;
  ss_type : b_type b' = b_type b;
  ss_pl : num_pl_slots b' = num_pl_slots b;
  ss_aie : num_aie_slots b' = num_aie_slots b;
  ss_active : active b' = active b;
  ss_slots : slots b' = slots b;
  ss_user : is_user_load b' = is_user_load b;
  ss_utype : user_load_type b' = user_load_type b;
  ss_handle : user_load_handle b' = user_load_handle b;
  ss_accels : map accel_key (accel_list b') = map accel_key (accel_list b);
}.

Lemma same_shape_refl b : same_shape b b.
Proof. done. Qed.

Section SameShape.
Variables b b' : basePLDesign.
Hypothesis Hs : same_shape b b'.

Lemma shape_package : package b' <-> package b.
Proof. unfold package. by rewrite (ss_path _ _ Hs). Qed.
Lemma shape_num : num_slots b' = num_slots b.
Proof. unfold num_slots. by rewrite (ss_pl _ _ Hs), (ss_aie _ _ Hs). Qed.
Lemma shape_blank : blank b' <-> blank b.
Proof. unfold blank. by rewrite shape_num, (ss_type _ _ Hs), (ss_slots _ _ Hs). Qed.
Lemma shape_list : slot_list b' = slot_list b.
Proof. unfold slot_list. by rewrite (ss_slots _ _ Hs). Qed.
Lemma shape_occ h : occ h b' = occ h b.
Proof. unfold occ, slot_occ, user_occ. by rewrite shape_list, (ss_user _ _ Hs), (ss_handle _ _ Hs). Qed.
Lemma shape_partial : is_partial b' = is_partial b.
Proof. unfold is_partial. by rewrite (ss_user _ _ Hs), (ss_utype _ _ Hs). Qed.

Lemma shape_accels_length : length (accel_list b') = length (accel_list b).
Proof. rewrite <- (length_map accel_key (accel_list b')), (ss_accels _ _ Hs). apply length_map. Qed.
Lemma shape_accel a : a ∈ accel_list b' -> exists a0, a0 ∈ accel_list b /\ accel_key a = accel_key a0.
Proof.
  intros Ha. apply (list_elem_of_fmap_2 accel_key) in Ha. change (accel_key <$> accel_list b') with (map accel_key (accel_list b')) in Ha.
  rewrite (ss_accels _ _ Hs) in Ha. apply list_elem_of_fmap in Ha as (a0 & -> & Ha0). by exists a0.
Qed.
Lemma key_texts a a0 : accel_key a = accel_key a0 -> accel_texts a0 -> accel_texts a.
Proof. intros [= _ Hp Hn Ht] Ha. unfold accel_texts. by rewrite Hp, Hn, Ht. Qed.

Lemma shape_entry : entry_wf b -> entry_wf b'.
Proof.
  intros [Hpl Haie Hacc Hfree Huser Hblank Hhand Hpar Hsl Hsc Hfl Htx Hft Hnm Hba].
  split; rewrite ?(ss_pl _ _ Hs), ?(ss_aie _ _ Hs), ?(ss_path _ _ Hs), ?(ss_name _ _ Hs), ?(ss_user _ _ Hs), ?shape_blank,
    ?(ss_handle _ _ Hs),
    ?(ss_slots _ _ Hs), ?shape_num, ?(ss_type _ _ Hs), ?shape_package; auto.
  - by rewrite shape_accels_length.
  - intros a (a0 & Ha0 & Hk)%shape_accel Hp%shape_package. injection Hk as -> _ _ _. auto.
  - intros a (a0 & Ha0 & Hk)%shape_accel. eapply key_texts; [exact Hk|auto].
  - intros Hp a (a0 & Ha0 & Hk)%shape_accel. injection Hk as Hk1 Hk2 _ _.
    unfold accel_bare. rewrite Hk1, Hk2. by apply Hba.
Qed.

Lemma shape_role pa ra np : role_ok pa ra np b -> role_ok pa ra np b'.
Proof.
  unfold role_ok, occupied, occupied_valid. rewrite shape_list, shape_package.
  rewrite (ss_type _ _ Hs), (ss_slots _ _ Hs), (ss_active _ _ Hs), (ss_user _ _ Hs), (ss_utype _ _ Hs). done.
Qed.
End SameShape.

Lemma wf_same_shape ds ds' t pa ra :
  Forall2 same_shape ds ds' -> wf_tables ds t pa ra -> wf_tables ds' t pa ra.
Proof.
  intros HF Hwf. pose proof (Forall2_length _ _ _ HF) as Hlen.
  assert (Hl : forall i c', ds' !! i = Some c' -> exists c, ds !! i = Some c /\ same_shape c c').
  { intros i c' Hi. by apply (Forall2_lookup_r _ _ _ _ _ HF Hi). }
  assert (Hp : partials ds' = partials ds).
  { unfold partials. clear -HF. induction HF as [|c c' l l' Hc HF IH]; simpl; [done|].
    by rewrite IH, (shape_partial _ _ Hc). }
  assert (Ho : forall h, sum_list_with (occ h) ds' = sum_list_with (occ h) ds).
  { intros h. clear -HF. induction HF as [|c c' l l' Hc HF IH]; simpl; [done|].
    by rewrite IH, (shape_occ _ _ Hc). }
  split; [split| | |].
  - rewrite <- Hlen. apply Hwf.
  - apply Hwf.
  - intros i c' (c & Hc & Hs)%Hl. apply (shape_entry _ _ Hs). by apply (wf_entry _ _ _ _ Hwf i).
  - intros i j b' c' (b & Hb & Hsb)%Hl (c & Hc & Hsc)%Hl. rewrite (shape_package _ _ Hsb).
    rewrite (ss_path _ _ Hsb), (ss_path _ _ Hsc). by apply (wf_paths _ _ _ _ Hwf).
  - intros h. rewrite Ho. apply Hwf.
  - apply Hwf.
  - apply Hwf.
  - intros i c' (c & Hc & Hs)%Hl. rewrite Hp. apply (shape_role _ _ Hs). by apply (wf_role _ _ _ _ Hwf i).
Qed.

Lemma wf_touch ds t pa ra i b b' :
  wf_tables ds t pa ra -> ds !! i = Some b -> same_shape b b' -> wf_tables (<[i := b']> ds) t pa ra.
Proof.
  intros Hwf Hi Hs. apply (wf_same_shape ds); [|done].
  rewrite <- (list_insert_id ds i b Hi) at 1. apply Forall2_insert; [|done].
  apply Forall2_same_length_lookup_2; [done|]. intros j x y Hx Hy. simplify_eq. done.
Qed.

(** *** Slot arrays *)

Definition with_slots (b : basePLDesign) (l : option (list (option slot_info))) : basePLDesign :=
  b <| slots := l |>.
Definition fresh_slots (b : basePLDesign) : list (option slot_info) :=
  replicate (Z.to_nat (pl_cap b + num_aie_slots b)) None.

Lemma partials_same ds i b b' :
  ds !! i = Some b -> is_partial b' = is_partial b -> partials (<[i := b']> ds) = partials ds.
Proof.
  intros Hi Hp. pose proof (sum_insert (fun b => if is_partial b then 1 else 0)%nat ds i b b' Hi) as Hs.
  unfold partials. simpl in Hs. rewrite Hp in Hs. lia.
Qed.

Lemma package_not_user b : entry_wf b -> package b -> is_user_load b = false.
Proof. intros Hb [_ Hp]. destruct (is_user_load b) eqn:E; [|done]. by apply (ew_user b Hb) in E. Qed.

Lemma with_slots_entry b l :
  entry_wf b -> package b ->
  (num_slots b <= length l)%nat -> (RP_SLOTS_MAX <= length l <= 510)%nat ->
  (forall s, s ∈ l -> slot_ok (b_type b) s) ->
  (forall k s, l !! k = Some (Some s) -> (k < num_slots b)%nat) -> entry_wf (with_slots b (Some l)).
Proof.
  intros Hb Hp Hn Hl Hs Hsc. pose proof (package_not_user b Hb Hp) as Hu.
  split; simpl; try apply Hb.
  - intros He. by destruct Hp.
  - intros He. simpl in He. congruence.
  - intros l' [= <-]. split; [done|]. split; [done|]. done.
  - intros l' k x [= <-]. apply Hsc.
Qed.

Lemma drop_slots_entry b : entry_wf b -> entry_wf (with_slots b None).
Proof.
  intros Hb. split; simpl; try apply Hb; try done.
  - intros He. destruct (ew_free b Hb He) as [Hu (? & ? & ?)]. done.
  - intros He. destruct (ew_blank b Hb He) as (? & ? & ?). done.
Qed.

Lemma fresh_slots_length b : entry_wf b ->
  (num_slots b <= length (fresh_slots b))%nat /\ (RP_SLOTS_MAX <= length (fresh_slots b) <= 510)%nat.
Proof.
  intros Hb. pose proof (ew_pl b Hb). pose proof (ew_aie b Hb). unfold fresh_slots. rewrite length_replicate.
  unfold num_slots, pl_cap, RP_SLOTS_MAX. destruct (Z.ltb_spec (Z.of_nat 10) (num_pl_slots b)); lia.
Qed.

Lemma fresh_slots_empty b s : s ∈ fresh_slots b -> s = None.
Proof. intros [-> _]%elem_of_replicate. done. Qed.

Lemma fresh_counts b f : f None = 0%nat -> sum_list_with f (fresh_slots b) = 0%nat.
Proof. apply sum_replicate_0. Qed.

Lemma wf_alloc ds t pa ra i b :
  wf_tables ds t pa ra -> ds !! i = Some b -> package b -> slots b = None ->
  wf_tables (<[i := with_slots b (Some (fresh_slots b))]> ds) t pa ra.
Proof.
  intros Hwf Hi Hp Hn. pose proof (wf_entry _ _ _ _ Hwf i b Hi) as Hb.
  pose proof (package_not_user b Hb Hp) as Hu.
  assert (Hpart : partials (<[i := with_slots b (Some (fresh_slots b))]> ds) = partials ds)
    by (by apply (partials_same _ _ b)).
  apply (wf_update _ t pa ra i b); auto; try apply Hwf; try exact I.
  - destruct (fresh_slots_length b Hb). apply with_slots_entry; auto.
    + intros s ->%fresh_slots_empty. done.
    + intros k s Hk%list_elem_of_lookup_2%fresh_slots_empty. done.
  - intros h. unfold occ, slot_occ, user_occ, slot_list. simpl. rewrite Hn. simpl.
    rewrite fresh_counts by done. lia.
  - rewrite Hpart. pose proof (wf_role _ _ _ _ Hwf i b Hi) as (HA & HR & HI).
    unfold role_ok, occupied, slot_list. simpl. rewrite !fresh_counts by done. split_and!.
    + intros Ha. destruct (HA Ha) as [(? & ?)|(? & ? & ? & ?)]; congruence.
    + intros Ha. destruct (HR Ha) as (? & ? & ? & ?). congruence.
    + intros Ha Hr. destruct (HI Ha Hr). done.
  - intros j c Hj Hc. by rewrite Hpart.
Qed.

(** *** Releasing a base *)

Lemma empty_role np b :
  active b = 0 -> occupied b = 0%nat -> role_ok false false np b.
Proof. intros Ha Ho. repeat split; done. Qed.

Lemma role_other pa ra np b : role_ok pa ra np b -> pa = false -> forall np', role_ok pa ra np' b.
Proof. intros (HA & HR & HI) Hpa np'. split_and!; [congruence|done|done]. Qed.

(** The active PL base when its [active] is zero: empty, and no partial load
    is left. *)
Lemma idle_pl ds t ra j b :
  wf_tables ds t (Some j) ra -> ds !! j = Some b -> active b = 0 ->
  occupied b = 0%nat /\ partials ds = 0%nat /\ points_to ra j = false.
Proof.
  intros Hwf Hj Ha. pose proof (wf_role _ _ _ _ Hwf j b Hj) as (HA & HR & _).
  pose proof (wf_entry _ _ _ _ Hwf j b Hj) as Hb.
  specialize (HA (proj2 (points_to_true (Some j) j) eq_refl)).
  assert (Hra : points_to ra j = false).
  { destruct (points_to ra j) eqn:E; [|done]. destruct (HR eq_refl) as (Hp & Ht & _).
    destruct HA as [(Hu & _)|(_ & Hty & _)].
    - pose proof (package_not_user b Hb Hp). congruence.
    - rewrite Ht in Hty. done. }
  destruct HA as [(Hu & _ & Hn)|(_ & _ & _ & Hn & Hz & _)].
  - destruct (ew_blank b Hb Hu) as (_ & _ & Hs). unfold occupied, slot_list. rewrite Hs. simpl.
    split; [done|]. split; [lia|done].
  - split; [lia|]. done.
Qed.

Lemma wf_drop_pl ds t ra j b :
  wf_tables ds t (Some j) ra -> ds !! j = Some b -> active b = 0 -> wf_tables ds t None ra.
Proof.
  intros Hwf Hj Ha. destruct (idle_pl _ _ _ _ _ Hwf Hj Ha) as (Ho & Hz & Hra).
  rewrite <- (list_insert_id ds j b Hj). apply (wf_update _ t (Some j) ra j b); auto; try apply Hwf; try exact I.
  - by apply (wf_entry _ _ _ _ Hwf j).
  - rewrite (list_insert_id ds j b Hj), Hra. simpl. by apply empty_role.
  - intros k c Hk Hc. rewrite (list_insert_id ds j b Hj).
    assert (points_to (Some j) k = false) as -> by (apply points_to_false; congruence). done.
Qed.

Lemma drop_slots_occ h b : slot_occ h b = 0%nat -> occ h (with_slots b None) = occ h b.
Proof. intros Hz. unfold occ, slot_occ, user_occ in *. simpl in *. unfold slot_list in *. simpl. lia. Qed.

Lemma wf_evict_pl ds t ra j b :
  wf_tables ds t (Some j) ra -> ds !! j = Some b -> active b = 0 ->
  wf_tables (<[j := with_slots b None]> ds) t None ra.
Proof.
  intros Hwf Hj Ha. destruct (idle_pl _ _ _ _ _ Hwf Hj Ha) as (Ho & Hz & Hra).
  assert (Hpart : partials (<[j := with_slots b None]> ds) = partials ds) by (by apply (partials_same _ _ b)).
  apply (wf_update _ t (Some j) ra j b); auto; try apply Hwf; try exact I.
  - apply drop_slots_entry. by apply (wf_entry _ _ _ _ Hwf j).
  - intros h. rewrite drop_slots_occ; [lia|].
    pose proof (slot_occ_le h b). pose proof (occupied_valid_le b). lia.
  - rewrite Hpart, Hra. by apply empty_role.
  - intros k c Hk Hc. rewrite Hpart.
    assert (points_to (Some j) k = false) as -> by (apply points_to_false; congruence). done.
Qed.

Lemma wf_evict_rpu ds t pa j b :
  wf_tables ds t pa (Some j) -> ds !! j = Some b -> active b = 0 ->
  wf_tables (<[j := with_slots b None]> ds) t pa None.
Proof.
  intros Hwf Hj Ha. pose proof (wf_role _ _ _ _ Hwf j b Hj) as (HA & HR & _).
  pose proof (wf_entry _ _ _ _ Hwf j b Hj) as Hb.
  destruct (HR (proj2 (points_to_true (Some j) j) eq_refl)) as (Hp & Ht & Hs & Hn).
  assert (Hpa : points_to pa j = false).
  { destruct (points_to pa j) eqn:E; [|done]. destruct (HA eq_refl) as [(Hu & _)|(_ & Hty & _)].
    - pose proof (package_not_user b Hb Hp). congruence.
    - rewrite Ht in Hty. done. }
  assert (Hpart : partials (<[j := with_slots b None]> ds) = partials ds) by (by apply (partials_same _ _ b)).
  apply (wf_update _ t pa (Some j) j b); auto; try apply Hwf; try exact I.
  - by apply drop_slots_entry.
  - intros h. rewrite drop_slots_occ; [lia|]. pose proof (slot_occ_le h b). lia.
  - rewrite Hpart, Hpa. by apply empty_role.
  - intros k c Hk Hc. rewrite Hpart.
    assert (points_to (Some j) k = false) as -> by (apply points_to_false; congruence). done.
Qed.

(** *** Activating a base *)

(** An entry that neither pointer names has nothing in it. *)
Lemma inactive_entry ds t pa ra i b :
  wf_tables ds t pa ra -> ds !! i = Some b -> pa <> Some i -> ra <> Some i ->
  active b = 0 /\ occupied b = 0%nat.
Proof.
  intros Hwf Hi Hpa Hra. destruct (wf_role _ _ _ _ Hwf i b Hi) as (_ & _ & HI).
  apply HI; by apply points_to_false.
Qed.

Lemma rpu_not_pl ds t pa ra i b :
  wf_tables ds t pa ra -> ds !! i = Some b -> b_type b <> "RPU"%string -> ra <> Some i.
Proof.
  intros Hwf Hi Ht ->. destruct (wf_role _ _ _ _ Hwf i b Hi) as (_ & HR & _).
  destruct (HR (proj2 (points_to_true _ _) eq_refl)) as (_ & ? & _). done.
Qed.

Lemma pl_type_not_rpu ty : is_pl_type ty = true -> ty <> "RPU"%string.
Proof. by intros Ht ->. Qed.

Lemma wf_activate_pl ds t ra i b :
  wf_tables ds t None ra -> ds !! i = Some b -> partials ds = 0%nat ->
  package b -> is_pl_type (b_type b) = true -> slots b <> None ->
  wf_tables ds t (Some i) ra.
Proof.
  intros Hwf Hi Hz Hp Hty Hs. pose proof (pl_type_not_rpu _ Hty) as Hne.
  pose proof (rpu_not_pl _ _ _ _ _ _ Hwf Hi Hne) as Hra.
  destruct (inactive_entry _ _ _ _ _ _ Hwf Hi) as [Ha Ho]; [done|done|].
  rewrite <- (list_insert_id ds i b Hi).
  apply (wf_update _ t None ra i b); auto; try apply Hwf.
  - by apply (wf_entry _ _ _ _ Hwf i).
  - unfold valid_ptr. rewrite <- (wf_len _ _ _ _ Hwf). by apply lookup_lt_Some in Hi.
  - rewrite (list_insert_id ds i b Hi). apply points_to_false in Hra. rewrite Hra. split_and!; [|done|].
    + intros _. right. rewrite Ha, Ho. split_and!; try done. lia.
    + intros Hf. apply points_to_false in Hf. done.
  - intros k c Hk Hc. rewrite (list_insert_id ds i b Hi).
    assert (points_to (Some i) k = false) as -> by (apply points_to_false; congruence). done.
Qed.

Lemma wf_activate_rpu ds t pa i b :
  wf_tables ds t pa None -> ds !! i = Some b ->
  package b -> b_type b = "RPU"%string -> slots b <> None ->
  wf_tables ds t pa (Some i).
Proof.
  intros Hwf Hi Hp Hty Hs. pose proof (wf_entry _ _ _ _ Hwf i b Hi) as Hb.
  assert (Hpa : pa <> Some i).
  { intros ->. destruct (wf_role _ _ _ _ Hwf i b Hi) as (HA & _).
    destruct (HA (proj2 (points_to_true _ _) eq_refl)) as [(Hu & _)|(_ & Ht & _)].
    - pose proof (package_not_user b Hb Hp). congruence.
    - by rewrite Hty in Ht. }
  destruct (inactive_entry _ _ _ _ _ _ Hwf Hi) as [Ha Ho]; [done|done|].
  pose proof (occupied_valid_le b).
  rewrite <- (list_insert_id ds i b Hi).
  apply (wf_update _ t pa None i b); auto; try apply Hwf.
  - unfold valid_ptr. rewrite <- (wf_len _ _ _ _ Hwf). by apply lookup_lt_Some in Hi.
  - apply points_to_false in Hpa. rewrite Hpa. split_and!; [done| |].
    + intros _. split_and!; try done. rewrite Ha. lia.
    + intros _ Hf. apply points_to_false in Hf. done.
  - intros k c Hk Hc. rewrite (list_insert_id ds i b Hi).
    assert (points_to (Some i) k = false) as -> by (apply points_to_false; congruence). done.
Qed.

(** *** Occupying and vacating a slot *)

Definition put_slot (b : basePLDesign) (l : list (option slot_info)) (k : nat) (s : option slot_info)
    (n : Z) : basePLDesign :=
  b <| active := n |> <| slots := Some (<[k := s]> l) |>.

Section PutSlot.
Variables (b : basePLDesign) (l : list (option slot_info)) (k : nat) (s s' : option slot_info) (n : Z).
Hypothesis Hl : slots b = Some l.
Hypothesis Hk : l !! k = Some s.

Lemma put_slot_sum f :
  (sum_list_with f (slot_list (put_slot b l k s' n)) + f s = sum_list_with f (slot_list b) + f s')%nat.
Proof. unfold slot_list. simpl. rewrite Hl. simpl. by apply sum_insert. Qed.

Lemma put_slot_entry :
  entry_wf b -> package b -> slot_ok (b_type b) s' -> (s' = None \/ (k < num_slots b)%nat) ->
  entry_wf (put_slot b l k s' n).
Proof.
  intros Hb Hp Hs' Hsc. pose proof (package_not_user b Hb Hp) as Hu.
  destruct (ew_slots b Hb l Hl) as (Hn & Hlen & Hok).
  split; simpl; try apply Hb.
  - intros He. by destruct Hp.
  - intros He. simpl in He. congruence.
  - intros l' [= <-]. rewrite length_insert. split; [done|]. split; [done|].
    intros x [j Hx]%list_elem_of_lookup. destruct (decide (j = k)) as [->|Hne].
    + rewrite list_lookup_insert_eq in Hx by (by apply lookup_lt_Some in Hk). by injection Hx as <-.
    + rewrite list_lookup_insert_ne in Hx by done. apply Hok. by apply list_elem_of_lookup_2 in Hx.
  - intros l' j x [= <-]. destruct (decide (j = k)) as [->|Hne].
    + rewrite list_lookup_insert_eq by (by apply lookup_lt_Some in Hk). intros [= ->]. by destruct Hsc.
    + rewrite list_lookup_insert_ne by done. by apply (ew_scanned b Hb).
Qed.
End PutSlot.

Lemma put_slot_partials ds i b l k s n :
  ds !! i = Some b -> partials (<[i := put_slot b l k s n]> ds) = partials ds.
Proof. intros Hi. by apply (partials_same _ _ b). Qed.

Lemma put_slot_others pa ra ds i b l k s n :
  ds !! i = Some b ->
  forall j c, j <> i -> ds !! j = Some c ->
    role_ok (points_to pa j) (points_to ra j) (partials ds) c ->
    role_ok (points_to pa j) (points_to ra j) (partials (<[i := put_slot b l k s n]> ds)) c.
Proof. intros Hi j c _ _. by rewrite (put_slot_partials _ _ _ _ _ _ _ Hi). Qed.

(** Who owns slot [k] of the active PL base. *)
Lemma wf_occupy_pl ds t ra i b l k s h t' :
  wf_tables ds t (Some i) ra -> ds !! i = Some b -> slots b = Some l -> l !! k = Some None ->
  take_handle t = (h, t') -> slot_handle s = h -> slot_ok (b_type b) (Some s) -> (k < num_slots b)%nat ->
  (is_flat_type (b_type b) = true -> occupied b = 0%nat) ->
  wf_tables (<[i := put_slot b l k (Some s) (active b + 1)]> ds) t' (Some i) ra.
Proof.
  intros Hwf Hi Hl Hk Ht Hh Hok Hsc Hflat. pose proof (wf_entry _ _ _ _ Hwf i b Hi) as Hb.
  destruct (wf_role _ _ _ _ Hwf i b Hi) as (HA & HR & _).
  destruct (HA (proj2 (points_to_true _ _) eq_refl)) as [(Hu & _)|(Hp & Hty & _ & Hn & Hz & _)].
  { destruct (ew_blank b Hb Hu) as (_ & _ & ?). congruence. }
  pose proof (take_handle_spec _ _ _ Ht) as (Hlen & Hrange & Hmark & _).
  apply (wf_update _ t (Some i) ra i b); auto; try apply Hwf; try exact I.
  - eapply put_slot_entry; [done..|auto].
  - intros h'. unfold occ, slot_occ. specialize (Hmark h').
    pose proof (put_slot_sum b l k None (Some s) (active b + 1) Hl Hk (holds h')) as Hsum. simpl in Hsum.
    rewrite Hh in Hsum. unfold user_occ. simpl. lia.
  - rewrite (put_slot_partials _ _ _ _ _ _ _ Hi). split_and!.
    + intros _. right. pose proof (put_slot_sum b l k None (Some s) (active b + 1) Hl Hk is_occupied) as Hsum.
      simpl in Hsum. unfold occupied in *. split_and!; try done; simpl; [lia|].
      intros Hf. specialize (Hflat Hf). lia.
    + intros Hr. destruct (HR Hr) as (_ & Hrt & _). rewrite Hrt in Hty. done.
    + intros Hf. apply points_to_false in Hf. done.
  - by apply put_slot_others.
Qed.

Lemma wf_occupy_rpu ds t pa i b l k s h t' :
  wf_tables ds t pa (Some i) -> ds !! i = Some b -> slots b = Some l -> l !! k = Some None ->
  take_handle t = (h, t') -> slot_handle s = h -> slot_ok (b_type b) (Some s) -> (k < num_slots b)%nat ->
  wf_tables (<[i := put_slot b l k (Some s) (if 0 <=? h then active b + 1 else active b)]> ds) t' pa (Some i).
Proof.
  intros Hwf Hi Hl Hk Ht Hh Hok Hsc. pose proof (wf_entry _ _ _ _ Hwf i b Hi) as Hb.
  destruct (wf_role _ _ _ _ Hwf i b Hi) as (HA & HR & _).
  destruct (HR (proj2 (points_to_true _ _) eq_refl)) as (Hp & Hty & _ & Hn).
  pose proof (take_handle_spec _ _ _ Ht) as (Hlen & Hrange & Hmark & _).
  set (n := if 0 <=? h then active b + 1 else active b).
  apply (wf_update _ t pa (Some i) i b); auto; try apply Hwf; try exact I.
  - eapply put_slot_entry; [done..|auto].
  - intros h'. unfold occ, slot_occ. specialize (Hmark h').
    pose proof (put_slot_sum b l k None (Some s) n Hl Hk (holds h')) as Hsum. simpl in Hsum.
    rewrite Hh in Hsum. unfold user_occ. simpl. lia.
  - rewrite (put_slot_partials _ _ _ _ _ _ _ Hi). split_and!.
    + intros Hr. destruct (HA Hr) as [(Hu & _)|(_ & Hrt & _)].
      * pose proof (package_not_user b Hb Hp). congruence.
      * by rewrite Hty in Hrt.
    + intros _. split_and!; try done. simpl.
      pose proof (put_slot_sum b l k None (Some s) n Hl Hk has_handle) as Hsum. simpl in Hsum.
      rewrite Hh in Hsum. unfold occupied_valid, n in *. destruct (Z.leb_spec 0 h); lia.
    + intros _ Hf. apply points_to_false in Hf. done.
  - by apply put_slot_others.
Qed.

Lemma marked_lt t h : marked t h = 1%nat -> (h < length t)%nat.
Proof. unfold marked. destruct (t !! h) eqn:E; [intros _; by apply lookup_lt_Some in E|done]. Qed.

Lemma occ_marked ds t i b h :
  wf_core ds t -> ds !! i = Some b -> (1 <= occ h b)%nat ->
  occ h b = 1%nat /\ marked t h = 1%nat /\ (h < SLOT_HANDLE_MAX)%nat.
Proof.
  intros Hwf Hi Ho. pose proof (sum_lookup_le (occ h) ds i b Hi). pose proof (wc_handles _ _ Hwf h).
  pose proof (marked_le t h). rewrite <- (wc_table _ _ Hwf).
  split; [lia|]. split; [lia|]. apply marked_lt. lia.
Qed.

Lemma slot_occ_holds b l k s h :
  slots b = Some l -> l !! k = Some (Some s) -> slot_handle s = Z.of_nat h -> (1 <= occ h b)%nat.
Proof.
  intros Hl Hk Hh. pose proof (sum_lookup_le (holds h) l k _ Hk) as Hle. simpl in Hle.
  rewrite Hh, Z.eqb_refl in Hle. unfold occ, slot_occ, slot_list. rewrite Hl. simpl. lia.
Qed.

(** The balance of a release: the owner gives up what the table unmarks. *)
Lemma release_balance ds t i b b' n :
  wf_core ds t -> ds !! i = Some b -> (1 <= occ n b)%nat ->
  (forall h, (occ h b' + (if decide (h = n) then 1 else 0))%nat = occ h b) ->
  forall h, (occ h b' + marked t h = occ h b + marked (<[n := 0%Z]> t) h)%nat.
Proof.
  intros Hwf Hi Ho Hbal h. destruct (occ_marked _ _ _ _ _ Hwf Hi Ho) as (H1 & H2 & H3).
  rewrite release_marked by (rewrite (wc_table _ _ Hwf); done).
  specialize (Hbal h). destruct (decide (h = n)) as [->|]; lia.
Qed.

Lemma put_slot_release b l k s n h :
  slots b = Some l -> l !! k = Some (Some s) -> slot_handle s = Z.of_nat n ->
  forall a, (occ h (put_slot b l k None a) + (if decide (h = n) then 1 else 0))%nat = occ h b.
Proof.
  intros Hl Hk Hh a. unfold occ, slot_occ.
  pose proof (put_slot_sum b l k (Some s) None a Hl Hk (holds h)) as Hsum. simpl in Hsum. rewrite Hh in Hsum.
  unfold user_occ. simpl. destruct (decide (h = n)) as [->|Hne].
  - rewrite Z.eqb_refl in Hsum. lia.
  - destruct (Z.eqb_spec (Z.of_nat n) (Z.of_nat h)); [lia|]. lia.
Qed.

Lemma wf_vacate_pl ds t ra i b l k s n :
  wf_tables ds t (Some i) ra -> ds !! i = Some b -> slots b = Some l -> l !! k = Some (Some s) ->
  slot_handle s = Z.of_nat n ->
  wf_tables (<[i := put_slot b l k None (active b - 1)]> ds) (<[n := 0]> t) (Some i) ra /\
  0 < active b <= 510 /\ is_pl_type (b_type b) = true /\ (is_flat_type (b_type b) = true -> active b = 1).
Proof.
  intros Hwf Hi Hl Hk Hh. pose proof (wf_entry _ _ _ _ Hwf i b Hi) as Hb.
  destruct (wf_role _ _ _ _ Hwf i b Hi) as (HA & HR & _).
  destruct (HA (proj2 (points_to_true _ _) eq_refl)) as [(Hu & _)|(Hp & Hty & Hs & Hn & Hz & Hflat)].
  { destruct (ew_blank b Hb Hu) as (_ & _ & ?). congruence. }
  pose proof (slot_occ_holds _ _ _ _ _ Hl Hk Hh) as Ho.
  pose proof (occupied_bound b Hb).
  pose proof (put_slot_sum b l k (Some s) None (active b - 1) Hl Hk is_occupied) as Hsum. simpl in Hsum.
  unfold occupied in *.
  split; [|split; [lia|split; [done|intros Hf; specialize (Hflat Hf); lia]]].
  apply (wf_update _ t (Some i) ra i b); auto; try apply Hwf; try exact I.
  - eapply put_slot_entry; [done..|auto].
  - apply length_insert.
  - eapply release_balance; [apply Hwf|done..|]. intros h. by eapply put_slot_release.
  - rewrite (put_slot_partials _ _ _ _ _ _ _ Hi). split_and!.
    + intros _. right. unfold occupied in *. split_and!; try done; simpl; [lia|].
      intros Hf. specialize (Hflat Hf). lia.
    + intros Hr. destruct (HR Hr) as (_ & Hrt & _). rewrite Hrt in Hty. done.
    + intros Hf. apply points_to_false in Hf. done.
  - by apply put_slot_others.
Qed.

Lemma wf_vacate_rpu ds t pa i b l k s n :
  wf_tables ds t pa (Some i) -> ds !! i = Some b -> slots b = Some l -> l !! k = Some (Some s) ->
  slot_handle s = Z.of_nat n ->
  wf_tables (<[i := put_slot b l k None (active b - 1)]> ds) (<[n := 0]> t) pa (Some i) /\
  0 < active b <= 510.
Proof.
  intros Hwf Hi Hl Hk Hh. pose proof (wf_entry _ _ _ _ Hwf i b Hi) as Hb.
  destruct (wf_role _ _ _ _ Hwf i b Hi) as (HA & HR & _).
  destruct (HR (proj2 (points_to_true _ _) eq_refl)) as (Hp & Hty & Hs & Hn).
  pose proof (slot_occ_holds _ _ _ _ _ Hl Hk Hh) as Ho.
  pose proof (occupied_bound b Hb). pose proof (occupied_valid_le b).
  pose proof (put_slot_sum b l k (Some s) None (active b - 1) Hl Hk has_handle) as Hsum. simpl in Hsum.
  rewrite Hh in Hsum. destruct (Z.leb_spec 0 (Z.of_nat n)); [|lia]. unfold occupied_valid in *.
  split; [|lia].
  apply (wf_update _ t pa (Some i) i b); auto; try apply Hwf; try exact I.
  - eapply put_slot_entry; [done..|auto].
  - apply length_insert.
  - eapply release_balance; [apply Hwf|done..|]. intros h. by eapply put_slot_release.
  - rewrite (put_slot_partials _ _ _ _ _ _ _ Hi). split_and!.
    + intros Hr. destruct (HA Hr) as [(Hu & _)|(_ & Hrt & _)].
      * pose proof (package_not_user b Hb Hp). congruence.
      * by rewrite Hty in Hrt.
    + intros _. split_and!; try done. simpl. unfold occupied_valid in *. lia.
    + intros _ Hf. apply points_to_false in Hf. done.
  - by apply put_slot_others.
Qed.

(** *** User-loaded designs *)

Definition as_user_load (b : basePLDesign) (name region : string) (ty : bool) (h : Z) : basePLDesign :=
  b <| b_name := name |> <| base_path := "User"%string |> <| active := 0 |> <| is_user_load := true |>
    <| user_load_type := ty |> <| user_load_handle := h |> <| user_load_region := region |>.

Definition cleared (b : basePLDesign) : basePLDesign :=
  b <| b_name := ""%string |> <| base_path := ""%string |> <| is_user_load := false |>
    <| user_load_handle := -1 |> <| list_id := 0 |>.

Lemma blank_list b : blank b -> slot_list b = [].
Proof. intros (_ & _ & Hs). unfold slot_list. by rewrite Hs. Qed.

Section UserLoad.
Variables (b : basePLDesign) (name region : string) (ty : bool) (h : Z).
Hypothesis Hb : entry_wf b.

Lemma as_user_load_entry :
  base_path b = ""%string -> fits ACCEL_NAME_MAX name = true -> -1 <= h -> entry_wf (as_user_load b name region ty h).
Proof.
  intros He Hn Hh. destruct (ew_free b Hb He) as [_ Hbl].
  split; simpl; try apply Hb; try done; [intros a _ [_ Hp]; done|split; [done|apply (ew_named b Hb)]|].
  intros _. apply (ew_bare b Hb). intros [Hp _]. done.
Qed.

Lemma cleared_entry : is_user_load b = true -> entry_wf (cleared b).
Proof.
  intros Hu. pose proof (ew_blank b Hb Hu) as Hbl.
  split; simpl; try apply Hb; try done; [intros a _ [Hp _]; done|split; [done|apply (ew_named b Hb)]|].
  intros _. apply (ew_bare b Hb). intros [_ Hp]. apply Hp. by apply (ew_user b Hb).
Qed.

Lemma free_occ h' : base_path b = ""%string -> occ h' b = 0%nat.
Proof.
  intros He. destruct (ew_free b Hb He) as [Hu Hbl]. unfold occ, slot_occ, user_occ.
  by rewrite (blank_list b Hbl), Hu.
Qed.

Lemma as_user_load_occ h' :
  base_path b = ""%string ->
  occ h' (as_user_load b name region ty h) = (if (h =? Z.of_nat h')%Z then 1 else 0)%nat.
Proof.
  intros He. destruct (ew_free b Hb He) as [_ Hbl]. unfold occ, slot_occ, user_occ, slot_list. simpl.
  by destruct Hbl as (_ & _ & ->).
Qed.

Lemma cleared_occ h' : is_user_load b = true -> occ h' (cleared b) = 0%nat.
Proof.
  intros Hu. pose proof (ew_blank b Hb Hu) as (_ & _ & Hs).
  unfold occ, slot_occ, user_occ, slot_list. simpl. by rewrite Hs.
Qed.

Lemma user_occ_handle n : is_user_load b = true -> user_load_handle b = Z.of_nat n -> (1 <= occ n b)%nat.
Proof. intros Hu Hh. unfold occ, user_occ. rewrite Hu, Hh, Z.eqb_refl. simpl. lia. Qed.

Lemma user_occ_only n h' : is_user_load b = true -> user_load_handle b = Z.of_nat n ->
  occ h' b = (if decide (h' = n) then 1 else 0)%nat.
Proof.
  intros Hu Hh. pose proof (ew_blank b Hb Hu) as Hbl. unfold occ, slot_occ, user_occ.
  rewrite (blank_list b Hbl), Hu, Hh. simpl. destruct (decide (h' = n)) as [->|].
  - by rewrite Z.eqb_refl.
  - destruct (Z.eqb_spec (Z.of_nat n) (Z.of_nat h')); [lia|done].
Qed.
End UserLoad.

Lemma partials_insert ds i b b' :
  ds !! i = Some b ->
  (partials (<[i := b']> ds) + (if is_partial b then 1 else 0) = partials ds + (if is_partial b' then 1 else 0))%nat.
Proof. intros Hi. apply (sum_insert (fun b => if is_partial b then 1 else 0)%nat ds i b b' Hi). Qed.

(** A free entry is neither active base. *)
Lemma free_inactive ds t pa ra i b :
  wf_tables ds t pa ra -> ds !! i = Some b -> base_path b = ""%string -> pa <> Some i /\ ra <> Some i.
Proof.
  intros Hwf Hi He. pose proof (wf_entry _ _ _ _ Hwf i b Hi) as Hb.
  destruct (ew_free b Hb He) as [Hu _].
  destruct (wf_role _ _ _ _ Hwf i b Hi) as (HA & HR & _). split; intros ->.
  - destruct (HA (proj2 (points_to_true _ _) eq_refl)) as [(Hu' & _)|((Hp & _) & _)]; congruence.
  - destruct (HR (proj2 (points_to_true _ _) eq_refl)) as ((Hp & _) & _); congruence.
Qed.

Section AddUser.
Variables (ds : list basePLDesign) (t : list Z) (ra : option nat) (i : nat) (b : basePLDesign).
Variables (name region : string) (h : Z) (t' : list Z).
Hypothesis Hi : ds !! i = Some b.
Hypothesis He : base_path b = ""%string.
Hypothesis Ht : take_handle t = (h, t').
Hypothesis Hname : fits ACCEL_NAME_MAX name = true.

Lemma add_user_core ty :
  wf_core ds t -> wf_core (<[i := as_user_load b name region ty h]> ds) t'.
Proof.
  intros Hwf. pose proof (wc_entry _ _ Hwf i b Hi) as Hb.
  pose proof (take_handle_spec _ _ _ Ht) as (Hlen & [Hh _] & Hmark & _).
  apply (wf_core_update ds t i b); auto.
  - apply as_user_load_entry; [done|done|done|lia].
  - intros [_ Hp]. done.
  - intros h'. rewrite as_user_load_occ, free_occ by done. specialize (Hmark h'). lia.
Qed.

(** A full bitstream becomes the active base. *)
Lemma wf_add_full :
  wf_tables ds t None ra -> partials ds = 0%nat ->
  wf_tables (<[i := as_user_load b name region false h]> ds) t' (Some i) ra.
Proof.
  intros Hwf Hz. destruct (free_inactive _ _ _ _ _ _ Hwf Hi He) as [_ Hra].
  pose proof (lookup_lt_Some _ _ _ Hi) as Hlt.
  pose proof (partials_insert ds i b (as_user_load b name region false h) Hi) as Hp. simpl in Hp.
  split; [by apply add_user_core, Hwf| |apply Hwf|].
  - unfold valid_ptr. rewrite <- (wf_len _ _ _ _ Hwf). done.
  - intros j c. destruct (decide (j = i)) as [->|Hne].
    + rewrite list_lookup_insert_eq by done. intros [= <-]. apply points_to_false in Hra. rewrite Hra.
      split_and!; [|done|].
      * intros _. left. split_and!; try done. simpl. lia.
      * intros Hf. apply points_to_false in Hf. done.
    + rewrite list_lookup_insert_ne by done. intros Hj.
      assert (points_to (Some i) j = false) as -> by (apply points_to_false; congruence).
      apply (role_other false (points_to ra j) (partials ds)); [|done]. by apply (wf_role _ _ _ _ Hwf j).
Qed.

(** A partial bitstream on a base loaded outside the daemon. *)
Lemma wf_add_partial_forced :
  wf_tables ds t None ra ->
  wf_tables (<[i := as_user_load b name region true h]> ds) t' None ra.
Proof.
  intros Hwf. destruct (free_inactive _ _ _ _ _ _ Hwf Hi He) as [_ Hra].
  pose proof (lookup_lt_Some _ _ _ Hi) as Hlt.
  split; [by apply add_user_core, Hwf|done|apply Hwf|].
  intros j c. destruct (decide (j = i)) as [->|Hne].
  - rewrite list_lookup_insert_eq by done. intros [= <-]. apply points_to_false in Hra. rewrite Hra.
    apply empty_role; [done|]. destruct (ew_free b (wf_entry _ _ _ _ Hwf i b Hi) He) as [_ Hbl].
    unfold occupied, slot_list. simpl. by destruct Hbl as (_ & _ & ->).
  - rewrite list_lookup_insert_ne by done. intros Hj.
    apply (role_other false (points_to ra j) (partials ds)); [|done]. by apply (wf_role _ _ _ _ Hwf j).
Qed.

Lemma set_active_core ds0 t0 j c n :
  wf_core ds0 t0 -> ds0 !! j = Some c -> wf_core (<[j := c <| active := n |>]> ds0) t0.
Proof.
  intros Hwf Hj. pose proof (wc_entry _ _ Hwf j c Hj) as Hc.
  apply (wf_core_update ds0 t0 j c); auto. split; apply Hc.
Qed.

(** A partial bitstream on the user-loaded active base [j]. *)
Lemma wf_add_partial j c :
  wf_tables ds t (Some j) ra -> ds !! j = Some c -> is_user_load c = true ->
  wf_tables (<[j := c <| active := active c + 1 |>]> (<[i := as_user_load b name region true h]> ds)) t' (Some j) ra /\
  0 <= active c <= 500.
Proof.
  intros Hwf Hj Hu. destruct (free_inactive _ _ _ _ _ _ Hwf Hi He) as [Hpa Hra].
  assert (Hji : j <> i) by congruence.
  pose proof (wf_entry _ _ _ _ Hwf j c Hj) as Hc.
  destruct (wf_role _ _ _ _ Hwf j c Hj) as (HA & HR & _).
  destruct (HA (proj2 (points_to_true _ _) eq_refl)) as [(_ & Hty & Hact)|(Hp & _)];
    [|pose proof (package_not_user c Hc Hp); congruence].
  pose proof (partials_bound ds) as Hbound. rewrite (wf_len _ _ _ _ Hwf) in Hbound. unfold MAX_WATCH in Hbound.
  split; [|lia].
  set (b' := as_user_load b name region true h). set (c' := c <| active := active c + 1 |>).
  assert (Hj' : <[i := b']> ds !! j = Some c) by (by rewrite list_lookup_insert_ne).
  assert (Hpart : partials (<[j := c']> (<[i := b']> ds)) = S (partials ds)).
  { pose proof (partials_insert ds i b b' Hi) as H1. pose proof (partials_insert _ j c c' Hj') as H2.
    destruct (ew_free b (wf_entry _ _ _ _ Hwf i b Hi) He) as [Hub _].
    unfold is_partial in H1, H2. simpl in H1, H2. rewrite Hub in H1. simpl in H1. lia. }
  split; [apply set_active_core; [apply add_user_core, Hwf|done]|apply Hwf|apply Hwf|].
  intros k x. rewrite Hpart. destruct (decide (k = j)) as [->|Hkj].
  - rewrite list_lookup_insert_eq by (apply lookup_lt_Some in Hj'; done). intros [= <-].
    split_and!.
    + intros _. left. split_and!; try done. simpl. lia.
    + intros Hr. destruct (HR Hr) as (Hp & _). pose proof (package_not_user c Hc Hp). congruence.
    + intros Hf. apply points_to_false in Hf. done.
  - rewrite list_lookup_insert_ne by done.
    assert (points_to (Some j) k = false) as -> by (apply points_to_false; congruence).
    destruct (decide (k = i)) as [->|Hki].
    + rewrite list_lookup_insert_eq by (by apply lookup_lt_Some in Hi). intros [= <-].
      apply points_to_false in Hra. rewrite Hra. apply empty_role; [done|].
      destruct (ew_free b (wf_entry _ _ _ _ Hwf i b Hi) He) as [_ (_ & _ & Hs)].
      unfold occupied, slot_list. simpl. by rewrite Hs.
    + rewrite list_lookup_insert_ne by done. intros Hk.
      apply (role_other false (points_to ra k) (partials ds)); [|done].
      pose proof (wf_role _ _ _ _ Hwf k x Hk) as Hrole.
      assert (points_to (Some j) k = false) as Hpf by (apply points_to_false; congruence).
      by rewrite Hpf in Hrole.
Qed.
End AddUser.

Section RemoveUser.
Variables (ds : list basePLDesign) (t : list Z) (ra : option nat) (i : nat) (b : basePLDesign) (n : nat).
Hypothesis Hi : ds !! i = Some b.
Hypothesis Hu : is_user_load b = true.
Hypothesis Hh : user_load_handle b = Z.of_nat n.

Lemma remove_user_core : wf_core ds t -> wf_core (<[i := cleared b]> ds) (<[n := 0]> t).
Proof.
  intros Hwf. pose proof (wc_entry _ _ Hwf i b Hi) as Hb.
  apply (wf_core_update ds t i b); auto.
  - by apply cleared_entry.
  - intros [Hp _]. done.
  - apply length_insert.
  - eapply release_balance; [done|done|by apply user_occ_handle|].
    intros h. rewrite cleared_occ, (user_occ_only b Hb n) by done. lia.
Qed.

(** An entry that is user-loaded is not the RPU base. *)
Lemma user_not_rpu pa : wf_tables ds t pa ra -> points_to ra i = false.
Proof.
  intros Hwf. pose proof (wf_entry _ _ _ _ Hwf i b Hi) as Hb.
  destruct (wf_role _ _ _ _ Hwf i b Hi) as (_ & HR & _).
  destruct (points_to ra i); [|done]. destruct (HR eq_refl) as (Hp & _).
  pose proof (package_not_user b Hb Hp). congruence.
Qed.

Lemma cleared_role ra' pa np :
  wf_tables ds t pa ra -> points_to ra i = ra' -> active b = 0 -> role_ok false ra' np (cleared b).
Proof.
  intros Hwf <- Ha. rewrite (user_not_rpu _ Hwf). apply empty_role; [done|].
  pose proof (wf_entry _ _ _ _ Hwf i b Hi) as Hb. destruct (ew_blank b Hb Hu) as (_ & _ & Hs).
  unfold occupied, slot_list. simpl. by rewrite Hs.
Qed.

(** A full bitstream, the active base or not, whose [active] is zero. *)
Lemma wf_remove_full pa :
  wf_tables ds t pa ra -> user_load_type b = false -> active b = 0 ->
  wf_tables (<[i := cleared b]> ds) (<[n := 0]> t) (if points_to pa i then None else pa) ra.
Proof.
  intros Hwf Hty Ha. pose proof (lookup_lt_Some _ _ _ Hi) as Hlt.
  assert (Hpart : partials (<[i := cleared b]> ds) = partials ds).
  { apply (partials_same _ _ b _ Hi). unfold is_partial. simpl. by rewrite Hu, Hty. }
  set (pa' := if points_to pa i then None else pa).
  split; [by apply remove_user_core, Hwf| |apply Hwf|].
  - subst pa'. destruct (points_to pa i); [done|apply Hwf].
  - intros k x. rewrite Hpart. destruct (decide (k = i)) as [->|Hki].
    + rewrite list_lookup_insert_eq by done. intros [= <-].
      assert (points_to pa' i = false) as ->.
      { subst pa'. destruct (points_to pa i) eqn:E; [done|exact E]. }
      by eapply cleared_role.
    + rewrite list_lookup_insert_ne by done. intros Hk.
      pose proof (wf_role _ _ _ _ Hwf k x Hk) as Hrole.
      assert (points_to pa' k = points_to pa k) as ->; [|done].
      subst pa'. destruct (points_to pa i) eqn:E; [|done]. apply points_to_true in E. subst pa.
      symmetry. apply points_to_false. congruence.
Qed.

Lemma wf_remove_partial_forced :
  wf_tables ds t None ra ->
  wf_tables (<[i := cleared b]> ds) (<[n := 0]> t) None ra.
Proof.
  intros Hwf. pose proof (lookup_lt_Some _ _ _ Hi) as Hlt.
  split; [by apply remove_user_core, Hwf|done|apply Hwf|].
  intros k x. destruct (decide (k = i)) as [->|Hki].
  - rewrite list_lookup_insert_eq by done. intros [= <-]. eapply cleared_role; [done|done|].
    eapply inactive_entry; [done|done|done|]. apply points_to_false. by eapply user_not_rpu.
  - rewrite list_lookup_insert_ne by done. intros Hk.
    apply (role_other false (points_to ra k) (partials ds)); [|done]. by apply (wf_role _ _ _ _ Hwf k).
Qed.

(** A partial bitstream on the active base [j]. *)
Lemma wf_remove_partial j c :
  wf_tables ds t (Some j) ra -> user_load_type b = true -> ds !! j = Some c ->
  j <> i /\ 0 < active c <= 500 /\ active b = 0 /\
  wf_tables (<[i := cleared b]> (<[j := c <| active := active c - 1 |>]> ds)) (<[n := 0]> t) (Some j) ra.
Proof.
  intros Hwf Hty Hj. pose proof (wf_entry _ _ _ _ Hwf j c Hj) as Hc.
  pose proof (partials_bound ds) as Hbound. rewrite (wf_len _ _ _ _ Hwf) in Hbound. unfold MAX_WATCH in Hbound.
  assert (Hpos : (1 <= partials ds)%nat).
  { pose proof (sum_lookup_le (fun b => if is_partial b then 1 else 0)%nat ds i b Hi) as Hle.
    simpl in Hle. unfold is_partial at 1 in Hle. by rewrite Hu, Hty in Hle. }
  destruct (wf_role _ _ _ _ Hwf j c Hj) as (HA & HR & _).
  destruct (HA (proj2 (points_to_true _ _) eq_refl)) as [(Huc & Htc & Hact)|(_ & _ & _ & _ & Hz & _)]; [|lia].
  assert (Hji : j <> i) by (intros ->; congruence).
  destruct (inactive_entry _ _ _ _ _ _ Hwf Hi) as [Hb0 Hbo]; [congruence|apply points_to_false; by eapply user_not_rpu|].
  split; [done|]. split; [lia|]. split; [done|].
  set (c' := c <| active := active c - 1 |>).
  assert (Hi' : <[j := c']> ds !! i = Some b) by (by rewrite list_lookup_insert_ne).
  assert (Hpart : S (partials (<[i := cleared b]> (<[j := c']> ds))) = partials ds).
  { pose proof (partials_insert ds j c c' Hj) as H1. pose proof (partials_insert _ i b (cleared b) Hi') as H2.
    unfold is_partial in H1, H2. simpl in H1, H2. rewrite Hu, Hty in H2. simpl in H2. lia. }
  split; [|apply Hwf|apply Hwf|].
  - pose proof (set_active_core _ _ _ _ (active c - 1) (wf_c _ _ _ _ Hwf) Hj) as Hcore. fold c' in Hcore.
    apply (wf_core_update _ t i b); auto.
    + apply cleared_entry; [|done]. by apply (wf_entry _ _ _ _ Hwf i).
    + intros [Hp _]. done.
    + apply length_insert.
    + eapply release_balance; [apply Hcore|done|by apply user_occ_handle|].
      pose proof (wf_entry _ _ _ _ Hwf i b Hi) as Hbe.
      intros h. rewrite cleared_occ, (user_occ_only b Hbe n) by done. lia.
  - intros k x. destruct (decide (k = i)) as [->|Hki].
    + rewrite list_lookup_insert_eq by (by apply lookup_lt_Some in Hi'). intros [= <-].
      assert (points_to (Some j) i = false) as -> by (apply points_to_false; congruence).
      by eapply cleared_role.
    + rewrite list_lookup_insert_ne by done. destruct (decide (k = j)) as [->|Hkj].
      * rewrite list_lookup_insert_eq by (by apply lookup_lt_Some in Hj). intros [= <-]. split_and!.
        -- intros _. left. split_and!; try done. simpl. lia.
        -- intros Hr. destruct (HR Hr) as (Hp & _). pose proof (package_not_user c Hc Hp). congruence.
        -- intros Hf. apply points_to_false in Hf. done.
      * rewrite list_lookup_insert_ne by done. intros Hk.
        pose proof (wf_role _ _ _ _ Hwf k x Hk) as Hrole.
        assert (points_to (Some j) k = false) as Hpf by (apply points_to_false; congruence).
        rewrite Hpf in *. by apply (role_other false (points_to ra k) (partials ds)).
Qed.
End RemoveUser.
