(* ===== verification/ListIds.v ===== *)
(** * List IDs

    The IDs that listPackage shows ([assign_list_ids()] and
    [find_accel_by_list_id()] of [src/daemon_helper.c]) and the lookups by ID
    and by name that the load and unload requests use. *)
From S2P Require Import Prelude CStr Env Model Json Accel Rpu Slots.
Open Scope Z_scope.
Open Scope dfx_scope.

(** ** Stamping *)

(** Is a package of this base listed?  Is this one? *)
Definition lists_packages (b : basePLDesign) : bool := in_use b && (0 <? num_pl_slots b).
Definition is_package (a : accel_info) : bool := negb (ISZERO (a_path a)).

Fixpoint stamp_accels (id : Z) (l : list accel_info) : Z * list accel_info :=
  match l with
  | [] => (id, [])
  | a :: l =>
      if is_package a then
        let '(id', l') := stamp_accels (id + 1) l in (id', a <| a_list_id := id |> :: l')
      else let '(id', l') := stamp_accels id l in (id', a :: l')
  end.

Definition stamp_base (id : Z) (b : basePLDesign) : Z * basePLDesign :=
  let '(id, b) := if lists_packages b
                  then let '(id, l) := stamp_accels id (accel_list b) in (id, b <| accel_list := l |>)
                  else (id, b) in
  if is_user_load b then (id + 1, b <| list_id := id |>) else (id, b).

Fixpoint stamp_bases (id : Z) (l : list basePLDesign) : list basePLDesign :=
  match l with
  | [] => []
  | b :: l => let '(id, b) := stamp_base id b in b :: stamp_bases id l
  end.

Definition assign_list_ids (d : daemon) : daemon := d <| base_designs ::= stamp_bases 1 |>.

(** ** Lookup by ID and by name *)

Record list_id_result := ListIdResult {
  res_base : nat;
  res_accel : option nat;        (* None: the user-loaded design itself *)
  res_slot_handle : Z;           (* -1: not loaded *)
}.
Definition res_is_user_load (r : list_id_result) : bool :=
  match res_accel r with None => true | Some _ => false end.

Section ListIds.
Context {W : Type} `{Env W}.

Definition mark_pkg_listing_dirty : M (sys W) unit :=
  modd assign_list_ids ;; modd (fun d => d <| pkg_listing_dirty := true |>).

(** The first slot of base [i] that holds [name]: its handle. *)
Definition slot_handle_of_name (i : nat) (name : string) : M (sys W) (option Z) :=
  let! b := get_base i in
  for_ret (fun k =>
    let! s := get_slot i k in
    ret (match s with Some s => if streq (s_name s) name then Some (slot_handle s) else None | None => None end))
    (seq 0 (num_slots b)).

Definition id_of_accel (id : Z) (i : nat) (j : nat) : M (sys W) (option list_id_result) :=
  let! b := get_base i in
  let! a := the OutOfBounds (accel_list b !! j) in
  if is_package a && (a_list_id a =? id) then
    let! h := match slots b with
              | Some _ => slot_handle_of_name i (a_name a)
              | None => ret None
              end in
    ret (Some (ListIdResult i (Some j) (default (-1) h)))
  else ret None.

Definition id_in_base (id : Z) (i : nat) : M (sys W) (option list_id_result) :=
  let! b := get_base i in
  let! r := if lists_packages b then for_ret (id_of_accel id i) (seq 0 RP_SLOTS_MAX) else ret None in
  match r with
  | Some r => ret (Some r)
  | None =>
      ret (if is_user_load b && (list_id b =? id)
           then Some (ListIdResult i None (user_load_handle b)) else None)
  end.

(** [find_accel_by_list_id()]: [None] is -1. *)
Definition find_accel_by_list_id (id : Z) : M (sys W) (option list_id_result) :=
  for_ret (id_in_base id) (seq 0 MAX_WATCH).

(** [find_slot_handle_by_name()]: the RPU base, the user loads, the PL base. *)
Definition find_slot_handle_by_name (name : string) : M (sys W) Z :=
  let in_base (o : option nat) : M (sys W) (option Z) :=
    match o with
    | None => ret None
    | Some i => let! b := get_base i in
                match slots b with Some _ => slot_handle_of_name i name | None => ret None end
    end in
  let! rb := gp active_rpu_base in
  let! pb := gp active_base in
  let! h := in_base rb in
  match h with
  | Some h => ret h
  | None =>
      let! d := getd in
      match List.find (fun b => is_user_load b && streq (b_name b) name) (base_designs d) with
      | Some b => ret (user_load_handle b)
      | None => let! h := in_base pb in ret (default (-1) h)
      end
  end.
End ListIds.

Definition pid_uid_check (b : basePLDesign) (a : accel_info) : string :=
  if is_flat_type (b_type b) then "id_ok"
  else if negb (uid b =? 0) && negb (a_pid a =? 0)
       then (if uid b =? a_pid a then "id_ok" else "id_err") else "no_id".

Definition fmt_uuid (u : Z) : string := if u =? 0 then "N/A" else hex8 (u32 u).

(** The space-separated tokens of a string, as [strtok_r] yields them. *)
Fixpoint tokens (fuel : nat) (delims s : string) : list string :=
  match fuel with
  | O => []
  | S f => match strtok delims s with None => [] | Some (t, r) => t :: tokens f delims r end
  end.
Definition board_name_matches (accel_name board_names : string) : bool :=
  let s := trunc 128 board_names in
  existsb (fun t => match strcasestr accel_name t with Some _ => true | None => false end)
          (tokens (strlen s) " " s).
