(* ===== verification/TablesWp.v ===== *)
(** * Running the table operations

    Weakest preconditions of the slot and handle operations, stated on the
    tables: what an operation of [Slots] and [ListIds] reads and writes when
    the pointers it follows are valid. *)
From S2P Require Import Prelude CStr Env Model Json Accel Rpu Slots Invariant ListIds.
Open Scope Z_scope.
Open Scope dfx_scope.

Abbreviation bases s := (base_designs (dm s)).
Abbreviation table s := (available_slot_handle (platform (dm s))).
Abbreviation pl_base s := (active_base (platform (dm s))).
Abbreviation rpu_base s := (active_rpu_base (platform (dm s))).

(** The state with other tables: everything else of the daemon, and the world,
    stay. *)
Definition set_bases {W} (ds : list basePLDesign) (s : sys W) : sys W :=
  s <| dm ::= fun d => d <| base_designs := ds |> |>.
Definition set_table {W} (t : list Z) (s : sys W) : sys W :=
  s <| dm ::= fun d => d <| platform ::= fun p => p <| available_slot_handle := t |> |> |>.
Definition set_pl {W} (o : option nat) (s : sys W) : sys W :=
  s <| dm ::= fun d => d <| platform ::= fun p => p <| active_base := o |> |> |>.
Definition set_rpu {W} (o : option nat) (s : sys W) : sys W :=
  s <| dm ::= fun d => d <| platform ::= fun p => p <| active_rpu_base := o |> |> |>.

Section Wp.
Context {W : Type} `{Env W} (F : fault -> Prop).
Implicit Types (s : sys W).

Lemma wp_getb i b Q s : bases s !! i = Some b -> Q b s -> wp F (get_base i) Q s.
Proof. apply wp_get_base. Qed.

Lemma wp_setb i b Q s : Q tt (set_bases (<[i := b]> (bases s)) s) -> wp F (set_base i b) Q s.
Proof. done. Qed.

Lemma wp_modb i f b Q s :
  bases s !! i = Some b -> Q tt (set_bases (<[i := f b]> (bases s)) s) -> wp F (mod_base i f) Q s.
Proof. apply wp_mod_base. Qed.

Lemma wp_set_pl o Q s : Q tt (set_pl o s) -> wp F (modp (fun p => p <| active_base := o |>)) Q s.
Proof. done. Qed.
Lemma wp_set_rpu o Q s : Q tt (set_rpu o s) -> wp F (modp (fun p => p <| active_rpu_base := o |>)) Q s.
Proof. done. Qed.

Lemma wp_get_slot i k b l x Q s :
  bases s !! i = Some b -> slots b = Some l -> l !! k = Some x -> Q x s -> wp F (get_slot i k) Q s.
Proof.
  intros Hi Hl Hk HQ. apply wp_bind. eapply wp_getb; [done|].
  apply wp_bind. eapply wp_the_Some; [done|]. by eapply wp_the_Some.
Qed.

Lemma wp_set_slot i k x b l Q s :
  bases s !! i = Some b -> slots b = Some l -> (k < length l)%nat ->
  Q tt (set_bases (<[i := with_slots b (Some (<[k := x]> l))]> (bases s)) s) ->
  wp F (set_slot i k x) Q s.
Proof.
  intros Hi Hl Hk HQ. apply wp_bind. eapply wp_getb; [done|].
  apply wp_bind. eapply wp_the_Some; [done|]. apply wp_bind, wp_guard.
  - intros _. by apply wp_setb.
  - intros Hf%Nat.ltb_ge. lia.
Qed.

Lemma wp_get_free_slot_handle h t' Q s :
  take_handle (table s) = (h, t') -> Q h (set_table t' s) -> wp F get_free_slot_handle Q s.
Proof. intros Ht HQ. apply wp_bind, wp_gp. rewrite Ht. by apply wp_bind, wp_modp, wp_ret. Qed.

Lemma wp_release_handle n Q s :
  (n < length (table s))%nat -> Q tt (set_table (<[n := 0]> (table s)) s) ->
  wp F (release_handle (Z.of_nat n)) Q s.
Proof.
  intros Hn HQ. apply wp_bind, wp_gp, wp_bind, wp_guard.
  - intros _. apply wp_modp. by rewrite Nat2Z.id.
  - intros Hf. apply andb_false_iff in Hf as [Hf%Z.leb_gt|Hf%Z.ltb_ge]; lia.
Qed.

Lemma wp_add_active i b n Q s :
  bases s !! i = Some b -> - 2 ^ 31 <= active b + n < 2 ^ 31 ->
  Q tt (set_bases (<[i := b <| active := active b + n |>]> (bases s)) s) ->
  wp F (add_active (Some i) n) Q s.
Proof.
  intros Hi Hr HQ. apply wp_bind, wp_ret. eapply wp_modb; [done|]. simpl.
  rewrite int32_id by done. done.
Qed.

(** A world operation or a driver operation leaves the tables alone. *)
Lemma wp_env {A} (m : M W A) Q s :
  tame m -> (forall a w, Q a (s <| machine ::= fun h => h <| hw_world := w |> |>)) ->
  wp lib_fault (env m) Q s.
Proof.
  intros Hm HQ. apply wp_in_hw, wp_in_world. eapply wp_mono; [apply Hm|]. intros a w _. apply HQ.
Qed.

Lemma wp_hw {A} (m : M (hw W) A) (R : A -> Prop) Q s :
  wp lib_fault m (fun a _ => R a) (machine s) ->
  (forall a h, R a -> Q a (Sys (dm s) h)) -> wp lib_fault (in_hw m) Q s.
Proof. intros Hm HQ. apply wp_in_hw. eapply wp_mono; [apply Hm|]. intros a h. apply HQ. Qed.

Lemma wp_hw_tame {A} (m : M (hw W) A) Q s :
  tame m -> (forall a h, Q a (Sys (dm s) h)) -> wp lib_fault (in_hw m) Q s.
Proof. intros Hm HQ. apply (wp_hw m (fun _ => True)); auto. Qed.

(** [alloc_base_slots()] of a package: its array exists afterwards. *)
Definition allocated (b : basePLDesign) : basePLDesign :=
  match slots b with Some _ => b | None => with_slots b (Some (fresh_slots b)) end.

Lemma wp_alloc i b Q s :
  bases s !! i = Some b -> Q tt (set_bases (<[i := allocated b]> (bases s)) s) ->
  wp F (alloc_base_slots i) Q s.
Proof. apply wp_modb. Qed.

Lemma wf_allocated ds t pa ra i b :
  wf_tables ds t pa ra -> ds !! i = Some b -> package b -> wf_tables (<[i := allocated b]> ds) t pa ra.
Proof.
  intros Hwf Hi Hp. unfold allocated. destruct (slots b) eqn:E.
  - by rewrite list_insert_id.
  - by apply wf_alloc.
Qed.

(** ** The lookup loops *)

(** The slots a loop over [num_slots] visits exist. *)
Definition readable (b : basePLDesign) : Prop :=
  num_slots b = 0%nat \/ exists l, slots b = Some l /\ (num_slots b <= length l)%nat.

Lemma active_readable ds t pa ra i b :
  wf_tables ds t pa ra -> ds !! i = Some b -> pa = Some i \/ ra = Some i -> readable b.
Proof.
  intros Hwf Hi Ho. pose proof (wf_entry _ _ _ _ Hwf i b Hi) as Hb.
  assert (Hs : slots b <> None -> readable b).
  { intros Hn. right. destruct (slots b) as [l|] eqn:E; [|done]. exists l. split; [done|].
    by destruct (ew_slots b Hb l E). }
  destruct (wf_role _ _ _ _ Hwf i b Hi) as (HA & HR & _). destruct Ho as [->| ->].
  - destruct (HA (proj2 (points_to_true _ _) eq_refl)) as [(Hu & _)|(_ & _ & Hn & _)]; [|auto].
    left. by destruct (ew_blank b Hb Hu) as (_ & ? & _).
  - destruct (HR (proj2 (points_to_true _ _) eq_refl)) as (_ & _ & Hn & _). auto.
Qed.

Lemma slot_scan_wp {R} i b (f : nat -> option slot_info -> option R) s :
  bases s !! i = Some b -> readable b ->
  wp F (for_ret (fun k => let! x := get_slot i k in ret (f k x)) (seq 0 (num_slots b)))
     (fun r s' => s' = s /\
        match r with
        | Some v => exists k x, slot_list b !! k = Some x /\ f k x = Some v
        | None => forall k x, (k < num_slots b)%nat -> slot_list b !! k = Some x -> f k x = None
        end) s.
Proof.
  intros Hi [Hz|(l & Hl & Hlen)].
  { rewrite Hz. apply wp_ret. split; [done|]. intros; lia. }
  eapply wp_mono.
  - apply (wp_for_ret_scan F _ (fun k r => exists x, l !! k = Some x /\ r = f k x)).
    intros k Hk%elem_of_seq. destruct (lookup_lt_is_Some_2 l k ltac:(lia)) as [x Hx].
    apply wp_bind. eapply wp_get_slot; [done..|]. apply wp_ret. split; [done|]. by exists x.
  - unfold slot_list. rewrite Hl. simpl. intros [v|] s' [-> Hr]; (split; [done|]).
    + destruct Hr as (k & _ & x & Hx & Hv). exists k, x. split; congruence.
    + intros k x Hk Hx. destruct (Hr k) as (x' & Hx' & Hv); [apply elem_of_seq; lia|]. congruence.
Qed.

(** [find_slot_from_handle()]: a slot of the base with that handle, or none. *)
Lemma find_slot_wp i b h s :
  bases s !! i = Some b -> readable b ->
  wp F (find_slot_from_handle i h)
     (fun r s' => s' = s /\
        match r with
        | Some k => exists x, slot_list b !! k = Some (Some x) /\ slot_handle x = h
        | None => forall k x, (k < num_slots b)%nat -> slot_list b !! k = Some (Some x) -> slot_handle x <> h
        end) s.
Proof.
  intros Hi Hr. apply wp_bind. eapply wp_getb; [done|]. eapply wp_mono.
  - by apply (slot_scan_wp i b (fun k x => match x with
                 | Some x => if h =? slot_handle x then Some k else None | None => None end)).
  - intros [k|] s' [-> Hk]; (split; [done|]).
    + destruct Hk as (k' & x & Hx & Hf). destruct x as [x|]; [|done].
      destruct (Z.eqb_spec h (slot_handle x)); [|done]. injection Hf as <-. by exists x.
    + intros k x Hlt Hx. specialize (Hk k _ Hlt Hx). simpl in Hk.
      destruct (Z.eqb_spec h (slot_handle x)); [done|congruence].
Qed.

Lemma slot_by_name_wp i b name s :
  bases s !! i = Some b -> readable b ->
  wp F (slot_handle_of_name i name)
     (fun r s' => s' = s /\
        match r with
        | Some h => exists k x, slot_list b !! k = Some (Some x) /\ s_name x = name /\ slot_handle x = h
        | None => True
        end) s.
Proof.
  intros Hi Hr. apply wp_bind. eapply wp_getb; [done|]. eapply wp_mono.
  - by apply (slot_scan_wp i b (fun _ x => match x with
                 | Some x => if streq (s_name x) name then Some (slot_handle x) else None | None => None end)).
  - intros [h|] s' [-> Hk]; (split; [done|]); [|done].
    destruct Hk as (k & x & Hx & Hf). destruct x as [x|]; [|done].
    destruct (streqP (s_name x) name); [|done]. injection Hf as <-. by exists k, x.
Qed.

(** ** Taking a slot *)

Lemma wp_occupy i b l k x h t' Q s :
  bases s !! i = Some b -> slots b = Some l -> (k < length l)%nat -> take_handle (table s) = (h, t') ->
  Q h (set_table t' (set_bases (<[i := with_slots b (Some (<[k := Some (x <| slot_handle := h |>)]> l))]> (bases s)) s)) ->
  wp F (set_slot i k (Some x) ;;
        let! h := get_free_slot_handle in
        set_slot i k (Some (x <| slot_handle := h |>)) ;; ret h) Q s.
Proof.
  intros Hi Hl Hk Ht HQ. pose proof (lookup_lt_Some _ _ _ Hi) as Hlt.
  apply wp_bind. eapply wp_set_slot; [done..|].
  apply wp_bind. eapply wp_get_free_slot_handle; [done|].
  apply wp_bind. eapply wp_set_slot.
  - simpl. by rewrite list_lookup_insert_eq.
  - done.
  - by rewrite length_insert.
  - apply wp_ret. simpl. rewrite !list_insert_insert_eq. exact HQ.
Qed.

Lemma slot_list_lookup b k x : slot_list b !! k = Some x -> exists l, slots b = Some l /\ l !! k = Some x.
Proof.
  unfold slot_list. destruct (slots b) as [l|]; simpl; [eauto|]. by rewrite lookup_nil.
Qed.

(** ** The RPU control device: these loops only read. *)

Lemma ctrl_recorded_wp i b name s :
  bases s !! i = Some b -> readable b -> wp F (ctrl_recorded i name) (fun _ s' => s' = s) s.
Proof.
  intros Hi Hr. apply wp_bind. eapply wp_getb; [done|]. destruct Hr as [Hz|(l & Hl & Hlen)].
  { rewrite Hz. by apply wp_ret. }
  apply (wp_for_until _ _ (fun s' => s' = s)); [|done]. intros k s' Hk%elem_of_seq ->.
  destruct (lookup_lt_is_Some_2 l k ltac:(lia)) as [x Hx].
  apply wp_bind. eapply wp_get_slot; [done..|]. by apply wp_ret.
Qed.

Lemma get_new_ctrl_wp i b n s :
  bases s !! i = Some b -> readable b ->
  wp F (get_new_rpmsg_ctrl_dev i n) (fun _ s' => dm s' = dm s) s.
Proof.
  intros Hi Hr. apply wp_bind, wp_in_hw, wp_in_world, wp_look. destruct (readdir _ _) as [l|]; [|by apply wp_ret].
  apply (wp_for_ret _ _ (fun s' => dm s' = dm s)); [|done]. intros e s' _ Hd.
  destruct (_ && _); [|by apply wp_ret]. apply wp_bind. eapply wp_mono.
  - apply (ctrl_recorded_wp i b); [by rewrite Hd|done].
  - intros known s'' ->. by apply wp_ret.
Qed.
End Wp.
