(* ===== verification/ListIdFacts.v ===== *)
(** * List IDs are a bijection

    After [assign_list_ids()] the IDs of the listed entries, in listing order,
    are 1, 2, ..., n; a lookup by ID finds the entry that carries it; and
    stamping changes nothing the invariant looks at. *)
From S2P Require Import Prelude CStr Env Model Json Accel Rpu Slots Invariant ListIds TablesWp.
Open Scope Z_scope.
Open Scope dfx_scope.

(** The IDs an entry shows, in listing order. *)
Definition base_ids (b : basePLDesign) : list Z :=
  (if lists_packages b then map a_list_id (List.filter is_package (accel_list b)) else []) ++
  (if is_user_load b then [list_id b] else []).
Definition all_ids (ds : list basePLDesign) : list Z := concat (map base_ids ds).

(** ** Stamping *)

Lemma stamp_accels_spec id l id' l' :
  stamp_accels id l = (id', l') ->
  map a_list_id (List.filter is_package l') = seqZ id (id' - id) /\ id <= id' /\
  map accel_key l' = map accel_key l /\ map a_name l' = map a_name l /\ map a_path l' = map a_path l.
Proof.
  revert id id' l'. induction l as [|a l IH]; intros id id' l'; simpl.
  - intros [= <- <-]. rewrite seqZ_nil by lia. split_and!; [done|lia|done..].
  - destruct (is_package a) eqn:E.
    + destruct (stamp_accels (id + 1) l) as [k m] eqn:Es. intros [= <- <-].
      destruct (IH _ _ _ Es) as (Hids & Hle & Hp & Hn & Hpa). simpl.
      assert (is_package (a <| a_list_id := id |>) = true) as Ep by exact E. simpl in Ep. rewrite Ep. simpl.
      rewrite Hids, Hp, Hn, Hpa. split_and!; [|lia|done..].
      rewrite (seqZ_cons id (k - id)) by lia. f_equal. f_equal; lia.
    + destruct (stamp_accels id l) as [k m] eqn:Es. intros [= <- <-].
      destruct (IH _ _ _ Es) as (Hids & Hle & Hp & Hn & Hpa). simpl. rewrite E.
      by rewrite Hids, Hp, Hn, Hpa.
Qed.

Lemma seqZ_split a b c : a <= b <= c -> seqZ a (c - a) = seqZ a (b - a) ++ seqZ b (c - b).
Proof. intros Hb. replace (c - a) with ((b - a) + (c - b)) by lia. rewrite seqZ_app by lia. do 2 f_equal. lia. Qed.

Lemma seqZ_one a : seqZ a (a + 1 - a) = [a].
Proof. by replace (a + 1 - a) with 1 by lia. Qed.

Lemma stamp_base_spec id b id' b' :
  stamp_base id b = (id', b') -> base_ids b' = seqZ id (id' - id) /\ id <= id' /\ same_shape b b'.
Proof.
  unfold stamp_base, base_ids, lists_packages, in_use.
  destruct (negb (ISZERO (base_path b)) && (0 <? num_pl_slots b)) eqn:El.
  - destruct (stamp_accels id (accel_list b)) as [k m] eqn:Es.
    destruct (stamp_accels_spec _ _ _ _ Es) as (Hids & Hle & Hp & _ & _).
    simpl. destruct (is_user_load b) eqn:Eu; intros [= <- <-]; simpl; rewrite El, ?Eu, Hids.
    + rewrite (seqZ_split id k (k + 1)), seqZ_one by lia. split; [done|]. split; [lia|by split].
    + rewrite app_nil_r. split; [done|]. split; [lia|by split].
  - simpl. destruct (is_user_load b) eqn:Eu; intros [= <- <-]; simpl; rewrite El, ?Eu; simpl.
    + rewrite seqZ_one. split; [done|]. split; [lia|by split].
    + split; [|split; [lia|by split]]. by rewrite seqZ_nil by lia.
Qed.

Lemma stamp_bases_spec id l :
  exists n, 0 <= n /\ all_ids (stamp_bases id l) = seqZ id n /\ Forall2 same_shape l (stamp_bases id l).
Proof.
  revert id. induction l as [|b l IH]; intros id; simpl.
  - exists 0. by rewrite seqZ_nil by lia.
  - destruct (stamp_base id b) as [id' b'] eqn:Eb.
    destruct (stamp_base_spec _ _ _ _ Eb) as (Hids & Hle & Hs).
    destruct (IH id') as (n & Hn & Hall & HF). exists (id' - id + n). split; [lia|]. split.
    + unfold all_ids in *. simpl. rewrite Hids, Hall. rewrite seqZ_app by lia. do 2 f_equal. lia.
    + by constructor.
Qed.

(** Stamping keeps the invariant. *)
Lemma assign_list_ids_wf d : wf d -> wf (assign_list_ids d).
Proof.
  intros Hwf. destruct (stamp_bases_spec 1 (base_designs d)) as (_ & _ & _ & HF).
  by apply (wf_same_shape (base_designs d)).
Qed.

Lemma assign_list_ids_lookup d i b :
  base_designs d !! i = Some b -> exists b', base_designs (assign_list_ids d) !! i = Some b' /\ same_shape b b'.
Proof.
  intros Hi. destruct (stamp_bases_spec 1 (base_designs d)) as (_ & _ & _ & HF).
  by apply (Forall2_lookup_l _ _ _ _ _ HF Hi).
Qed.

(** ** Looking an ID up *)

(** Entry [j] of base [b] (or, for [None], [b] itself) carries [id]. *)
Definition carries (b : basePLDesign) (o : option nat) (id : Z) : Prop :=
  match o with
  | Some j => lists_packages b = true /\
              exists a, accel_list b !! j = Some a /\ is_package a = true /\ a_list_id a = id
  | None => is_user_load b = true /\ list_id b = id
  end.

(** The handle reported with it: of a slot of that base with that name. *)
Definition reports (b : basePLDesign) (o : option nat) (h : Z) : Prop :=
  match o with
  | Some j => h = -1 \/ exists a k x, accel_list b !! j = Some a /\ slot_list b !! k = Some (Some x) /\
                                     s_name x = a_name a /\ slot_handle x = h
  | None => h = user_load_handle b
  end.

Lemma entry_readable b : entry_wf b -> slots b <> None -> readable b.
Proof.
  intros Hb Hs. right. destruct (slots b) as [l|] eqn:E; [|done]. exists l. split; [done|].
  by destruct (ew_slots b Hb l E).
Qed.

Section Find.
Context {W : Type} `{Env W} (F : fault -> Prop).
Implicit Types (s : sys W).

Lemma id_of_accel_wp id i j b s :
  bases s !! i = Some b -> entry_wf b -> (j < RP_SLOTS_MAX)%nat -> lists_packages b = true ->
  wp F (id_of_accel id i j)
     (fun r s' => s' = s /\
        match r with
        | Some res => res_base res = i /\ res_accel res = Some j /\ carries b (Some j) id /\
                      reports b (Some j) (res_slot_handle res)
        | None => ~ carries b (Some j) id
        end) s.
Proof.
  intros Hi Hb Hj Hl. unfold id_of_accel. apply wp_bind. eapply wp_getb; [done|].
  destruct (lookup_lt_is_Some_2 (accel_list b) j) as [a Ha]; [by rewrite (ew_accels b Hb)|].
  apply wp_bind. eapply wp_the_Some; [done|].
  destruct (is_package a && (a_list_id a =? id)) eqn:E.
  - apply andb_true_iff in E as [Ep Eid%Z.eqb_eq].
    assert (Hc : carries b (Some j) id) by (split; eauto).
    destruct (slots b) as [l|] eqn:El.
    + apply wp_bind. eapply wp_mono; [apply slot_by_name_wp; [done|apply entry_readable; congruence]|].
      intros h s' [-> Hh]. apply wp_ret. split; [done|]. split_and!; try done.
      destruct h as [h|]; [|by left]. destruct Hh as (k & x & Hx & Hn & <-). right. by exists a, k, x.
    + apply wp_bind, wp_ret, wp_ret. split; [done|]. split_and!; try done. by left.
  - apply wp_ret. split; [done|]. intros (_ & a' & Ha' & Hp & Hid). simplify_eq.
    by rewrite Hp, Z.eqb_refl in E.
Qed.

Lemma id_in_base_wp id i b s :
  bases s !! i = Some b -> entry_wf b ->
  wp F (id_in_base id i)
     (fun r s' => s' = s /\
        match r with
        | Some res => res_base res = i /\ carries b (res_accel res) id /\ reports b (res_accel res) (res_slot_handle res)
        | None => forall o, ~ carries b o id
        end) s.
Proof.
  intros Hi Hb. unfold id_in_base. apply wp_bind. eapply wp_getb; [done|].
  apply (wp_seq _ (fun r s' => s' = s /\
        match r with
        | Some res => res_base res = i /\ carries b (res_accel res) id /\ reports b (res_accel res) (res_slot_handle res)
        | None => forall j, ~ carries b (Some j) id
        end)).
  { destruct (lists_packages b) eqn:El.
    - eapply wp_mono; [apply (wp_for_ret_scan F _ (fun j r => match r with
        | Some res => res_base res = i /\ carries b (res_accel res) id /\ reports b (res_accel res) (res_slot_handle res)
        | None => ~ carries b (Some j) id end))|].
      + intros j Hj%elem_of_seq. eapply wp_mono; [apply (id_of_accel_wp id i j b); auto; lia|].
        intros [res|] s' [-> Hr]; [|done]. split; [done|]. destruct Hr as (-> & -> & ? & ?). done.
      + intros [res|] s' [-> Hr]; (split; [done|]).
        * destruct Hr as (j & _ & ?). done.
        * intros j Hc. assert (Hlt : (j < RP_SLOTS_MAX)%nat).
          { destruct Hc as (_ & a & Ha & _). apply lookup_lt_Some in Ha. by rewrite (ew_accels b Hb) in Ha. }
          by apply (Hr j); [apply elem_of_seq; lia|].
    - apply wp_ret. split; [done|]. intros j (Hc & _). congruence. }
  intros [res|] s' [-> Hr]; apply wp_ret; (split; [done|]); [done|].
  destruct (is_user_load b && (list_id b =? id)) eqn:E.
  - apply andb_true_iff in E as [Eu Eid%Z.eqb_eq]. done.
  - intros [j|]; [apply Hr|]. intros [Hu Hid]. by rewrite Hu, Hid, Z.eqb_refl in E.
Qed.

Lemma find_by_id_wp id s :
  wf (dm s) ->
  wp F (find_accel_by_list_id id)
     (fun r s' => s' = s /\
        match r with
        | Some res => exists b, bases s !! res_base res = Some b /\ carries b (res_accel res) id /\
                                reports b (res_accel res) (res_slot_handle res)
        | None => forall i b o, bases s !! i = Some b -> ~ carries b o id
        end) s.
Proof.
  intros Hwf. eapply wp_mono.
  - apply (wp_for_ret_scan F _ (fun i r => match r with
        | Some res => exists b, bases s !! res_base res = Some b /\ carries b (res_accel res) id /\
                                reports b (res_accel res) (res_slot_handle res)
        | None => forall b o, bases s !! i = Some b -> ~ carries b o id
        end)).
    intros i Hi%elem_of_seq. rewrite <- (wf_len _ _ _ _ Hwf) in Hi.
    destruct (lookup_lt_is_Some_2 (bases s) i ltac:(lia)) as [b Hb].
    eapply wp_mono; [apply (id_in_base_wp id i b); [done|by apply (wf_entry _ _ _ _ Hwf i)]|].
    intros [res|] s' [-> Hr]; (split; [done|]).
    + exists b. destruct Hr as (-> & ? & ?). done.
    + intros b' o Hb'. simplify_eq. apply Hr.
  - intros [res|] s' [-> Hr]; (split; [done|]).
    + destruct Hr as (i & _ & ?). done.
    + intros i b o Hb. apply (Hr i); [|done]. apply elem_of_seq. pose proof (lookup_lt_Some _ _ _ Hb) as Hlt.
      rewrite (wf_len _ _ _ _ Hwf) in Hlt. lia.
Qed.
End Find.
