(* ===== verification/Load.v ===== *)
(** * Loading an accelerator

    [load_accelerator_core()] of [src/daemon_helper.c], in the parts its
    comments name: the flat design, the PL base, the RPU base, the numbered RPU
    slot and the search for an empty slot.  The caller's [fpga_state] buffer is
    a value ([None] is a NULL pointer) of [sz] bytes; an operation returns the
    code's return value and the buffer. *)
From S2P Require Import Prelude CStr Env Model UserLoad Json Accel Rpu Pdi Slots.
Open Scope Z_scope.
Open Scope dfx_scope.

(** CLI over config over default. *)
Definition nonempty (o : option string) : option string :=
  match o with Some s => if ISZERO s then None else Some s | None => None end.
Definition resolve_cma (cli config : option string) : option string :=
  match nonempty cli with Some s => Some s | None => nonempty config end.

Definition set_cma (cma : option string) (a : acapd_accel) : acapd_accel :=
  match cma with Some c => a <| acma_path := trunc 256 c |> | None => a end.
(** [if (fpga_state) snprintf(fpga_state, sz, "%s", ..)]. *)
Definition put_state (fs : option string) (sz : Z) (st : string) : option string :=
  match fs with Some _ => Some (trunc (Z.to_nat sz) st) | None => None end.

Definition load_error : Z := - DFX_MGR_LOAD_ERROR.

(** The last entry of [accel_list] with that name. *)
Definition accel_in_base (b : basePLDesign) (name : string) : option accel_info :=
  last (List.filter (fun a => streq (a_name a) name) (accel_list b)).

Section Load.
Context {W : Type} `{Env W}.

Definition update_env (path : string) : M W unit :=
  let! d := look (readdir path) in
  match d with
  | None => ret tt
  | Some l =>
      for_each (fun e =>
        if name_is_xclbin (d_name e) then
          let cmd := trunc 512 ("echo " ++ String "034" ("firmware: " ++ path ++ "/" ++ d_name e) ++
                                String "034" (" > /etc/vart.conf")) in
          let! _ := act (system cmd) in ret tt
        else ret tt) l
  end.

(** ** The flat design *)

(** The programming step of a flat load. *)
Definition flat_program (i : nat) (accel_name : string) (cma : option string) (shell_path : string)
    (fs : option string) (sz : Z) (b : basePLDesign) (p : acapd_accel_pkg_hd) (use_user : bool) :
    M (sys W) (Z * acapd_accel * option string) :=
  if use_user then
    let! rf := env (user_load_from_dir (base_path b) accel_name 0 fs sz) in
    ret (rf.1, user_load_init_accel accel_zero p 0 (b_type b), rf.2)
  else
    let a := set_cma cma ((init_accel p) <| tmp_dir := trunc 512 (base_path b) |>
                                         <| atype := "XRT_FLAT"%string |>) in
    let! ra := in_hw (load_accel a (Some shell_path)) in
    if ra.1 <? 0 then ret (ra.1, ra.2, fs)
    else
      mod_base i (fun b => b <| fpga_cfg_id := sys_fpga_cfg_id ra.2 |>) ;;
      ret (ra.1, ra.2 <| rm_slot := 0 |>, put_state fs sz (sys_fpga_state ra.2)).

Definition load_flat (i : nat) (accel_name : string) (cma : option string) (shell_path : string)
    (slot : slot_info) (fs : option string) (sz : Z) : M (sys W) (Z * option string) :=
  alloc_base_slots i ;;
  let! ab := gp active_base in
  let! busy := match ab with
               | Some j => let! bj := get_base j in ret (0 <? active bj)
               | None => ret false
               end in
  if busy : bool then ret (- DFX_MGR_NO_EMPTY_SLOT_ERROR, fs)
  else
    let! b := get_base i in
    let p := Pkg ACAPD_ACCEL_PKG_TYPE_NONE (trunc 128 accel_name) (base_path b) in
    let! use_user := gp use_user_load_path in
    let! rafs := flat_program i accel_name cma shell_path fs sz b p use_user in
    let '(r, a, fs) := rafs in
    if r <? 0 then mod_base i (fun b => b <| active := 0 |>) ;; ret (load_error, fs)
    else
      modp (fun p => p <| active_base := Some i |>) ;;
      add_active (Some i) 1 ;;
      let! rv := assign_slot i slot a accel_name 0 in
      (if streq (b_type b) "XRT_FLAT" then env (update_env (ppath p)) else ret tt) ;;
      ret (rv, fs).

(** ** The base of a slotted design *)

(** [Some (r, fs)] leaves with an error; [None] goes on. *)
Definition leave_or_evict_pl (parent_path : string) : M (sys W) bool :=
  let! ab := gp active_base in
  match ab with
  | None => ret true
  | Some j =>
      let! bj := get_base j in
      if (active bj =? 0) && negb (streq (base_path bj) parent_path) then
        let! _ := in_hw (remove_base (fpga_cfg_id bj)) in
        mod_base j (fun b => b <| slots := None |>) ;;
        modp (fun p => p <| active_base := None |>) ;;
        ret true
      else ret (negb ((0 <? active bj) && negb (streq (base_path bj) parent_path)))
  end.

(** Programming the base bitstream itself: the result and the state buffer. *)
Definition program_base (i : nat) (cma : option string) (shell_path : string)
    (fs : option string) (sz : Z) : M (sys W) (Z * option string) :=
  let! b := get_base i in
  let p := Pkg ACAPD_ACCEL_PKG_TYPE_NONE (trunc 128 (b_name b)) (base_path b) in
  let! use_user := gp use_user_load_path in
  if use_user : bool then env (user_load_from_dir (base_path b) (b_name b) 0 fs sz)
  else
    let a := set_cma cma ((init_accel p) <| tmp_dir := trunc 512 (base_path b) |>
                                       <| atype := "PL_DFX"%string |>) in
    let! ra := in_hw (load_accel a (Some shell_path)) in
    if ra.1 <? 0 then ret (ra.1, fs)
    else
      mod_base i (fun b => b <| fpga_cfg_id := sys_fpga_cfg_id ra.2 |>) ;;
      ret (ra.1, put_state fs sz (sys_fpga_state ra.2)).

(** [false] with the buffer: the error return. *)
Definition setup_pl_base (i : nat) (parent_path : string) (cma : option string) (shell_path : string)
    (fs : option string) (sz : Z) : M (sys W) (bool * option string) :=
  let! go := leave_or_evict_pl parent_path in
  if negb go then ret (false, fs)
  else
    let! ab := gp active_base in
    match ab with
    | Some _ => ret (true, fs)
    | None =>
        let! b := get_base i in
        let! rf := if load_base_design b then program_base i cma shell_path fs sz else ret (0, fs) in
        if rf.1 <? 0 then mod_base i (fun b => b <| active := 0 |>) ;; ret (false, rf.2)
        else
          alloc_base_slots i ;;
          modp (fun p => p <| active_base := Some i |>) ;;
          ret (true, rf.2)
    end.

Definition setup_rpu_base (i : nat) (parent_path : string) : M (sys W) bool :=
  let! ab := gp active_rpu_base in
  let! go :=
    match ab with
    | None => ret true
    | Some j =>
        let! bj := get_base j in
        if (active bj =? 0) && negb (streq (base_path bj) parent_path) then
          let! _ := in_hw (remove_base (fpga_cfg_id bj)) in
          mod_base j (fun b => b <| slots := None |>) ;;
          modp (fun p => p <| active_rpu_base := None |>) ;;
          ret true
        else ret (negb ((0 <? active bj) && negb (streq (base_path bj) parent_path)))
    end in
  if negb go then ret false
  else
    let! ab := gp active_rpu_base in
    match ab with
    | Some _ => ret true
    | None => alloc_base_slots i ;; modp (fun p => p <| active_rpu_base := Some i |>) ;; ret true
    end.

(** ** RPU slots *)

Definition finish_rpu (i : nat) (slot : slot_info) (accel_name : string) (n : nat) : M (sys W) Z :=
  let! d := getd in
  let! rv := finalize_rpu_slot_setup i slot accel_zero accel_name n (rpu_fw_uptime_msec (config d)) in
  (if 0 <=? rv then let! rb := gp active_rpu_base in add_active rb 1 else ret tt) ;;
  ret rv.

Definition load_new_rpu (i : nat) (ai : accel_info) (slot : slot_info) (accel_name : string) : M (sys W) Z :=
  let target := rpu_slot_num ai in
  let! rv := validate_rpu_slot_availability i target in
  if rv <? 0 then ret rv
  else
    let! r := env (load_rpu (a_path ai) target (Some (trunc 133 (a_name ai ++ RPU_FIRMWARE_EXT)))) in
    if r <? 0 then ret load_error
    else finish_rpu i slot accel_name (Z.to_nat target).

(** ** The search for an empty slot *)

Definition slot_path (ai : accel_info) (k : nat) : string :=
  trunc 1024 (a_path ai ++ "/" ++ a_name ai ++ "_slot" ++ dec (Z.of_nat k)).

(** The accelerator programmed into slot [k], its return value, the buffer. *)
Definition program_slot (ai : accel_info) (accel_name path : string) (k : nat) (cma : option string)
    (shell_path : string) (fs : option string) (sz : Z) : M (sys W) (Z * acapd_accel * option string) :=
  let! name := sprintf_into 128 accel_name in
  let p := Pkg ACAPD_ACCEL_PKG_TYPE_NONE name path in
  let! use_user := gp use_user_load_path in
  if use_user : bool then
    let! rf := env (user_load_from_dir path accel_name 1 fs sz) in
    ret (rf.1, user_load_init_accel accel_zero p (Z.of_nat k) (accel_type ai), rf.2)
  else
    let! ty := sprintf_into 32 (accel_type ai) in
    let a := set_cma cma ((init_accel p) <| rm_slot := Z.of_nat k |> <| atype := ty |>
                                       <| tmp_dir := trunc 512 path |>) in
    let! ra := in_hw (load_accel a (Some shell_path)) in
    if ra.1 <? 0 then ret (ra.1, ra.2, fs)
    else ret (ra.1, ra.2, put_state fs sz (sys_fpga_state ra.2)).

(** One turn of the slot loop. *)
Definition try_slot (i : nat) (is_rpu_base : bool) (ai : accel_info) (slot : slot_info) (accel_name : string)
    (cma : option string) (shell_path : string) (fs : option string) (sz : Z) (k : nat) :
    M (sys W) (option (Z * option string)) :=
  let! s := get_slot i k in
  match s with
  | Some _ => ret None
  | None =>
      let path := slot_path ai k in
      let! there := env (look (exists_ path)) in
      if negb there then ret None
      else if is_rpu_base then
        let! r := env (load_rpu path (Z.of_nat k) None) in
        if r <? 0 then ret (Some (load_error, fs))
        else let! rv := finish_rpu i slot accel_name k in ret (Some (rv, fs))
      else if streq (accel_type ai) "XRT_AIE_DFX" then ret (Some (load_error, fs))
      else
        let! raf := program_slot ai accel_name path k cma shell_path fs sz in
        let '(r, a, fs) := raf in
        if r <? 0 then ret (Some (load_error, fs))
        else
          let! ab := gp active_base in
          add_active ab 1 ;;
          let! rv := assign_slot i slot a accel_name k in
          ret (Some (rv, fs))
  end.

Definition load_slotted (i : nat) (ai : accel_info) (slot : slot_info) (accel_name : string)
    (cma : option string) (shell_path : string) (fs : option string) (sz : Z) :
    M (sys W) (Z * option string) :=
  let! b := get_base i in
  let is_rpu_base := streq (b_type b) "RPU" in
  let! up := if streq (b_type b) "PL_DFX"
             then setup_pl_base i (a_parent_path ai) cma shell_path fs sz
             else let! go := setup_rpu_base i (a_parent_path ai) in ret (go, fs) in
  let '(go, fs) := up in
  if negb go then ret (load_error, fs)
  else if is_rpu_base && (0 <=? rpu_slot_num ai) then
    let! rv := load_new_rpu i ai slot accel_name in ret (rv, fs)
  else
    let! r := for_ret (try_slot i is_rpu_base ai slot accel_name cma shell_path fs sz) (seq 0 (num_slots b)) in
    ret (default (- DFX_MGR_NO_EMPTY_SLOT_ERROR, fs) r).

(** ** [load_accelerator_core()] *)

Definition load_accelerator_core (i : nat) (accel_name : string) (cma_path : option string)
    (fs : option string) (sz : Z) : M (sys W) (Z * option string) :=
  let! slot := new_slot in
  let! b := get_base i in
  let! d := getd in
  let shell_path := trunc 600 (base_path b ++ "/shell.json") in
  let cma := resolve_cma cma_path (Model.cma_path (config d)) in
  if is_base_externally_managed d && negb (streq (b_type b) RPU_TYPE_STR) then ret (load_error, fs)
  else if is_flat_type (b_type b) then load_flat i accel_name cma shell_path slot fs sz
  else
    match accel_in_base b accel_name with
    | None => ret (load_error, fs)
    | Some ai =>
        if streq (b_type b) "PL_DFX" || streq (b_type b) "RPU"
        then load_slotted i ai slot accel_name cma shell_path fs sz
        else ret (load_error, fs)
    end.
End Load.
