(* ===== verification/LoadSafe.v ===== *)
(** * Loading keeps the invariant

    Every path of [load_accelerator_core] keeps [wf], never follows a NULL
    pointer or leaves an array, and either takes exactly one handle for one
    slot named after the accelerator or leaves the handles alone. *)
From S2P Require Import Prelude CStr Env Model UserLoad Json Accel Rpu Pdi Slots Invariant ListIds TablesWp Load.
Open Scope Z_scope.
Open Scope dfx_scope.

(** Base [i] got a slot named [name], and [h] is the handle that was taken for
    it (-1: none was left). *)
Definition claims (d d' : daemon) (i : nat) (name : string) (h : Z) : Prop :=
  take_handle (available_slot_handle (platform d)) = (h, available_slot_handle (platform d')) /\
  exists b k x, base_designs d' !! i = Some b /\ slot_list b !! k = Some (Some x) /\
                s_name x = trunc ACCEL_NAME_MAX name /\ slot_handle x = h.

(** An error code: a small negative number. *)
Definition is_error (r : Z) : Prop := -1000 <= r < 0.
Definition refuses (d d' : daemon) (r : Z) : Prop :=
  is_error r /\ available_slot_handle (platform d') = available_slot_handle (platform d).

Definition load_post (d : daemon) (i : nat) (name : string) (r : Z) (d' : daemon) : Prop :=
  wf d' /\ (claims d d' i name r \/ refuses d d' r).

Section LoadSafe.
Context {W : Type} `{Env W}.
Implicit Types (s : sys W).

(** What a lookup that produced entry [i] guarantees. *)
Definition package_at (d : daemon) (i : nat) (b : basePLDesign) : Prop :=
  base_designs d !! i = Some b /\ package b.

Lemma active_pl_facts d i b :
  wf d -> active_base (platform d) = Some i -> base_designs d !! i = Some b -> package b ->
  is_pl_type (b_type b) = true /\ active b = Z.of_nat (occupied b) /\ exists l, slots b = Some l.
Proof.
  intros Hwf Ha Hi Hp. pose proof (wf_entry _ _ _ _ Hwf i b Hi) as Hb.
  destruct (wf_role _ _ _ _ Hwf i b Hi) as (HA & _).
  destruct (HA (proj2 (points_to_true _ _) Ha)) as [(Hu & _)|(_ & Ht & Hs & Hn & _)].
  - pose proof (package_not_user b Hb Hp). congruence.
  - split; [done|]. split; [done|]. destruct (slots b) as [l|]; [by exists l|done].
Qed.

Lemma active_rpu_facts d i b :
  wf d -> active_rpu_base (platform d) = Some i -> base_designs d !! i = Some b ->
  package b /\ b_type b = "RPU"%string /\ active b = Z.of_nat (occupied_valid b) /\ exists l, slots b = Some l.
Proof.
  intros Hwf Ha Hi. destruct (wf_role _ _ _ _ Hwf i b Hi) as (_ & HR & _).
  destruct (HR (proj2 (points_to_true _ _) Ha)) as (Hp & Ht & Hs & Hn).
  destruct (slots b) as [l|] eqn:E; [|done]. eauto.
Qed.

(** [active += 1] and [assign_slot()] on an empty slot of the active PL base. *)
Lemma claim_pl_wp {R} i b l k slot a name (K : Z -> M (sys W) R) Q s :
  wf (dm s) -> pl_base s = Some i -> bases s !! i = Some b -> package b ->
  slots b = Some l -> l !! k = Some None -> (k < num_slots b)%nat -> plain a -> pkg a <> None ->
  (is_flat_type (b_type b) = true -> occupied b = 0%nat) ->
  (forall h s', wf (dm s') -> claims (dm s) (dm s') i name h -> wp lib_fault (K h) Q s') ->
  wp lib_fault (add_active (Some i) 1 ;; let! h := assign_slot i slot a name k in K h) Q s.
Proof.
  intros Hwf Ha Hi Hp Hl Hk Hsc Hch Hpkg Hflat HK.
  destruct (active_pl_facts _ _ _ Hwf Ha Hi Hp) as (Hty & Hn & _).
  pose proof (occupied_bound b (wf_entry _ _ _ _ Hwf i b Hi)) as Hbound.
  pose proof (lookup_lt_Some _ _ _ Hi) as Hlt. pose proof (lookup_lt_Some _ _ _ Hk) as Hklt.
  apply wp_bind. eapply wp_add_active; [done|lia|].
  destruct (take_handle (table s)) as [h t'] eqn:Et.
  apply wp_bind. eapply wp_occupy.
  - simpl. by rewrite list_lookup_insert_eq.
  - done.
  - done.
  - exact Et.
  - simpl. rewrite list_insert_insert_eq.
    set (x := slot <| s_name := trunc ACCEL_NAME_MAX name |> <| s_accel := Some a |> <| is_aie := false |>
                   <| slot_handle := h |>).
    apply HK.
    + unfold wf in *. simpl in *. rewrite Ha in *.
      apply (wf_occupy_pl _ (table s) _ i b l k x h t'); auto. simpl. split; [done|].
      split; [intros Hr; by destruct (pl_type_not_rpu _ Hty)|]. eauto.
    + split; [done|]. simpl. eexists _, k, x. split; [by rewrite list_lookup_insert_eq|].
      unfold slot_list. simpl. by rewrite list_lookup_insert_eq.
Qed.

(** The common end of the two RPU paths. *)
Lemma finish_rpu_wp i b l k slot name Q s :
  wf (dm s) -> rpu_base s = Some i -> bases s !! i = Some b ->
  slots b = Some l -> l !! k = Some None -> (k < num_slots b)%nat ->
  (forall h s', wf (dm s') -> claims (dm s) (dm s') i name h -> Q h s') ->
  wp lib_fault (finish_rpu i slot name k) Q s.
Proof.
  intros Hwf Ha Hi Hl Hk Hsc HQ.
  destruct (active_rpu_facts _ _ _ Hwf Ha Hi) as (Hp & Hty & Hn & _).
  pose proof (wf_entry _ _ _ _ Hwf i b Hi) as Hb.
  pose proof (occupied_bound b Hb) as Hbound. pose proof (occupied_valid_le b) as Hov.
  pose proof (lookup_lt_Some _ _ _ Hi) as Hlt. pose proof (lookup_lt_Some _ _ _ Hk) as Hklt.
  assert (Hread : readable b) by (eapply active_readable; [exact Hwf|exact Hi|by right]).
  apply wp_bind, wp_getd, wp_bind. unfold finalize_rpu_slot_setup.
  apply wp_bind, wp_env; [by auto with tame|]. intros [] w.
  apply wp_bind. eapply wp_mono; [by eapply get_new_ctrl_wp|]. intros c s1 Hd. simpl in Hd.
  set (base_slot := match c with Some _ => _ | None => _ end).
  destruct (take_handle (table s)) as [h t'] eqn:Et.
  eapply wp_occupy; [by rewrite Hd|done|done|by rewrite Hd|].
  set (x := (base_slot <| rpu ::= fun r => r <| rpmsg_dev_list := Some [] |> |> <| s_accel := Some accel_zero |>)
              <| slot_handle := h |>).
  assert (Hok : slot_ok (b_type b) (Some x)).
  { split; [by subst x base_slot; destruct c|]. split; [by subst x base_slot; destruct c|].
    exists accel_zero. split; [done|]. split; [done|]. by rewrite Hty. }
  assert (Hwf' : wf_tables (<[i := put_slot b l k (Some x) (if 0 <=? h then active b + 1 else active b)]> (bases s))
                           t' (pl_base s) (Some i)).
  { apply (wf_occupy_rpu _ (table s)); auto. unfold wf in Hwf. by rewrite Ha in Hwf. }
  simpl.
  assert (Hname : s_name x = trunc ACCEL_NAME_MAX name) by (subst x base_slot; by destruct c).
  assert (Hclaim : forall b', slots b' = Some (<[k := Some x]> l) ->
    forall d', base_designs d' = <[i := b']> (bases s) -> available_slot_handle (platform d') = t' ->
    claims (dm s) d' i name h).
  { intros b' Hb' d' Hds Ht'. split; [by rewrite Ht'|]. rewrite Hds. exists b', k, x.
    split; [by rewrite list_lookup_insert_eq|]. unfold slot_list. rewrite Hb'. simpl.
    by rewrite list_lookup_insert_eq. }
  apply wp_bind. destruct (Z.leb_spec 0 h).
  - apply wp_bind, wp_gp. simpl. rewrite Hd, Ha.
    eapply wp_add_active; [simpl; by rewrite list_lookup_insert_eq|simpl; lia|].
    apply wp_ret. apply HQ.
    + unfold wf. simpl. rewrite Hd, Ha, list_insert_insert_eq. exact Hwf'.
    + eapply Hclaim; simpl; [|by rewrite list_insert_insert_eq|done]. done.
  - apply wp_ret, wp_ret. apply HQ.
    + unfold wf. simpl. rewrite Hd, Ha. destruct b. exact Hwf'.
    + apply (Hclaim (with_slots b (Some (<[k := Some x]> l)))); simpl; [done|by rewrite Hd|done].
Qed.

(** ** Setting up the base *)

Definition same_kind (b b' : basePLDesign) : Prop :=
  base_path b' = base_path b /\ b_type b' = b_type b /\ num_slots b' = num_slots b /\
  num_pl_slots b' = num_pl_slots b.

Lemma same_kind_trans a b c : same_kind a b -> same_kind b c -> same_kind a c.
Proof. intros (? & ? & ? & ?) (? & ? & ? & ?). split_and!; congruence. Qed.
Lemma shape_kind b b' : same_shape b b' -> same_kind b b'.
Proof. intros Hs. split_and!; [apply Hs|apply Hs|by apply shape_num|apply Hs]. Qed.
Lemma kind_package b b' : same_kind b b' -> package b -> package b'.
Proof. intros (Hp & _) ?. unfold package in *. by rewrite Hp. Qed.
Lemma with_slots_kind b l : same_kind b (with_slots b l).
Proof. done. Qed.
Lemma allocated_kind b : same_kind b (allocated b).
Proof. unfold allocated. by destruct (slots b). Qed.

(** The parent path an accelerator of base [b] can have. *)
Definition parent_of (b : basePLDesign) (parent : string) : Prop := parent = base_path b \/ parent = ""%string.

Lemma active_nonneg d i b :
  wf d -> base_designs d !! i = Some b -> 0 <= active b.
Proof.
  intros Hwf Hi. destruct (wf_role _ _ _ _ Hwf i b Hi) as (HA & HR & HI).
  destruct (points_to _ i); [destruct (HA eq_refl) as [(_ & _ & ->)|(_ & _ & _ & -> & _)]; lia|].
  destruct (points_to (active_rpu_base (platform d)) i); [destruct (HR eq_refl) as (_ & _ & _ & ->); lia|].
  destruct (HI eq_refl eq_refl) as [-> _]. lia.
Qed.

(** The base that stays active when the parent path is its own is the base
    being loaded. *)
Lemma parent_is_self d i j b c parent :
  wf d -> base_designs d !! i = Some b -> package b -> base_designs d !! j = Some c ->
  base_path c <> ""%string -> base_path c = parent -> parent_of b parent -> j = i.
Proof.
  intros Hwf Hi Hp Hj Hne He [Hpar|Hpar]; [|congruence]. symmetry.
  apply (wf_paths _ _ _ _ Hwf i j b c); [done|done|done|congruence].
Qed.

Lemma wf_active_path d j c :
  wf d -> base_designs d !! j = Some c -> active_base (platform d) = Some j \/ active_rpu_base (platform d) = Some j ->
  base_path c <> ""%string.
Proof.
  intros Hwf Hj Ho He. destruct (free_inactive _ _ _ _ _ _ Hwf Hj He). tauto.
Qed.

Lemma accel_ok cma a p :
  pkg a = Some p -> chnls a = None -> ip_dev a = [] -> ptype p = ACAPD_ACCEL_PKG_TYPE_NONE ->
  atype a <> "XRT_AIE_DFX"%string ->
  pkg (set_cma cma a) <> None /\ plain (set_cma cma a) /\ atype (set_cma cma a) <> "XRT_AIE_DFX"%string.
Proof.
  intros Hp Hc Hi Ht Hty. assert (plain a) by (split; [done|]; split; [done|]; intros k; rewrite Hp; by intros [= <-]).
  destruct cma; (split; [|split]); simpl; try done; congruence.
Qed.

(** [load_accel()] of such an accelerator. *)
Lemma load_plain_wp a sc Q s :
  pkg a <> None /\ plain a /\ atype a <> "XRT_AIE_DFX"%string ->
  (forall ra h, plain ra.2 -> pkg ra.2 <> None -> Q ra (Sys (dm s) h)) ->
  wp lib_fault (in_hw (load_accel a sc)) Q s.
Proof.
  intros (Hp & Ha & Hty) HQ. eapply wp_hw.
  - eapply wp_weaken; [apply shell_fault_lib|]. by apply load_accel_plain.
  - intros ra h [Hpk Hpl]. apply HQ; [done|congruence].
Qed.

Lemma remove_base_hw id Q s : (forall r h, Q r (Sys (dm s) h)) -> wp lib_fault (in_hw (remove_base id)) Q s.
Proof. intros HQ. apply wp_hw_tame; [by auto with tame|done]. Qed.

Lemma leave_or_evict_pl_wp i b parent s :
  wf (dm s) -> bases s !! i = Some b -> package b -> parent_of b parent ->
  (pl_base s = None -> partials (bases s) = 0%nat) ->
  wp lib_fault (leave_or_evict_pl parent)
     (fun go s' => wf (dm s') /\ table s' = table s /\
        (go = true ->
           (pl_base s' = Some i /\ bases s' = bases s) \/
           (pl_base s' = None /\ partials (bases s') = 0%nat /\
            exists b', bases s' !! i = Some b' /\ same_kind b b'))) s.
Proof.
  intros Hwf Hi Hp Hpar Hguard. apply wp_bind, wp_gp.
  destruct (pl_base s) as [j|] eqn:Ea.
  2: { apply wp_ret. split; [done|]. split; [done|]. intros _. right. split; [done|]. split; [auto|].
       by exists b. }
  assert (Hj : exists c, bases s !! j = Some c).
  { apply lookup_lt_is_Some_2. rewrite (wf_len _ _ _ _ Hwf). pose proof (wf_pl _ _ _ _ Hwf) as Hv.
    by rewrite Ea in Hv. }
  destruct Hj as [c Hj]. apply wp_bind. eapply wp_getb; [done|].
  pose proof (active_nonneg _ _ _ Hwf Hj) as Hnn.
  destruct ((active c =? 0) && negb (streq (base_path c) parent)) eqn:E1.
  - apply andb_true_iff in E1 as [E1%Z.eqb_eq E2].
    apply wp_bind, remove_base_hw. intros _ h. apply wp_bind. eapply wp_modb; [done|].
    apply wp_bind, wp_set_pl, wp_ret. unfold wf in *. simpl. rewrite Ea in Hwf.
    pose proof (wf_evict_pl _ _ _ _ _ Hwf Hj E1) as Hwf'.
    destruct (idle_pl _ _ _ _ _ Hwf Hj E1) as (_ & Hz & _).
    split; [exact Hwf'|]. split; [done|]. intros _. right. split; [done|]. split.
    + change (partials (<[j := with_slots c None]> (bases s)) = 0%nat).
      rewrite <- Hz. by apply (partials_same _ _ c).
    + destruct (decide (j = i)) as [->|Hne].
      * exists (with_slots c None). split; [rewrite list_lookup_insert_eq; [done|by apply lookup_lt_Some in Hi]|].
        by simplify_eq.
      * exists b. by rewrite list_lookup_insert_ne.
  - apply wp_ret. split; [done|]. split; [done|]. rewrite negb_true_iff, andb_false_iff. intros Hgo. left.
    assert (Hpath : base_path c = parent).
    { destruct (streqP (base_path c) parent); [done|]. simpl in *. rewrite andb_true_r in E1.
      apply Z.eqb_neq in E1. destruct Hgo as [Hgo|Hgo]; [apply Z.ltb_ge in Hgo; lia|done]. }
    split; [|done]. rewrite Ea. f_equal. eapply parent_is_self; eauto.
    eapply wf_active_path; eauto.
Qed.

(** Programming the base bitstream changes nothing but the recorded id. *)
Lemma program_base_wp i b cma sp fs sz Q s :
  bases s !! i = Some b ->
  (forall r b' h, same_shape b b' -> Q r (Sys (dm (set_bases (<[i := b']> (bases s)) s)) h)) ->
  wp lib_fault (program_base i cma sp fs sz) Q s.
Proof.
  intros Hi HQ. unfold program_base. apply wp_bind. eapply wp_getb; [done|].
  apply wp_bind, wp_gp. destruct (use_user_load_path _).
  - apply wp_env; [by auto with tame|]. intros r w.
    specialize (HQ r b ((machine s) <| hw_world := w |>) (same_shape_refl b)).
    rewrite list_insert_id in HQ by done. destruct s as [[] ?]. exact HQ.
  - apply wp_bind, load_plain_wp; [by eapply accel_ok|]. intros ra h _ _. destruct (ra.1 <? 0).
    + apply wp_ret. specialize (HQ (ra.1, fs) b h (same_shape_refl b)).
      rewrite list_insert_id in HQ by done. destruct s as [[] ?]. exact HQ.
    + apply wp_bind. eapply wp_modb; [done|]. apply wp_ret. by apply HQ.
Qed.

Lemma managed_guard d :
  is_base_externally_managed d = false -> active_base (platform d) = None -> partials (base_designs d) = 0%nat.
Proof. unfold is_base_externally_managed. intros Hm Ha. rewrite Ha in Hm. by apply managed_partials. Qed.

Lemma setup_pl_base_wp i b parent cma sp fs sz s :
  wf (dm s) -> bases s !! i = Some b -> package b -> b_type b = "PL_DFX"%string -> parent_of b parent ->
  (pl_base s = None -> partials (bases s) = 0%nat) ->
  wp lib_fault (setup_pl_base i parent cma sp fs sz)
     (fun r s' => wf (dm s') /\ table s' = table s /\
        (r.1 = true -> pl_base s' = Some i /\ exists b', bases s' !! i = Some b' /\ same_kind b b')) s.
Proof.
  intros Hwf Hi Hp Hty Hpar Hguard. apply wp_bind.
  eapply wp_mono; [by apply (leave_or_evict_pl_wp i b)|]. intros go s1 (Hwf1 & Ht1 & Hgo).
  destruct go; simpl; [|by apply wp_ret]. specialize (Hgo eq_refl).
  apply wp_bind, wp_gp. destruct Hgo as [[Ha1 Hds]|(Ha1 & Hz1 & b1 & Hi1 & Hk1)].
  { rewrite Ha1. apply wp_ret. split; [done|]. split; [done|]. intros _. split; [done|]. exists b. by rewrite Hds. }
  rewrite Ha1. apply wp_bind. eapply wp_getb; [done|].
  pose proof (kind_package _ _ Hk1 Hp) as Hp1.
  assert (Hty1 : b_type b1 = "PL_DFX"%string) by (destruct Hk1 as (_ & -> & _); done).
  assert (Hin : active b1 = 0 /\ occupied b1 = 0%nat).
  { eapply inactive_entry; [exact Hwf1|done|by rewrite Ha1|].
    eapply rpu_not_pl; [exact Hwf1|done|]. by rewrite Hty1. }
  apply (wp_seq _ (fun rf s2 => exists b2 h, same_shape b1 b2 /\ s2 = Sys (dm (set_bases (<[i := b2]> (bases s1)) s1)) h)).
  { destruct (load_base_design b1).
    - eapply program_base_wp; [done|]. intros r b2 h Hs. by exists b2, h.
    - apply wp_ret. exists b1, (machine s1). split; [done|]. rewrite list_insert_id by done. by destruct s1 as [[] ?]. }
  intros rf s2 (b2 & h & Hs2 & ->).
  pose proof (wf_touch _ _ _ _ i b1 b2 Hwf1 Hi1 Hs2) as Hwf2.
  pose proof (lookup_lt_Some _ _ _ Hi1) as Hlt.
  assert (Hi2 : <[i := b2]> (bases s1) !! i = Some b2) by (by rewrite list_lookup_insert_eq).
  destruct (rf.1 <? 0).
  - apply wp_bind. eapply wp_modb; [exact Hi2|]. apply wp_ret. simpl. rewrite list_insert_insert_eq.
    split; [|by split]. apply (wf_touch _ _ _ _ i b1); [exact Hwf1|done|].
    destruct Hs2. split; simpl; try done. by destruct Hin as [-> _].
  - apply wp_bind. eapply wp_alloc; [exact Hi2|]. apply wp_bind, wp_set_pl, wp_ret. simpl.
    pose proof (shape_kind _ _ Hs2) as Hk2. pose proof (kind_package _ _ Hk2 Hp1) as Hp2.
    pose proof (wf_allocated _ _ _ _ i b2 Hwf2 Hi2 Hp2) as Hwf3. rewrite Ha1 in Hwf3.
    split; [|split; [done|]].
    + unfold wf. simpl. eapply wf_activate_pl; [exact Hwf3| | | | |].
      * by rewrite list_lookup_insert_eq by (by rewrite length_insert).
      * rewrite (partials_same _ i b2); [|done|unfold allocated; by destruct (slots b2)].
        rewrite (partials_same _ i b1); [done|done|]. by apply shape_partial.
      * by apply (kind_package _ _ (allocated_kind b2)).
      * destruct (allocated_kind b2) as (_ & -> & _). destruct Hk2 as (_ & -> & _). by rewrite Hty1.
      * unfold allocated. by destruct (slots b2) eqn:Es; [rewrite Es|].
    + intros _. split; [done|]. exists (allocated b2).
      rewrite list_lookup_insert_eq by (by rewrite length_insert). split; [done|].
      eapply same_kind_trans; [exact Hk1|]. eapply same_kind_trans; [exact Hk2|]. apply allocated_kind.
Qed.

Lemma setup_rpu_base_wp i b parent s :
  wf (dm s) -> bases s !! i = Some b -> package b -> b_type b = "RPU"%string -> parent_of b parent ->
  wp lib_fault (setup_rpu_base i parent)
     (fun go s' => wf (dm s') /\ table s' = table s /\
        (go = true -> rpu_base s' = Some i /\ exists b', bases s' !! i = Some b' /\ same_kind b b')) s.
Proof.
  intros Hwf Hi Hp Hty Hpar. apply wp_bind, wp_gp.
  apply (wp_seq _ (fun go s1 => wf (dm s1) /\ table s1 = table s /\
        (go = true -> (rpu_base s1 = Some i /\ bases s1 = bases s) \/
                      (rpu_base s1 = None /\ exists b', bases s1 !! i = Some b' /\ same_kind b b')))).
  { destruct (rpu_base s) as [j|] eqn:Ea.
    2: { apply wp_ret. split; [done|]. split; [done|]. intros _. right. split; [done|]. by exists b. }
    assert (Hj : exists c, bases s !! j = Some c).
    { apply lookup_lt_is_Some_2. rewrite (wf_len _ _ _ _ Hwf). pose proof (wf_rpu _ _ _ _ Hwf) as Hv.
      by rewrite Ea in Hv. }
    destruct Hj as [c Hj]. apply wp_bind. eapply wp_getb; [done|].
    pose proof (active_nonneg _ _ _ Hwf Hj) as Hnn.
    destruct ((active c =? 0) && negb (streq (base_path c) parent)) eqn:E1.
    - apply andb_true_iff in E1 as [E1%Z.eqb_eq E2].
      apply wp_bind, remove_base_hw. intros _ h. apply wp_bind. eapply wp_modb; [done|].
      apply wp_bind, wp_set_rpu, wp_ret. unfold wf in *. simpl. rewrite Ea in Hwf.
      pose proof (wf_evict_rpu _ _ _ _ _ Hwf Hj E1) as Hwf'.
      split; [exact Hwf'|]. split; [done|]. intros _. right. split; [done|].
      destruct (decide (j = i)) as [->|Hne].
      + exists (with_slots c None). split; [rewrite list_lookup_insert_eq; [done|by apply lookup_lt_Some in Hi]|].
        by simplify_eq.
      + exists b. by rewrite list_lookup_insert_ne.
    - apply wp_ret. split; [done|]. split; [done|]. rewrite negb_true_iff, andb_false_iff. intros Hgo. left.
      assert (Hpath : base_path c = parent).
      { destruct (streqP (base_path c) parent); [done|]. simpl in *. rewrite andb_true_r in E1.
        apply Z.eqb_neq in E1. destruct Hgo as [Hgo|Hgo]; [apply Z.ltb_ge in Hgo; lia|done]. }
      split; [|done]. rewrite Ea. f_equal. eapply parent_is_self; eauto.
      eapply wf_active_path; eauto. }
  intros go s1 (Hwf1 & Ht1 & Hgo). destruct go; simpl; [|by apply wp_ret]. specialize (Hgo eq_refl).
  apply wp_bind, wp_gp. destruct Hgo as [[Ha1 Hds]|(Ha1 & b1 & Hi1 & Hk1)]; rewrite Ha1.
  { apply wp_ret. split; [done|]. split; [done|]. intros _. split; [done|]. exists b. by rewrite Hds. }
  pose proof (kind_package _ _ Hk1 Hp) as Hp1. pose proof (lookup_lt_Some _ _ _ Hi1) as Hlt.
  apply wp_bind. eapply wp_alloc; [done|]. apply wp_bind, wp_set_rpu, wp_ret. simpl.
  pose proof (wf_allocated _ _ _ _ i b1 Hwf1 Hi1 Hp1) as Hwf3. rewrite Ha1 in Hwf3.
  assert (Hi3 : <[i := allocated b1]> (bases s1) !! i = Some (allocated b1)) by (by rewrite list_lookup_insert_eq).
  split; [|split; [done|]].
  - unfold wf. simpl. eapply wf_activate_rpu; [exact Hwf3|exact Hi3| | |].
    + by apply (kind_package _ _ (allocated_kind b1)).
    + destruct (allocated_kind b1) as (_ & -> & _). by destruct Hk1 as (_ & -> & _).
    + unfold allocated. by destruct (slots b1) eqn:Es; [rewrite Es|].
  - intros _. split; [done|]. exists (allocated b1). split; [done|].
    eapply same_kind_trans; [exact Hk1|]. apply allocated_kind.
Qed.

(** ** The two searches for a slot *)

Lemma refuse d i name r : wf d -> is_error r -> load_post d i name r d.
Proof. intros Hwf Hr. split; [done|]. by right. Qed.

Lemma load_new_rpu_wp i b ai slot name s :
  wf (dm s) -> rpu_base s = Some i -> bases s !! i = Some b -> 0 <= rpu_slot_num ai ->
  wp lib_fault (load_new_rpu i ai slot name) (fun r s' => load_post (dm s) i name r (dm s')) s.
Proof.
  intros Hwf Ha Hi Ht. destruct (active_rpu_facts _ _ _ Hwf Ha Hi) as (Hp & Hty & Hn & l & Hl).
  pose proof (wf_entry _ _ _ _ Hwf i b Hi) as Hb. destruct (ew_slots b Hb l Hl) as (Hlen & _).
  apply (wp_seq _ (fun rv s' => s' = s /\ (is_error rv \/ (rv = 0 /\ l !! Z.to_nat (rpu_slot_num ai) = Some None /\ (Z.to_nat (rpu_slot_num ai) < num_slots b)%nat)))).
  { apply wp_bind. eapply wp_getb; [done|]. destruct (Z.leb_spec (num_pl_slots b) (rpu_slot_num ai)).
    { apply wp_ret. split; [done|]. left. unfold is_error, DFX_MGR_NO_EMPTY_SLOT_ERROR. lia. }
    assert (Hsc : (Z.to_nat (rpu_slot_num ai) < num_slots b)%nat) by (pose proof (ew_aie b Hb); unfold num_slots; lia).
    assert (Hk : (Z.to_nat (rpu_slot_num ai) < length l)%nat) by lia.
    destruct (lookup_lt_is_Some_2 l _ Hk) as [x Hx]. apply wp_bind. eapply wp_get_slot; [done..|].
    apply wp_ret. split; [done|]. destruct x; [left|by right]. unfold is_error, DFX_MGR_NO_EMPTY_SLOT_ERROR. lia. }
  intros rv s' [-> Hrv]. destruct (Z.ltb_spec rv 0); [apply wp_ret, refuse; [done|]; destruct Hrv as [?|[-> _]]; [done|lia]|].
  destruct Hrv as [Herr|(_ & Hk & Hsc)]; [unfold is_error in Herr; lia|].
  apply wp_bind, wp_env; [by auto with tame|]. intros r w.
  destruct (r <? 0); [by apply wp_ret, refuse|].
  eapply finish_rpu_wp; [exact Hwf|exact Ha|exact Hi|exact Hl|done|done|].
  intros h s' Hwf' Hc. split; [done|]. by left.
Qed.

Lemma user_plain p n ty : ptype p = ACAPD_ACCEL_PKG_TYPE_NONE -> plain (user_load_init_accel accel_zero p n ty).
Proof. intros Hp. split; [done|]. split; [done|]. by intros k [= <-]. Qed.

Lemma program_slot_wp ai name path k cma sp fs sz Q s :
  accel_type ai <> "XRT_AIE_DFX"%string ->
  (forall r a fs' h, plain a -> pkg a <> None -> Q (r, a, fs') (Sys (dm s) h)) ->
  wp lib_fault (program_slot ai name path k cma sp fs sz) Q s.
Proof.
  intros Hty HQ. unfold program_slot. apply wp_bind. eapply wp_mono.
  { instantiate (1 := fun _ s' => s' = s). unfold sprintf_into. by destruct (fits _ _). }
  intros nm ? ->. apply wp_bind, wp_gp. destruct (use_user_load_path _).
  - apply wp_bind, wp_env; [by auto with tame|]. intros rf w. apply wp_ret, HQ; [by apply user_plain|done].
  - apply (wp_seq _ (fun ty s' => s' = s /\ ty = accel_type ai)).
    { unfold sprintf_into. by destruct (fits _ _). }
    intros ty ? [-> ->]. apply wp_bind, load_plain_wp; [by eapply accel_ok|].
    intros ra h Hpl Hpk. destruct (ra.1 <? 0); by apply wp_ret, HQ.
Qed.

(** The active base of the kind that is being loaded. *)
Definition loading_base (rpu_kind : bool) (d : daemon) (i : nat) : Prop :=
  if rpu_kind then active_rpu_base (platform d) = Some i else active_base (platform d) = Some i.

Lemma try_slot_wp i b l rpu_kind ai slot name cma sp fs sz k s s0 :
  wf (dm s0) -> bases s0 !! i = Some b -> package b -> slots b = Some l -> (k < num_slots b)%nat ->
  loading_base rpu_kind (dm s0) i -> is_flat_type (b_type b) = false -> dm s = dm s0 ->
  wp lib_fault (try_slot i rpu_kind ai slot name cma sp fs sz k)
     (fun r s' => match r with
                  | None => dm s' = dm s0
                  | Some v => load_post (dm s0) i name v.1 (dm s')
                  end) s.
Proof.
  intros Hwf Hi Hp Hl Hsc Hbase Hnf Hd.
  destruct (ew_slots b (wf_entry _ _ _ _ Hwf i b Hi) l Hl) as (Hlen & _).
  destruct (lookup_lt_is_Some_2 l k ltac:(lia)) as [x Hx].
  rewrite <- Hd in *. apply wp_bind. eapply wp_get_slot; [done..|]. destruct x as [x|]; [by apply wp_ret|].
  apply wp_bind, wp_env; [by auto with tame|]. intros there w. destruct (negb there); [by apply wp_ret|].
  destruct rpu_kind; simpl in Hbase.
  - apply wp_bind, wp_env; [by auto with tame|]. intros r w2.
    destruct (r <? 0); [by apply wp_ret, refuse|].
    apply wp_bind. eapply finish_rpu_wp; [exact Hwf|exact Hbase|exact Hi|exact Hl|done|done|].
    intros h s' Hwf' Hc. apply wp_ret. split; [done|]. by left.
  - destruct (streq _ _) eqn:Eaie; [by apply wp_ret, refuse|]. apply streq_false in Eaie.
    apply wp_bind, program_slot_wp; [done|]. intros r a fs' h Hch Hpk. simpl.
    destruct (r <? 0); [by apply wp_ret, refuse|].
    apply wp_bind, wp_gp. simpl. rewrite Hbase.
    eapply claim_pl_wp; [exact Hwf|exact Hbase|exact Hi|done|exact Hl|done|done|done|done| |].
    { rewrite Hnf. done. }
    intros rv s' Hwf' Hc. apply wp_ret. split; [done|]. by left.
Qed.

(** ** The whole function *)

Lemma load_slotted_wp i b ai slot name cma sp fs sz s :
  wf (dm s) -> bases s !! i = Some b -> package b ->
  b_type b = "PL_DFX"%string \/ b_type b = "RPU"%string -> parent_of b (a_parent_path ai) ->
  (b_type b <> "RPU"%string -> pl_base s = None -> partials (bases s) = 0%nat) ->
  wp lib_fault (load_slotted i ai slot name cma sp fs sz)
     (fun (r : Z * option string) s' => load_post (dm s) i name r.1 (dm s')) s.
Proof.
  intros Hwf Hi Hp Hty Hpar Hguard. apply wp_bind. eapply wp_getb; [done|].
  set (rk := streq (b_type b) "RPU").
  apply (wp_seq _ (fun r s1 => wf (dm s1) /\ table s1 = table s /\
        (r.1 = true -> loading_base rk (dm s1) i /\ exists b', bases s1 !! i = Some b' /\ same_kind b b'))).
  { subst rk. destruct Hty as [Hty|Hty]; rewrite Hty; simpl.
    - eapply wp_mono; [apply (setup_pl_base_wp i b); auto; apply Hguard; by rewrite Hty|]. done.
    - apply wp_bind. eapply wp_mono; [by apply (setup_rpu_base_wp i b)|]. intros go s1 Hgo. by apply wp_ret. }
  intros [go fs1] s1 (Hwf1 & Ht1 & Hgo). simpl in Hgo.
  assert (Hpost : forall r d', load_post (dm s1) i name r d' -> load_post (dm s) i name r d').
  { intros r d' [Hwf' Hr]. split; [done|]. unfold claims, refuses in *. by rewrite Ht1 in Hr. }
  destruct go; simpl; [|apply wp_ret, Hpost; by apply refuse].
  destruct (Hgo eq_refl) as (Hbase & b1 & Hi1 & Hk1). pose proof (kind_package _ _ Hk1 Hp) as Hp1.
  assert (Hs1 : exists l, slots b1 = Some l).
  { unfold loading_base in Hbase. destruct rk.
    - by destruct (active_rpu_facts _ _ _ Hwf1 Hbase Hi1) as (_ & _ & _ & ?).
    - by destruct (active_pl_facts _ _ _ Hwf1 Hbase Hi1 Hp1) as (_ & _ & ?). }
  destruct Hs1 as [l Hl1].
  destruct (rk && (0 <=? rpu_slot_num ai)) eqn:Enew.
  - apply andb_true_iff in Enew as [Erk Esl%Z.leb_le]. unfold loading_base in Hbase. rewrite Erk in Hbase.
    apply wp_bind. eapply wp_mono; [by apply (load_new_rpu_wp i b1)|].
    intros rv s2 Hr. apply wp_ret, Hpost. exact Hr.
  - apply wp_bind. apply (wp_for_ret_leave _ _ (fun s2 => dm s2 = dm s1)); [|done|].
    + intros k s2 Hk%elem_of_seq Hd. pose proof (wf_entry _ _ _ _ Hwf1 i b1 Hi1) as Hb1.
      destruct (ew_slots b1 Hb1 l Hl1) as (Hlen & _). destruct Hk1 as (_ & Ht & Hn & _).
      assert (is_flat_type (b_type b1) = false) by (rewrite Ht; destruct Hty as [-> | ->]; done).
      eapply wp_mono; [apply (try_slot_wp i b1 l rk ai slot name cma sp fs1 sz k s2 s1); auto; lia|].
      intros [v|] s3 Hr; [|done]. apply wp_ret, Hpost. by destruct v.
    + intros s2 Hd. apply wp_ret, Hpost. rewrite Hd. by apply refuse.
Qed.

Lemma update_env_tame path : tame (update_env path).
Proof. unfold update_env. tame_go. Qed.

Lemma load_post_from d d1 i name r d' :
  available_slot_handle (platform d1) = available_slot_handle (platform d) ->
  load_post d1 i name r d' -> load_post d i name r d'.
Proof. intros Ht [Hwf' Hr]. split; [done|]. unfold claims, refuses in *. by rewrite Ht in Hr. Qed.

Lemma empty_slot b l k : occupied b = 0%nat -> slots b = Some l -> (k < length l)%nat -> l !! k = Some None.
Proof.
  intros Ho Hl Hk. destruct (lookup_lt_is_Some_2 l k Hk) as [x Hx]. rewrite Hx. f_equal.
  unfold occupied, slot_list in Ho. rewrite Hl in Ho. simpl in Ho. rewrite sum_zero in Ho.
  specialize (Ho x (list_elem_of_lookup_2 _ _ _ Hx)). by destruct x.
Qed.

(** Once a flat design may be loaded, the pointer to the old base can go. *)
Definition flat_ready (d : daemon) : Prop :=
  wf d /\ wf_tables (base_designs d) (available_slot_handle (platform d)) None (active_rpu_base (platform d)) /\
  partials (base_designs d) = 0%nat.

Lemma flat_busy_wp s :
  wf (dm s) -> (pl_base s = None -> partials (bases s) = 0%nat) ->
  wp lib_fault (match pl_base s with
                | Some j => let! bj := get_base j in ret (0 <? active bj)
                | None => ret false
                end) (fun busy s' => s' = s /\ (busy = false -> flat_ready (dm s))) s.
Proof.
  intros Hwf Hguard. destruct (active_base (platform (dm s))) as [j|] eqn:Ea.
  - assert (Hj : exists c, bases s !! j = Some c).
    { apply lookup_lt_is_Some_2. rewrite (wf_len _ _ _ _ Hwf). pose proof (wf_pl _ _ _ _ Hwf) as Hv.
      by rewrite Ea in Hv. }
    destruct Hj as [c Hj]. apply wp_bind. eapply wp_getb; [done|]. apply wp_ret. split; [done|].
    intros Hb%Z.ltb_ge. pose proof (active_nonneg _ _ _ Hwf Hj). assert (Hc : active c = 0) by lia.
    split; [done|]. unfold wf in Hwf. rewrite Ea in Hwf. split; [by eapply wf_drop_pl|].
    by destruct (idle_pl _ _ _ _ _ Hwf Hj Hc) as (_ & ? & _).
  - apply wp_ret. split; [done|]. intros _. split; [done|]. split; [|auto]. unfold wf in Hwf. by rewrite Ea in Hwf.
Qed.

Lemma flat_program_wp i b name cma sp fs sz p u s :
  bases s !! i = Some b -> ptype p = ACAPD_ACCEL_PKG_TYPE_NONE ->
  wp lib_fault (flat_program i name cma sp fs sz b p u)
     (fun raf s' => plain raf.1.2 /\ pkg raf.1.2 <> None /\
        exists b2 h, same_shape b b2 /\ s' = Sys (dm (set_bases (<[i := b2]> (bases s)) s)) h) s.
Proof.
  intros Hi Hpt.
  assert (Hsame : forall h : hw W, Sys (dm s) h = Sys (dm (set_bases (<[i := b]> (bases s)) s)) h).
  { intros h. rewrite list_insert_id by done. by destruct s as [[] ?]. }
  unfold flat_program. destruct u.
  - apply wp_bind, wp_env; [by auto with tame|]. intros rf w. apply wp_ret.
    split; [by apply user_plain|]. split; [done|]. exists b, ((machine s) <| hw_world := w |>). split; [done|apply Hsame].
  - apply wp_bind, load_plain_wp; [by eapply accel_ok|]. intros ra h Hpl Hpk.
    destruct (ra.1 <? 0).
    + apply wp_ret. split; [done|]. split; [done|]. exists b, h. split; [done|apply Hsame].
    + apply wp_bind. eapply wp_modb; [done|]. apply wp_ret. split; [done|]. split; [done|].
      eexists _, h. split; [|done]. done.
Qed.

(** What follows it. *)
Lemma flat_commit_wp i b (r : Z) a (fs : option string) p slot name s :
  flat_ready (dm s) -> bases s !! i = Some b -> package b -> is_flat_type (b_type b) = true -> slots b <> None ->
  plain a -> pkg a <> None ->
  wp lib_fault
    (if r <? 0 then mod_base i (fun b => b <| active := 0 |>) ;; ret (load_error, fs)
     else
       modp (fun p => p <| active_base := Some i |>) ;;
       add_active (Some i) 1 ;;
       let! rv := assign_slot i slot a name 0 in
       (if streq (b_type b) "XRT_FLAT" then env (update_env (ppath p)) else ret tt) ;;
       ret (rv, fs))
    (fun (r : Z * option string) s' => load_post (dm s) i name r.1 (dm s')) s.
Proof.
  intros (Hwf & Hwf0 & Hz) Hi Hp Hty Hs Hch Hpk.
  assert (Hpl : is_pl_type (b_type b) = true) by (unfold is_pl_type; by rewrite Hty).
  assert (Hin : active b = 0 /\ occupied b = 0%nat).
  { eapply inactive_entry; [exact Hwf0|exact Hi|done|].
    eapply rpu_not_pl; [exact Hwf0|exact Hi|by apply pl_type_not_rpu]. }
  destruct Hin as [Ha Ho]. destruct (r <? 0).
  - apply wp_bind. eapply wp_modb; [done|]. apply wp_ret. split; [|by right].
    apply (wf_touch _ _ _ _ i b); [exact Hwf|done|]. by split.
  - apply wp_bind, wp_set_pl. destruct (slots b) as [l|] eqn:El; [|done].
    pose proof (wf_entry _ _ _ _ Hwf i b Hi) as Hb. destruct (ew_slots b Hb l El) as (_ & [Hlen _] & _).
    assert (Hwf1 : wf (dm (set_pl (Some i) s))).
    { unfold wf. simpl. eapply wf_activate_pl; [exact Hwf0|exact Hi|done|done|done|by rewrite El]. }
    eapply claim_pl_wp; [exact Hwf1|done|exact Hi|done|exact El| | |done|done|done|].
    { eapply empty_slot; [done|exact El|]. unfold RP_SLOTS_MAX in Hlen. lia. }
    { pose proof (ew_flat b Hb Hty). pose proof (ew_aie b Hb). unfold num_slots. lia. }
    intros h s' Hwf' Hc. apply (wp_seq _ (fun _ s'' => dm s'' = dm s')).
    { destruct (streq _ _); [|by apply wp_ret]. apply wp_env; [apply update_env_tame|]. done. }
    intros [] s'' Hd. apply wp_ret. rewrite Hd. split; [done|]. left. exact Hc.
Qed.

Lemma load_flat_wp i b name cma sp slot fs sz s :
  wf (dm s) -> bases s !! i = Some b -> package b -> is_flat_type (b_type b) = true ->
  (pl_base s = None -> partials (bases s) = 0%nat) ->
  wp lib_fault (load_flat i name cma sp slot fs sz) (fun (r : Z * option string) s' => load_post (dm s) i name r.1 (dm s')) s.
Proof.
  intros Hwf Hi Hp Hty Hguard. pose proof (lookup_lt_Some _ _ _ Hi) as Hlt.
  apply wp_bind. eapply wp_alloc; [done|]. apply wp_bind, wp_gp.
  set (b1 := allocated b). set (s1 := set_bases (<[i := b1]> (bases s)) s).
  assert (Hwf1 : wf (dm s1)) by (by apply wf_allocated).
  assert (Hi1 : bases s1 !! i = Some b1) by (simpl; by rewrite list_lookup_insert_eq).
  pose proof (allocated_kind b) as Hkind. fold b1 in Hkind. pose proof (kind_package _ _ Hkind Hp) as Hp1.
  assert (Hty1 : is_flat_type (b_type b1) = true) by (destruct Hkind as (_ & -> & _); done).
  assert (Hsl1 : slots b1 <> None) by (unfold b1, allocated; by destruct (slots b) eqn:Es; [rewrite Es|]).
  assert (Hz1 : partials (bases s1) = partials (bases s)).
  { apply (partials_same _ i b); [done|]. subst b1. unfold allocated. by destruct (slots b). }
  apply wp_bind. eapply wp_mono; [apply (flat_busy_wp s1); [done|by rewrite Hz1]|].
  intros busy s' [-> Hready]. destruct busy; [apply wp_ret, (load_post_from _ (dm s1)); [done|by apply refuse]|].
  destruct (Hready eq_refl) as (_ & Hwf0 & Hz0).
  apply wp_bind. eapply wp_getb; [done|]. apply wp_bind, wp_gp, wp_bind.
  eapply wp_mono; [by apply (flat_program_wp i b1)|].
  intros [[r a] fs2] s2 (Hch & Hpk & b2 & h & Hs2 & ->). simpl in Hch, Hpk.
  pose proof (shape_kind _ _ Hs2) as Hk2. destruct Hk2 as (Hk2p & Hk2t & Hk2n & Hk2m). rewrite <- Hk2t.
  assert (Hlt1 : (i < length (bases s1))%nat) by (by apply lookup_lt_Some in Hi1).
  eapply wp_mono; [apply (flat_commit_wp i b2)|].
  - split; [by apply (wf_touch _ _ _ _ i b1)|]. split; [by apply (wf_touch _ _ _ _ i b1)|].
    simpl. rewrite <- Hz0. apply (partials_same _ i b1); [done|by apply shape_partial].
  - simpl. by rewrite list_lookup_insert_eq.
  - unfold package. by rewrite Hk2p.
  - by rewrite Hk2t.
  - by rewrite (ss_slots _ _ Hs2).
  - done.
  - done.
  - intros rv s3 Hr. apply (load_post_from _ _ i name rv.1 _ eq_refl Hr).
Qed.

(** [load_accelerator_core]: whatever entry is asked for. *)
Lemma load_core_wp i b name cma fs sz s :
  wf (dm s) -> bases s !! i = Some b -> in_use b = true ->
  wp lib_fault (load_accelerator_core i name cma fs sz) (fun (r : Z * option string) s' => load_post (dm s) i name r.1 (dm s')) s.
Proof.
  intros Hwf Hi Huse. pose proof (wf_entry _ _ _ _ Hwf i b Hi) as Hb.
  apply wp_bind, wp_env; [by auto with tame|]. intros slot w.
  apply wp_bind. eapply wp_getb; [done|]. apply wp_bind, wp_getd. simpl.
  destruct (is_base_externally_managed (dm s) && negb (streq (b_type b) RPU_TYPE_STR)) eqn:Em;
    [by apply wp_ret, refuse|].
  assert (Hguard : b_type b <> "RPU"%string -> pl_base s = None -> partials (bases s) = 0%nat).
  { intros Hne. apply managed_guard. apply andb_false_iff in Em as [Em|Em]; [done|].
    apply negb_false_iff, streq_true in Em. done. }
  assert (Hpack : b_type b <> ""%string -> package b).
  { intros Hne. split.
    - intros He. unfold in_use, ISZERO in Huse. rewrite He in Huse. done.
    - intros He. apply (ew_user b Hb), (ew_blank b Hb) in He as (? & _). done. }
  destruct (is_flat_type (b_type b)) eqn:Ef.
  { assert (Hne : b_type b <> "RPU"%string /\ b_type b <> ""%string) by (split; intros He; by rewrite He in Ef).
    destruct Hne. eapply wp_mono; [apply (load_flat_wp i b); auto|]. done. }
  destruct (accel_in_base b name) as [ai|] eqn:Ea; [|by apply wp_ret, refuse].
  destruct (streq (b_type b) "PL_DFX" || streq (b_type b) "RPU") eqn:Et; [|by apply wp_ret, refuse].
  assert (Hty : b_type b = "PL_DFX"%string \/ b_type b = "RPU"%string).
  { apply orb_true_iff in Et as [Et|Et]; apply streq_true in Et; auto. }
  assert (Hp : package b) by (apply Hpack; destruct Hty as [-> | ->]; done).
  assert (Hpar : parent_of b (a_parent_path ai)).
  { unfold accel_in_base in Ea. apply last_Some_elem_of in Ea.
    apply list_elem_of_In, filter_In in Ea as [Hin _]. apply list_elem_of_In in Hin.
    by apply (ew_parent b Hb ai). }
  eapply wp_mono; [apply (load_slotted_wp i b); auto|]. done.
Qed.
End LoadSafe.
