(* ===== verification/Unload.v ===== *)
(** * User loads and unloading

    [user_load()], [user_unload()] and the unload functions of
    [src/daemon_helper.c]. *)
From S2P Require Import Prelude CStr Env Model UserLoad Json Accel Rpu Pdi Slots ListIds Load.
Open Scope Z_scope.
Open Scope dfx_scope.

Definition USER_LOAD_PARTIAL : Z := 0x1.
Definition USER_LOAD_HAS_OVERLAY : Z := 0x2.
Definition USER_LOAD_FORCE : Z := 0x40.

Definition flag_set (flag bit : Z) : bool := negb (Z.land flag bit =? 0).

Section Unload.
Context {W : Type} `{Env W}.

(** ** User loads *)

(** [user_unload_overlay()]. *)
Definition user_unload_overlay (region : option string) : M (sys W) Z :=
  match region with
  | None => ret (-1)
  | Some region =>
      let ov_dir := overlay_dir region in
      let! dir := env (look (is_dir ov_dir)) in
      if dir : bool then
        env (remove_overlay_dir ov_dir) ;;
        let! d := getd in
        match find_index (fun b => streq (user_load_region b) region) (base_designs d) with
        | None => ret 0
        | Some i => mod_base i (fun b => b <| user_load_region := ""%string |>) ;; ret 0
        end
      else ret 0
  end.

(** The checks against the active base: [Some r] is the early return. *)
Definition user_load_admit (flag fpga_flags : Z) : M (sys W) (option Z) :=
  let! mgr := gp fpga_mgr in
  if negb (fpga_flags =? 0) && negb (bool_decide (mgr = FPGA_MGR_ZYNQMP))
  then ret (Some (- DFX_MGR_SECURE_PLATFORM_ERROR))
  else
    let! ab := gp active_base in
    match ab with
    | None => ret None
    | Some j =>
        let! b := get_base j in
        if is_user_load b && (negb (flag_set flag USER_LOAD_PARTIAL) || (Z.of_nat MAX_WATCH <=? active b))
        then ret (Some (-1))
        else if is_flat_type (b_type b) then ret (Some (-1))
        else if streq (b_type b) "PL_DFX" then
          if 0 <? active b then ret (Some (-1))
          else
            let! _ := in_hw (remove_base (fpga_cfg_id b)) in
            mod_base j (fun b => b <| slots := None |>) ;;
            modp (fun p => p <| active_base := None |>) ;;
            ret None
        else ret None
    end.

Definition user_load_checks (flag : Z) (binfile overlay region : option string) : M (sys W) bool :=
  let! ab := gp active_base in
  let! d := getd in
  let partial := flag_set flag USER_LOAD_PARTIAL in
  if partial && (if ab is Some _ then false else true) && negb (flag_set flag USER_LOAD_FORCE) then ret false
  else if negb partial && is_base_externally_managed d then ret false
  else if (if binfile is Some _ then false else true) then ret false
  else ret (negb (flag_set flag USER_LOAD_HAS_OVERLAY &&
                  ((if region is Some _ then false else true) || (if overlay is Some _ then false else true)))).

(** Adding the design to [base_designs]: its handle, or -1. *)
Definition user_load_register (flag : Z) (bin : string) (region : option string) : M (sys W) Z :=
  let! d := getd in
  match find_index (fun b => ISZERO (base_path b)) (base_designs d) with
  | None => let! _ := user_unload_overlay region in ret (-1)
  | Some i =>
      let partial := flag_set flag USER_LOAD_PARTIAL in
      mod_base i (fun b => b <| b_name := trunc ACCEL_NAME_MAX bin |> <| base_path := "User"%string |>
                             <| active := 0 |> <| is_user_load := true |> <| user_load_type := partial |>) ;;
      let! h := get_free_slot_handle in
      mod_base i (fun b => b <| user_load_handle := h |>
                             <| user_load_region := trunc 128 (default ""%string region) |>) ;;
      (if negb partial then modp (fun p => p <| active_base := Some i |>)
       else
         let! ab := gp active_base in
         match ab with Some _ => add_active ab 1 | None => ret tt end) ;;
      mark_pkg_listing_dirty ;;
      ret h
  end.

Definition user_load (flag fpga_flags : Z) (binfile overlay region aes_key : option string)
    (fs : option string) (sz : Z) : M (sys W) (Z * option string) :=
  let! early := user_load_admit flag fpga_flags in
  match early with
  | Some r => ret (r, fs)
  | None =>
      let! ok := user_load_checks flag binfile overlay region in
      if negb ok then ret (-1, fs)
      else
        let! bf := the NullArg binfile in
        let bin := path_basename bf in
        let! rf := env (user_load_bitstream binfile overlay region
                          (Z.lor (Z.land flag USER_LOAD_PARTIAL) fpga_flags) aes_key fs sz) in
        if rf.1 =? 0 then let! rv := user_load_register flag bin region in ret (rv, rf.2)
        else ret rf
  end.

Definition has_user_handle (h : Z) (b : basePLDesign) : bool := is_user_load b && (user_load_handle b =? h).

Definition user_unload (handle : Z) : M (sys W) Z :=
  let! d := getd in
  match find_index (has_user_handle handle) (base_designs d) with
  | None => ret (-1)
  | Some i =>
      let! b := get_base i in
      let! ab := gp active_base in
      let is_active := bool_decide (ab = Some i) in
      if negb (user_load_type b) && is_active && (0 <? active b) then ret (-1)
      else
        (if negb (ISZERO (user_load_region b))
         then let! _ := user_unload_overlay (Some (user_load_region b)) in ret tt else ret tt) ;;
        (if user_load_type b then
           match ab with Some _ => add_active ab (-1) | None => ret tt end
         else if is_active then modp (fun p => p <| active_base := None |>) else ret tt) ;;
        mod_base i (fun b => b <| b_name := ""%string |> <| base_path := ""%string |> <| is_user_load := false |>
                               <| user_load_handle := -1 |> <| list_id := 0 |>) ;;
        release_handle handle ;;
        mark_pkg_listing_dirty ;;
        ret 0
  end.

(** [user_readback()]: the return value and the response buffer. *)
Definition user_readback (type : Z) (name : option string) (resp : string) (resp_size : Z) :
    M (sys W) (Z * string) :=
  let! rr := match nonempty name with
             | None => ret (- DFX_INVALID_PARAM, resp)
             | Some n =>
                 let resp := trunc (Z.to_nat resp_size) (n ++ ".bin") in
                 let! r := env (fpga_readback type resp) in ret (r, resp)
             end in
  if negb (rr.1 =? 0)
  then ret (rr.1, trunc (Z.to_nat resp_size) ("-" ++ readback_error_str rr.1))
  else ret rr.

(** ** Unloading *)

Definition unload_accel_base : M (sys W) Z :=
  let! ab := gp active_base in
  match ab with
  | None => ret (-1)
  | Some i =>
      let! b := get_base i in
      if negb (streq (b_type b) "PL_DFX") then ret (-1)
      else if negb (active b =? 0) then ret (-1)
      else
        let! use_user := gp use_user_load_path in
        let! r := if use_user : bool then env (remove_overlay_dir (overlay_dir (b_name b))) ;; ret 0
                  else in_hw (remove_base (fpga_cfg_id b)) in
        (if r =? 0 then
           mod_base i (fun b => b <| slots := None |>) ;;
           modp (fun p => p <| active_base := None |>)
         else ret tt) ;;
        ret r
  end.

(** Unloading the firmware of slot [k] of the RPU base [i]. *)
Definition unload_rpu_slot (i k : nat) (slot_handle : Z) : M (sys W) Z :=
  let! s := get_slot i k in
  let! _ := the NullDeref s in
  let! r := env (remove_rpu (Z.of_nat k)) in
  release_handle slot_handle ;;
  set_slot i k None ;;
  let! rb := gp active_rpu_base in
  add_active rb (-1) ;;
  ret r.

(** Unloading slot [k] of the PL base [i]. *)
Definition unload_pl_slot (i k : nat) (slot_handle : Z) : M (sys W) Z :=
  let! s := get_slot i k in
  let! s := the NullDeref s in
  if is_aie s then
    set_slot i k None ;;
    let! ab := gp active_base in add_active ab (-1) ;; ret 0
  else
    let! a := the NullDeref (s_accel s) in
    let! p := the NullDeref (pkg a) in
    let! use_user := gp use_user_load_path in
    let! r := if use_user : bool then env (remove_overlay_dir (overlay_dir (pname p))) ;; ret 0
              else let! ra := in_hw (remove_accel a) in ret ra.1 in
    release_handle slot_handle ;;
    set_slot i k None ;;
    let! ab := gp active_base in
    add_active ab (-1) ;;
    let! b := get_base i in
    (if is_flat_type (b_type b) then modp (fun p => p <| active_base := None |>) else ret tt) ;;
    ret r.

(** A handle that is not a user load's. *)
Definition unload_slot_handle (slot_handle : Z) : M (sys W) Z :=
  let! pb := gp active_base in
  let! rb := gp active_rpu_base in
  if ((if pb is Some _ then false else true) && (if rb is Some _ then false else true)) || (slot_handle <? 0)
  then ret (-1)
  else
    let! rslot := match rb with
                  | Some i => let! k := find_slot_from_handle i slot_handle in
                              ret (match k with Some k => Some (i, k) | None => None end)
                  | None => ret None
                  end in
    match rslot with
    | Some (i, k) => unload_rpu_slot i k slot_handle
    | None =>
        match pb with
        | None => ret (-1)
        | Some i =>
            let! k := find_slot_from_handle i slot_handle in
            match k with Some k => unload_pl_slot i k slot_handle | None => ret (-1) end
        end
    end.

Definition unload_accelerator (slot_handle : Z) : M (sys W) Z :=
  if slot_handle =? -1 then unload_accel_base
  else
    let! d := getd in
    if existsb (has_user_handle slot_handle) (base_designs d) then user_unload slot_handle
    else unload_slot_handle slot_handle.

(** ** By list ID and by name *)

Definition load_accelerator_by_id (id : Z) (cma_path : option string) (fs : option string) (sz : Z) :
    M (sys W) (Z * option string) :=
  let! r := find_accel_by_list_id id in
  match r with
  | None => ret (- DFX_MGR_NO_PACKAGE_FOUND_ERROR, fs)
  | Some r =>
      match res_accel r with
      | None => ret (load_error, fs)
      | Some j =>
          let! b := get_base (res_base r) in
          let! a := the OutOfBounds (accel_list b !! j) in
          load_accelerator_core (res_base r) (a_name a) cma_path fs sz
      end
  end.

Definition unload_accelerator_by_id (id : Z) : M (sys W) Z :=
  if id =? 0 then unload_accel_base
  else
    let! r := find_accel_by_list_id id in
    match r with
    | None => ret (-1)
    | Some r => if res_slot_handle r <? 0 then ret (-1) else unload_accelerator (res_slot_handle r)
    end.

Definition unload_accelerator_by_name (name : string) : M (sys W) Z :=
  let! h := find_slot_handle_by_name name in
  if 0 <=? h then unload_accelerator h else ret (-1).
End Unload.
