(* ===== verification/UnloadSafe.v ===== *)
(** * Unloading and user loads keep the invariant *)
From S2P Require Import Prelude CStr Env Model UserLoad Json Accel Rpu Pdi Slots Invariant ListIds TablesWp.
From S2P Require Import ListIdFacts Load LoadSafe Unload.
Open Scope Z_scope.
Open Scope dfx_scope.

(** Handle [h], which was in use, is free again. *)
Definition frees (d d' : daemon) (h : Z) : Prop :=
  exists n, h = Z.of_nat n /\ marked (available_slot_handle (platform d)) n = 1%nat /\
            available_slot_handle (platform d') = <[n := 0]> (available_slot_handle (platform d)).

Definition unload_post (d : daemon) (h : Z) (r : Z) (d' : daemon) : Prop :=
  wf d' /\ (frees d d' h \/ (r = -1 /\ available_slot_handle (platform d') = available_slot_handle (platform d))).

Section UnloadSafe.
Context {W : Type} `{Env W}.
Implicit Types (s : sys W).

(** The effect of an unload on the table of handles, whatever it is asked. *)
Definition same_handles (d d' : daemon) : Prop :=
  available_slot_handle (platform d') = available_slot_handle (platform d).
Definition released (d d' : daemon) : Prop := wf d' /\ (same_handles d d' \/ exists h, frees d d' h).

Lemma unload_post_released d h r d' : unload_post d h r d' -> released d d'.
Proof. intros [Hwf [Hf|[_ Ht]]]; (split; [done|]); [right; by exists h|by left]. Qed.

Lemma same_tables_post s h (m : hw W) r :
  wf (dm s) -> r = -1 -> unload_post (dm s) h r (dm (Sys (dm s) m)).
Proof. intros Hwf ->. split; [done|]. by right. Qed.

Lemma base_at (ds : list basePLDesign) j : length ds = MAX_WATCH -> (j < MAX_WATCH)%nat -> exists c, ds !! j = Some c.
Proof. intros Hl Hj. apply lookup_lt_is_Some_2. by rewrite Hl. Qed.

Lemma active_base_at d j : wf d -> active_base (platform d) = Some j -> exists c, base_designs d !! j = Some c.
Proof.
  intros Hwf Ha. pose proof (wf_pl _ _ _ _ Hwf) as Hv. rewrite Ha in Hv.
  by apply base_at; [apply (wf_len _ _ _ _ Hwf)|].
Qed.
Lemma active_rpu_at d j : wf d -> active_rpu_base (platform d) = Some j -> exists c, base_designs d !! j = Some c.
Proof.
  intros Hwf Ha. pose proof (wf_rpu _ _ _ _ Hwf) as Hv. rewrite Ha in Hv.
  by apply base_at; [apply (wf_len _ _ _ _ Hwf)|].
Qed.

(** ** The base *)

Lemma tame_remove_overlay dir : tame (remove_overlay_dir (W := W) dir).
Proof. unfold remove_overlay_dir. tame_go. Qed.

Lemma unload_accel_base_wp s :
  wf (dm s) ->
  wp lib_fault unload_accel_base
     (fun r s' => wf (dm s') /\ table s' = table s /\ (r = 0 -> pl_base s' = None)) s.
Proof.
  intros Hwf. apply wp_bind, wp_gp. destruct (pl_base s) as [i|] eqn:Ea; [|by apply wp_ret].
  destruct (active_base_at _ _ Hwf Ea) as [b Hi]. apply wp_bind. eapply wp_getb; [done|].
  destruct (negb (streq (b_type b) "PL_DFX")); [by apply wp_ret|].
  destruct (Z.eqb_spec (active b) 0) as [Hact|]; simpl; [|by apply wp_ret].
  apply wp_bind, wp_gp. apply (wp_seq _ (fun _ s' => dm s' = dm s)).
  { destruct (use_user_load_path _).
    - apply wp_bind, wp_env; [apply tame_remove_overlay|]. intros [] w. by apply wp_ret.
    - by apply remove_base_hw. }
  intros r s' Hd. destruct (Z.eqb_spec r 0).
  - apply wp_bind, wp_bind. eapply wp_modb; [by rewrite Hd|]. apply wp_set_pl, wp_ret. simpl. rewrite Hd.
    unfold wf. simpl. unfold wf in Hwf. rewrite Ea in Hwf. split; [by apply wf_evict_pl|done].
  - apply wp_bind, wp_ret, wp_ret. rewrite Hd. done.
Qed.

(** ** Slots *)

Lemma release_facts s i b k x h :
  wf (dm s) -> bases s !! i = Some b -> slot_list b !! k = Some (Some x) -> slot_handle x = h -> 0 <= h ->
  exists n l, h = Z.of_nat n /\ slots b = Some l /\ l !! k = Some (Some x) /\ (n < length (table s))%nat /\
              marked (table s) n = 1%nat.
Proof.
  intros Hwf Hi Hx Hh H0. destruct (slot_list_lookup _ _ _ Hx) as (l & Hl & Hk).
  exists (Z.to_nat h), l. rewrite Z2Nat.id by done. split; [done|]. split; [done|]. split; [done|].
  destruct (occ_marked _ _ _ _ (Z.to_nat h) (wf_c _ _ _ _ Hwf) Hi) as (_ & Hm & Hlt).
  - eapply slot_occ_holds; [done|done|]. by rewrite Z2Nat.id.
  - split; [|done]. by rewrite (wf_table _ _ _ _ Hwf).
Qed.

Lemma unload_rpu_slot_wp i b k x h s :
  wf (dm s) -> rpu_base s = Some i -> bases s !! i = Some b ->
  slot_list b !! k = Some (Some x) -> slot_handle x = h -> 0 <= h ->
  wp lib_fault (unload_rpu_slot i k h) (fun r s' => wf (dm s') /\ frees (dm s) (dm s') h) s.
Proof.
  intros Hwf Ha Hi Hx Hh H0.
  destruct (release_facts s i b k x h Hwf Hi Hx Hh H0) as (n & l & -> & Hl & Hk & Hn & Hm).
  pose proof (lookup_lt_Some _ _ _ Hk) as Hklt. pose proof (lookup_lt_Some _ _ _ Hi) as Hilt.
  unfold wf in Hwf. rewrite Ha in Hwf. destruct (wf_vacate_rpu _ _ _ _ _ _ _ _ _ Hwf Hi Hl Hk Hh) as [Hwf' Hact].
  apply wp_bind. eapply wp_get_slot; [done|exact Hl|exact Hk|]. apply wp_bind, wp_ret.
  apply wp_bind, wp_env; [by auto with tame|]. intros r w.
  apply wp_bind. apply wp_release_handle; [done|]. apply wp_bind.
  eapply wp_set_slot; [exact Hi|exact Hl|done|]. apply wp_bind, wp_gp. simpl. rewrite Ha.
  apply wp_bind. eapply wp_add_active; [simpl; by rewrite list_lookup_insert_eq|simpl; lia|].
  apply wp_ret. simpl. rewrite list_insert_insert_eq. split.
  - unfold wf. simpl. rewrite Ha. exact Hwf'.
  - exists n. done.
Qed.

Lemma unload_pl_slot_wp i b k x h s :
  wf (dm s) -> pl_base s = Some i -> bases s !! i = Some b ->
  slot_list b !! k = Some (Some x) -> slot_handle x = h -> 0 <= h ->
  wp lib_fault (unload_pl_slot i k h) (fun r s' => wf (dm s') /\ frees (dm s) (dm s') h) s.
Proof.
  intros Hwf Ha Hi Hx Hh H0.
  destruct (release_facts s i b k x h Hwf Hi Hx Hh H0) as (n & l & -> & Hl & Hk & Hn & Hm).
  pose proof (lookup_lt_Some _ _ _ Hk) as Hklt. pose proof (lookup_lt_Some _ _ _ Hi) as Hilt.
  pose proof (wf_entry _ _ _ _ Hwf i b Hi) as Hb.
  destruct (ew_slots b Hb l Hl) as (_ & _ & Hok).
  destruct (Hok _ (list_elem_of_lookup_2 _ _ _ Hk)) as (Haie & _ & a & Hacc & Hch & Hpk).
  unfold wf in Hwf. rewrite Ha in Hwf.
  destruct (wf_vacate_pl _ _ _ _ _ _ _ _ _ Hwf Hi Hl Hk Hh) as (Hwf' & Hact & Hty & Hflat).
  specialize (Hpk (pl_type_not_rpu _ Hty)). destruct (pkg a) as [p|] eqn:Ep; [|done].
  apply wp_bind. eapply wp_get_slot; [done|exact Hl|exact Hk|]. apply wp_bind, wp_ret. rewrite Haie.
  apply wp_bind. eapply wp_the_Some; [exact Hacc|]. apply wp_bind. eapply wp_the_Some; [exact Ep|].
  apply wp_bind, wp_gp. apply (wp_seq _ (fun _ s' => dm s' = dm s)).
  { destruct (use_user_load_path _).
    - apply wp_bind, wp_env; [apply tame_remove_overlay|]. intros [] w. by apply wp_ret.
    - apply wp_bind. eapply wp_hw; [apply wp_safe, remove_accel_plain; [done|by rewrite Ep]|]. intros ra m _. by apply wp_ret. }
  intros r s1 Hd.
  apply wp_bind. apply wp_release_handle; [by rewrite Hd|]. apply wp_bind.
  eapply wp_set_slot; [simpl; by rewrite Hd|exact Hl|done|]. apply wp_bind, wp_gp. simpl. rewrite Hd, Ha.
  apply wp_bind. eapply wp_add_active; [simpl; by rewrite ?Hd, list_lookup_insert_eq|simpl; lia|].
  apply wp_bind. eapply wp_getb; [simpl; rewrite ?Hd; by rewrite list_insert_insert_eq, list_lookup_insert_eq|].
  simpl. apply (wp_seq _ (fun _ s' => wf (dm s') /\ frees (dm s) (dm s') (Z.of_nat n))).
  { destruct (is_flat_type (b_type b)) eqn:Ef.
    - apply wp_set_pl. split; [|exists n; simpl; by rewrite ?Hd].
      unfold wf. simpl. rewrite ?Hd, list_insert_insert_eq.
      eapply wf_drop_pl; [exact Hwf'|by rewrite list_lookup_insert_eq|]. simpl. rewrite (Hflat eq_refl). done.
    - apply wp_ret. split; [|exists n; simpl; by rewrite ?Hd].
      unfold wf. simpl. rewrite ?Hd, Ha, list_insert_insert_eq. exact Hwf'. }
  intros [] s2 Hpost. by apply wp_ret.
Qed.

Lemma unload_slot_handle_wp h s :
  wf (dm s) ->
  wp lib_fault (unload_slot_handle h) (fun r s' => unload_post (dm s) h r (dm s')) s.
Proof.
  intros Hwf. apply wp_bind, wp_gp, wp_bind, wp_gp.
  destruct (_ || (h <? 0)) eqn:E; [apply wp_ret; split; [done|by right]|].
  apply orb_false_iff in E as [_ H0%Z.ltb_ge].
  apply (wp_seq _ (fun r s' => s' = s /\ match r with
           | Some (i, k) => rpu_base s = Some i /\ exists b x, bases s !! i = Some b /\
                              slot_list b !! k = Some (Some x) /\ slot_handle x = h
           | None => True end)).
  { destruct (rpu_base s) as [i|] eqn:Er; [|by apply wp_ret].
    destruct (active_rpu_at _ _ Hwf Er) as [b Hi]. apply wp_bind. eapply wp_mono.
    - apply find_slot_wp; [exact Hi|]. eapply active_readable; [exact Hwf|exact Hi|by right].
    - intros [k|] s' [-> Hk]; apply wp_ret; (split; [done|]); [|done].
      destruct Hk as (x & Hx & Hh). split; [done|]. by exists b, x. }
  intros [[i k]|] s' [-> Hr].
  - destruct Hr as (Er & b & x & Hi & Hx & Hh).
    eapply wp_mono; [by apply (unload_rpu_slot_wp i b k x)|]. intros r s' [Hwf' Hf]. split; [done|by left].
  - destruct (pl_base s) as [i|] eqn:Ea; [|apply wp_ret; split; [done|by right]].
    destruct (active_base_at _ _ Hwf Ea) as [b Hi]. apply wp_bind. eapply wp_mono.
    + apply find_slot_wp; [exact Hi|]. eapply active_readable; [exact Hwf|exact Hi|by left].
    + intros [k|] s' [-> Hk]; [|apply wp_ret; split; [done|by right]].
      destruct Hk as (x & Hx & Hh). eapply wp_mono; [by apply (unload_pl_slot_wp i b k x)|].
      intros r s' [Hwf' Hf]. split; [done|by left].
Qed.

(** ** User loads *)

(** Entries changed at most in fields the invariant does not read; every other
    table is the same. *)
Definition reshaped (d d' : daemon) : Prop :=
  Forall2 same_shape (base_designs d) (base_designs d') /\ platform d' = platform d.

Lemma reshaped_refl d d' : base_designs d' = base_designs d -> platform d' = platform d -> reshaped d d'.
Proof.
  intros Hb Hp. split; [|done]. rewrite Hb. generalize (base_designs d). intros l.
  induction l; constructor; [apply same_shape_refl|done].
Qed.

Lemma reshaped_touch d d' i b b' :
  base_designs d !! i = Some b -> same_shape b b' -> base_designs d' = <[i := b']> (base_designs d) ->
  platform d' = platform d -> reshaped d d'.
Proof.
  intros Hi Hs Hb Hp. split; [|done]. rewrite Hb.
  apply Forall2_same_length_lookup_2; [by rewrite length_insert|].
  intros k x y Hx Hy. destruct (decide (k = i)) as [->|Hne].
  - rewrite list_lookup_insert_eq in Hy by (by apply lookup_lt_Some in Hi). by simplify_eq.
  - rewrite list_lookup_insert_ne in Hy by done. simplify_eq. apply same_shape_refl.
Qed.

Lemma reshaped_wf d d' : wf d -> reshaped d d' -> wf d'.
Proof. intros Hwf [HF Hp]. unfold wf. rewrite Hp. by eapply wf_same_shape. Qed.

Lemma reshaped_at d d' i b :
  reshaped d d' -> base_designs d !! i = Some b -> exists b', base_designs d' !! i = Some b' /\ same_shape b b'.
Proof. intros [HF _] Hi. by apply (Forall2_lookup_l _ _ _ _ _ HF Hi). Qed.

Lemma user_unload_overlay_wp region s :
  wp lib_fault (user_unload_overlay region) (fun _ s' => reshaped (dm s) (dm s')) s.
Proof.
  unfold user_unload_overlay. destruct region as [region|]; [|by apply wp_ret, reshaped_refl].
  apply wp_bind, wp_env; [by auto with tame|]. intros dir w. destruct dir; [|by apply wp_ret, reshaped_refl].
  apply wp_bind, wp_env; [apply tame_remove_overlay|]. intros [] w'. apply wp_bind, wp_getd.
  destruct (find_index _ _) as [i|] eqn:Ei; [|by apply wp_ret, reshaped_refl].
  apply find_index_lookup in Ei as (b & Hb & _). apply wp_bind. eapply wp_modb; [exact Hb|].
  apply wp_ret. eapply reshaped_touch; [exact Hb| |reflexivity..]. by split.
Qed.

(** Marking the listing dirty stamps the entries. *)
Lemma mark_dirty_wp Q s :
  (forall s', reshaped (dm s) (dm s') -> base_designs (dm s') = stamp_bases 1 (bases s) -> Q tt s') ->
  wp lib_fault mark_pkg_listing_dirty Q s.
Proof.
  intros HQ. apply wp_bind, wp_modd, wp_modd, HQ; [|done].
  destruct (stamp_bases_spec 1 (bases s)) as (_ & _ & _ & HF). done.
Qed.

Lemma user_entry_facts d h i :
  wf d -> h <> -1 -> find_index (has_user_handle h) (base_designs d) = Some i ->
  exists b n, base_designs d !! i = Some b /\ is_user_load b = true /\ user_load_handle b = Z.of_nat n /\
              h = Z.of_nat n /\ marked (available_slot_handle (platform d)) n = 1%nat.
Proof.
  intros Hwf Hne Hf. apply find_index_lookup in Hf as (b & Hb & Hh).
  apply andb_true_iff in Hh as [Hu Hh%Z.eqb_eq]. pose proof (wf_entry _ _ _ _ Hwf i b Hb) as He.
  pose proof (ew_handle b He Hu). exists b, (Z.to_nat h). rewrite Z2Nat.id by lia.
  split_and!; try done. destruct (occ_marked _ _ _ _ (Z.to_nat h) (wf_c _ _ _ _ Hwf) Hb) as (_ & Hm & _); [|done].
  apply user_occ_handle; [done..|]. rewrite Z2Nat.id; lia.
Qed.

(** The bookkeeping of [user_unload()]: the counter or the pointer of the active
    base, the entry, the handle. *)
Lemma user_unload_commit i b n s :
  wf (dm s) -> bases s !! i = Some b -> is_user_load b = true -> user_load_handle b = Z.of_nat n ->
  (user_load_type b = false -> active b = 0) ->
  wp lib_fault
    ((if user_load_type b then
        match pl_base s with Some _ => add_active (pl_base s) (-1) | None => ret tt end
      else if bool_decide (pl_base s = Some i) then modp (fun p => p <| active_base := None |>) else ret tt) ;;
     mod_base i cleared ;;
     release_handle (Z.of_nat n) ;;
     mark_pkg_listing_dirty ;;
     ret 0)
    (fun r s' => r = 0 /\ wf (dm s') /\ table s' = <[n := 0]> (table s)) s.
Proof.
  intros Hwf Hi Hu Hh Hfull.
  destruct (occ_marked _ _ _ _ n (wf_c _ _ _ _ Hwf) Hi) as (_ & _ & Hlt).
  { by apply user_occ_handle. }
  rewrite <- (wf_table _ _ _ _ Hwf) in Hlt.
  assert (Hend : forall s1 b1, bases s1 !! i = Some b1 -> table s1 = table s ->
    wf_tables (<[i := cleared b1]> (bases s1)) (<[n := 0]> (table s)) (pl_base s1) (rpu_base s1) ->
    wp lib_fault (mod_base i cleared ;; release_handle (Z.of_nat n) ;; mark_pkg_listing_dirty ;; ret 0)
      (fun r s' => r = 0 /\ wf (dm s') /\ table s' = <[n := 0]> (table s)) s1).
  { intros s1 b1 Hi1 Ht Hwf1. apply wp_bind. eapply wp_modb; [done|].
    apply wp_bind, wp_release_handle; [simpl; by rewrite Ht|]. apply wp_bind, mark_dirty_wp.
    intros s2 Hs _. apply wp_ret. simpl in Hs. split; [done|]. split.
    - eapply reshaped_wf; [|exact Hs]. unfold wf. simpl. by rewrite Ht.
    - destruct Hs as [_ ->]. simpl. by rewrite Ht. }
  destruct (user_load_type b) eqn:Ety.
  - destruct (pl_base s) as [j|] eqn:Ea.
    + destruct (active_base_at _ _ Hwf Ea) as [c Hj]. unfold wf in Hwf. rewrite Ea in Hwf.
      destruct (wf_remove_partial _ _ _ _ _ _ Hi Hu Hh _ _ Hwf Ety Hj) as (Hne & Hr & _ & Hwf').
      apply wp_bind. eapply wp_add_active; [done|lia|]. eapply Hend; [|done|].
      * simpl. by rewrite list_lookup_insert_ne.
      * simpl. rewrite Ea. exact Hwf'.
    + apply wp_bind, wp_ret. apply (Hend s b Hi eq_refl). unfold wf in Hwf. rewrite Ea in *.
      by apply wf_remove_partial_forced.
  - pose proof (wf_remove_full _ _ _ _ _ _ Hi Hu Hh _ Hwf Ety (Hfull eq_refl)) as Hwf'.
    unfold points_to in Hwf'. apply wp_bind. destruct (bool_decide _) eqn:Ea.
    + apply wp_set_pl, (Hend (set_pl None s) b Hi eq_refl). exact Hwf'.
    + apply wp_ret, (Hend s b Hi eq_refl). exact Hwf'.
Qed.

(** A full load is busy while partial loads sit on it. *)
Definition unload_busy (d : daemon) (i : nat) (b : basePLDesign) : bool :=
  negb (user_load_type b) && bool_decide (active_base (platform d) = Some i) && (0 <? active b).

(** [user_unload()] on every branch. *)
Lemma user_unload_wp h s :
  wf (dm s) -> h <> -1 ->
  wp lib_fault (user_unload h)
     (fun r s' => wf (dm s') /\
        match find_index (has_user_handle h) (bases s) with
        | None => r = -1 /\ same_handles (dm s) (dm s')
        | Some i => exists b, bases s !! i = Some b /\
                    if unload_busy (dm s) i b then r = -1 /\ same_handles (dm s) (dm s')
                    else r = 0 /\ frees (dm s) (dm s') h
        end) s.
Proof.
  intros Hwf Hne. apply wp_bind, wp_getd. destruct (find_index _ _) as [i|] eqn:Ef; [|by apply wp_ret].
  destruct (user_entry_facts _ _ _ Hwf Hne Ef) as (b & n & Hi & Hu & Hh & -> & Hm).
  apply wp_bind. eapply wp_getb; [done|]. apply wp_bind, wp_gp.
  cbv zeta. destruct (_ && (0 <? active b)) eqn:Eb.
  { apply wp_ret. split; [done|]. exists b. split; [exact Hi|]. unfold unload_busy. by rewrite Eb. }
  assert (Hfull : user_load_type b = false -> active b = 0).
  { intros Ety. rewrite Ety in Eb. simpl in Eb. apply andb_false_iff in Eb as [Eb|Eb%Z.ltb_ge].
    - apply bool_decide_eq_false in Eb. destruct (inactive_entry _ _ _ _ _ _ Hwf Hi Eb); [|done].
      apply points_to_false. eapply user_not_rpu; [exact Hi|exact Hu|exact Hwf].
    - destruct (decide (pl_base s = Some i)) as [E|E].
      + destruct (wf_role _ _ _ _ Hwf i b Hi) as (HA & _).
        destruct (HA (proj2 (points_to_true _ _) E)) as [(_ & _ & ?)|(_ & _ & _ & ? & _)]; lia.
      + destruct (inactive_entry _ _ _ _ _ _ Hwf Hi E); [|done].
        apply points_to_false. eapply user_not_rpu; [exact Hi|exact Hu|exact Hwf]. }
  apply (wp_seq _ (fun _ s' => reshaped (dm s) (dm s'))).
  { destruct (negb (ISZERO (user_load_region b))); [|by apply wp_ret, reshaped_refl].
    apply wp_bind. eapply wp_mono; [apply user_unload_overlay_wp|]. intros ov s1 Hs. by apply wp_ret. }
  intros [] s1 Hs. destruct (reshaped_at _ _ _ _ Hs Hi) as (b1 & Hi1 & Hsh).
  pose proof (reshaped_wf _ _ Hwf Hs) as Hwf1. destruct Hs as [_ Hp].
  rewrite <- (ss_utype _ _ Hsh), <- Hp. eapply wp_mono.
  - apply (user_unload_commit i b1 n s1 Hwf1 Hi1).
    + by rewrite (ss_user _ _ Hsh).
    + by rewrite (ss_handle _ _ Hsh).
    + rewrite (ss_utype _ _ Hsh), (ss_active _ _ Hsh). exact Hfull.
  - intros r s2 (Hr & Hwf2 & Ht). split; [done|]. exists b. split; [exact Hi|]. unfold unload_busy. rewrite Eb.
    split; [done|]. exists n. by rewrite Ht, Hp.
Qed.

Lemma user_unload_post h s :
  wf (dm s) -> h <> -1 ->
  wp lib_fault (user_unload h) (fun r s' => unload_post (dm s) h r (dm s')) s.
Proof.
  intros Hwf Hne. eapply wp_mono; [by apply user_unload_wp|]. intros r s' [Hwf' Hr]. split; [done|].
  destruct (find_index _ _) as [i|]; [|by right]. destruct Hr as (b & _ & Hr).
  destruct (unload_busy _ _ _); [by right|left]. apply Hr.
Qed.
End UnloadSafe.
