(* ===== verification/UserSafe.v ===== *)
(** * User loads keep the invariant

    [user_load()], and the entry points that resolve a handle, an ID or a name
    first ([unload_accelerator()] and its variants, [load_accelerator_by_id()]). *)
From S2P Require Import Prelude CStr Env Model UserLoad Json Accel Rpu Pdi Slots Invariant ListIds TablesWp.
From S2P Require Import ListIdFacts Load LoadSafe Unload UnloadSafe.
Open Scope Z_scope.
Open Scope dfx_scope.

(** What the checks of [user_load()] leave: no active base, and then no partial
    load on it unless this one is partial, or a user-loaded base below a
    partial load. *)
Definition admitted (partial : bool) (d : daemon) : Prop :=
  wf d /\
  match active_base (platform d) with
  | None => partial = false -> partials (base_designs d) = 0%nat
  | Some j => partial = true /\ exists c, base_designs d !! j = Some c /\ is_user_load c = true
  end.

(** A user load that returns [h]: the design is registered under [h], the
    handle taken for it (-1: none was left), or the handles are as before. *)
Definition user_load_post (d : daemon) (r : Z) (d' : daemon) : Prop :=
  wf d' /\
  ((take_handle (available_slot_handle (platform d)) = (r, available_slot_handle (platform d')) /\
    exists i b, base_designs d' !! i = Some b /\ is_user_load b = true /\ user_load_handle b = r /\
                (user_load_type b = false -> active b = 0)) \/
   (r < 0 /\ available_slot_handle (platform d') = available_slot_handle (platform d))).

Section UserSafe.
Context {W : Type} `{Env W}.
Implicit Types (s : sys W).

Lemma user_load_admit_wp flag ff s :
  wf (dm s) ->
  wp lib_fault (user_load_admit flag ff)
     (fun r s' => wf (dm s') /\ table s' = table s /\
        match r with
        | Some r => r < 0
        | None => match pl_base s' with
                  | None => True
                  | Some j => flag_set flag USER_LOAD_PARTIAL = true /\
                              exists c, bases s' !! j = Some c /\ is_user_load c = true
                  end
        end) s.
Proof.
  intros Hwf. apply wp_bind, wp_gp. destruct (negb (ff =? 0) && _); [by apply wp_ret|].
  apply wp_bind, wp_gp. destruct (pl_base s) as [j|] eqn:Ea; [|apply wp_ret; by rewrite Ea].
  destruct (active_base_at _ _ Hwf Ea) as [b Hj]. apply wp_bind. eapply wp_getb; [done|].
  destruct (is_user_load b && _) eqn:Eu; [by apply wp_ret|].
  destruct (is_flat_type (b_type b)) eqn:Ef; [by apply wp_ret|].
  destruct (streq (b_type b) "PL_DFX") eqn:Et.
  - destruct (Z.ltb_spec 0 (active b)); [by apply wp_ret|].
    destruct (wf_role _ _ _ _ Hwf j b Hj) as (HA & _).
    assert (Hact : active b = 0) by (destruct (HA (proj2 (points_to_true _ _) Ea)) as [(_ & _ & ?)|(_ & _ & _ & ? & _)]; lia).
    apply (wp_seq _ (fun _ s' => dm s' = dm s)); [by apply remove_base_hw|]. intros r s1 Hd.
    apply wp_bind. eapply wp_modb; [by rewrite Hd|]. apply wp_bind, wp_set_pl, wp_ret. simpl. rewrite Hd.
    split; [|done]. unfold wf. simpl. unfold wf in Hwf. rewrite Ea in Hwf. by apply wf_evict_pl.
  - apply wp_ret. split; [done|]. split; [done|]. rewrite Ea.
    destruct (wf_role _ _ _ _ Hwf j b Hj) as (HA & _).
    destruct (HA (proj2 (points_to_true _ _) Ea)) as [(Hu & _)|(_ & Hty & _)].
    + rewrite Hu in Eu. simpl in Eu. apply orb_false_iff in Eu as [Eu%negb_false_iff _]. eauto.
    + unfold is_pl_type in Hty. by rewrite Ef, Et in Hty.
Qed.

Lemma user_load_checks_admitted flag binfile overlay region s Q :
  wf (dm s) ->
  match pl_base s with
  | None => True
  | Some j => flag_set flag USER_LOAD_PARTIAL = true /\ exists c, bases s !! j = Some c /\ is_user_load c = true
  end ->
  Q false s ->
  (admitted (flag_set flag USER_LOAD_PARTIAL) (dm s) -> binfile <> None -> Q true s) ->
  wp lib_fault (user_load_checks flag binfile overlay region) Q s.
Proof.
  intros Hwf Hj Hf Ht. apply wp_bind, wp_gp, wp_bind, wp_getd. cbv zeta.
  destruct (_ && _ && _) eqn:E1; [by apply wp_ret|].
  destruct (_ && is_base_externally_managed _) eqn:E2; [by apply wp_ret|].
  destruct binfile as [bf|]; [|by apply wp_ret].
  apply wp_ret. match goal with |- Q ?b s => destruct b end; [|done]. apply Ht; [|done]. split; [done|].
  destruct (pl_base s) as [j|] eqn:Ea; [done|]. intros Hp. rewrite Hp in E2. simpl in E2.
  unfold is_base_externally_managed in E2. rewrite Ea in E2. by apply managed_partials.
Qed.

(** Entry, handle and counter: the bookkeeping of a user load. *)
Lemma user_load_register_wp flag bin region s :
  admitted (flag_set flag USER_LOAD_PARTIAL) (dm s) ->
  wp lib_fault (user_load_register flag bin region) (fun r s' => user_load_post (dm s) r (dm s')) s.
Proof.
  intros [Hwf Hadm]. apply wp_bind, wp_getd. destruct (find_index _ _) as [i|] eqn:Ef.
  2: { apply wp_bind. eapply wp_mono; [apply user_unload_overlay_wp|]. intros ov s1 Hs.
       apply wp_ret. split; [by eapply reshaped_wf|]. right. split; [done|]. by destruct Hs as [_ ->]. }
  apply find_index_lookup in Ef as (b & Hi & He). apply streq_true in He.
  pose proof (lookup_lt_Some _ _ _ Hi) as Hlt.
  assert (Hfit : fits ACCEL_NAME_MAX (trunc ACCEL_NAME_MAX bin) = true) by (apply trunc_fits; unfold ACCEL_NAME_MAX; lia).
  cbv zeta. apply wp_bind. eapply wp_modb; [exact Hi|].
  destruct (take_handle (table s)) as [h t'] eqn:Et. apply wp_bind. eapply wp_get_free_slot_handle; [exact Et|].
  apply wp_bind. eapply wp_modb; [simpl; by rewrite list_lookup_insert_eq|]. simpl.
  rewrite list_insert_insert_eq.
  set (b' := as_user_load b (trunc ACCEL_NAME_MAX bin) (trunc 128 (default ""%string region))
               (flag_set flag USER_LOAD_PARTIAL) h).
  match goal with |- wp _ _ _ ?s1 => set (s1' := s1) end.
  assert (Hb1 : bases s1' = <[i := b']> (bases s)) by done.
  assert (Hend : forall s2 c, bases s2 !! i = Some c -> is_user_load c = true -> user_load_handle c = h -> active c = 0 ->
    table s2 = t' -> wf (dm s2) ->
    wp lib_fault (mark_pkg_listing_dirty ;; ret h) (fun r s' => user_load_post (dm s) r (dm s')) s2).
  { intros s2 c Hc Huc Hhc Hac Ht Hwf2. apply wp_bind, mark_dirty_wp. intros s3 Hs _. apply wp_ret.
    split; [by eapply reshaped_wf|]. left. destruct (reshaped_at _ _ _ _ Hs Hc) as (c' & Hc' & Hsh).
    destruct Hs as [_ ->]. rewrite Ht. split; [done|]. exists i, c'. split; [done|].
    by rewrite (ss_user _ _ Hsh), (ss_handle _ _ Hsh), (ss_active _ _ Hsh). }
  assert (Hi1 : bases s1' !! i = Some b') by (rewrite Hb1; by apply list_lookup_insert_eq).
  apply wp_bind. unfold wf in Hwf. destruct (flag_set flag USER_LOAD_PARTIAL) eqn:Ep; simpl.
  - apply wp_bind, wp_gp. destruct (pl_base s) as [j|] eqn:Ea.
    + destruct Hadm as (_ & c & Hj & Hu).
      destruct (wf_add_partial _ _ (rpu_base s) _ _ (trunc ACCEL_NAME_MAX bin) (trunc 128 (default ""%string region))
                  _ _ Hi He Et Hfit _ _ Hwf Hj Hu) as [Hwf' Hr].
      assert (Hji : j <> i).
      { intros ->. destruct (ew_free b (wf_entry _ _ _ _ Hwf i b Hi) He). congruence. }
      subst s1'. simpl. rewrite Ea. eapply wp_add_active; [simpl; by rewrite list_lookup_insert_ne|lia|].
      eapply (Hend _ b'); try done.
      * simpl. rewrite list_lookup_insert_ne by done. by rewrite list_lookup_insert_eq.
      * unfold wf. simpl. rewrite Ea. exact Hwf'.
    + subst s1'. simpl. rewrite Ea. apply wp_ret. eapply (Hend _ b'); try done.
      unfold wf. simpl. rewrite Ea. exact (wf_add_partial_forced _ _ _ _ _ _ _ _ _ Hi He Et Hfit Hwf).
  - destruct (pl_base s) as [j|] eqn:Ea; [by destruct Hadm|].
    apply wp_set_pl. eapply (Hend _ b'); try done.
    unfold wf. simpl. exact (wf_add_full _ _ _ _ _ _ _ _ _ Hi He Et Hfit Hwf (Hadm eq_refl)).
Qed.

Lemma user_load_wp flag ff binfile overlay region key fs sz s :
  wf (dm s) ->
  wp lib_fault (user_load flag ff binfile overlay region key fs sz)
     (fun r s' => user_load_post (dm s) r.1 (dm s')) s.
Proof.
  intros Hwf.
  assert (Hno : forall (d : daemon) r, r < 0 -> wf d -> available_slot_handle (platform d) = table s ->
                  user_load_post (dm s) r d) by (intros d r Hr Hd Ht; split; [done|]; by right).
  apply wp_bind. eapply wp_mono; [by apply user_load_admit_wp|].
  intros early s1 (Hwf1 & Ht1 & He). destruct early as [r|].
  { apply wp_ret. apply Hno; [simpl; lia|done..]. }
  apply wp_bind, user_load_checks_admitted; [done|done|apply wp_ret; by apply Hno|].
  intros Hadm Hbf. destruct binfile as [bf|]; [|done]. apply wp_bind, wp_ret. cbv zeta.
  apply (wp_seq _ (fun rf s' => dm s' = dm s1 /\ (rf.1 = 0 \/ rf.1 = -1))).
  { apply wp_in_hw, wp_in_world, wp_safe. eapply wp_mono; [apply user_load_bitstream_outcome|].
    intros rf w Hrf. split; [done|]. destruct Hrf as [[? _]|?]; auto. }
  intros rf s1' [Hd Hrf]. destruct (Z.eqb_spec (fst rf) 0) as [E|E].
  2: { apply wp_ret, Hno; [|by rewrite Hd|by rewrite Hd]. destruct Hrf; [done|lia]. }
  apply wp_bind. eapply wp_mono; [apply user_load_register_wp; by rewrite Hd|]. intros rv s2 Hpost. apply wp_ret.
  destruct Hpost as [Hwf2 Hp]. split; [done|]. by rewrite Hd, Ht1 in Hp.
Qed.

(** ** By handle, by list ID, by name *)

Lemma unload_accelerator_wp h s :
  wf (dm s) ->
  wp lib_fault (unload_accelerator h) (fun r s' => unload_post (dm s) h r (dm s') \/
     (h = -1 /\ wf (dm s') /\ table s' = table s)) s.
Proof.
  intros Hwf. unfold unload_accelerator. destruct (Z.eqb_spec h (-1)) as [->|Hne].
  { eapply wp_mono; [by apply unload_accel_base_wp|]. intros r s' (Hwf' & Ht & _). by right. }
  apply wp_bind, wp_getd. destruct (existsb _ _).
  - eapply wp_mono; [by apply user_unload_post|]. intros r s' Hp. by left.
  - eapply wp_mono; [by apply unload_slot_handle_wp|]. intros r s' Hp. by left.
Qed.

Lemma carries_in_use b j id : carries b (Some j) id -> in_use b = true.
Proof. intros (Hl & _). unfold lists_packages in Hl. by apply andb_true_iff in Hl as [? _]. Qed.

Lemma load_by_id_wp id cma fs sz s :
  wf (dm s) ->
  wp lib_fault (load_accelerator_by_id id cma fs sz)
     (fun r s' => (exists i j b a, bases s !! i = Some b /\ carries b (Some j) id /\ accel_list b !! j = Some a /\
                     load_post (dm s) i (a_name a) r.1 (dm s')) \/ (is_error r.1 /\ s' = s)) s.
Proof.
  intros Hwf. apply wp_bind. eapply wp_mono; [by apply find_by_id_wp|].
  intros [res|] s' [-> Hr]; [|by apply wp_ret; right].
  destruct Hr as (b & Hb & Hc & _). destruct (res_accel res) as [j|]; [|by apply wp_ret; right].
  pose proof (carries_in_use _ _ _ Hc) as Huse. pose proof Hc as (_ & a & Ha & _).
  apply wp_bind. eapply wp_getb; [done|]. apply wp_bind. eapply wp_the_Some; [done|].
  eapply wp_mono; [by apply (load_core_wp _ b)|]. intros r s' Hp. left. by exists (res_base res), j, b, a.
Qed.

Lemma unload_released h s :
  wf (dm s) -> wp lib_fault (unload_accelerator h) (fun _ s' => released (dm s) (dm s')) s.
Proof.
  intros Hwf. eapply wp_mono; [by apply unload_accelerator_wp|]. intros r s' [Hp|(_ & Hwf' & Ht)].
  - by eapply unload_post_released.
  - split; [done|by left].
Qed.

Lemma unload_base_released s :
  wf (dm s) -> wp lib_fault unload_accel_base (fun _ s' => released (dm s) (dm s')) s.
Proof. intros Hwf. eapply wp_mono; [by apply unload_accel_base_wp|]. intros r s' (? & ? & _). split; [done|by left]. Qed.

Lemma not_released d : wf d -> released d d.
Proof. intros Hwf. split; [done|by left]. Qed.
#[local] Hint Resolve not_released : core.

Lemma unload_by_id_wp id s :
  wf (dm s) -> wp lib_fault (unload_accelerator_by_id id) (fun _ s' => released (dm s) (dm s')) s.
Proof.
  intros Hwf. unfold unload_accelerator_by_id. destruct (id =? 0); [by apply unload_base_released|].
  apply wp_bind. eapply wp_mono; [by apply find_by_id_wp|].
  intros [res|] s' [-> Hr]; [|apply wp_ret; auto]. destruct (_ <? 0); [apply wp_ret; auto|by apply unload_released].
Qed.

Lemma slot_handle_by_name_wp name s :
  wf (dm s) -> wp lib_fault (find_slot_handle_by_name name) (fun _ s' => s' = s) s.
Proof.
  intros Hwf. unfold find_slot_handle_by_name. cbv zeta.
  assert (Hin : forall o, o = rpu_base s \/ o = pl_base s ->
    wp lib_fault (match o with
                  | None => ret None
                  | Some i => let! b := get_base i in
                              match slots b with Some _ => slot_handle_of_name i name | None => ret None end
                  end) (fun _ s' => s' = s) s).
  { intros [i|] Ho; [|by apply wp_ret].
    assert (exists b, bases s !! i = Some b) as [b Hi].
    { destruct Ho as [Ho|Ho]; symmetry in Ho; [by apply active_rpu_at|by apply active_base_at]. }
    apply wp_bind. eapply wp_getb; [done|]. destruct (slots b) eqn:E; [|by apply wp_ret].
    eapply wp_mono; [apply (slot_by_name_wp _ i b); [done|]|].
    - apply entry_readable; [by apply (wf_entry _ _ _ _ Hwf i)|congruence].
    - by intros h s' [-> _]. }
  apply wp_bind, wp_gp, wp_bind, wp_gp, wp_bind. eapply wp_mono; [apply Hin; by left|].
  intros [h|] s' ->; [by apply wp_ret|]. apply wp_bind, wp_getd. destruct (List.find _ _); [by apply wp_ret|].
  apply wp_bind. eapply wp_mono; [apply Hin; by right|]. intros h s' ->. by apply wp_ret.
Qed.

Lemma unload_by_name_wp name s :
  wf (dm s) -> wp lib_fault (unload_accelerator_by_name name) (fun _ s' => released (dm s) (dm s')) s.
Proof.
  intros Hwf. apply wp_bind. eapply wp_mono; [by apply slot_handle_by_name_wp|]. intros h s' ->.
  destruct (0 <=? h); [by apply unload_released|apply wp_ret; auto].
Qed.
End UserSafe.
