(* ===== verification/Registry.v ===== *)
(** * Discovering packages

    The part of [src/daemon_helper.c] that turns the firmware directories into
    [base_designs] and [active_watch]: inotify watches, base designs, their
    accelerators, the recursive walk, and [parse_rpu_slot_dir()] of
    [src/rpu.c].  A [struct basePLDesign *] is the index of the entry, an
    [accel_info_t *] the index of the entry's accelerator. *)
From S2P Require Import Prelude CStr Env Model Json Accel Rpu Pdi Slots ListIds.
Open Scope Z_scope.
Open Scope dfx_scope.

Definition MAX_RECURSION_DEPTH : nat := 5.

(** ** Watches *)

Definition free_watch (w : watch) : bool := w_wd w =? -1.

(** [add_to_watch()] on the table; [None] is -1. *)
Definition add_to_watch (l : list watch) (wd : Z) (name path parent_name parent_path : string) :
    option (list watch) :=
  match find_index free_watch l with
  | None => None
  | Some i => Some (<[i := Watch wd (trunc ACCEL_NAME_MAX name) (trunc WATCH_PATH_LEN path)
                             (trunc ACCEL_NAME_MAX parent_name) (trunc WATCH_PATH_LEN parent_path)]> l)
  end.

Definition get_watch (l : list watch) (wd : Z) : option watch := List.find (fun w => w_wd w =? wd) l.
Definition path_to_watch (l : list watch) (path : string) : option nat :=
  find_index (fun w => streq path (w_path w)) l.

(** A base's accelerator [j]; [None] is a NULL [accel_info_t *]. *)
Definition free_accel (a : accel_info) : bool := streq (a_path a) "".
Definition is_accel (name path : string) (a : accel_info) : bool :=
  negb (free_accel a) && streq (a_path a) path && streq (a_name a) name.

(** [add_accel_to_base()] on the array: the index, if any, and the array. *)
Definition add_accel (l : list accel_info) (name path parent_path : string) : option nat * list accel_info :=
  match find_index (fun a => is_accel name path a || free_accel a) l with
  | None => (None, l)
  | Some j =>
      match l !! j with
      | None => (None, l)
      | Some a =>
          if negb (free_accel a) then (Some j, l)
          else if negb (fits 512 path) then (None, <[j := a <| a_path := ""%string |> <| a_name := ""%string |>]> l)
          else (Some j, <[j := a <| a_name := trunc ACCEL_NAME_MAX name |> <| a_path := path |>
                                <| a_parent_path := trunc 512 parent_path |> <| rpu_slot_num := -1 |>]> l)
      end
  end.

(** The accelerator zeroed by [memset()], and [accel->rpu.slot_num = -1]. *)
Definition accel_reset : accel_info := accel_info0 <| rpu_slot_num := -1 |>.

Definition name_is_rpu (name : string) : bool := streq name "RPU" || streq name "rpu".
Definition is_versal_platform (p : platform_info) : bool := bool_decide (fpga_mgr p = FPGA_MGR_VERSAL).

(** The accelerator of a flat design is the design. *)
Definition register_flat_accel (b : basePLDesign) : basePLDesign :=
  match accel_list b with
  | a :: l => b <| accel_list := a <| a_name := trunc ACCEL_NAME_MAX (b_name b) |> <| a_path := base_path b |>
                                   <| a_parent_path := base_path b |> <| accel_type := b_type b |>
                                   <| a_uid := uid b |> <| a_pid := pid b |> :: l |>
  | [] => b
  end.

(** [add_base_design()] on the table. *)
Definition add_base_design (l : list basePLDesign) (name path parent : string) (wd : Z) : list basePLDesign :=
  match find_index (fun b => streq (base_path b) path) l with
  | Some _ => l
  | None =>
      match find_index (fun b => streq (base_path b) "") l with
      | None => l
      | Some i =>
          alter (fun b => b <| b_name := trunc ACCEL_NAME_MAX name |> <| base_path := trunc 512 path |>
                            <| b_parent_path := trunc 512 parent |> <| active := 0 |> <| b_wd := wd |>) i l
      end
  end.

Definition forget_accel (a : accel_info) : accel_info :=
  a <| a_name := ""%string |> <| a_path := ""%string |> <| a_parent_path := ""%string |> <| a_wd := -1 |>.

(** The entry [remove_base_design()] leaves: [is_base] is set. *)
Definition forget_base (b : basePLDesign) : basePLDesign :=
  b <| accel_list ::= map (fun a => if free_accel a then a else forget_accel a) |>
    <| b_name := ""%string |> <| b_type := ""%string |> <| base_path := ""%string |>
    <| num_pl_slots := 0 |> <| active := 0 |> <| b_wd := -1 |>.
(** ... and [is_base] is not: the first accelerator at [path] of a base. *)
Definition forget_accel_at (path : string) (b : basePLDesign) : basePLDesign :=
  match find_index (fun a => streq (a_path a) path) (accel_list b) with
  | None => b
  | Some j => b <| accel_list ::= alter forget_accel j |>
  end.

Section Registry.
Context {W : Type} `{Env W}.

Definition gw {A} (f : list watch -> A) : M (sys W) A := gets (fun s => f (active_watch (dm s))).
Definition set_watches (l : list watch) : M (sys W) unit := modd (fun d => d <| active_watch := l |>).
Definition versal : M (sys W) bool := gp is_versal_platform.
Definition not_dir (path : string) : M (sys W) bool := let! d := env (look (is_dir path)) in ret (negb d).

Definition watch_added (wd : Z) (name path parent_name parent_path : string) : M (sys W) bool :=
  let! l := gw id in
  match add_to_watch l wd name path parent_name parent_path with
  | Some l => set_watches l ;; ret true
  | None => ret false
  end.

(** [remove_watch()]: every watch of [path]. *)
Definition remove_watch (path : string) : M (sys W) unit :=
  let! l := gw id in
  for_each (fun w => if streq (w_path w) path then env (act_ (inotify_rm_watch (w_wd w))) else ret tt) l ;;
  set_watches (map (fun w => if streq (w_path w) path then w <| w_wd := -1 |> <| w_path := ""%string |> else w) l).

(** [add_dir_watch()]: [false] is -1. *)
Definition add_dir_watch (path name parent_name parent_path : string) : M (sys W) bool :=
  let! known := gw (fun l => path_to_watch l path) in
  match known with
  | Some _ => ret true
  | None =>
      let! wd := env (act (inotify_add_watch path)) in
      if wd =? -1 then ret false
      else
        let! ok := watch_added wd name path parent_name parent_path in
        if ok : bool then ret true else env (act_ (inotify_rm_watch wd)) ;; ret false
  end.

(** ** Accelerators of a base *)

Definition add_accel_to_base (i : nat) (name path parent_path : string) : M (sys W) (option nat) :=
  let! b := get_base i in
  let '(j, l) := add_accel (accel_list b) name path parent_path in
  set_base i (b <| accel_list := l |>) ;;
  ret j.

Definition get_accel (i j : nat) : M (sys W) accel_info :=
  let! b := get_base i in the OutOfBounds (accel_list b !! j).
Definition set_accel (i j : nat) (a : accel_info) : M (sys W) unit :=
  mod_base i (fun b => b <| accel_list ::= <[j := a]> |>).

(** [initAccel(accel, path)] of an accelerator that was added; the result is
    ignored. *)
Definition init_accel_json (i : nat) (o : option nat) (path : string) : M (sys W) unit :=
  match o with
  | None => ret tt
  | Some j =>
      let! a := get_accel i j in
      let! ra := env (initAccel a path) in
      set_accel i j ra.2
  end.

(** [init_accel_from_pdi(accel, path)], undone when it fails. *)
Definition init_accel_pdi (i : nat) (o : option nat) (path : string) : M (sys W) unit :=
  match o with
  | None => ret tt
  | Some j =>
      let! a := get_accel i j in
      let! ra := env (init_accel_from_pdi a path) in
      set_accel i j (if ra.1 <? 0 then accel_reset else ra.2)
  end.

(** [parse_rpu_slot_dir()] of [src/rpu.c]. *)
Definition parse_rpu_slot_dir (i : nat) (slot_path : string) (slot_num : Z) (rpu_path : string) : M (sys W) unit :=
  let! d := env (look (readdir slot_path)) in
  match d with
  | None => ret tt
  | Some l =>
      for_each (fun e =>
        let n := d_name e in
        if self_or_parent n then ret tt
        else match strrchr n "." with
             | None => ret tt
             | Some k =>
                 if negb (streq (str_drop k n) RPU_FIRMWARE_EXT) then ret tt
                 else
                   let! o := add_accel_to_base i (trunc NAME_MAX (substring 0 k n)) slot_path rpu_path in
                   match o with
                   | None => ret tt
                   | Some j => let! a := get_accel i j in
                               set_accel i j (a <| accel_type := RPU_TYPE_STR |> <| rpu_slot_num := int32 slot_num |>)
                   end
             end) l
  end.

(** ** Packages *)

(** The RM slots of a directory of a Versal package: the slot range so far, and
    whether the walk goes on ([goto out] ends it). *)
Fixpoint pdi_slots (i : nat) (base_path accel_dir name : string) (slots : list pdi_slot) (range : Z) :
    M (sys W) (Z * bool) :=
  match slots with
  | [] => ret (range, true)
  | p :: slots =>
      let dir := ps_path p in
      let! ok := (if streq dir accel_dir then ret true
                  else
                    let leaf := match strrchr dir "/" with Some k => str_drop (S k) dir | None => dir end in
                    add_dir_watch dir leaf name accel_dir) in
      if negb ok then ret (range, false)
      else if negb (ps_has_pdi p) then pdi_slots i base_path accel_dir name slots range
      else
        let range := if range <=? ps_index p then ps_index p + 1 else range in
        let! o := add_accel_to_base i name accel_dir base_path in
        init_accel_pdi i o dir ;;
        pdi_slots i base_path accel_dir name slots range
  end.

Definition pdi_dir (i : nat) (base_name base_path name : string) (range : Z) : M (sys W) (Z * bool) :=
  if d_name_filter name then ret (range, true)
  else
    let accel_dir := trunc PDI_SLOT_PATH_MAX (base_path ++ "/" ++ name) in
    let! nd := not_dir accel_dir in
    if nd : bool then ret (range, true)
    else
      let! ok := add_dir_watch accel_dir name base_name base_path in
      if negb ok then ret (range, false)
      else
        let! slots := env (scan_accel_slots accel_dir name (Z.of_nat RP_SLOTS_MAX)) in
        pdi_slots i base_path accel_dir name slots range.

Fixpoint pdi_dirs (i : nat) (base_name base_path : string) (l : list dirent) (range : Z) : M (sys W) Z :=
  match l with
  | [] => ret range
  | e :: l =>
      let! r := pdi_dir i base_name base_path (d_name e) range in
      if snd r then pdi_dirs i base_name base_path l (fst r) else ret (fst r)
  end.

Definition register_pdi_package (i : nat) (base_name base_path : string) : M (sys W) unit :=
  let! d := env (look (readdir base_path)) in
  let! range := pdi_dirs i base_name base_path (default [] d) 0 in
  let! b := get_base i in
  let! b := env (pdi_classify_base b range base_path) in
  set_base i b ;;
  if range =? 0 then mod_base i register_flat_accel else ret tt.

(** The second level of a JSON or RPU package; [true] is [goto close_dir]. *)
Definition parse_second_level (i : nat) (first_level d1 path : string) (l : list dirent) : M (sys W) bool :=
  for_until (fun e =>
    let! second_level := env (sprintf_into 800 (first_level ++ "/" ++ d_name e)) in
    if d_name_filter (d_name e) then ret false
    else
      let! nd := not_dir second_level in
      if nd : bool then ret false
      else
        let! ok := add_dir_watch second_level (d_name e) d1 first_level in
        if negb ok then ret true
        else
          let! filename := env (sprintf_into 811 (second_level ++ "/accel.json")) in
          let! there := env (look (exists_ filename)) in
          if there : bool then
            let! o := add_accel_to_base i d1 first_level path in
            init_accel_json i o second_level ;;
            ret false
          else ret false) l.

(** One entry of a JSON or RPU package directory; [true] is [goto close_dir]. *)
Definition parse_first_level (i : nat) (fname path : string) (e : dirent) : M (sys W) bool :=
  let d1 := d_name e in
  let! first_level := env (sprintf_into 512 (path ++ "/" ++ d1)) in
  if d_name_filter d1 then ret false
  else
    let! nd := not_dir first_level in
    if nd : bool then ret false
    else
      let! b := get_base i in
      let '(slot_num, rest) := strtol 10 d1 in
      if streq (b_type b) RPU_TYPE_STR && isdigit (str_nth d1 0) && streq rest "" then
        let! _ := add_dir_watch first_level d1 fname path in
        parse_rpu_slot_dir i first_level slot_num path ;;
        ret false
      else
        let! ok := add_dir_watch first_level d1 fname path in
        if negb ok then ret true
        else
          let! filename := env (sprintf_into 811 (first_level ++ "/accel.json")) in
          let! there := env (look (exists_ filename)) in
          if there : bool then
            let! o := add_accel_to_base i d1 first_level path in
            init_accel_json i o first_level ;;
            ret false
          else
            let! d := env (look (readdir first_level)) in
            match d with
            | None => ret false
            | Some l =>
                let! stop := parse_second_level i first_level d1 path l in
                if stop : bool then ret true
                else
                  let! b := get_base i in
                  if streq (b_type b) "RPU" then
                    let! o := add_accel_to_base i d1 first_level path in
                    match o with
                    | None => ret false
                    | Some j => let! a := get_accel i j in
                                set_accel i j (a <| accel_type := b_type b |>) ;; ret false
                    end
                  else ret false
            end.

Definition parse_packages (i : nat) (fname path : string) : M (sys W) unit :=
  let! b := get_base i in
  if is_flat_type (b_type b) then mod_base i register_flat_accel
  else
    let! v := versal in
    if v && negb (streq (b_type b) RPU_TYPE_STR) then register_pdi_package i fname path
    else
      let! d := env (look (readdir path)) in
      match d with
      | None => ret tt
      | Some l => let! _ := for_until (parse_first_level i fname path) l in ret tt
      end.

(** ** Base designs *)

Definition remove_base_design (path parent : string) (is_base : bool) : M (sys W) unit :=
  if negb is_base then
    let! d := getd in
    for_each (fun i =>
      let! b := get_base i in
      if streq (base_path b) parent && existsb (fun a => streq (a_path a) path) (accel_list b)
      then remove_watch path ;; mod_base i (forget_accel_at path) else ret tt)
      (seq 0 (length (base_designs d)))
  else
    let! d := getd in
    match find_index (fun b => streq (base_path b) path) (base_designs d) with
    | None => ret tt
    | Some i =>
        let! b := get_base i in
        for_each (fun a => if free_accel a then ret tt else remove_watch path) (accel_list b) ;;
        mod_base i forget_base
    end.

Definition dir_is_base_design (dir name : string) : M (sys W) bool :=
  if name_is_rpu name then ret true
  else
    let! v := versal in
    if v : bool then env (dir_has_pdi dir) else env (dir_has_shell_json dir).

(** [init_base_design()] and the calls of [initBaseDesign()]: [true] is 0. *)
Definition init_base_json (i : nat) (fname : string) : M (sys W) bool :=
  let! b := get_base i in
  let! n := env get_number_of_rpu in
  let! rb := env (initBaseDesign b fname n) in
  set_base i rb.2 ;;
  ret (rb.1 =? 0).
Definition init_base_pdi (i : nat) : M (sys W) bool :=
  let! b := get_base i in
  let! rb := env (init_base_from_pdi b) in
  set_base i rb.2 ;;
  ret (rb.1 =? 0).
Definition init_base_design (i : nat) (dir name : string) : M (sys W) bool :=
  let! v := versal in
  if v && negb (name_is_rpu name) then init_base_pdi i
  else init_base_json i (trunc 600 (dir ++ "/shell.json")).

(** ** The walk *)

(** The directory is watched (a watch found loses its parent name): its wd. *)
Definition watch_design_dir (new_dir name cpath : string) : M (sys W) (option Z) :=
  let! known := gw (fun l => path_to_watch l new_dir) in
  match known with
  | Some k =>
      let! l := gw id in
      let! w := the OutOfBounds (l !! k) in
      set_watches (<[k := w <| w_parent_name := ""%string |>]> l) ;;
      ret (Some (w_wd w))
  | None =>
      let! wd := env (act (inotify_add_watch new_dir)) in
      if wd =? -1 then ret None
      else
        let! ok := watch_added wd name new_dir ""%string cpath in
        if ok : bool then ret (Some wd) else env (act_ (inotify_rm_watch wd)) ;; ret None
  end.

(** A base design is registered, initialised and parsed. *)
Definition register_base_design (new_dir name cpath : string) (wd : Z) : M (sys W) unit :=
  modd (fun d => d <| base_designs ::= fun l => add_base_design l name new_dir cpath wd |>) ;;
  let! d := getd in
  match findBaseDesign_path d new_dir with
  | None => ret tt
  | Some i =>
      let! ok := init_base_design i new_dir name in
      if ok : bool then let! b := get_base i in parse_packages i (b_name b) (base_path b) else ret tt
  end.

(** [accel_dir_add()]: [depth] directories may still be entered below. *)
Fixpoint accel_dir_add (depth : nat) (cpath : string) (e : dirent) : M (sys W) unit :=
  let name := d_name e in
  if d_name_filter name then ret tt
  else
    let! new_dir := env (sprintf_into 512 (cpath ++ "/" ++ name)) in
    let! nd := not_dir new_dir in
    if nd : bool then ret tt
    else
      match depth with
      | O => ret tt
      | S depth =>
          let! wd := watch_design_dir new_dir name cpath in
          match wd with
          | None => ret tt
          | Some wd =>
              let! base := dir_is_base_design new_dir name in
              if base : bool then register_base_design new_dir name cpath wd
              else
                let! d := env (look (readdir new_dir)) in
                for_each (accel_dir_add depth new_dir) (default [] d)
          end
      end.

Definition firmware_dir_walk : M (sys W) unit :=
  let! d := getd in
  for_each (fun fwdir =>
    let! l := env (look (readdir fwdir)) in
    match l with
    | None => ret tt
    | Some l =>
        let! ok := add_dir_watch fwdir ""%string ""%string ""%string in
        if ok : bool then for_each (accel_dir_add MAX_RECURSION_DEPTH fwdir) l else ret tt
    end) (firmware_locations (config d)).
End Registry.
