(* ===== verification/Eeprom.v ===== *)
(** * The board name

    [src/eeprom.c]: the FRU product names of the configured EEPROMs, mapped to
    board tokens and collected in [platform.boardName]. *)
From S2P Require Import Prelude CStr Env Model.
Open Scope Z_scope.
Open Scope dfx_scope.

(** [str_trim()]: [None] is NULL. *)
Fixpoint rtrim (s : string) : string :=
  match s with
  | EmptyString => EmptyString
  | String c r => let r := rtrim r in if isspace c && streq r "" then EmptyString else String c r
  end.
Definition str_trim (s : string) : option string :=
  match skip_space s with EmptyString => None | s => Some (rtrim s) end.

Definition known_separators : list string := [": "; "-"]%string.

Definition fru_command (file sep : string) : string :=
  trunc 512 ("ipmi-fru --fru-file=" ++ file ++ " --interpret-oem-data 2>/dev/null | awk -F" ++
             String (ascii_of_nat 34) (sep ++ String (ascii_of_nat 34) " '/FRU Board Product/ {print $2}'")).

(** [lookup_board_name()]: did a key match, and the token. *)
Definition lookup_board_name (map : list (string * string)) (raw : string) (size : nat) : bool * string :=
  match List.find (fun kv => negb (streq kv.1 "") && (if strcasestr raw kv.1 is Some _ then true else false)) map with
  | Some kv => (true, trunc size kv.2)
  | None => (false, trunc size raw)
  end.

Definition at_space_or_end (s : string) (i : nat) : bool :=
  Ascii.eqb (str_nth s i) NUL || Ascii.eqb (str_nth s i) " ".

(** Is [tok] a whole word of [buf], from offset [k] on? *)
Fixpoint has_word (fuel : nat) (buf tok : string) (k : nat) : bool :=
  match fuel with
  | O => false
  | S fuel =>
      match strcasestr (str_drop k buf) tok with
      | None => false
      | Some j =>
          let p := (k + j)%nat in
          if ((p =? 0)%nat || Ascii.eqb (str_nth buf (p - 1)) " ") && at_space_or_end buf (p + strlen tok)
          then true else has_word fuel buf tok (S p)
      end
  end.

(** [append_token()]: the buffer of [size] bytes afterwards. *)
Definition append_token (buf : string) (size : nat) (tok : string) : string :=
  if streq tok "" then buf
  else if has_word (S (strlen buf)) buf tok 0 then buf
  else if streq buf "" then (if (size <=? strlen tok)%nat then buf else tok)
  else if (strlen buf + 1 + strlen tok <? size)%nat then (buf ++ " " ++ tok)%string else buf.

Section Eeprom.
Context {W : Type} `{Env W}.

(** [try_read_board_from_eeprom()]: [None] is -1. *)
Definition try_read_board_from_eeprom (path : string) (size : nat) : M W (option string) :=
  let! files := look (glob path) in
  match files with
  | [] => ret None
  | file :: _ =>
      for_ret (fun sep =>
        let! r := act (popen_line (fru_command file sep)) in
        match r with
        | Some (Some line) =>
            ret (match str_trim (trunc 256 line) with Some t => Some (trunc size t) | None => None end)
        | _ => ret None
        end) known_separators
  end.

(** The loop over the EEPROMs: the tokens found and the first raw name that
    maps to none. *)
Fixpoint read_boards (map : list (string * string)) (size : nat) (l : list string) (name fallback : string) :
    M W (string * string) :=
  match l with
  | [] => ret (name, fallback)
  | path :: l =>
      let! raw := try_read_board_from_eeprom path 128 in
      match raw with
      | None => read_boards map size l name fallback
      | Some raw =>
          match lookup_board_name map raw 128 with
          | (true, token) => read_boards map size l (append_token name size token) fallback
          | (false, _) => read_boards map size l name (if streq fallback "" then trunc 128 raw else fallback)
          end
      end
  end.

(** [read_board_name_from_eeprom()]: the return value and the buffer. *)
Definition read_board_name_from_eeprom (c : daemon_config) (board_name : string) (size : nat) : M W (Z * string) :=
  match eeprom_location c with
  | [] => ret (-1, board_name)
  | locations =>
      let! r := read_boards (eeprom_name_map c) size locations ""%string ""%string in
      let '(name, fallback) := r in
      ret (if negb (streq name "") then (0, name)
           else if negb (streq fallback "") then (0, trunc size fallback)
           else (-1, ""%string))
  end.
End Eeprom.
