(* ===== verification/Events.v ===== *)
(** * Changes of the firmware directories

    The inotify events that [threadFunc()] of [src/daemon_helper.c] processes,
    [load_accelerator()] by name, and the start-up of the daemon. *)
From S2P Require Import Prelude CStr Env Model UserLoad Json Accel Rpu Pdi Slots ListIds Load Registry Eeprom.
Open Scope Z_scope.
Open Scope dfx_scope.

Definition CONFIG_PATH : string := "/etc/dfx-mgrd/daemon.conf".
Definition FPGA_MGR_NAME_PATH : string := "/sys/class/fpga_manager/fpga0/name".

(** An event, with the bits of [event->mask] that are tested. *)
Record inotify_event := Event {
  e_wd : Z;
  e_name : string;
  IN_CREATE : bool;
  IN_CLOSE_WRITE : bool;
  IN_DELETE : bool;
  IN_MOVED_FROM : bool;
  IN_MOVED_TO : bool;
  IN_ISDIR : bool;
}.

(** The family that the name of the FPGA manager says. *)
Definition fpga_mgr_of_name (name : string) : fpga_mgr_type :=
  if streq name "Xilinx Zynq FPGA Manager" then FPGA_MGR_ZYNQ
  else if streq name "Xilinx ZynqMP FPGA Manager" then FPGA_MGR_ZYNQMP
  else if streq name "Xilinx Versal FPGA Manager" then FPGA_MGR_VERSAL
  else FPGA_MGR_UNKNOWN.
(** [name[strcspn(name, "\n")] = '\0']. *)
Definition cut_newline (s : string) : string :=
  match strchr s (ascii_of_nat 10) with Some i => substring 0 i s | None => s end.

Section Events.
Context {W : Type} `{Env W}.

Definition rescan_pending : M (sys W) unit := modd (fun d => d <| firmware_rescan_pending := true |>).
Definition find_base_path (path : string) : M (sys W) (option nat) :=
  let! d := getd in ret (findBaseDesign_path d path).

(** ** PDI events *)

(** Entry [i] gets the accelerator of an RM slot. *)
Definition add_pdi_accel (i : nat) (name path dir : string) : M (sys W) unit :=
  let! b := get_base i in
  let! o := add_accel_to_base i name path (base_path b) in
  init_accel_pdi i o dir.

(** An RM slot one or two levels below its base. *)
Definition pdi_in_slot (w : watch) : M (sys W) unit :=
  let! d := getd in
  let o := findBaseDesign_path d (w_parent_path w) in
  let! direct := match o with
                 | None => ret None
                 | Some i => let! b := get_base i in
                             ret (if streq (base_path b) (w_parent_path w) then Some i else None)
                 end in
  match direct with
  | Some i => add_pdi_accel i (w_name w) (w_path w) (w_path w)
  | None =>
      match path_to_watch (active_watch d) (w_parent_path w) with
      | None => ret tt
      | Some k =>
          let! pw := the OutOfBounds (active_watch d !! k) in
          match findBaseDesign_path d (w_parent_path pw) with
          | None => ret tt
          | Some i => add_pdi_accel i (w_parent_name w) (w_parent_path w) (w_path w)
          end
      end
  end.

Definition handle_pdi_event (o : option watch) : M (sys W) unit :=
  match o with
  | None => ret tt
  | Some w =>
      mark_pkg_listing_dirty ;;
      if streq (w_parent_name w) "" then
        let! o := find_base_path (w_path w) in
        match o with
        | None => rescan_pending
        | Some i =>
            let! ok := init_base_pdi i in
            if ok : bool then parse_packages i (w_name w) (w_path w) else ret tt
        end
      else pdi_in_slot w
  end.

(** ** The events

    [false]: the rest of the batch is dropped ([break]). *)

Definition dir_created (w : watch) (name : string) : M (sys W) bool :=
  if has_sub name ".dpkg-new" then ret false
  else
    let! new_dir := env (sprintf_into 512 (w_path w ++ "/" ++ name)) in
    let! known := gw (fun l => path_to_watch l new_dir) in
    match known with
    | Some _ => ret false
    | None =>
        let! ok := add_dir_watch new_dir name (w_name w) (w_path w) in
        if ok : bool then rescan_pending ;; ret true else ret false
    end.

(** shell.json appeared, or a directory with one, at [dir]. *)
Definition shell_json_in (w : watch) (dir : string) : M (sys W) bool :=
  let! o := find_base_path dir in
  match o with
  | None => ret false
  | Some i =>
      let! fname := env (sprintf_into 600 (dir ++ "/" ++ "shell.json")) in
      let! ok := init_base_json i fname in
      (if ok : bool then parse_packages i (w_name w) dir else ret tt) ;;
      ret true
  end.

Definition accel_json_in (w : watch) : M (sys W) bool :=
  let! d := getd in
  match path_to_watch (active_watch d) (w_parent_path w) with
  | None => ret false
  | Some k =>
      let! pw := the OutOfBounds (active_watch d !! k) in
      mark_pkg_listing_dirty ;;
      let! o := find_base_path (w_parent_path pw) in
      match o with
      | None => ret false
      | Some i =>
          let! b := get_base i in
          let! a := add_accel_to_base i (w_parent_name w) (w_parent_path w) (base_path b) in
          init_accel_json i a (w_path w) ;;
          ret true
      end
  end.

(** A directory was deleted or moved away. *)
Definition dir_removed (w : watch) (name : string) : M (sys W) bool :=
  let! new_dir := env (sprintf_into 512 (w_path w ++ "/" ++ name)) in
  remove_base_design new_dir (w_path w) (streq (w_parent_name w) "") ;;
  remove_watch new_dir ;;
  mark_pkg_listing_dirty ;;
  ret true.

Definition moved_in (w : watch) (e : inotify_event) : M (sys W) bool :=
  if has_sub (e_name e) ".dpkg-new" then ret false
  else
    mark_pkg_listing_dirty ;;
    (if IN_ISDIR e then rescan_pending else ret tt) ;;
    let! v := versal in
    if v : bool then ret true
    else
      let! dir := (if IN_ISDIR e then env (sprintf_into 512 (w_path w ++ "/" ++ e_name e))
                   else env (sprintf_into 512 (w_path w))) in
      shell_json_in w dir.

Definition handle_event (e : inotify_event) : M (sys W) bool :=
  let! w := gw (fun l => get_watch l (e_wd e)) in
  let! v := versal in
  let with_watch (k : watch -> M (sys W) bool) := match w with None => ret false | Some w => k w end in
  if IN_CREATE e || IN_CLOSE_WRITE e then
    if IN_ISDIR e then with_watch (fun w => dir_created w (e_name e))
    else if streq (e_name e) "shell.json" then
      with_watch (fun w => if v : bool then ret true else mark_pkg_listing_dirty ;; shell_json_in w (w_path w))
    else if streq (e_name e) "accel.json" then
      with_watch (fun w => if v : bool then ret true else accel_json_in w)
    else if v && name_is_pdi (e_name e) then handle_pdi_event w ;; ret true
    else rescan_pending ;; ret true
  else if (IN_DELETE e || IN_MOVED_FROM e) && IN_ISDIR e then with_watch (fun w => dir_removed w (e_name e))
  else if IN_MOVED_TO e then
    if IN_ISDIR e || streq (e_name e) "shell.json" then with_watch (fun w => moved_in w e)
    else if v && name_is_pdi (e_name e) then handle_pdi_event w ;; ret true
    else rescan_pending ;; ret true
  else ret true.

(** The events that one [read()] returned. *)
Definition handle_batch (l : list inotify_event) : M (sys W) unit :=
  let! _ := for_until (fun e => let! go := handle_event e in ret (negb go)) l in ret tt.

(** ** Loading by name *)

Definition load_accelerator (name : string) (cma : option string) (fs : option string) (sz : Z) :
    M (sys W) (Z * option string) :=
  let! d := getd in
  (if firmware_rescan_pending d then
     modd (fun d => d <| firmware_rescan_pending := false |>) ;; firmware_dir_walk
   else ret tt) ;;
  let! d := getd in
  match findBaseDesign d name with
  | None => ret (- DFX_MGR_NO_PACKAGE_FOUND_ERROR, fs)
  | Some i => load_accelerator_core i name cma fs sz
  end.

(** ** Start-up *)

Definition detect_fpga_mgr_type : M W fpga_mgr_type :=
  let! l := look (read_line FPGA_MGR_NAME_PATH 256) in
  ret (match l with None => FPGA_MGR_UNKNOWN | Some l => fpga_mgr_of_name (cut_newline l) end).

(** [init_user_load()] only tests that configfs is there. *)
Definition init_user_load : M W unit :=
  let! _ := look (readdir DTBO_ROOT_DIR) in ret tt.

(** What [threadFunc()] does before it waits for events. *)
Definition start_registry : M (sys W) unit :=
  modd (fun d => d <| active_watch := replicate MAX_WATCH watch0 |> <| base_designs := replicate MAX_WATCH base0 |>) ;;
  firmware_dir_walk ;;
  modd assign_list_ids ;;
  env init_user_load.

Definition dfx_init : M (sys W) unit :=
  modd (fun d => d <| config ::= fun c => c <| defaul_accel_name := ""%string |> |>) ;;
  modp (fun p => p <| boardName := "Xilinx board"%string |>) ;;
  let! d := getd in
  let! c := env (parse_config CONFIG_PATH (config d)) in
  modd (fun d => d <| config := c |>) ;;
  let! board := gp boardName in
  let! rb := env (read_board_name_from_eeprom c board 128) in
  modp (fun p => p <| boardName := rb.2 |>) ;;
  let! m := env detect_fpga_mgr_type in
  modp (fun p => p <| fpga_mgr := m |> <| use_user_load_path := is_user_load_platform m |>) ;;
  let! v := versal in
  (if v : bool then let! u := env pdi_boot_pl_uid in modp (fun p => p <| boot_pdi_uid := u |>) else ret tt) ;;
  start_registry.
End Events.
