(* ===== verification/Listing.v ===== *)
(** * Listing packages and devices

    [listAccelerators()], [list_accel_uio()] and [get_accel_uio_by_name()] of
    [src/daemon_helper.c].  The result buffers have the code's fixed sizes, and
    an unbounded [strcat()] or [sprintf()] past the end is [BufOverflow]. *)
From S2P Require Import Prelude CStr Env Model Device Json Accel Rpu Slots ListIds Registry.
Open Scope Z_scope.
Open Scope dfx_scope.

Definition LIST_PKG_SHOW_ALL : Z := 4.
Definition LIST_PKG_FILTER : Z := 8.
Definition DEFAULT_BOARD_NAME : string := "Xilinx board".
Definition RES_SIZE : nat := 8 * 1024.
Definition newline : string := String (ascii_of_nat 10) "".

(** ** Rows *)

Fixpoint columns (ws : list nat) (cells : list string) : string :=
  match ws, cells with
  | w :: ws, c :: cells => (pad_right w c ++ columns ws cells)%string
  | _, c :: _ => c
  | _, [] => ""
  end.
Definition all_widths : list nat := [12; 10; 10; 12; 10; 10; 6; 13; 9; 7]%nat.
Definition few_widths : list nat := [12; 12; 8]%nat.
Definition widths (show_all : bool) : list nat := if show_all then all_widths else few_widths.

Definition header_row (show_all : bool) (first : string) (cells : list string) : string :=
  trunc 350 (pad_right 3 first ++ columns (widths show_all) cells ++ newline).
Definition entry_row (show_all : bool) (id : Z) (cells : list string) : string :=
  trunc 350 (pad_left 2 (dec id) ++ " " ++ columns (widths show_all) cells ++ newline).

Definition header_rows (show_all : bool) : list string :=
  if show_all then
    [ header_row true "ID" ["accelType"; "userLoad"; "userLoad"; "Base"; "UUID"; "Parent"; "Pid"; "#slots"; "slot"; "load"; "Accelerator"];
      header_row true "" [""; "type"; "Region"; ""; ""; "UUID"; ""; "(RPU+PL+AIE)"; "Location"; "Handle"; ""];
      header_row true "--" ["-----------"; "---------"; "---------"; "-----------"; "---------"; "---------"; "-----";
                            "------------"; "--------"; "------"; "-----------"] ]%string
  else
    [ header_row false "ID" ["accelType"; "Base"; "slotLoc"; "Accelerator"];
      header_row false "--" ["-----------"; "-----------"; "-------"; "-----------"] ]%string.

(** [snprintf(buf + len, 16 - len, "%d,", v)] with [len = strlen(buf)]. *)
Definition append_num (buf : string) (v : Z) : string :=
  (buf ++ trunc (16 - strlen buf) (dec v ++ ","))%string.
Definition drop_last (s : string) : string := substring 0 (strlen s - 1) s.
Definition or_minus1 (s : string) : string := if streq s "" then "-1"%string else s.

(** The base name as shown, and what then follows its 11 bytes in the buffer:
    [strncpy()] of a name of 11 characters writes no NUL. *)
Definition shown_base (name rest : string) : string * string :=
  if (11 <? strlen name)%nat then ((substring 0 8 name ++ "...")%string, ""%string)
  else if (strlen name =? 11)%nat then ((name ++ rest)%string, rest) else (name, rest).

Definition show_slots (b : basePLDesign) : string :=
  if streq (b_type b) "RPU" then ("(" ++ dec (num_pl_slots b) ++ "+0+0)")%string
  else ("(0+" ++ dec (if is_flat_type (b_type b) then 0 else num_pl_slots b) ++ "+" ++ dec (num_aie_slots b) ++ ")")%string.

Section Listing.
Context {W : Type} `{Env W}.

Definition strcat (res msg : string) : M (sys W) string := sprintf_into RES_SIZE (res ++ msg).

(** Does the slot hold [accel_name]? *)
Definition slot_matches (s : slot_info) (accel_name : string) : M (sys W) bool :=
  if (is_aie s || is_rpu s) && streq (s_name s) accel_name then ret true
  else if negb (is_aie s) && negb (is_rpu s) then
    match s_accel s with
    | None => ret false
    | Some a => let! p := the NullDeref (pkg a) in ret (streq (pname p) accel_name)
    end
  else ret false.

(** [for (slot = 0; slot < n; slot++)] with a [uint8_t slot]: 256 turns are
    enough unless [n] is larger than a [uint8_t], when the loop is endless. *)
Fixpoint slot_loop (fuel : nat) (i : nat) (n slot : Z) (name : string) (acc : string * string) :
    M (sys W) (string * string) :=
  match fuel with
  | O => crash OutOfFuel
  | S fuel =>
      if slot <? n then
        let! s := get_slot i (Z.to_nat slot) in
        match s with
        | None => slot_loop fuel i n (u8 (slot + 1)) name acc
        | Some s =>
            let! hit := slot_matches s name in
            slot_loop fuel i n (u8 (slot + 1)) name
              (if hit : bool then (append_num acc.1 slot, append_num acc.2 (slot_handle s)) else acc)
        end
      else ret acc
  end.

Definition accel_cells (show_all : bool) (b : basePLDesign) (a : accel_info) (base locs handles : string) : list string :=
  if show_all then
    [accel_type a; "-"; "-"; base; fmt_uuid (a_uid a); fmt_uuid (a_pid a); pid_uid_check b a; show_slots b;
     or_minus1 locs; or_minus1 handles; a_name a]%string
  else [accel_type a; base; or_minus1 locs; a_name a].

(** The row of accelerator [a] of base [i]; the state of the listing is the
    text so far and the tail of the base-name buffer. *)
Definition accel_row (show_all use_filter : bool) (i : nat) (a : accel_info) (st : string * string) :
    M (sys W) (string * string) :=
  let! board := gp boardName in
  if negb (is_package a) || (use_filter && negb (board_name_matches (a_name a) board)) then ret st
  else
    let! b := get_base i in
    let! lh := (if negb (active b =? 0)
                then slot_loop 256 i (num_pl_slots b + num_aie_slots b) 0 (a_name a) (""%string, ""%string)
                else ret (""%string, ""%string)) in
    let '(base, rest) := shown_base (b_name b) st.2 in
    let! res := strcat st.1 (entry_row show_all (a_list_id a)
                  (accel_cells show_all b a base (drop_last lh.1) (drop_last lh.2))) in
    ret (res, rest).

Fixpoint accel_rows (show_all use_filter : bool) (i : nat) (l : list accel_info) (st : string * string) :
    M (sys W) (string * string) :=
  match l with
  | [] => ret st
  | a :: l => let! st := accel_row show_all use_filter i a st in accel_rows show_all use_filter i l st
  end.

Definition user_cells (show_all : bool) (b : basePLDesign) : list string :=
  if show_all then
    ["-"; if user_load_type b then "Partial" else "Full"; user_load_region b; "-"; "N/A"; "N/A"; "-"; "-"; "-";
     dec (user_load_handle b); b_name b]%string
  else ["-"; "-"; "-"; b_name b]%string.

Definition base_rows (show_all use_filter : bool) (i : nat) (st : string * string) : M (sys W) (string * string) :=
  let! b := get_base i in
  let! st := (if lists_packages b then accel_rows show_all use_filter i (accel_list b) st else ret st) in
  if is_user_load b then
    let! res := strcat st.1 (entry_row show_all (list_id b) (user_cells show_all b)) in ret (res, st.2)
  else ret st.

Fixpoint all_rows (show_all use_filter : bool) (l : list nat) (st : string * string) : M (sys W) (string * string) :=
  match l with
  | [] => ret st
  | i :: l => let! st := base_rows show_all use_filter i st in all_rows show_all use_filter l st
  end.

(** The table, once the packages are up to date. *)
Definition render_listing (flag : Z) : M (sys W) string :=
  let show_all := negb (Z.land flag LIST_PKG_SHOW_ALL =? 0) in
  let use_filter := negb (Z.land flag LIST_PKG_FILTER =? 0) in
  let! p := gp id in
  if use_filter && (streq (boardName p) "" || strcaseeq (boardName p) DEFAULT_BOARD_NAME) then
    ret ("Error: Unable to read board name from EEPROM. Filter requires valid board name." ++ newline)%string
  else
    let! junk := env (look junk_string) in
    let head := ("boot.pdi PL UUID: " ++ fmt_uuid (boot_pdi_uid p) ++ newline ++ newline)%string in
    let! st := all_rows show_all use_filter (seq 0 MAX_WATCH)
                 (fold_left String.append (header_rows show_all) head, junk) in
    ret st.1.

Definition listAccelerators (flag : Z) : M (sys W) string :=
  let! d := getd in
  (if firmware_rescan_pending d then
     modd (fun d => d <| firmware_rescan_pending := false |>) ;; firmware_dir_walk
   else ret tt) ;;
  modd assign_list_ids ;;
  modd (fun d => d <| pkg_listing_dirty := false |>) ;;
  render_listing flag.

(** ** Devices of a loaded accelerator *)

(** The RPMsg devices of slot [k] of the RPU base [i], brought up to date. *)
Definition refresh_rpmsg (i k : nat) : M (sys W) (list rpmsg_dev) :=
  let! s := get_slot i k in
  let! s := the NullDeref s in
  let! l := the WildPtr (rpmsg_dev_list (rpu s)) in
  let! l := env (update_rpmsg_dev_list l (rpmsg_ctrl_dev_name (rpu s)) (virtio_num (rpu s))) in
  set_slot i k (Some (s <| rpu ::= fun r => r <| rpmsg_dev_list := Some l |> |>)) ;;
  ret l.

(** The slot of the RPU base that has the handle. *)
Definition rpu_slot_of (h : Z) : M (sys W) (option (nat * nat)) :=
  let! rb := gp active_rpu_base in
  match rb with
  | None => ret None
  | Some i => let! k := find_slot_from_handle i h in
              ret (match k with Some k => Some (i, k) | None => None end)
  end.

Definition rpmsg_line (d : rpmsg_dev) : string :=
  (pad_right 30 (rpmsg_channel_name d) ++ " " ++ pad_right 30 (ept_rpmsg_dev_name d) ++ newline)%string.

(** The lines of the IP devices, while fewer than [limit] bytes are written. *)
Fixpoint ip_lines (l : list nat) (limit : Z) (p : string) : M (hw W) string :=
  match l with
  | [] => ret p
  | x :: l =>
      if Z.of_nat (strlen p) <? limit then
        let! d := get_dev x in
        match dev_name d with
        | None => ip_lines l limit p
        | Some n => ip_lines l limit (p ++ pad_right 30 n ++ " " ++ dpath d ++ newline)
        end
      else ret p
  end.

(** What [list_accel_uio()] leaves in [buf], which was empty and has [sz]
    bytes. *)
Definition list_accel_uio (h : Z) (sz : Z) : M (sys W) string :=
  let! pb := gp active_base in
  let! rs := rpu_slot_of h in
  match rs with
  | Some (i, k) =>
      let! l := refresh_rpmsg i k in
      sprintf_into (Z.to_nat sz) (fold_right (fun d s => (rpmsg_line d ++ s)%string) ""%string l)
  | None =>
      match pb with
      | None => sprintf_into (Z.to_nat sz) ("No active design" ++ newline)
      | Some i =>
          let! k := find_slot_from_handle i h in
          match k with
          | None => ret ""%string
          | Some k =>
              let! b := get_base i in
              let unused := ("slot " ++ dec (Z.of_nat k) ++ " is not used or invalid" ++ newline)%string in
              match slots b with
              | None => sprintf_into (Z.to_nat sz) ("No active design" ++ newline)
              | Some _ =>
                  if num_pl_slots b <=? Z.of_nat k then sprintf_into (Z.to_nat sz) unused
                  else
                    let! s := get_slot i k in
                    match s with
                    | None => sprintf_into (Z.to_nat sz) unused
                    | Some s =>
                        match s_accel s with
                        | None => sprintf_into (Z.to_nat sz) ("No Accel in slot " ++ dec (Z.of_nat k) ++ newline)
                        | Some a =>
                            let! p := in_hw (ip_lines (ip_dev a) (sz - 80) "") in
                            let! p := sprintf_into (Z.to_nat sz) p in
                            let! q := in_hw (dfx_shell_uio_list (sz - 80 - Z.of_nat (strlen p))) in
                            sprintf_into (Z.to_nat sz) (p ++ q)
                        end
                    end
              end
          end
      end
  end.

(** The first IP device whose name contains [name]. *)
Fixpoint ip_by_name (l : list nat) (name : string) : M (hw W) (option string) :=
  match l with
  | [] => ret None
  | x :: l =>
      let! d := get_dev x in
      let! n := the NullArg (dev_name d) in
      if has_sub n name then ret (Some (dpath d)) else ip_by_name l name
  end.

Definition names_channel (name : string) (d : rpmsg_dev) : bool :=
  (strlen name =? strlen (rpmsg_channel_name d))%nat && strneq name (rpmsg_channel_name d) (strlen name).

(** [get_accel_uio_by_name()]: [None] is NULL. *)
Definition get_accel_uio_by_name (h : Z) (name : string) : M (sys W) (option string) :=
  let! pb := gp active_base in
  let! rs := rpu_slot_of h in
  match rs with
  | Some (i, k) =>
      let! l := refresh_rpmsg i k in
      ret (ept_rpmsg_dev_name <$> List.find (names_channel name) l)
  | None =>
      match pb with
      | None => ret None
      | Some i =>
          let! k := find_slot_from_handle i h in
          match k with
          | None => ret None
          | Some k =>
              let! b := get_base i in
              match slots b with
              | None => ret None
              | Some _ =>
                  if num_pl_slots b <=? Z.of_nat k then ret None
                  else
                    let! s := get_slot i k in
                    match s with
                    | None => ret None
                    | Some s =>
                        match s_accel s with
                        | None => ret None
                        | Some a =>
                            let! r := in_hw (ip_by_name (ip_dev a) name) in
                            match r with
                            | Some p => ret (Some p)
                            | None => in_hw (dfx_shell_uio_by_name name)
                            end
                        end
                    end
              end
          end
      end
  end.
End Listing.
