(* ===== verification/Proto.v ===== *)
(** * The request protocol

    [process_dfx_req()] of [example/sys/linux/dfx-mgrd.c] with the message
    format of [src/dfxmgr_client.h].  A message's [data] is the C string it
    holds.  A request produces a reply, or closes the connection; [Server] reads
    the one and writes the other. *)
From S2P Require Import Prelude CStr Env Model UserLoad Json Accel Rpu Pdi Slots ListIds Load Unload Registry.
From S2P Require Import Eeprom Events Listing.
Open Scope Z_scope.
Open Scope dfx_scope.

Definition HEADERSIZE : Z := 24.
Definition DATA_SIZE : nat := 32 * 1024.
Definition FPGA_STATE_SIZE : Z := 64.
Definition DFX_RESP_PKG_DIRTY : Z := 0x10.
Definition USER_READBACK_DATAFRAME : Z := 0x20.

Inductive dfx_mgr_request : Set :=
  | QUIT | LOAD_ACCEL | UNLOAD_ACCEL | LIST_PACKAGE | LIST_ACCEL_UIO | USER_READBACK | USER_LOAD | USER_UNLOAD
  | LOAD_ACCEL_BY_ID | UNLOAD_ACCEL_BY_ID | LOAD_ACCEL_BY_NAME | UNLOAD_ACCEL_BY_NAME | UNLOAD_ACCEL_BY_HANDLE.
#[export] Instance request_eq_dec : EqDecision dfx_mgr_request.
Proof. solve_decision. Defined.

(** The numbers on the wire; every other number is unsupported. *)
Definition request_id (r : dfx_mgr_request) : Z :=
  match r with
  | QUIT => 0 | LOAD_ACCEL => 6 | UNLOAD_ACCEL => 7 | LIST_PACKAGE => 8 | LIST_ACCEL_UIO => 9
  | USER_READBACK => 15 | USER_LOAD => 16 | USER_UNLOAD => 17 | LOAD_ACCEL_BY_ID => 18
  | UNLOAD_ACCEL_BY_ID => 19 | LOAD_ACCEL_BY_NAME => 20 | UNLOAD_ACCEL_BY_NAME => 21
  | UNLOAD_ACCEL_BY_HANDLE => 22
  end.
Definition all_requests : list dfx_mgr_request :=
  [QUIT; LOAD_ACCEL; UNLOAD_ACCEL; LIST_PACKAGE; LIST_ACCEL_UIO; USER_READBACK; USER_LOAD; USER_UNLOAD;
   LOAD_ACCEL_BY_ID; UNLOAD_ACCEL_BY_ID; LOAD_ACCEL_BY_NAME; UNLOAD_ACCEL_BY_NAME; UNLOAD_ACCEL_BY_HANDLE].
Definition request_of (id : Z) : option dfx_mgr_request := List.find (fun r => request_id r =? id) all_requests.

Record message := Message {
  msg_id : Z;
  msg_size : Z;
  msg_flags : Z;
  msg_u : Z;                    (* _u.slot, _u.fpga_flags *)
  msg_data : string;
}.
#[export] Instance message_eta : Eta message := fun m =>
  Message (msg_id m) (msg_size m) (msg_flags m) (msg_u m) (msg_data m).
Definition message0 : message := Message 0 0 0 0 "".

(** [format_load_response()] on the zeroed reply. *)
Definition format_load_response (value : Z) (allow_warn dirty : bool) (fpga_state : option string) : message :=
  let suffix := match fpga_state with
                | Some s => if streq s "" then ""%string else (":" ++ s)%string
                | None => ""%string
                end in
  let data := (dec value ++ suffix)%string in
  message0 <| msg_data := data |> <| msg_size := 1 + Z.of_nat (strlen data) |>
           <| msg_flags := if allow_warn && dirty then DFX_RESP_PKG_DIRTY else 0 |>.

(** A reply that is one number. *)
Definition number_reply (v : Z) : message :=
  message0 <| msg_data := dec v |> <| msg_size := 1 + Z.of_nat (strlen (dec v)) |>.
Definition text_reply (s : string) : message :=
  message0 <| msg_data := s |> <| msg_size := Z.of_nat (strlen s) |>.

(** The first two tokens of a load request: the name or ID, the CMA path. *)
Definition load_args (data : string) : option string * option string :=
  match strtok ":" data with
  | None => (None, None)
  | Some (t, r) => (Some t, fst <$> strtok ":" r)
  end.

(** [strtok(NULL, delims)]: the token and the rest. *)
Definition next_token (delims : string) (rest : option string) : option string * option string :=
  match rest with
  | None => (None, None)
  | Some r => match strtok delims r with None => (None, None) | Some (t, r) => (Some t, Some r) end
  end.
Record user_load_args := UserLoadArgs {
  ul_binfile : option string;
  ul_overlay : option string;
  ul_region : option string;
  ul_key : option string;
}.
Definition parse_user_load (flags : Z) (data : string) : user_load_args :=
  let '(binfile, r) := next_token " : " (Some data) in
  let '(overlay, region, r) :=
    if flag_set flags USER_LOAD_HAS_OVERLAY then
      let '(o, r) := next_token " : " r in
      let '(n, r) := next_token " : " r in (o, n, r)
    else (None, None, r) in
  UserLoadArgs binfile overlay region (fst (next_token " : " r)).

Section Proto.
Context {W : Type} `{Env W}.

(** [load_accelerator(name, ...)] where [name] may be NULL: [findBaseDesign()]
    compares it as soon as one entry is in use. *)
Definition load_accelerator_arg (name : option string) (cma : option string) (fs : option string) (sz : Z) :
    M (sys W) (Z * option string) :=
  match name with
  | Some name => load_accelerator name cma fs sz
  | None =>
      let! d := getd in
      (if firmware_rescan_pending d then
         modd (fun d => d <| firmware_rescan_pending := false |>) ;; firmware_dir_walk
       else ret tt) ;;
      let! d := getd in
      guard_that NullArg (negb (existsb in_use (base_designs d))) ;;
      ret (- DFX_MGR_NO_PACKAGE_FOUND_ERROR, fs)
  end.

Definition is_pkg_listing_dirty : M (sys W) bool := let! d := getd in ret (pkg_listing_dirty d).

Definition load_reply (allow_warn : bool) (rv : Z * option string) : M (sys W) (option message) :=
  let! dirty := is_pkg_listing_dirty in
  ret (Some (format_load_response rv.1 allow_warn dirty rv.2)).

Definition handle_request (r : dfx_mgr_request) (m : message) : M (sys W) (option message) :=
  let data := msg_data m in
  match r with
  | QUIT => ret None
  | LOAD_ACCEL | LOAD_ACCEL_BY_NAME =>
      let '(name, cma) := load_args data in
      let! rv := load_accelerator_arg name cma (Some ""%string) FPGA_STATE_SIZE in
      load_reply false rv
  | UNLOAD_ACCEL =>
      let slot := if strcaseeq data "base" then -1 else atoi data in
      let! r := unload_accelerator slot in
      ret (Some (number_reply r))
  | LIST_PACKAGE => let! s := listAccelerators (msg_flags m) in ret (Some (text_reply s))
  | LIST_ACCEL_UIO =>
      let slot := int32 (msg_u m) in
      if streq data "" then
        let! s := list_accel_uio slot (Z.of_nat DATA_SIZE) in ret (Some (text_reply s))
      else
        let! p := get_accel_uio_by_name slot data in ret (Some (text_reply (default ""%string p)))
  | USER_READBACK =>
      let type := if flag_set (msg_flags m) USER_READBACK_DATAFRAME then 1 else 0 in
      let! rr := user_readback type (Some data) ""%string (Z.of_nat DATA_SIZE) in
      ret (Some (message0 <| msg_data := rr.2 |> <| msg_size := 1 + Z.of_nat (strlen rr.2) |>))
  | USER_LOAD =>
      let a := parse_user_load (msg_flags m) data in
      let! rv := user_load (msg_flags m) (msg_u m) (ul_binfile a) (ul_overlay a) (ul_region a) (ul_key a)
                   (Some ""%string) FPGA_STATE_SIZE in
      load_reply false rv
  | USER_UNLOAD => let! r := user_unload_overlay (Some data) in ret (Some (number_reply r))
  | LOAD_ACCEL_BY_ID =>
      let '(id, cma) := load_args data in
      let! id := the NullArg id in
      let! rv := load_accelerator_by_id (atoi id) cma (Some ""%string) FPGA_STATE_SIZE in
      load_reply true rv
  | UNLOAD_ACCEL_BY_ID => let! r := unload_accelerator_by_id (atoi data) in load_reply true (r, None)
  | UNLOAD_ACCEL_BY_NAME => let! r := unload_accelerator_by_name data in ret (Some (number_reply r))
  | UNLOAD_ACCEL_BY_HANDLE => let! r := unload_accelerator (atoi data) in ret (Some (number_reply r))
  end.

(** [process_dfx_req()]: [None] closes the connection. *)
Definition process_dfx_req (m : message) : M (sys W) (option message) :=
  match request_of (msg_id m) with
  | Some r => handle_request r m
  | None =>
      let s := ("Unsupported message id " ++ dec (int32 (msg_id m)))%string in
      ret (Some (message0 <| msg_data := s |> <| msg_size := 1 + Z.of_nat (strlen s) |>))
  end.

(** A client's requests, one after the other. *)
Fixpoint serve (l : list message) : M (sys W) (list (option message)) :=
  match l with
  | [] => ret []
  | m :: l => let! r := process_dfx_req m in let! rs := serve l in ret (r :: rs)
  end.
End Proto.
