(* ===== verification/Server.v ===== *)
(** * The server

    [main()] of [example/sys/linux/dfx-mgrd.c]: the listening socket, created or
    handed over by systemd, and the [select()] loop that accepts connections and
    serves the ready ones with [process_dfx_req()].  The socket calls are a class
    of their own over the same world. *)
From stdpp Require Import gmap fin_sets.
From S2P Require Import Prelude CStr Env Model Registry Events Listing Proto.
Open Scope Z_scope.
Open Scope dfx_scope.

Definition SERVER_SOCKET : string := "/var/run/dfx-mgrd.socket".
Definition BACKLOG : Z := 10.
Definition FD_SETSIZE : Z := 1024.

(** The socket calls; what is not a result of its own is a return value. *)
Class Net (W : Type) := {
  getpid : W -> Z;
  socket_ : W -> Z * W;
  bind_ : Z -> string -> W -> Z * W;
  listen_ : Z -> Z -> W -> Z * W;
  accept_ : Z -> W -> Z * W;
  select_ : Z -> W -> option (Z -> bool) * W;   (* which descriptors are ready; None: -1 *)
  eintr : W -> bool;                            (* errno == EINTR *)
  recv_ : Z -> W -> option message * W;         (* read(); None: 0 or negative *)
  send_ : Z -> message -> W -> W;
}.

(** The daemon, and the local variables of [main()]. *)
Record server (W : Type) := Server { srv : sys W; socket_d : Z; fds : gset Z; fdmax : Z }.
Arguments Server {W} srv socket_d fds fdmax.
Arguments srv {W} s.
Arguments socket_d {W} s.
Arguments fds {W} s.
Arguments fdmax {W} s.
#[export] Instance server_eta {W} : Eta (server W) := fun s => Server (srv s) (socket_d s) (fds s) (fdmax s).

Section Server.
Context {W : Type} `{Env W} `{Net W}.

Definition in_srv {A} (m : M (sys W) A) : M (server W) A := zoom srv (fun x s => s <| srv := x |>) m.
Definition net {A} (m : M W A) : M (server W) A := in_srv (env m).

(** ** The listening socket *)

Definition listen_fd_from_env : M W Z :=
  let! e := look (getenv "LISTEN_PID") in
  let! pid := look getpid in
  if negb (match e with Some e => atoi e =? pid | None => false end) then ret (-1)
  else
    let! e := look (getenv "LISTEN_FDS") in
    ret (if match e with Some e => atoi e <? 1 | None => true end then -1 else 3).

(** The descriptor, or the message of [dfx_exit()]. *)
Definition open_socket : M W (Z + string) :=
  let! there := look (exists_ SERVER_SOCKET) in
  let! u := (if there then act (unlink_ SERVER_SOCKET) else ret 0) in
  if u =? -1 then ret (inr ("unlink " ++ SERVER_SOCKET)%string)
  else
    let! fd := act socket_ in
    if fd =? -1 then ret (inr "socket"%string)
    else
      let! b := act (bind_ fd SERVER_SOCKET) in
      if b =? -1 then ret (inr "bind"%string)
      else
        let! l := act (listen_ fd BACKLOG) in
        ret (if l =? -1 then inr "listen"%string else inl fd).

Definition listening_socket : M W (Z + string) :=
  let! fd := listen_fd_from_env in
  if fd <? 0 then open_socket else ret (inl fd).

(** [FD_SET] on a descriptor that an [fd_set] has no bit for writes past it. *)
Definition FD_SET (fd : Z) (s : gset Z) {S} : M S (gset Z) :=
  guard_that OutOfBounds ((0 <=? fd) && (fd <? FD_SETSIZE)) ;; ret ({[ fd ]} ∪ s).

(** [main()] up to the loop: the server, or the message it exits with. *)
Definition server_start : M (sys W) (string + server W) :=
  dfx_init ;;
  let! r := env listening_socket in
  match r with
  | inr e => ret (inl e)
  | inl fd =>
      let! s := FD_SET fd ∅ in
      let! x := get in
      ret (inr (Server x fd s fd))
  end.

(** ** The loop *)

Definition drop_connection (fd : Z) : M (server W) unit :=
  net (act_ (close_fd fd)) ;; modify (fun s => s <| fds ::= fun l => l ∖ {[ fd ]} |>).

(** [process_dfx_req(fd, &fds)] with its [read()] and [write()]. *)
Definition serve_connection (fd : Z) : M (server W) unit :=
  let! m := net (act (recv_ fd)) in
  match m with
  | None => drop_connection fd
  | Some m =>
      let! reply := in_srv (process_dfx_req m) in
      match reply with
      | None => drop_connection fd
      | Some r => net (act_ (send_ fd r))
      end
  end.

(** [Some e]: the daemon exits with [e]. *)
Definition accept_connection : M (server W) (option string) :=
  let! s := get in
  let! fd := net (act (accept_ (socket_d s))) in
  if fd =? -1 then ret (Some "accept"%string)
  else
    let! l := FD_SET fd (fds s) in
    modify (fun s => s <| fds := l |> <| fdmax ::= fun n => if n <? fd then fd else n |>) ;;
    ret None.

Definition serve_fd (fd : Z) : M (server W) (option string) :=
  let! s := get in
  if fd =? socket_d s then accept_connection else serve_connection fd ;; ret None.

(** [for (int fd = 0; fd < (fdmax + 1); fd++)]: [fdmax] is read anew each turn. *)
Fixpoint scan_fds (fuel : nat) (readfds : gset Z) (fd : Z) : M (server W) (option string) :=
  let! s := get in
  if fd <? fdmax s + 1 then
    match fuel with
    | O => crash OutOfFuel
    | S f =>
        let! r := (if bool_decide (fd ∈ readfds) then serve_fd fd else ret None) in
        match r with Some e => ret (Some e) | None => scan_fds f readfds (fd + 1) end
    end
  else ret None.

(** One turn of [while (1)]. *)
Definition server_round : M (server W) (option string) :=
  let! s := get in
  let! ready := net (act (select_ (fdmax s + 1))) in
  match ready with
  | None =>
      let! again := net (look eintr) in
      ret (if again : bool then None else Some "select"%string)
  | Some ready => scan_fds (Z.to_nat FD_SETSIZE) (filter (fun fd => ready fd = true) (fds s)) 0
  end.
End Server.
