(* ===== verification/Client.v ===== *)
(** * The clients

    The client library [src/dfxmgr_client.c] and the command line tool
    [example/sys/linux/dfx-mgr-client.c]: the requests they build and what they
    make of the reply.  The socket is a parameter: [transact] sends a message
    and waits for the reply ([None]: [write()] or [read()] failed).  The tool's
    options arrive as [getopt_long()] delivers them. *)
From S2P Require Import Prelude CStr Env Model UserLoad Unload Proto.
Open Scope Z_scope.
Open Scope dfx_scope.

Definition MAX_REGION_NAME_LEN : nat := 8.
Definition PATH_MAX : nat := 4096.

(** ** Replies *)

(** [dfxmgr_split_fpga_state()]: the value and the state after the colon. *)
Definition dfxmgr_split_fpga_state (resp : string) : string * option string :=
  match strchr resp ":" with
  | Some i => (substring 0 i resp, Some (str_drop (S i) resp))
  | None => (resp, None)
  end.

Definition starts_with (c : ascii) (s : string) : bool := Ascii.eqb (str_nth s 0) c.

(** The exit status of the tool after a load or an unload. *)
Definition print_load_result (resp : string) : Z :=
  let v := (dfxmgr_split_fpga_state resp).1 in
  if negb (starts_with "-" v) then 0 else - int32 (strtol 10 (str_drop 1 v)).1.
Definition print_unload_result (resp : string) : Z := if starts_with "0" resp then 0 else -1.

(** ** Requests of the tool *)

Definition validate_numeric_arg (str : string) (min_val : Z) : bool :=
  let '(v, rest) := strtol 10 str in streq rest "" && (min_val <=? v).

(** [format_load_request()] of [argv]; [None] is the missing [-cma] argument. *)
Definition format_load_request (argv : list string) (data_size : nat) : option string :=
  match argv with
  | _ :: _ :: name :: opt :: rest =>
      if streq opt "-cma" then
        match rest with
        | [] => None
        | cma :: _ => Some (trunc data_size (name ++ ":" ++ cma))
        end
      else Some (trunc data_size name)
  | _ :: _ :: name :: [] => Some (trunc data_size name)
  | _ => None
  end.

Definition secure_flags : list (string * Z) :=
  [("AuthDDR", 0x40); ("AuthOCM", 0x80); ("EnUsrKey", 0x20); ("EnDevKey", 0x04);
   ("AuthEnUsrKeyDDR", 0x60); ("AuthEnUsrKeyOCM", 0xA0); ("AuthEnDevKeyDDR", 0x44);
   ("AuthEnDevKeyOCM", 0x84)]%string.
Definition lookup_secure_flag (name : string) : option Z :=
  snd <$> List.find (fun kv => streq name kv.1) secure_flags.

(** What [getopt_long()] returns for one option; [OptRead] carries the name that
    follows [-r], if any. *)
Inductive copt : Set :=
  | OptBin (arg : string) | OptOverlay (arg : string) | OptType (arg : string) | OptRegion (arg : string)
  | OptSecure (arg : string) | OptKey (arg : string) | OptRead (arg : option string) | OptReadType (arg : string)
  | OptRemove | OptForce | OptUnknown.

Record cargs := CArgs {
  ca_flag : Z;                  (* user_load_flag *)
  ca_sflag : Z;
  ca_unload : bool;             (* user_unload_flag *)
  ca_bin : option string;
  ca_overlay : option string;
  ca_region : option string;
  ca_key : option string;
  ca_read : bool;               (* readback_mode *)
  ca_rb_type : option string;
  ca_read_file : string;
  ca_unknown : bool;            (* unknown_arg *)
}.
#[export] Instance cargs_eta : Eta cargs := fun a =>
  CArgs (ca_flag a) (ca_sflag a) (ca_unload a) (ca_bin a) (ca_overlay a) (ca_region a) (ca_key a) (ca_read a)
        (ca_rb_type a) (ca_read_file a) (ca_unknown a).
Definition cargs0 : cargs := CArgs 0 0 false None None None None false None "readback" true.

(** One option; [None] ends the program with an error. *)
Definition add_opt (o : copt) (a : cargs) : option cargs :=
  let a := a <| ca_unknown := false |> in
  match o with
  | OptBin x => Some (a <| ca_bin := Some x |>)
  | OptOverlay x => Some (a <| ca_overlay := Some x |>)
  | OptType x => if streq x "Partial" then Some (a <| ca_flag := Z.lor (ca_flag a) USER_LOAD_PARTIAL |>)
                 else if streq x "Full" then Some a else None
  | OptRegion x => if (MAX_REGION_NAME_LEN <? strlen x)%nat then None else Some (a <| ca_region := Some x |>)
  | OptSecure x => match lookup_secure_flag x with
                   | Some v => Some (a <| ca_sflag := Z.lor (ca_sflag a) v |>)
                   | None => None
                   end
  | OptKey x => Some (a <| ca_key := Some x |>)
  | OptRead x => Some (a <| ca_read := true |> <| ca_read_file := default (ca_read_file a) x |>)
  | OptReadType x => Some (a <| ca_rb_type := Some x |>)
  | OptRemove => Some (a <| ca_unload := true |>)
  | OptForce => Some (a <| ca_flag := Z.lor (ca_flag a) USER_LOAD_FORCE |>)
  | OptUnknown => Some (a <| ca_unknown := true |>)
  end.
Fixpoint parse_opts (l : list copt) (a : cargs) : option cargs :=
  match l with
  | [] => Some a
  | o :: l => match add_opt o a with Some a => parse_opts l a | None => None end
  end.

(** The request that the options ask for; [cwd] is [None] when [getcwd()]
    fails. *)
Definition readback_request (a : cargs) (cwd : option string) : option message :=
  if (if ca_bin a is Some _ then true else false) || ca_unload a then None
  else
    let path := if starts_with "/" (ca_read_file a) then Some (ca_read_file a)
                else match cwd with Some d => Some (d ++ "/" ++ ca_read_file a)%string | None => None end in
    match path with
    | None => None
    | Some p =>
        if negb (fits PATH_MAX p) then None
        else
          match ca_rb_type a with
          | Some t =>
              if negb (streq t "0") && negb (streq t "1") then None
              else Some (Message (request_id USER_READBACK) 0 (if atoi t =? 1 then USER_READBACK_DATAFRAME else 0) 0 p)
          | None => Some (Message (request_id USER_READBACK) 0 0 0 p)
          end
    end.

Definition unload_request (a : cargs) : option message :=
  match ca_bin a, ca_overlay a with
  | None, None => Some (Message (request_id USER_UNLOAD) 0 0 0 (default "full"%string (ca_region a)))
  | _, _ => None
  end.

Definition ENUSRKEY : Z := 0x20.
Definition user_load_request (a : cargs) : option message :=
  match ca_bin a with
  | None => None
  | Some bin =>
      if flag_set (ca_flag a) USER_LOAD_FORCE && negb (flag_set (ca_flag a) USER_LOAD_PARTIAL) then None
      else
        let with_overlay :=
          match ca_overlay a with
          | None => Some (bin, ca_flag a)
          | Some ov =>
              match ca_region a with
              | None => if flag_set (ca_flag a) USER_LOAD_PARTIAL then None
                        else Some ((bin ++ " : " ++ ov ++ " : full")%string, Z.lor (ca_flag a) USER_LOAD_HAS_OVERLAY)
              | Some r => Some ((bin ++ " : " ++ ov ++ " : " ++ r)%string, Z.lor (ca_flag a) USER_LOAD_HAS_OVERLAY)
              end
          end in
        match with_overlay with
        | None => None
        | Some (data, flags) =>
            let data := match ca_key a with
                        | Some k => if negb (streq k "") && flag_set (ca_sflag a) ENUSRKEY
                                    then (data ++ trunc (DATA_SIZE - strlen data) (" : " ++ k))%string else data
                        | None => data
                        end in
            Some (Message (request_id USER_LOAD) 0 flags (ca_sflag a) data)
        end
  end.

(** What the tool sends: [Some (inr r)] a request, [Some (inl c)] an exit status
    without a request, [None] an error exit (-1). *)
Definition option_request (opts : list copt) (cwd : option string) : option message :=
  match parse_opts opts cargs0 with
  | None => None
  | Some a =>
      if ca_unknown a then None
      else if ca_read a then readback_request a cwd
      else if ca_unload a then unload_request a
      else user_load_request a
  end.

Definition list_flags (args : list string) : Z :=
  fold_left (fun f x => if streq x "-all" then Z.lor f 4 else if streq x "-filter" then Z.lor f 8 else f) args 0.

Definition plain_request (r : dfx_mgr_request) (data : string) : message := Message (request_id r) 0 0 0 data.

(** [main()]'s commands, [argv[1]] being [cmd]; [None] is the exit status -1
    before anything is sent, or a command that sends nothing. *)
Definition command_request (argv : list string) (opts : list copt) (cwd : option string) : option message :=
  match argv with
  | _ :: cmd :: args =>
      let numeric r min := match args with
                           | [] => None
                           | x :: _ => if validate_numeric_arg x min
                                       then Some (plain_request r (trunc DATA_SIZE x)) else None
                           end in
      if streq cmd "-load" then
        match args with
        | [] => None
        | x :: _ => if validate_numeric_arg x 1
                    then plain_request LOAD_ACCEL_BY_ID <$> format_load_request argv DATA_SIZE else None
        end
      else if streq cmd "-remove" then None
      else if streq cmd "-unload" then numeric UNLOAD_ACCEL_BY_ID 0
      else if streq cmd "-loadByName" then plain_request LOAD_ACCEL_BY_NAME <$> format_load_request argv DATA_SIZE
      else if streq cmd "-unloadByName" then
        match args with [] => None | x :: _ => Some (plain_request UNLOAD_ACCEL_BY_NAME (trunc DATA_SIZE x)) end
      else if streq cmd "-unloadByHandle" then numeric UNLOAD_ACCEL_BY_HANDLE (-1)
      else if streq cmd "-listPackage" then Some (Message (request_id LIST_PACKAGE) 0 (list_flags args) 0 "")
      else if streq cmd "-listUIO" then
        let slot := match args with
                    | [x] | [x; _] => Z.land 0xff (strtol 10 x).1
                    | _ => 0
                    end in
        Some (Message (request_id LIST_ACCEL_UIO) 0 0 slot (match args with _ :: u :: _ => u | _ => ""%string end))
      else if streq cmd "-h" || streq cmd "--help" then None
      else option_request opts cwd
  | _ => None
  end.

(** [send_and_recv_msg()] fills the size in. *)
Definition sized (m : message) : message := m <| msg_size := Z.of_nat (strlen (msg_data m)) |>.

(** ** The client library *)

Section Client.
Context {W : Type} (transact : message -> M W (option message)).

(** [dfxmgr_load()]. *)
Definition dfxmgr_load (pkg_name : option string) : M W Z :=
  match pkg_name with
  | None => ret (-1)
  | Some name =>
      if streq name "" then ret (-1)
      else
        let! r := transact ((plain_request LOAD_ACCEL (substring 0 DATA_SIZE name)) <| msg_size := Z.of_nat (strlen name) |>) in
        ret (match r with None => -1 | Some r => atoi (dfxmgr_split_fpga_state (msg_data r)).1 end)
  end.

(** [dfxmgr_unload()]. *)
Definition dfxmgr_unload (slot : Z) : M W Z :=
  if slot <? 0 then ret (-1)
  else
    let! r := transact ((plain_request UNLOAD_ACCEL (dec slot)) <| msg_size := 2 |>) in
    ret (match r with None => -1 | Some r => if starts_with "0" (msg_data r) then 0 else -1 end).

(** [dfxmgr_uio_by_name()]: what is copied into [obuf], or NULL. *)
Definition dfxmgr_uio_by_name (slot : Z) (name : option string) : M W (option string) :=
  match name with
  | None => ret None
  | Some n =>
      if (slot <? 0) || streq n "" then ret None
      else
        let! r := transact (Message (request_id LIST_ACCEL_UIO) (1 + Z.of_nat (strlen n)) 0 slot (substring 0 DATA_SIZE n)) in
        ret (match r with None => None | Some r => Some (substring 0 NAME_MAX (msg_data r)) end)
  end.
End Client.
