(* ===== verification/Examples.v ===== *)
(** * The example programs

    [main()] of the examples under [example/sys/linux] that use the libraries as
    these are: load_accel.c (the client library), accel-bzip2.c, accel-container.c
    and accel-shm.c (the accelerator library).  The options arrive as [getopt()]
    delivers them, [None] for one that is not given; what is printed is left out. *)
From stdpp Require Import gmap.
From S2P Require Import Prelude CStr Env Model Device Dma Accel Ring Shm Transfer Proto Client.
Open Scope Z_scope.
Open Scope dfx_scope.

(** ** load_accel.c *)

Definition load_accel_main {W} (transact : message -> M W (option message)) (argv : list string) : M W Z :=
  match argv with
  | _ :: name :: _ =>
      let! slot := dfxmgr_load transact (Some name) in
      let! _ := dfxmgr_uio_by_name transact slot (Some "AccelConfig"%string) in
      let! _ := dfxmgr_uio_by_name transact slot (Some "rm_comm_box"%string) in
      dfxmgr_unload transact slot
  | _ => ret 0
  end.

Section Examples.
Context {W : Type} `{Env W}.

(** The examples pass the path as a package, [(acapd_accel_pkg_hd_t * ) pkg_path]:
    the header is what the memory of the argument holds. *)
Variable header_at : string -> acapd_accel_pkg_hd.

(** ** accel-bzip2.c *)

Definition bzip2_main (pkg_path : option string) : M (hw W) Z :=
  match pkg_path with
  | None => ret (- EINVAL)
  | Some p =>
      let! ra := load_accel (init_accel (header_at p)) None in
      in_world (act_ (usleep 2000000)) ;;
      let! _ := remove_accel ra.2 in
      ret 0
  end.

(** ** accel-container.c *)

Definition container_main (pkg_path app_path : option string) : M (hw W) Z :=
  match pkg_path, app_path with
  | Some p, Some _ =>
      let! ra := load_accel (init_accel (header_at p)) None in
      let! _ := remove_accel ra.2 in
      ret ra.1
  | _, _ => ret (- EINVAL)
  end.

(** ** accel-shm.c *)

Definition DATA_SIZE_BYTES : Z := 4 * 1024.

(** [memset(&shm, 0, sizeof(shm))] of a static shared memory. *)
Definition zero_shm (s : nat) : M (dm W) unit := modify (fun st => st <| shms ::= <[s := shm_zero]> |>).

(** The words 1, 2, ... are stored in the memory of [s]. *)
Definition fill_words (s : nat) : M (dm W) unit :=
  for_each (fun i => bd_store s (4 * Z.of_nat i) (Z.of_nat i + 1)) (seq 0 (Z.to_nat (DATA_SIZE_BYTES / 4))).

(** A load from the memory of [s]. *)
Definition shm_load (s : nat) (off : Z) : M (dm W) Z :=
  let! x := get_shm s in
  guard_that WildPtr (negb (s_va x =? MAP_FAILED)) ;;
  guard_that OutOfBounds ((0 <=? off) && (off + 4 <=? s_size x)) ;;
  in_dev (rd (s_va x + off)).

(** Are they there?  The loop leaves at the first that is not. *)
Definition check_words (s : nat) : M (dm W) bool :=
  let! bad := for_until (fun i =>
                let! v := shm_load s (4 * Z.of_nat i) in ret (negb (v =? Z.of_nat i + 1)))
                (seq 0 (Z.to_nat (DATA_SIZE_BYTES / 4))) in
  ret (negb bad).

(** The label [error]: the accelerator is removed. *)
Definition removing (a : option acapd_accel) (r : Z) : M (dm W) Z :=
  match a with
  | None => crash NullDeref
  | Some a => let! _ := in_dev (remove_accel a) in ret r
  end.

(** From the allocation of the receive buffer on. *)
Definition shm_transfer (tx rx : nat) (tx_va : Z) (a : option acapd_accel) : M (dm W) Z :=
  let! rx_va := acapd_accel_alloc_shm DATA_SIZE_BYTES (Some rx) in
  if rx_va =? 0 then removing a (- EINVAL)
  else
    let! wa := acapd_accel_write_data a (Some tx) tx_va DATA_SIZE_BYTES false 0 in
    if wa.1 <? 0 then removing wa.2 (- EINVAL)
    else if acapd_accel_wait_for_data_ready (default accel_zero wa.2) <? 0 then removing wa.2 (- EINVAL)
    else
      let! ra := acapd_accel_read_data wa.2 (Some rx) rx_va DATA_SIZE_BYTES true in
      if ra.1 <? 0 then ret (- EINVAL)
      else
        let! ok := check_words rx in
        removing ra.2 (if ok then 0 else - EINVAL).

(** [tx], [rx]: the two static shared memories. *)
Definition shm_main (tx rx : nat) (pkg_path : option string) : M (dm W) Z :=
  match pkg_path with
  | None => ret (- EINVAL)
  | Some p =>
      let! ra := in_dev (load_accel (init_accel (header_at p)) None) in
      if negb (ra.1 =? 0) then removing (Some ra.2) ra.1
      else
        zero_shm tx ;;
        zero_shm rx ;;
        let! tx_va := acapd_accel_alloc_shm DATA_SIZE_BYTES (Some tx) in
        if tx_va =? 0 then removing (Some ra.2) (- EINVAL)
        else
          fill_words tx ;;
          shm_transfer tx rx tx_va (Some ra.2)
  end.
End Examples.
