(* ===== verification/ExampleSpec.v ===== *)
(** * What the examples do

    The shared-memory example never succeeds: it loads its accelerator without
    the description of its channels, so there is none to write to. *)
From stdpp Require Import gmap.
From S2P Require Import Prelude CStr Env Model Device Dma Json Accel Ring Shm Transfer Proto Client Examples.
Open Scope Z_scope.
Open Scope dfx_scope.

Section ExampleSpec.
Context {W : Type} `{Env W}.

Lemma wp_whatever {S A} (m : M S A) s : wp any_fault m (fun _ _ => True) s.
Proof. unfold wp. by destruct (m s). Qed.

(** A step whose result does not matter. *)
Lemma wp_skip {S A B} (m : M S A) (k : A -> M S B) Q s :
  (forall a s', wp any_fault (k a) Q s') -> wp any_fault (bind m k) Q s.
Proof. intros Hk. eapply wp_seq; [apply wp_whatever|]. auto. Qed.

(** Loading configures channels only for the type that has an accel.json. *)
Lemma load_accel_chnls a sc h :
  streq (atype a) "XRT_AIE_DFX" = false ->
  wp any_fault (load_accel a sc) (fun ra _ => chnls ra.2 = chnls a) h.
Proof.
  intros Ht. unfold load_accel, acapd_parse_config. rewrite Ht.
  apply (wp_seq _ (fun ra _ => ra.2 = a)).
  { apply wp_bind, wp_ret. cbv beta iota. simpl. apply wp_skip. intros r h'. destruct (r <? 0); by apply wp_ret. }
  intros [r a1] h1 Ha. simpl in Ha. subst a1. destruct (r <? 0); [by apply wp_ret|].
  apply wp_skip. intros n h2. destruct (n =? 0); [by apply wp_ret|].
  apply (wp_seq _ (fun ra _ => chnls ra.2 = chnls a)).
  { destruct (is_cached a); [by apply wp_ret|]. apply wp_skip. intros fl h3. unfold sys_fetch_accel.
    apply wp_bind, wp_skip. intros r' h4. destruct (r' <? 0); by apply wp_ret, wp_ret. }
  intros [r1 a1] h3 Ha. simpl in Ha. destruct (negb _); [by apply wp_ret|].
  apply (wp_seq _ (fun ra _ => chnls ra.2 = chnls a)).
  { unfold sys_load_accel. destruct (negb (is_cached a1)); [by apply wp_ret|]. apply wp_skip. intros r2 h4.
    apply wp_skip. intros st h5. destruct (negb _); [apply wp_skip; intros; by apply wp_ret|].
    destruct (is_flat_type _); [by apply wp_ret|]. apply wp_skip. intros; by apply wp_ret. }
  intros [r2 a2] h4 Ha2. simpl in Ha2. destruct (_ =? _); [by apply wp_ret|]. destruct (_ =? _); by apply wp_ret.
Qed.

Lemma removing_returns a r s : wp any_fault (removing a r) (fun r' _ => r' = r) s.
Proof. destruct a; [|done]. apply wp_skip. intros; by apply wp_ret. Qed.

(** accel-shm.c reports an error on every run that ends: [init_accel()] leaves the
    accelerator without channels and the load does not read accel.json. *)
Lemma shm_example_never_succeeds header_at tx rx p s r s' :
  shm_main header_at tx rx p s = Ret r s' -> r <> 0.
Proof.
  intros E. assert (Hw : wp any_fault (shm_main header_at tx rx p) (fun r _ => r <> 0) s).
  2: { exact (wp_returns _ _ _ _ _ _ Hw E). }
  destruct p as [p|]; [|by apply wp_ret]. assert (Hfail : forall a x, wp any_fault (removing a (- EINVAL)) (fun r _ => r <> 0) (x : dm W)).
  { intros a x. eapply wp_mono; [apply removing_returns|]. by intros ? ? ->. }
  apply (wp_seq _ (fun ra _ => chnls ra.2 = None)).
  { apply wp_zoom. exact (load_accel_chnls (init_accel (header_at p)) None (d_hw s) eq_refl). }
  intros [r1 a] s1 Ha. simpl in Ha. simpl fst. simpl snd. destruct (Z.eqb_spec r1 0) as [->|Hr]; simpl.
  2: { apply wp_skip. intros; by apply wp_ret. }
  apply wp_skip. intros _ s2. apply wp_skip. intros _ s3. apply wp_skip. intros tx_va s4. destruct (_ =? 0); [exact (Hfail (Some a) s4)|].
  apply wp_skip. intros _ s5. unfold shm_transfer. apply wp_skip. intros rx_va s6. destruct (_ =? 0); [apply Hfail|].
  unfold acapd_accel_write_data, move_data. rewrite Ha. apply wp_bind, wp_ret. apply Hfail.
Qed.
End ExampleSpec.
