(* ===== verification/Tool.v ===== *)
(** * The clients and their socket

    How the client library and the command line tool reach the daemon:
    [initSocket()] and the exchange of one message of [src/dfxmgr_client.c], and
    [main()] of [example/sys/linux/dfx-mgr-client.c] from the connection to the
    exit status.  What the tool prints is left out. *)
From S2P Require Import Prelude CStr Env Model UserLoad Unload Proto Server Client.
Open Scope Z_scope.
Open Scope dfx_scope.

(** [sizeof(struct message)]: four words and the data. *)
Definition SIZEOF_MESSAGE : Z := 16 + 32 * 1024.

(** The socket calls; a negative result is a failure.  [cread_] gives the number
    of bytes and the message they make. *)
Class Sockets (W : Type) := {
  csocket_ : W -> Z * W;
  connect_ : Z -> string -> W -> Z * W;
  cwrite_ : Z -> message -> W -> Z * W;
  cread_ : Z -> W -> Z * message * W;
}.

Section Tool.
Context {W : Type} `{Sockets W}.

(** [initSocket()]: the result and [gs->sock_fd]. *)
Definition initSocket : M W (Z * Z) :=
  let! fd := act csocket_ in
  if fd =? -1 then ret (-1, fd)
  else
    let! r := act (connect_ fd SERVER_SOCKET) in
    ret (if r <? 0 then -1 else 0, fd).

(** [write(gs->sock_fd, &msg, HEADERSIZE + msg.size)]: it reads the message, and
    [HEADERSIZE] is 8 more than the header has. *)
Definition put_message (fd : Z) (m : message) : M W Z :=
  guard_that OutOfBounds (u32 (HEADERSIZE + msg_size m) <=? SIZEOF_MESSAGE) ;; act (cwrite_ fd m).

(** An exchange as the library makes it: whether the socket is connected is not
    looked at, and an end of file leaves the reply as the stack had it ([junk]). *)
Definition lib_transact (junk : W -> message) (m : message) : M W (option message) :=
  let! rf := initSocket in
  let! n := put_message rf.2 m in
  if n <? 0 then ret None
  else
    let! r := act (cread_ rf.2) in
    if r.1 <? 0 then ret None
    else if r.1 =? 0 then let! j := look junk in ret (Some j)
    else ret (Some r.2).

(** [send_and_recv_msg()]. *)
Definition send_and_recv_msg (fd : Z) (m : message) : M W (option message) :=
  let! n := put_message fd (sized m) in
  if n <? 0 then ret None
  else
    let! r := act (cread_ fd) in
    ret (if r.1 <=? 0 then None else Some r.2).

(** What [main()] returns for the reply to request [r]. *)
Definition exit_status (r : dfx_mgr_request) (resp : string) : Z :=
  match r with
  | LOAD_ACCEL_BY_ID | LOAD_ACCEL_BY_NAME | USER_LOAD => print_load_result resp
  | UNLOAD_ACCEL_BY_ID | UNLOAD_ACCEL_BY_NAME | UNLOAD_ACCEL_BY_HANDLE => print_unload_result resp
  | USER_READBACK => if starts_with "-" resp then -1 else 0
  | USER_UNLOAD => if starts_with "0" resp then 0 else -1
  | _ => 0
  end.

Definition asks_help (argv : list string) : bool :=
  match argv with _ :: cmd :: _ => streq cmd "-h" || streq cmd "--help" | _ => false end.

(** [main()].  [opts] is what getopt_long() delivers and [cwd] what getcwd()
    does.  An argument that does not fit the message overruns it. *)
Definition tool_main (argv : list string) (opts : list copt) (cwd : option string) : M W Z :=
  if (length argv <? 2)%nat then ret (-1)
  else
    let! rf := initSocket in
    if rf.1 <? 0 then ret (-1)
    else
      match command_request argv opts cwd with
      | None => ret (if asks_help argv then 0 else -1)
      | Some m =>
          guard_that BufOverflow (fits DATA_SIZE (msg_data m)) ;;
          let! reply := send_and_recv_msg rf.2 m in
          match reply, request_of (msg_id m) with
          | Some reply, Some r => ret (exit_status r (msg_data reply))
          | _, _ => ret (-1)
          end
      end.
End Tool.
