(* ===== verification/ListingSafe.v ===== *)
(** * Listing is safe

    On well-formed tables the listing reads every slot it visits and every
    package it prints, in bounds, and changes nothing; the device listings only
    refresh the RPMsg devices of an RPU slot. *)
From S2P Require Import Prelude CStr Env Model Device Json Accel Rpu Slots Invariant ListIds TablesWp.
From S2P Require Import ListIdFacts Registry Listing.
Open Scope Z_scope.
Open Scope dfx_scope.

Section ListingSafe.
Context {W : Type} `{Env W}.
Implicit Types (s : sys W).

Lemma strcat_wp (res msg : string) s : wp lib_fault (strcat res msg) (fun _ s' => s' = s) s.
Proof. unfold strcat, sprintf_into. by destruct (fits _ _). Qed.

(** A listed base that counts something has its slots, and they are well
    formed. *)
Lemma busy_slots d i b :
  wf d -> base_designs d !! i = Some b -> lists_packages b = true -> active b <> 0 ->
  exists l, slots b = Some l /\ (num_slots b <= length l)%nat /\ forall x, x ∈ l -> slot_ok (b_type b) x.
Proof.
  intros Hwf Hi Hl Ha. pose proof (wf_entry _ _ _ _ Hwf i b Hi) as Hb.
  assert (Hs : slots b <> None).
  { destruct (wf_role _ _ _ _ Hwf i b Hi) as (HA & HR & HI).
    assert (Hn : (0 < num_slots b)%nat).
    { unfold lists_packages in Hl. apply andb_true_iff in Hl as [_ Hl%Z.ltb_lt].
      pose proof (ew_aie b Hb). unfold num_slots. lia. }
    destruct (points_to _ i) eqn:Ep.
    - destruct (HA eq_refl) as [(Hu & _)|(_ & _ & ? & _)]; [|done].
      destruct (ew_blank b Hb Hu) as (_ & Hz & _). lia.
    - destruct (points_to (active_rpu_base _) i) eqn:Er; [|by destruct (HI eq_refl eq_refl)].
      by destruct (HR eq_refl) as (_ & _ & ? & _). }
  destruct (slots b) as [l|] eqn:E; [|done]. exists l. destruct (ew_slots b Hb l E) as (? & _ & ?). done.
Qed.

Lemma slot_matches_wp ty x name s :
  slot_ok ty (Some x) -> wp lib_fault (slot_matches x name) (fun _ s' => s' = s) s.
Proof.
  intros (Ha & Hr & a & Hacc & _ & Hpk). unfold slot_matches. rewrite Ha. simpl.
  destruct (is_rpu x) eqn:Er; simpl.
  - destruct (streq _ _); by apply wp_ret.
  - rewrite Hacc. destruct (pkg a) as [p|] eqn:Ep; [by apply wp_bind, wp_ret, wp_ret|].
    destruct (decide (ty = "RPU"%string)) as [->|Hne]; [by specialize (Hr eq_refl)|by destruct (Hpk Hne)].
Qed.

Lemma slot_loop_wp fuel i b l n slot name acc s :
  bases s !! i = Some b -> slots b = Some l -> (forall x, x ∈ l -> slot_ok (b_type b) x) ->
  0 <= slot -> n <= Z.of_nat (length l) ->
  wp lib_fault (slot_loop fuel i n slot name acc) (fun _ s' => s' = s) s.
Proof.
  intros Hi Hl Hok. revert slot acc. induction fuel as [|fuel IH]; intros slot acc H0 Hn; simpl; [by split|].
  destruct (Z.ltb_spec slot n); [|by apply wp_ret].
  assert (Hu : 0 <= u8 (slot + 1)) by (unfold u8; apply Z.mod_pos_bound; lia).
  destruct (lookup_lt_is_Some_2 l (Z.to_nat slot)) as [x Hx]; [lia|].
  apply wp_bind. eapply wp_get_slot; [exact Hi|exact Hl|exact Hx|]. destruct x as [x|]; [|by apply IH].
  apply wp_bind. eapply wp_mono; [apply (slot_matches_wp (b_type b))|].
  - apply Hok. by eapply list_elem_of_lookup_2.
  - intros hit s' ->. destruct hit; by apply IH.
Qed.

Lemma accel_row_wp show filter i b a st s :
  wf (dm s) -> bases s !! i = Some b -> lists_packages b = true ->
  wp lib_fault (accel_row show filter i a st) (fun _ s' => s' = s) s.
Proof.
  intros Hwf Hi Hl. apply wp_bind, wp_gp. destruct (_ || _); [by apply wp_ret|].
  apply wp_bind. eapply wp_getb; [done|]. apply (wp_seq _ (fun _ s' => s' = s)).
  { destruct (Z.eqb_spec (active b) 0) as [|Ha]; cbn [negb]; [by apply wp_ret|].
    destruct (busy_slots _ _ _ Hwf Hi Hl Ha) as (l & Hsl & Hlen & Hok).
    apply (slot_loop_wp 256 i b l); try done. unfold num_slots in Hlen. lia. }
  intros lh s' ->. destruct (shown_base _ _) as [base rest].
  apply wp_bind. eapply wp_mono; [apply strcat_wp|]. intros res s' ->. by apply wp_ret.
Qed.

Lemma accel_rows_wp show filter i b l st s :
  wf (dm s) -> bases s !! i = Some b -> lists_packages b = true ->
  wp lib_fault (accel_rows show filter i l st) (fun _ s' => s' = s) s.
Proof.
  intros Hwf Hi Hl. revert st. induction l as [|a l IH]; intros st; simpl; [by apply wp_ret|].
  apply wp_bind. eapply wp_mono; [by eapply accel_row_wp|]. intros st' s' ->. apply IH.
Qed.

Lemma all_rows_wp show filter l st s :
  wf (dm s) -> (forall i, i ∈ l -> (i < MAX_WATCH)%nat) ->
  wp lib_fault (all_rows show filter l st) (fun _ s' => s' = s) s.
Proof.
  intros Hwf. revert st. induction l as [|i l IH]; intros st Hl; [by apply wp_ret|]. cbn [all_rows].
  apply wp_bind. apply (wp_mono _ _ (fun _ s' => s' = s)); [|intros st' s' ->; apply IH; intros j Hj; apply Hl; by right].
  assert (Hlt : (i < MAX_WATCH)%nat) by (apply Hl; left). rewrite <- (wf_len _ _ _ _ Hwf) in Hlt.
  destruct (lookup_lt_is_Some_2 (bases s) i Hlt) as [b Hi].
  apply wp_bind. eapply wp_getb; [done|]. apply (wp_seq _ (fun _ s' => s' = s)).
  { destruct (lists_packages b) eqn:El; [by eapply accel_rows_wp|by apply wp_ret]. }
  intros st' s' ->. destruct (is_user_load b); [|by apply wp_ret].
  apply wp_bind. eapply wp_mono; [apply strcat_wp|]. intros res s' ->. by apply wp_ret.
Qed.

Lemma render_listing_wp flag s :
  wf (dm s) -> wp lib_fault (render_listing flag) (fun _ s' => dm s' = dm s) s.
Proof.
  intros Hwf. apply wp_bind, wp_gp. cbv zeta. destruct (_ && _); [by apply wp_ret|].
  apply wp_bind, wp_env; [by auto with tame|]. intros junk w. apply wp_bind. eapply wp_mono.
  - apply all_rows_wp; [exact Hwf|]. intros i Hi%elem_of_seq. lia.
  - intros st s' ->. by apply wp_ret.
Qed.

(** The tables a listing leaves: freshly numbered, and clean. *)
Definition listed (d : daemon) : daemon := assign_list_ids d <| pkg_listing_dirty := false |>.

Lemma listAccelerators_wp flag s :
  wf (dm s) -> firmware_rescan_pending (dm s) = false ->
  wp lib_fault (listAccelerators flag) (fun _ s' => dm s' = listed (dm s)) s.
Proof.
  intros Hwf Hp. apply wp_bind, wp_getd. rewrite Hp. apply wp_bind, wp_ret.
  apply wp_bind, wp_modd, wp_bind, wp_modd. pose proof (assign_list_ids_wf _ Hwf) as Hwf'.
  eapply wp_mono; [apply render_listing_wp; exact Hwf'|]. by intros _ s' ->.
Qed.
End ListingSafe.
