(* ===== verification/Frame.v ===== *)
(** * What requests change

    A relation between the daemon's tables before and after, that the bookkeeping
    of the code is known to respect, is respected by every operation that is made
    of it: [Bookkeeping], [Taking] and [Releasing] say what the relation has to
    allow, and the operations that look, load and unload are within every such
    relation.  The first instance is the frame: serving a request touches the base
    designs, the handle table, the two active-base pointers and the listing's
    dirty mark; the configuration, the watches, the board and platform facts and
    the pending-rescan mark stay.  [Owners] has the others. *)
From S2P Require Import Prelude CStr Env Model UserLoad Json Accel Rpu Pdi Slots Invariant ListIds TablesWp.
From S2P Require Import Load Unload Registry Eeprom Events Listing Proto.
Open Scope Z_scope.
Open Scope dfx_scope.

(** Entry [b] has handle [h] in slot [k], or as a user load. *)
Definition holds_at (b : basePLDesign) (k : option nat) (h : Z) : Prop :=
  match k with
  | Some k => exists x, slot_list b !! k = Some (Some x) /\ slot_handle x = h
  | None => is_user_load b = true /\ user_load_handle b = h
  end.

(** The entry gets no handle that it has not. *)
Definition sheds (b b' : basePLDesign) : Prop := forall k h, holds_at b' k h -> holds_at b k h.

Lemma sheds_same b b' :
  slots b' = slots b -> is_user_load b' = is_user_load b -> user_load_handle b' = user_load_handle b -> sheds b b'.
Proof. intros Hs Hu Hh [k|] h; unfold holds_at, slot_list; by rewrite ?Hs, ?Hu, ?Hh. Qed.
Lemma sheds_drop b : sheds b (with_slots b None).
Proof. intros [k|] h; [|done]. intros (x & Hx & _). unfold slot_list in Hx. simpl in Hx. by rewrite lookup_nil in Hx. Qed.
Lemma sheds_cleared b : sheds b (cleared b).
Proof. intros [k|] h; [done|]. by intros [? _]. Qed.
Lemma sheds_allocated b : sheds b (allocated b).
Proof.
  unfold allocated. destruct (slots b) eqn:E; [by intros k h|]. intros [k|] h; [|done]. intros (x & Hx & _).
  by pose proof (fresh_slots_empty b _ (list_elem_of_lookup_2 _ _ _ Hx)).
Qed.
Lemma sheds_vacated b l k : slots b = Some l -> sheds b (with_slots b (Some (<[k := None]> l))).
Proof.
  intros Hl [m|] h; [|done]. intros (x & Hx & Hh). exists x. split; [|done]. unfold slot_list in *. rewrite Hl. simpl in *.
  destruct (decide (m = k)) as [->|Hne]; [|by rewrite list_lookup_insert_ne in Hx].
  apply list_lookup_insert_Some in Hx as [(_ & ? & _)|(? & _)]; done.
Qed.

(** ** Operations within a relation *)

Definition within {W A} (R : relation daemon) (m : M (sys W) A) : Prop :=
  forall s, wp any_fault m (fun _ s' => R (dm s) (dm s')) s.

Section Within.
Context {W : Type} (R : relation daemon) `{!PreOrder R}.

Lemma within_ret {A} (a : A) : within (W := W) R (ret a).
Proof. intros s. apply wp_ret. reflexivity. Qed.
Lemma within_crash {A} f : within R (crash f : M (sys W) A).
Proof. by intros s. Qed.
Lemma within_bind {A B} (m : M (sys W) A) (k : A -> M (sys W) B) :
  within R m -> (forall a, within R (k a)) -> within R (bind m k).
Proof.
  intros Hm Hk s. apply wp_bind. eapply wp_mono; [apply Hm|]. intros a s' Hr.
  eapply wp_mono; [apply Hk|]. intros b s'' Hr'. etransitivity; [exact Hr|exact Hr'].
Qed.
Lemma within_gets {A} (f : sys W -> A) : within R (gets f).
Proof. intros s. apply wp_gets. reflexivity. Qed.
Lemma within_getd : within (W := W) R getd.
Proof. apply within_gets. Qed.
Lemma within_gp {A} (f : platform_info -> A) : within (W := W) R (gp f).
Proof. apply within_gets. Qed.
Lemma within_the {A} f (o : option A) : within (W := W) R (the f o).
Proof. destruct o; [apply within_ret|apply within_crash]. Qed.
Lemma within_guard f b : within (W := W) R (guard_that f b).
Proof. destruct b; [apply within_ret|apply within_crash]. Qed.
Lemma within_hw {A} (m : M (hw W) A) : within R (in_hw m).
Proof. intros s. unfold wp, in_hw, zoom. destruct (m _); [reflexivity|done]. Qed.
Lemma within_env {A} (m : M W A) : within R (env m).
Proof. apply within_hw. Qed.
Lemma within_modd f : (forall d, R d (f d)) -> within (W := W) R (modd f).
Proof. intros Hf s. apply wp_modd. apply Hf. Qed.
Lemma within_get_base i : within (W := W) R (get_base i).
Proof. apply within_bind; [apply within_getd|]. intros d. apply within_the. Qed.
Lemma within_sprintf sz str : within (W := W) R (sprintf_into sz str).
Proof. unfold sprintf_into. destruct (fits sz str); [apply within_ret|apply within_crash]. Qed.
Lemma within_for_ret {A X} (body : A -> M (sys W) (option X)) l :
  (forall x, within R (body x)) -> within R (for_ret body l).
Proof.
  intros Hb. induction l as [|x l IH]; simpl; [apply within_ret|].
  apply within_bind; [apply Hb|]. intros [v|]; [apply within_ret|apply IH].
Qed.
Lemma within_for_until {A} (body : A -> M (sys W) bool) l :
  (forall x, within R (body x)) -> within R (for_until body l).
Proof.
  intros Hb. induction l as [|x l IH]; simpl; [apply within_ret|].
  apply within_bind; [apply Hb|]. intros [|]; [apply within_ret|apply IH].
Qed.

(** With any other fact about the run. *)
Lemma wp_within {A} F (m : M (sys W) A) Q s :
  within R m -> wp F m Q s -> wp F m (fun a s' => Q a s' /\ R (dm s) (dm s')) s.
Proof. intros Hm. specialize (Hm s). revert Hm. unfold wp. destruct (m s); auto. Qed.
Lemma wp_any_mod i f Q (s : sys W) :
  (forall b, bases s !! i = Some b -> Q tt (set_bases (<[i := f b]> (bases s)) s)) -> wp any_fault (mod_base i f) Q s.
Proof.
  intros HQ. destruct (bases s !! i) as [b|] eqn:Hi; [eapply wp_modb; [exact Hi|by apply HQ]|].
  unfold wp, mod_base, get_base, bind, getd, gets. simpl. by rewrite Hi.
Qed.

(** A slot is there to be read or written, or both stop. *)
Lemma slot_cases i k (s : sys W) :
  (exists b l, bases s !! i = Some b /\ slots b = Some l /\ (k < length l)%nat) \/
  (exists f, get_slot i k s = Fault f) /\ forall x, exists f, set_slot i k x s = Fault f.
Proof.
  unfold get_slot, set_slot, get_base, bind, getd, gets, the, guard_that. simpl.
  destruct (bases s !! i) as [b|]; [|right; split; [|intros x]; by eexists].
  simpl. destruct (slots b) as [l|] eqn:Hl; [|right; split; [|intros x]; by eexists]. simpl.
  destruct (Nat.ltb_spec k (length l)); [left; by exists b, l|]. right. rewrite lookup_ge_None_2 by done.
  split; [|intros x]; by eexists.
Qed.
Lemma any_fault_first {A B} (m : M (sys W) A) (k : A -> M (sys W) B) Q s :
  (exists f, m s = Fault f) -> wp any_fault (bind m k) Q s.
Proof. intros [f E]. unfold wp, bind. by rewrite E. Qed.
End Within.

Create HintDb within.
#[export] Hint Extern 0 (PreOrder _) => typeclasses eauto : within.
#[export] Hint Resolve within_ret within_crash within_gets within_getd within_gp within_the within_guard within_hw
  within_env within_get_base within_sprintf : within.

Ltac within_step :=
  lazymatch goal with
  | |- forall _, _ => intro
  | |- within _ (bind _ _) => apply within_bind; [typeclasses eauto| |]
  | |- within _ (for_ret _ _) => apply within_for_ret; [typeclasses eauto|]
  | |- within _ (for_until _ _) => apply within_for_until; [typeclasses eauto|]
  | |- within _ (let '(_, _) := ?x in _) => destruct x
  | |- within _ (if ?b then _ else _) => destruct b
  | |- within _ (match ?x with _ => _ end) => destruct x
  end.
Ltac within_go := cbv zeta; repeat first [ solve [ auto with within nocore ] | within_step ].

(** ** What the relation has to allow *)

Class Bookkeeping (R : relation daemon) : Prop := {
  bk_pre :: PreOrder R;
  bk_base d i b b' :
    base_designs d !! i = Some b -> sheds b b' -> R d (d <| base_designs := <[i := b']> (base_designs d) |>);
  bk_pl d o : R d (d <| platform ::= fun p => p <| active_base := o |> |>);
  bk_rpu d o : R d (d <| platform ::= fun p => p <| active_rpu_base := o |> |>);
  bk_stamp d : R d (assign_list_ids d);
  bk_dirty d v : R d (d <| pkg_listing_dirty := v |>);
}.

(** An entry may get the handle that is taken from the table for it ... *)
Class Taking (R : relation daemon) : Prop := {
  tk_bk :: Bookkeeping R;
  tk_take d i b b' h t' :
    base_designs d !! i = Some b -> take_handle (available_slot_handle (platform d)) = (h, t') ->
    (forall k h', holds_at b' k h' -> holds_at b k h' \/ h' = h) ->
    R d (d <| base_designs := <[i := b']> (base_designs d) |>
           <| platform ::= fun p => p <| available_slot_handle := t' |> |>);
}.
(** ... or a handle may be given back. *)
Class Releasing (R : relation daemon) : Prop := {
  rl_bk :: Bookkeeping R;
  rl_release d n : R d (d <| platform ::= fun p => p <| available_slot_handle ::= <[n := 0]> |> |>);
}.
#[export] Hint Extern 0 (Bookkeeping _) => typeclasses eauto : within.
#[export] Hint Extern 0 (Taking _) => typeclasses eauto : within.
#[export] Hint Extern 0 (Releasing _) => typeclasses eauto : within.

(** ** Looking *)

Section Look.
Context {W : Type} `{Env W} (R : relation daemon) `{!PreOrder R}.
Abbreviation within := (within (W := W) R).

Lemma within_get_slot i k : within (get_slot i k).
Proof. unfold get_slot. within_go. Qed.
#[local] Hint Resolve within_get_slot : within.
Lemma within_find_slot i h : within (find_slot_from_handle i h).
Proof. unfold find_slot_from_handle. within_go. Qed.
Lemma within_validate i n : within (validate_rpu_slot_availability i n).
Proof. unfold validate_rpu_slot_availability. within_go. Qed.
Lemma within_new_ctrl i n : within (get_new_rpmsg_ctrl_dev i n).
Proof. unfold get_new_rpmsg_ctrl_dev, ctrl_recorded. within_go. Qed.
Lemma within_find_by_id id : within (find_accel_by_list_id id).
Proof. unfold find_accel_by_list_id, id_in_base, id_of_accel, slot_handle_of_name. within_go. Qed.
Lemma within_find_by_name name : within (find_slot_handle_by_name name).
Proof. unfold find_slot_handle_by_name, slot_handle_of_name. within_go. Qed.
Lemma within_readback t n r sz : within (user_readback t n r sz).
Proof. unfold user_readback. within_go. Qed.
Lemma within_load_reply w rv : within (load_reply w rv).
Proof. unfold load_reply, is_pkg_listing_dirty. within_go. Qed.
Lemma within_rpu_slot_of h : within (rpu_slot_of h).
Proof. unfold rpu_slot_of. pose proof within_find_slot. within_go. Qed.
Lemma within_checks flag bf ov region : within (user_load_checks flag bf ov region).
Proof. unfold user_load_checks. within_go. Qed.
End Look.
#[export] Hint Resolve within_get_slot within_find_slot within_validate within_new_ctrl within_find_by_id
  within_find_by_name within_readback within_load_reply within_rpu_slot_of within_checks : within.

(** ** Keeping the books *)

Section Books.
Context {W : Type} `{Env W} (R : relation daemon) `{!Bookkeeping R}.
Abbreviation within := (within (W := W) R).

Lemma within_mod_base i f : (forall b, sheds b (f b)) -> within (mod_base i f).
Proof. intros Hf s. apply wp_any_mod. intros b Hi. exact (bk_base (dm s) i b (f b) Hi (Hf b)). Qed.
Lemma within_mod_same i f :
  (forall b, slots (f b) = slots b /\ is_user_load (f b) = is_user_load b /\ user_load_handle (f b) = user_load_handle b) ->
  within (mod_base i f).
Proof. intros Hf. apply within_mod_base. intros b. by apply sheds_same; apply Hf. Qed.
Lemma within_drop i : within (mod_base i (fun b => b <| slots := None |>)).
Proof. apply within_mod_base, sheds_drop. Qed.
Lemma within_cleared i : within (mod_base i cleared).
Proof. apply within_mod_base, sheds_cleared. Qed.
Lemma within_alloc i : within (alloc_base_slots i).
Proof. apply within_mod_base, sheds_allocated. Qed.
Lemma within_pl o : within (modp (fun p => p <| active_base := o |>)).
Proof. intros s. exact (bk_pl (dm s) o). Qed.
Lemma within_rpu o : within (modp (fun p => p <| active_rpu_base := o |>)).
Proof. intros s. exact (bk_rpu (dm s) o). Qed.
Lemma within_add_active o n : within (add_active o n).
Proof. unfold add_active. within_go. by apply within_mod_same. Qed.
Lemma within_mark_dirty : within mark_pkg_listing_dirty.
Proof. apply within_bind; [typeclasses eauto| |intros _]; apply within_modd; intros d; [apply bk_stamp|apply bk_dirty]. Qed.
Lemma within_vacate i k : within (set_slot i k None).
Proof.
  intros s. destruct (slot_cases i k s) as [(b & l & Hi & Hl & Hk)|[_ E]];
    [|destruct (E None) as [f Ef]; unfold wp; by rewrite Ef].
  eapply wp_set_slot; [exact Hi|exact Hl|exact Hk|]. exact (bk_base (dm s) i b _ Hi (sheds_vacated b l k Hl)).
Qed.
Lemma within_refresh i k : within (refresh_rpmsg i k).
Proof.
  intros s. unfold refresh_rpmsg. destruct (slot_cases i k s) as [(b & l & Hi & Hl & Hk)|[E _]]; [|by apply any_fault_first].
  destruct (lookup_lt_is_Some_2 l k Hk) as [x Hx]. apply wp_bind. eapply wp_get_slot; [exact Hi|exact Hl|exact Hx|].
  apply wp_bind, wp_the; [|done]. intros y ->. apply wp_bind, wp_the; [|done]. intros ds _.
  apply (wp_seq _ (fun _ s' => dm s' = dm s)).
  { unfold env, in_hw, in_world, wp, zoom. by destruct (update_rpmsg_dev_list _ _ _ _). }
  intros ds' s' Hd. apply wp_bind. eapply wp_set_slot; [by rewrite Hd|exact Hl|exact Hk|]. apply wp_ret.
  rewrite <- Hd in *. eapply (bk_base (dm s') i b _ Hi). intros [m|] h; [|done]. intros (z & Hz & Hh).
  unfold holds_at, slot_list in *. rewrite Hl. simpl in *.
  apply list_lookup_insert_Some in Hz as [(-> & ? & _)|(_ & Hz)]; [|by exists z]. simplify_eq. by exists y.
Qed.
#[local] Hint Resolve within_pl within_rpu within_mark_dirty within_refresh : within.

Lemma within_overlay region : within (user_unload_overlay region).
Proof. unfold user_unload_overlay. within_go. by apply within_mod_same. Qed.
Lemma within_uio h sz : within (list_accel_uio h sz).
Proof. unfold list_accel_uio. within_go. Qed.
Lemma within_uio_by_name h name : within (get_accel_uio_by_name h name).
Proof. unfold get_accel_uio_by_name. within_go. Qed.
End Books.
#[export] Hint Resolve within_drop within_cleared within_alloc within_pl within_rpu within_add_active within_mark_dirty
  within_vacate within_refresh within_overlay within_uio within_uio_by_name : within.
#[export] Hint Extern 1 (within _ (mod_base _ _)) => solve [ apply within_mod_same; first [ typeclasses eauto | done ] ] : within.

(** ** Loading *)

Section Take.
Context {W : Type} `{Env W} (R : relation daemon) `{!Taking R}.
Abbreviation within := (within (W := W) R).

Lemma within_occupy i k x :
  within (set_slot i k (Some x) ;;
          let! h := get_free_slot_handle in set_slot i k (Some (x <| slot_handle := h |>)) ;; ret h).
Proof.
  intros s. destruct (slot_cases i k s) as [(b & l & Hi & Hl & Hk)|[_ E]]; [|by apply any_fault_first].
  destruct (take_handle (table s)) as [h t'] eqn:Ht. eapply wp_occupy; [exact Hi|exact Hl|exact Hk|exact Ht|].
  eapply (tk_take (dm s) i b _ h t' Hi Ht). intros [m|] h'; [|by left]. intros (z & Hz & Hh).
  unfold holds_at, slot_list in *. rewrite Hl. simpl in *.
  apply list_lookup_insert_Some in Hz as [(-> & ? & _)|(_ & Hz)]; [right|left; by exists z]. by simplify_eq.
Qed.
Lemma within_register i (f : basePLDesign -> basePLDesign) (g : Z -> basePLDesign -> basePLDesign) {A} (K : Z -> M (sys W) A) :
  (forall b h k h', holds_at (g h (f b)) k h' -> holds_at b k h' \/ h' = h) -> (forall h, within (K h)) ->
  within (mod_base i f ;; let! h := get_free_slot_handle in mod_base i (g h) ;; K h).
Proof.
  intros Hg HK s. apply wp_bind, wp_any_mod. intros b Hi. pose proof (lookup_lt_Some _ _ _ Hi) as Hlt.
  destruct (take_handle (table s)) as [h t'] eqn:Ht. apply wp_bind. eapply wp_get_free_slot_handle; [exact Ht|].
  apply wp_bind. eapply wp_modb; [simpl; by rewrite list_lookup_insert_eq|]. eapply wp_mono; [apply HK|].
  intros a s' Hr. etransitivity; [|exact Hr]. simpl. rewrite list_insert_insert_eq.
  exact (tk_take (dm s) i b _ h t' Hi Ht (Hg b h)).
Qed.

Lemma within_assign i slot a name n : within (assign_slot i slot a name n).
Proof. apply within_occupy. Qed.
Lemma within_finalize i slot a name n u : within (finalize_rpu_slot_setup i slot a name n u).
Proof.
  unfold finalize_rpu_slot_setup. cbv zeta. do 2 (apply within_bind; [typeclasses eauto|auto with within|intros ?]).
  apply within_occupy.
Qed.
#[local] Hint Resolve within_assign within_finalize : within.

Lemma within_load_flat i name cma sp slot fs sz : within (load_flat i name cma sp slot fs sz).
Proof. unfold load_flat, flat_program. within_go. Qed.
Lemma within_setup_pl i pp cma sp fs sz : within (setup_pl_base i pp cma sp fs sz).
Proof. unfold setup_pl_base, leave_or_evict_pl, program_base. within_go. Qed.
Lemma within_setup_rpu i pp : within (setup_rpu_base i pp).
Proof. unfold setup_rpu_base. within_go. Qed.
Lemma within_load_rpu_new i ai slot name : within (load_new_rpu i ai slot name).
Proof. unfold load_new_rpu, finish_rpu. within_go. Qed.
Lemma within_try_slot i r ai slot name cma sp fs sz k : within (try_slot i r ai slot name cma sp fs sz k).
Proof. unfold try_slot, program_slot, finish_rpu. within_go. Qed.
#[local] Hint Resolve within_load_flat within_setup_pl within_setup_rpu within_load_rpu_new within_try_slot : within.
Lemma within_load_core i name cma fs sz : within (load_accelerator_core i name cma fs sz).
Proof. unfold load_accelerator_core, new_slot, load_slotted. within_go. Qed.
#[local] Hint Resolve within_load_core : within.
Lemma within_load_by_id id cma fs sz : within (load_accelerator_by_id id cma fs sz).
Proof. unfold load_accelerator_by_id. within_go. Qed.

Lemma within_user_register flag bin region : within (user_load_register flag bin region).
Proof.
  unfold user_load_register. apply within_bind; [typeclasses eauto|auto with within|intros d].
  destruct (find_index _ _) as [i|]; [|within_go]. cbv zeta. apply within_register; [|intros h; within_go].
  intros b h [k|] h'; [by left|]. intros [_ <-]. by right.
Qed.
#[local] Hint Resolve within_user_register : within.
Lemma within_user_load flag ff bf ov region key fs sz : within (user_load flag ff bf ov region key fs sz).
Proof. unfold user_load, user_load_admit. within_go. Qed.
End Take.
#[export] Hint Resolve within_load_core within_load_by_id within_user_load : within.

(** ** Unloading *)

Section Release.
Context {W : Type} `{Env W} (R : relation daemon) `{!Releasing R}.
Abbreviation within := (within (W := W) R).

Lemma within_release h : within (release_handle h).
Proof.
  unfold release_handle. do 2 (apply within_bind; [typeclasses eauto|auto with within|intros ?]).
  intros s. exact (rl_release (dm s) (Z.to_nat h)).
Qed.
#[local] Hint Resolve within_release : within.
Lemma within_user_unload h : within (user_unload h).
Proof. unfold user_unload. within_go. Qed.
Lemma within_unload_base : within unload_accel_base.
Proof. unfold unload_accel_base. within_go. Qed.
#[local] Hint Resolve within_user_unload within_unload_base : within.
Lemma within_unload h : within (unload_accelerator h).
Proof. unfold unload_accelerator, unload_slot_handle, unload_rpu_slot, unload_pl_slot. within_go. Qed.
#[local] Hint Resolve within_unload : within.
Lemma within_unload_by_id id : within (unload_accelerator_by_id id).
Proof. unfold unload_accelerator_by_id. within_go. Qed.
Lemma within_unload_by_name name : within (unload_accelerator_by_name name).
Proof. unfold unload_accelerator_by_name. within_go. Qed.
End Release.
#[export] Hint Resolve within_user_unload within_unload_base within_unload within_unload_by_id within_unload_by_name : within.

(** ** The frame *)

Record frame : Type := Frame {
  f_config : daemon_config;
  f_watches : list watch;
  f_board : string;
  f_mgr : fpga_mgr_type;
  f_user_path : bool;
  f_boot_uid : Z;
  f_pending : bool;
}.
Definition frame_of (d : daemon) : frame :=
  Frame (config d) (active_watch d) (boardName (platform d)) (fpga_mgr (platform d))
        (use_user_load_path (platform d)) (boot_pdi_uid (platform d)) (firmware_rescan_pending d).
Definition same_frame (d d' : daemon) : Prop := frame_of d' = frame_of d.
Abbreviation steady := (within same_frame).

#[export] Instance same_frame_preorder : PreOrder same_frame.
Proof. unfold same_frame. split; [by intros d|intros d1 d2 d3; congruence]. Qed.
#[local] Instance same_frame_books : Bookkeeping same_frame.
Proof. split; [typeclasses eauto|done..]. Qed.
#[export] Instance same_frame_takes : Taking same_frame.
Proof. split; [typeclasses eauto|done]. Qed.
#[export] Instance same_frame_releases : Releasing same_frame.
Proof. split; [typeclasses eauto|done]. Qed.
