(* ===== verification/Handles.v ===== *)
(** * Who owns a slot handle

    The abstract view of the handle table: a handle belongs to one slot or to
    one user load, and the table marks exactly the handles that belong to
    someone.  [Owners] has the allocator that hands them out. *)
From S2P Require Import Prelude CStr Env Model UserLoad Json Accel Rpu Pdi Slots Invariant ListIds TablesWp.
From S2P Require Import ListIdFacts Load LoadSafe Unload UnloadSafe UserSafe.
Open Scope Z_scope.
Open Scope dfx_scope.

Inductive owner : Set := OSlot (i k : nat) | OUser (i : nat).

Definition owns (d : daemon) (o : owner) (h : nat) : Prop :=
  match o with
  | OSlot i k => exists b x, base_designs d !! i = Some b /\ slot_list b !! k = Some (Some x) /\
                             slot_handle x = Z.of_nat h
  | OUser i => exists b, base_designs d !! i = Some b /\ is_user_load b = true /\ user_load_handle b = Z.of_nat h
  end.
Definition entry_of (o : owner) : nat := match o with OSlot i _ | OUser i => i end.

(** What an owner contributes to its entry's count. *)
Lemma owns_occ d o h :
  owns d o h -> exists b, base_designs d !! entry_of o = Some b /\ (1 <= occ h b)%nat.
Proof.
  destruct o as [i k|i]; simpl.
  - intros (b & x & Hi & Hx & Hh). exists b. split; [done|].
    destruct (slot_list_lookup _ _ _ Hx) as (l & Hl & Hk). by eapply slot_occ_holds.
  - intros (b & Hi & Hu & Hh). exists b. split; [done|]. by apply user_occ_handle.
Qed.

Lemma owns_marked d o h : wf d -> owns d o h -> marked (available_slot_handle (platform d)) h = 1%nat.
Proof.
  intros Hwf Ho. destruct (owns_occ _ _ _ Ho) as (b & Hi & Hb).
  by destruct (occ_marked _ _ _ _ _ (wf_c _ _ _ _ Hwf) Hi Hb) as (_ & ? & _).
Qed.

Lemma sum_pos {A} (f : A -> nat) l : sum_list_with f l <> 0%nat -> exists i x, l !! i = Some x /\ f x <> 0%nat.
Proof.
  induction l as [|z l IH]; simpl; [done|]. intros Hn. destruct (decide (f z = 0%nat)) as [Hz|Hz].
  - destruct IH as (i & x & Hi & Hx); [lia|]. by exists (S i), x.
  - by exists 0%nat, z.
Qed.

Lemma marked_owned d h : wf d -> marked (available_slot_handle (platform d)) h = 1%nat -> exists o, owns d o h.
Proof.
  intros Hwf Hm. pose proof (wf_handles _ _ _ _ Hwf h) as Hsum. rewrite Hm in Hsum.
  destruct (sum_pos (occ h) (base_designs d)) as (i & b & Hi & Hb); [lia|].
  unfold occ in Hb. destruct (decide (slot_occ h b = 0%nat)) as [Hz|Hz].
  - exists (OUser i), b. split; [done|]. unfold user_occ in Hb. rewrite Hz in Hb.
    destruct (is_user_load b); [|done]. simpl in *. destruct (Z.eqb_spec (user_load_handle b) (Z.of_nat h)); done.
  - destruct (sum_pos (holds h) (slot_list b) Hz) as (k & [x|] & Hk & Hx); [|done].
    exists (OSlot i k), b, x. split; [done|]. split; [done|]. simpl in Hx.
    by destruct (Z.eqb_spec (slot_handle x) (Z.of_nat h)).
Qed.

(** A handle has one owner. *)
Lemma owner_unique d o o' h : wf d -> owns d o h -> owns d o' h -> o = o'.
Proof.
  intros Hwf Ho Ho'. destruct (owns_occ _ _ _ Ho) as (b & Hi & Hb). destruct (owns_occ _ _ _ Ho') as (b' & Hi' & Hb').
  pose proof (wf_handles _ _ _ _ Hwf h) as Hsum. pose proof (marked_le (available_slot_handle (platform d)) h) as Hle.
  destruct (decide (entry_of o = entry_of o')) as [He|Hne].
  2: { pose proof (sum_two (occ h) _ _ _ _ _ Hne Hi Hi'). lia. }
  rewrite He in Hi. simplify_eq. pose proof (sum_lookup_le (occ h) _ _ _ Hi) as Hocc.
  assert (Ho1 : (slot_occ h b + user_occ h b <= 1)%nat) by (unfold occ in *; lia).
  assert (Hslot : forall i k, o = OSlot i k \/ o' = OSlot i k -> exists x, slot_list b !! k = Some (Some x) /\ slot_handle x = Z.of_nat h).
  { intros i k [-> | ->]; simpl in *; [destruct Ho as (c & x & Hc & ?)|destruct Ho' as (c & x & Hc & ?)];
      exists x; rewrite <- ?He in *; simplify_eq; done. }
  assert (Huser : forall i, o = OUser i \/ o' = OUser i -> user_occ h b = 1%nat).
  { intros i [-> | ->]; simpl in *; [destruct Ho as (c & Hc & Hu & Hh)|destruct Ho' as (c & Hc & Hu & Hh)];
      rewrite <- ?He in *; simplify_eq; unfold user_occ; by rewrite Hu, Hh, Z.eqb_refl. }
  assert (Hone : forall k x, slot_list b !! k = Some (Some x) -> slot_handle x = Z.of_nat h -> holds h (Some x) = 1%nat).
  { intros k x _ Hh. simpl. by rewrite Hh, Z.eqb_refl. }
  destruct o as [i k|i], o' as [i' k'|i']; simpl in He; subst i'.
  - destruct (Hslot i k) as (x & Hx & Hh); [by left|]. destruct (Hslot i k') as (x' & Hx' & Hh'); [by right|].
    destruct (decide (k = k')) as [->|Hk]; [done|].
    pose proof (sum_two (holds h) _ _ _ _ _ Hk Hx Hx') as H2. rewrite (Hone _ _ Hx Hh), (Hone _ _ Hx' Hh') in H2.
    unfold slot_occ in Ho1. lia.
  - destruct (Hslot i k) as (x & Hx & Hh); [by left|]. pose proof (Huser i ltac:(by right)).
    pose proof (sum_lookup_le (holds h) _ _ _ Hx) as H1. rewrite (Hone _ _ Hx Hh) in H1. unfold slot_occ in Ho1. lia.
  - destruct (Hslot i k') as (x & Hx & Hh); [by right|]. pose proof (Huser i ltac:(by left)).
    pose proof (sum_lookup_le (holds h) _ _ _ Hx) as H1. rewrite (Hone _ _ Hx Hh) in H1. unfold slot_occ in Ho1. lia.
  - done.
Qed.

(** A slot that is taken belongs to a base that is active. *)
Lemma slot_owner_active d i k h :
  wf d -> owns d (OSlot i k) h -> active_base (platform d) = Some i \/ active_rpu_base (platform d) = Some i.
Proof.
  intros Hwf (b & x & Hi & Hx & Hh). destruct (decide (active_base (platform d) = Some i)) as [|Hp]; [by left|].
  destruct (decide (active_rpu_base (platform d) = Some i)) as [|Hr]; [by right|].
  destruct (inactive_entry _ _ _ _ _ _ Hwf Hi Hp Hr) as [_ Ho].
  pose proof (sum_lookup_le is_occupied (slot_list b) k (Some x) Hx) as Hle. simpl in Hle. unfold occupied in Ho. lia.
Qed.

Lemma slot_owner_scanned d i k h b :
  wf d -> base_designs d !! i = Some b -> owns d (OSlot i k) h -> (k < num_slots b)%nat.
Proof.
  intros Hwf Hi (c & x & Hc & Hx & _). simplify_eq. destruct (slot_list_lookup _ _ _ Hx) as (l & Hl & Hk).
  by apply (ew_scanned b (wf_entry _ _ _ _ Hwf i b Hi) l k x).
Qed.

Section Unload.
Context {W : Type} `{Env W}.
Implicit Types (s : sys W).

(** Looking an owned handle up in the slots of an active base finds its slot. *)
Lemma find_owned_slot i k h b s :
  wf (dm s) -> bases s !! i = Some b -> pl_base s = Some i \/ rpu_base s = Some i -> owns (dm s) (OSlot i k) h ->
  find_slot_from_handle i (Z.of_nat h) s = Ret (Some k) s.
Proof.
  intros Hwf Hi Ha Ho. pose proof (slot_owner_scanned _ _ _ _ _ Hwf Hi Ho) as Hk.
  assert (Hs : safe (find_slot_from_handle i (Z.of_nat h)) (fun r s' => s' = s /\ r = Some k) s).
  { eapply wp_mono; [apply find_slot_wp; [exact Hi|by eapply active_readable]|].
    intros [k'|] s' [-> Hr]; (split; [done|]).
    - destruct Hr as (y & Hy & Hhy).
      assert (E : OSlot i k' = OSlot i k) by (apply (owner_unique (dm s) _ _ h Hwf); [by exists b, y|done]). congruence.
    - destruct Ho as (c & x & Hc & Hx & Hh). simplify_eq. by destruct (Hr k x Hk Hx). }
  apply safe_ret in Hs as (a & s' & -> & -> & ->). done.
Qed.

Lemma find_unowned_slot i h b s :
  wf (dm s) -> bases s !! i = Some b -> pl_base s = Some i \/ rpu_base s = Some i ->
  (forall k, ~ owns (dm s) (OSlot i k) h) -> find_slot_from_handle i (Z.of_nat h) s = Ret None s.
Proof.
  intros Hwf Hi Ha Ho.
  assert (Hs : safe (find_slot_from_handle i (Z.of_nat h)) (fun r s' => s' = s /\ r = None) s).
  { eapply wp_mono; [apply find_slot_wp; [exact Hi|by eapply active_readable]|].
    intros [k|] s' [-> Hr]; (split; [done|]); [|done]. destruct Hr as (y & Hy & Hhy).
    exfalso. apply (Ho k). by exists b, y. }
  apply safe_ret in Hs as (a & s' & -> & -> & ->). done.
Qed.

Lemma user_handle_owned h s :
  existsb (has_user_handle (Z.of_nat h)) (bases s) = true -> exists j, owns (dm s) (OUser j) h.
Proof.
  intros (c & Hin & Hc)%existsb_exists. apply list_elem_of_In, list_elem_of_lookup in Hin as [j Hj].
  apply andb_true_iff in Hc as [Hu Hc%Z.eqb_eq]. by exists j, c.
Qed.

(** Which of the functions unloads: that of the slot that owns the handle. *)
Lemma unload_dispatch i k h s :
  wf (dm s) -> owns (dm s) (OSlot i k) h ->
  unload_accelerator (Z.of_nat h) s =
  (if decide (rpu_base s = Some i) then unload_rpu_slot i k (Z.of_nat h) else unload_pl_slot i k (Z.of_nat h)) s.
Proof.
  intros Hwf Ho. unfold unload_accelerator. destruct (Z.eqb_spec (Z.of_nat h) (-1)); [lia|].
  erewrite bind_Ret by reflexivity.
  destruct (existsb (has_user_handle (Z.of_nat h)) (bases s)) eqn:Eu.
  { apply user_handle_owned in Eu as [j Hj]. by pose proof (owner_unique _ _ _ _ Hwf Ho Hj). }
  pose proof (slot_owner_active _ _ _ _ Hwf Ho) as Ha. pose proof Ho as (b & x & Hi & _ & _).
  unfold unload_slot_handle. erewrite bind_Ret by reflexivity. erewrite bind_Ret by reflexivity.
  destruct (_ || (Z.of_nat h <? 0)) eqn:E.
  { apply orb_true_iff in E as [E|E%Z.ltb_lt]; [|lia]. destruct Ha as [Ha|Ha]; rewrite Ha in E; [done|].
    by destruct (pl_base s). }
  clear E. destruct (decide (rpu_base s = Some i)) as [Er|Er].
  - rewrite Er. erewrite bind_Ret; [|erewrite bind_Ret by (eapply find_owned_slot; eauto); reflexivity]. done.
  - destruct Ha as [Ha|Ha]; [|done].
    erewrite (bind_Ret _ _ _ None).
    + rewrite Ha. erewrite bind_Ret by (eapply find_owned_slot; eauto). done.
    + destruct (rpu_base s) as [j|] eqn:Ej; [|done]. destruct (active_rpu_at _ _ Hwf Ej) as [c Hc].
      erewrite bind_Ret; [|eapply find_unowned_slot; [exact Hwf|exact Hc|by right|]]; [done|].
      intros m Hm. assert (E : OSlot j m = OSlot i k) by (by apply (owner_unique (dm s) _ _ h Hwf)). congruence.
Qed.

(** A handle without an owner is refused before anything is done. *)
Lemma unload_nobody h s :
  wf (dm s) -> (forall o, ~ owns (dm s) o h) -> unload_accelerator (Z.of_nat h) s = Ret (-1) s.
Proof.
  intros Hwf Ho. unfold unload_accelerator. destruct (Z.eqb_spec (Z.of_nat h) (-1)); [lia|].
  erewrite bind_Ret by reflexivity.
  destruct (existsb (has_user_handle (Z.of_nat h)) (bases s)) eqn:Eu.
  { apply user_handle_owned in Eu as [j Hj]. by destruct (Ho (OUser j)). }
  unfold unload_slot_handle. erewrite bind_Ret by reflexivity. erewrite bind_Ret by reflexivity.
  destruct (_ || (Z.of_nat h <? 0)); [done|]. erewrite (bind_Ret _ _ _ None).
  - destruct (pl_base s) as [i|] eqn:Ea; [|done]. destruct (active_base_at _ _ Hwf Ea) as [b Hi].
    by erewrite bind_Ret by (eapply find_unowned_slot; eauto).
  - destruct (rpu_base s) as [j|] eqn:Ej; [|done]. destruct (active_rpu_at _ _ Hwf Ej) as [c Hc].
    by erewrite bind_Ret by (eapply find_unowned_slot; eauto).
Qed.

(** Unloading a handle that a slot owns always succeeds in the tables, whatever
    the hardware answers. *)
Lemma unload_owned_wp i k h s :
  wf (dm s) -> owns (dm s) (OSlot i k) h ->
  wp lib_fault (unload_accelerator (Z.of_nat h)) (fun _ s' => wf (dm s') /\ frees (dm s) (dm s') (Z.of_nat h)) s.
Proof.
  intros Hwf Ho. unfold wp at 1. rewrite (unload_dispatch _ _ _ _ Hwf Ho).
  pose proof (slot_owner_active _ _ _ _ Hwf Ho) as Ha. destruct Ho as (b & x & Hi & Hx & Hh).
  destruct (decide (rpu_base s = Some i)); [apply (unload_rpu_slot_wp i b k x)|apply (unload_pl_slot_wp i b k x)];
    naive_solver lia.
Qed.

(** Unloading a handle that a user load owns. *)
Lemma unload_user_wp i b h s :
  wf (dm s) -> bases s !! i = Some b -> is_user_load b = true -> user_load_handle b = Z.of_nat h ->
  wp lib_fault (unload_accelerator (Z.of_nat h))
     (fun r s' => wf (dm s') /\
        if unload_busy (dm s) i b then r = -1 /\ same_handles (dm s) (dm s')
        else r = 0 /\ frees (dm s) (dm s') (Z.of_nat h)) s.
Proof.
  intros Hwf Hi Hu Hh. unfold unload_accelerator. destruct (Z.eqb_spec (Z.of_nat h) (-1)); [lia|].
  apply wp_bind, wp_getd.
  assert (Hb : has_user_handle (Z.of_nat h) b = true) by (unfold has_user_handle; by rewrite Hu, Hh, Z.eqb_refl).
  assert (Hf : find_index (has_user_handle (Z.of_nat h)) (bases s) = Some i).
  { apply find_index_Some. exists b. repeat split; [done..|]. intros j c Hj Hc. apply not_true_iff_false. intros Hp.
    apply andb_true_iff in Hp as [Hcu Hch%Z.eqb_eq].
    assert (E : OUser i = OUser j) by (apply (owner_unique (dm s) _ _ h Hwf); [by exists b|by exists c]).
    injection E as ->. lia. }
  assert (He : existsb (has_user_handle (Z.of_nat h)) (bases s) = true).
  { apply existsb_exists. exists b. split; [by eapply list_elem_of_In, list_elem_of_lookup_2|done]. }
  rewrite He. eapply wp_mono; [by apply user_unload_wp|]. intros r s' [Hwf' Hr]. rewrite Hf in Hr.
  destruct Hr as (c & Hc & Hr). simplify_eq. by split.
Qed.
End Unload.
