(* ===== verification/RequestSafe.v ===== *)
(** * Every request is safe

    Whatever a client sends, [process_dfx_req()] on well-formed tables leaves
    well-formed tables; a request can stop the daemon only in the ways
    [lib_fault] names. *)
From S2P Require Import Prelude CStr Env Model UserLoad Device Dma Json Accel Rpu Pdi Slots Invariant ListIds.
From S2P Require Import TablesWp ListIdFacts Load LoadSafe Unload UnloadSafe UserSafe Handles Registry Eeprom Events.
From S2P Require Import Listing ListingSafe Proto Client Frame Decimals.
Open Scope Z_scope.
Open Scope dfx_scope.

(** ** Updating a slot in place *)

Record slot_like (x y : slot_info) : Prop := {
  sl_handle : slot_handle y = slot_handle x;
  sl_accel : s_accel y = s_accel x;
  sl_aie : is_aie y = is_aie x;
  sl_rpu : is_rpu y = is_rpu x;
}.

Lemma slot_like_sum (f : option slot_info -> nat) l k x y :
  l !! k = Some (Some x) -> f (Some y) = f (Some x) ->
  sum_list_with f (<[k := Some y]> l) = sum_list_with f l.
Proof. intros Hk Hf. pose proof (sum_insert f l k (Some x) (Some y) Hk). lia. Qed.

Lemma wf_slot_like ds t pa ra i b l k x y :
  wf_tables ds t pa ra -> ds !! i = Some b -> slots b = Some l -> l !! k = Some (Some x) -> slot_like x y ->
  wf_tables (<[i := with_slots b (Some (<[k := Some y]> l))]> ds) t pa ra.
Proof.
  intros Hwf Hi Hl Hk [Hh Ha Hai Hr]. pose proof (wf_entry _ _ _ _ Hwf i b Hi) as Hb.
  set (b' := with_slots b (Some (<[k := Some y]> l))).
  assert (Hocc : forall h, occ h b' = occ h b).
  { intros h. unfold occ, slot_occ, user_occ, slot_list. simpl. rewrite Hl. simpl. f_equal.
    apply (slot_like_sum _ l k x y Hk). simpl. by rewrite Hh. }
  assert (Ho : occupied b' = occupied b).
  { unfold occupied, slot_list. simpl. rewrite Hl. by apply (slot_like_sum _ l k x y Hk). }
  assert (Hv : occupied_valid b' = occupied_valid b).
  { unfold occupied_valid, slot_list. simpl. rewrite Hl. apply (slot_like_sum _ l k x y Hk). simpl. by rewrite Hh. }
  assert (Hpart : partials (<[i := b']> ds) = partials ds) by (by apply (partials_same ds i b)).
  apply (wf_update ds t pa ra i b); try apply Hwf; auto.
  - destruct (ew_slots b Hb l Hl) as (Hn & Hlen & Hok).
    split; simpl; try apply Hb.
    + intros He. destruct (ew_free b Hb He) as [_ (_ & _ & Hs)]. congruence.
    + intros Hu. destruct (ew_blank b Hb Hu) as (_ & _ & Hs). congruence.
    + intros l' [= <-]. rewrite length_insert. split; [done|]. split; [done|].
      intros z Hz. apply list_elem_of_lookup in Hz as [m Hm]. destruct (decide (m = k)) as [->|Hne].
      * rewrite list_lookup_insert_eq in Hm by (by apply lookup_lt_Some in Hk). injection Hm as <-.
        destruct (Hok (Some x) (list_elem_of_lookup_2 _ _ _ Hk)) as (H1 & H2 & H3).
        simpl. rewrite Hai, Ha, Hr. done.
      * rewrite list_lookup_insert_ne in Hm by done. apply Hok. by eapply list_elem_of_lookup_2.
    + intros l' m z [= <-] Hm. destruct (decide (m = k)) as [->|Hne]; [by apply (ew_scanned b Hb l k x)|].
      rewrite list_lookup_insert_ne in Hm by done. by apply (ew_scanned b Hb l m z).
  - rewrite Hpart. pose proof (wf_role _ _ _ _ Hwf i b Hi) as (HA & HR & HI).
    unfold role_ok. rewrite Ho, Hv. simpl. split_and!; [| |done].
    + intros Hp. destruct (HA Hp) as [?|(H1 & H2 & _ & H3)]; [by left|right]. done.
    + intros Hp. by destruct (HR Hp) as (H1 & H2 & _ & H3).
  - intros j c _ _. by rewrite Hpart.
Qed.

(** Everything that owns a handle still does. *)
Definition same_owners (d d' : daemon) : Prop := forall o h, owns d o h -> owns d' o h.

#[export] Instance same_owners_refl : Reflexive same_owners.
Proof. by intros d o h. Qed.

Lemma slot_like_owners d d' i b l k x y :
  base_designs d !! i = Some b -> slots b = Some l -> l !! k = Some (Some x) -> slot_like x y ->
  base_designs d' = <[i := with_slots b (Some (<[k := Some y]> l))]> (base_designs d) -> same_owners d d'.
Proof.
  intros Hi Hl Hk Hs Hd o h. pose proof (lookup_lt_Some _ _ _ Hi) as Hlt. pose proof (lookup_lt_Some _ _ _ Hk) as Hklt.
  assert (Hnew : base_designs d' !! i = Some (with_slots b (Some (<[k := Some y]> l))))
    by (by rewrite Hd, list_lookup_insert_eq).
  assert (Hold : forall j c, j <> i -> base_designs d !! j = Some c -> base_designs d' !! j = Some c)
    by (intros j c Hj Hc; by rewrite Hd, list_lookup_insert_ne).
  destruct o as [j m|j]; cbn [owns]; (destruct (decide (j = i)) as [->|Hne]; [|intros (c & Hc); exists c; pose proof (Hold j c Hne); firstorder]).
  - intros (c & z & Hc & Hz & Hh). simplify_eq. unfold slot_list in Hz. rewrite Hl in Hz. simpl in Hz.
    destruct (decide (m = k)) as [->|Hm].
    + simplify_eq. exists (with_slots b (Some (<[k := Some y]> l))), y. split; [done|].
      split; [exact (list_lookup_insert_eq l k (Some y) Hklt)|pose proof (sl_handle _ _ Hs); congruence].
    + exists (with_slots b (Some (<[k := Some y]> l))), z. split; [done|].
      split; [|done]. unfold slot_list. simpl. by rewrite list_lookup_insert_ne.
  - intros (c & Hc & Hu & Hh). simplify_eq. by exists (with_slots b (Some (<[k := Some y]> l))).
Qed.

Section RequestSafe.
Context {W : Type} `{Env W}.
Implicit Types (s : sys W).

(** The tables a request may be served on: no walk of the firmware directories
    is due. *)
Definition ready (d : daemon) : Prop := wf d /\ firmware_rescan_pending d = false.

(** The requests that walk first when a walk is due; the others ignore that. *)
Definition walks (r : dfx_mgr_request) : bool :=
  match r with LOAD_ACCEL | LOAD_ACCEL_BY_NAME | LIST_PACKAGE => true | _ => false end.

(** Well-formed tables again, and no walk became due or was done. *)
Definition kept (d d' : daemon) : Prop := wf d' /\ firmware_rescan_pending d' = firmware_rescan_pending d.

(** ** Device listings *)

Lemma tame_update_rpmsg l ctrl v : tame (update_rpmsg_dev_list (W := W) l ctrl v).
Proof.
  unfold update_rpmsg_dev_list. apply always_bind; [apply always_look|]. intros [es|]; [|apply always_ret].
  apply always_bind; [|intros; apply always_ret]. generalize (reset_active l) (map d_name es). intros l0 ns. revert l0.
  induction ns as [|n ns IH]; intros l0; simpl; [apply always_ret|].
  destruct (_ || _); [apply IH|]. destruct (check_rpmsg_dev_active l0 n v) as [found l1]. destruct found; [apply IH|].
  apply always_bind; [auto with tame|]. intros d. apply IH.
Qed.

Lemma tame_ip_lines l limit p : tame (ip_lines (W := W) l limit p).
Proof.
  revert p. induction l as [|x l IH]; intros p; simpl; [apply always_ret|].
  destruct (_ <? _); [|apply always_ret]. apply always_bind; [auto with tame|].
  intros d. destruct (dev_name d); apply IH.
Qed.

Lemma tame_ip_by_name l name : tame (ip_by_name (W := W) l name).
Proof.
  induction l as [|x l IH]; simpl; [apply always_ret|]. apply always_bind; [auto with tame|]. intros d.
  apply always_bind; [apply always_the; split; discriminate|]. intros n. destruct (has_sub n name); [apply always_ret|apply IH].
Qed.

Lemma rpu_slot_of_wp h s :
  wf (dm s) ->
  wp lib_fault (rpu_slot_of h)
     (fun r s' => s' = s /\ match r with
        | Some (i, k) => rpu_base s = Some i /\ exists b x, bases s !! i = Some b /\ slot_list b !! k = Some (Some x)
        | None => True end) s.
Proof.
  intros Hwf. apply wp_bind, wp_gp. destruct (rpu_base s) as [i|] eqn:Er; [|by apply wp_ret].
  destruct (active_rpu_at _ _ Hwf Er) as [b Hi]. apply wp_bind. eapply wp_mono.
  - apply find_slot_wp; [exact Hi|]. eapply active_readable; [exact Hwf|exact Hi|by right].
  - intros [k|] s' [-> Hk]; apply wp_ret; (split; [done|]); [|done].
    destruct Hk as (x & Hx & _). split; [done|]. by exists b, x.
Qed.

Definition looked (d d' : daemon) : Prop := kept d d' /\ same_handles d d'.
Definition seen (d d' : daemon) : Prop := looked d d' /\ same_owners d d'.
Lemma looked_refl d : wf d -> looked d d.
Proof. done. Qed.
Lemma seen_refl d : wf d -> seen d d.
Proof. done. Qed.

Lemma refresh_rpmsg_wp i k b x s :
  wf (dm s) -> bases s !! i = Some b -> slot_list b !! k = Some (Some x) ->
  wp lib_fault (refresh_rpmsg i k) (fun _ s' => seen (dm s) (dm s')) s.
Proof.
  intros Hwf Hi Hx. destruct (slot_list_lookup _ _ _ Hx) as (l & Hl & Hk).
  apply wp_bind. eapply wp_get_slot; [exact Hi|exact Hl|exact Hk|]. apply wp_bind, wp_ret.
  apply wp_bind, wp_the; [|by split]. intros ds _. apply wp_bind, wp_env; [apply tame_update_rpmsg|]. intros ds' w.
  apply wp_bind. eapply wp_set_slot; [exact Hi|exact Hl|by apply lookup_lt_Some in Hk|]. apply wp_ret.
  split; [|eapply (slot_like_owners (dm s) _ i b l k x _ Hi Hl Hk); [|reflexivity]; by split]. split; [|done]. split; [|done]. unfold wf. simpl. eapply wf_slot_like; [exact Hwf|exact Hi|exact Hl|exact Hk|by split].
Qed.

Lemma wp_sprintf sz str Q s : Q str s -> wp lib_fault (sprintf_into sz str) Q s.
Proof. intros HQ. unfold sprintf_into. by destruct (fits sz str). Qed.

(** The slot of the active PL base with that handle. *)
Lemma pl_slot_wp h i s :
  wf (dm s) -> pl_base s = Some i ->
  wp lib_fault (find_slot_from_handle i h)
     (fun r s' => s' = s /\ match r with
        | Some k => exists b l x, bases s !! i = Some b /\ slots b = Some l /\ l !! k = Some (Some x)
        | None => True end) s.
Proof.
  intros Hwf Ha. destruct (active_base_at _ _ Hwf Ha) as [b Hi]. eapply wp_mono.
  - apply find_slot_wp; [exact Hi|]. eapply active_readable; [exact Hwf|exact Hi|by left].
  - intros [k|] s' [-> Hk]; (split; [done|]); [|done]. destruct Hk as (x & Hx & _).
    destruct (slot_list_lookup _ _ _ Hx) as (l & Hl & Hlk). by exists b, l, x.
Qed.

Lemma list_uio_wp h sz s :
  wf (dm s) -> wp lib_fault (list_accel_uio h sz) (fun _ s' => seen (dm s) (dm s')) s.
Proof.
  intros Hwf. apply wp_bind, wp_gp. apply wp_bind.
  eapply wp_mono; [by apply rpu_slot_of_wp|]. intros [[i k]|] s' [-> Hs].
  { destruct Hs as (_ & b & x & Hi & Hx). apply wp_bind. eapply wp_mono; [by eapply refresh_rpmsg_wp|].
    intros l s1 Hr1. by apply wp_sprintf. }
  clear Hs. destruct (pl_base s) as [i|] eqn:Ea; [|by apply wp_sprintf].
  apply wp_bind. eapply wp_mono; [by apply pl_slot_wp|]. intros [k|] s' [-> Hs]; [|by apply wp_ret].
  destruct Hs as (b & l & x & Hi & Hl & Hk). apply wp_bind. eapply wp_getb; [exact Hi|]. cbv zeta. rewrite Hl.
  destruct (_ <=? _); [by apply wp_sprintf|]. apply wp_bind. eapply wp_get_slot; [exact Hi|exact Hl|exact Hk|].
  cbv beta iota. destruct (s_accel x) as [a|] eqn:Eacc; [|by apply wp_sprintf].
  apply wp_bind, wp_hw_tame; [apply tame_ip_lines|]. intros p h1. apply wp_bind, wp_sprintf.
  apply wp_bind, wp_hw_tame; [unfold dfx_shell_uio_list; tame_go|]. intros q h2. by apply wp_sprintf.
Qed.

Lemma uio_by_name_wp h name s :
  wf (dm s) -> wp lib_fault (get_accel_uio_by_name h name) (fun _ s' => seen (dm s) (dm s')) s.
Proof.
  intros Hwf. apply wp_bind, wp_gp. apply wp_bind.
  eapply wp_mono; [by apply rpu_slot_of_wp|]. intros [[i k]|] s' [-> Hs].
  { destruct Hs as (_ & b & x & Hi & Hx). apply wp_bind. eapply wp_mono; [by eapply refresh_rpmsg_wp|].
    intros l s1 Hr1. by apply wp_ret. }
  clear Hs. destruct (pl_base s) as [i|] eqn:Ea; [|by apply wp_ret].
  apply wp_bind. eapply wp_mono; [by apply pl_slot_wp|]. intros [k|] s' [-> Hs]; [|by apply wp_ret].
  destruct Hs as (b & l & x & Hi & Hl & Hk). apply wp_bind. eapply wp_getb; [exact Hi|]. rewrite Hl.
  destruct (_ <=? _); [by apply wp_ret|]. apply wp_bind. eapply wp_get_slot; [exact Hi|exact Hl|exact Hk|].
  cbv beta iota. destruct (s_accel x) as [a|]; [|by apply wp_ret].
  apply wp_bind, wp_hw_tame; [apply tame_ip_by_name|]. intros [p|] h1; [by apply wp_ret|].
  apply wp_hw_tame; [unfold dfx_shell_uio_by_name; tame_go|]. done.
Qed.

(** ** Requests *)

Lemma wp_kept {A} (m : M (sys W) A) Q s :
  steady m -> wp lib_fault m Q s ->
  wp lib_fault m (fun a s' => Q a s' /\ firmware_rescan_pending (dm s') = firmware_rescan_pending (dm s)) s.
Proof.
  intros Hm HQ. eapply wp_mono; [apply (wp_within _ _ _ _ _ Hm HQ)|].
  intros a s' [HQ' Hf]. split; [done|]. apply (f_equal f_pending) in Hf. exact Hf.
Qed.

(** What a request does to the table of handles, and the value it answers. *)
Definition takes (d : daemon) (r : Z) (d' : daemon) : Prop :=
  take_handle (available_slot_handle (platform d)) = (r, available_slot_handle (platform d')).
Definition loaded (d : daemon) (r : Z) (d' : daemon) : Prop := kept d d' /\ (takes d r d' \/ same_handles d d').

Lemma loaded_refl d r : wf d -> loaded d r d.
Proof. intros Hr. split; [done|by right]. Qed.

Lemma load_post_loaded d i name r d' : load_post d i name r d' -> firmware_rescan_pending d' = firmware_rescan_pending d -> loaded d r d'.
Proof. intros [Hwf [[Ht _]|[_ Ht]]] Hp; (split; [by split|]); [by left|by right]. Qed.

Lemma ready_load name cma fs sz s :
  ready (dm s) -> wp lib_fault (load_accelerator name cma fs sz) (fun r s' => loaded (dm s) r.1 (dm s')) s.
Proof.
  intros Hr. pose proof Hr as [Hwf Hp]. apply wp_bind, wp_getd. rewrite Hp. apply wp_bind, wp_ret, wp_bind, wp_getd.
  destruct (findBaseDesign (dm s) name) as [i|] eqn:Ef; [|by apply wp_ret, loaded_refl].
  apply find_index_lookup in Ef as (b & Hi & Hn). apply andb_true_iff in Hn as [Huse _].
  eapply wp_mono; [apply wp_kept; [auto with within|by apply (load_core_wp i b)]|].
  intros r s' [Hpost Hp']. by eapply load_post_loaded.
Qed.

Lemma ready_load_arg name cma fs sz s :
  ready (dm s) -> wp lib_fault (load_accelerator_arg name cma fs sz) (fun r s' => loaded (dm s) r.1 (dm s')) s.
Proof.
  destruct name as [name|]; [apply ready_load|]. intros Hr. pose proof Hr as [Hwf Hp].
  apply wp_bind, wp_getd. rewrite Hp. apply wp_bind, wp_ret, wp_bind, wp_getd.
  apply wp_bind, wp_guard; [|by split]. intros _. by apply wp_ret, loaded_refl.
Qed.

Lemma kept_load_by_id id cma fs sz s :
  wf (dm s) -> wp lib_fault (load_accelerator_by_id id cma fs sz) (fun r s' => loaded (dm s) r.1 (dm s')) s.
Proof.
  intros Hwf. eapply wp_mono; [apply wp_kept; [auto with within|by apply load_by_id_wp]|].
  intros r s' [[(i & j & b & x & _ & _ & _ & Hpost)|[_ ->]] Hp']; [by eapply load_post_loaded|by apply loaded_refl].
Qed.

Lemma kept_user_load flag ff bf ov region key fs sz s :
  wf (dm s) ->
  wp lib_fault (user_load flag ff bf ov region key fs sz) (fun r s' => loaded (dm s) r.1 (dm s')) s.
Proof.
  intros Hwf. eapply wp_mono; [apply wp_kept; [auto with within|by apply user_load_wp]|].
  intros r s' [[Hwf' [[Ht _]|[_ Ht]]] Hp']; (split; [by split|]); [by left|by right].
Qed.

Definition unloaded (d d' : daemon) : Prop := kept d d' /\ (same_handles d d' \/ exists h, frees d d' h).

(** An unload leaves a walk that is due alone. *)
Lemma kept_unloaded {A} (m : M (sys W) A) s :
  steady m -> wp lib_fault m (fun _ s' => released (dm s) (dm s')) s ->
  wp lib_fault m (fun _ s' => unloaded (dm s) (dm s')) s.
Proof.
  intros Hm HQ. eapply wp_mono; [by apply wp_kept|]. intros a s' [[Hwf' Hm'] Hp']. by split.
Qed.

Lemma kept_overlay region s :
  wf (dm s) -> wp lib_fault (user_unload_overlay region) (fun _ s' => looked (dm s) (dm s')) s.
Proof.
  intros Hwf. eapply wp_mono; [apply wp_kept; [auto with within|by apply user_unload_overlay_wp]|].
  intros a s' [Hs Hp']. split; [split; [by eapply reshaped_wf|done]|]. destruct Hs as [_ Hs]. unfold same_handles. by rewrite Hs.
Qed.

Lemma tame_readback type path : tame (fpga_readback (W := W) type path).
Proof. unfold fpga_readback. tame_go. Qed.

Lemma kept_readback type name r sz s :
  wf (dm s) -> wp lib_fault (user_readback type name r sz) (fun _ s' => looked (dm s) (dm s')) s.
Proof.
  intros Hr. apply (wp_seq _ (fun _ s' => looked (dm s) (dm s'))).
  - destruct (nonempty name); [|by apply wp_ret]. apply wp_bind, wp_env; [apply tame_readback|]. intros v w. by apply wp_ret.
  - intros rr s' Hr'. destruct (negb _); by apply wp_ret.
Qed.

Lemma ready_listing flag s :
  ready (dm s) -> wp lib_fault (listAccelerators flag) (fun _ s' => looked (dm s) (dm s')) s.
Proof.
  intros [Hwf Hp]. eapply wp_mono; [by apply listAccelerators_wp|]. intros a s' Hd. unfold looked, same_handles. rewrite Hd.
  split; [split; [exact (assign_list_ids_wf _ Hwf)|done]|done].
Qed.

(** *** A request as a whole *)

Definition loads (r : dfx_mgr_request) : bool :=
  match r with LOAD_ACCEL | LOAD_ACCEL_BY_NAME | LOAD_ACCEL_BY_ID | USER_LOAD => true | _ => false end.
Definition unloads (r : dfx_mgr_request) : bool :=
  match r with
  | UNLOAD_ACCEL | UNLOAD_ACCEL_BY_ID | UNLOAD_ACCEL_BY_NAME | UNLOAD_ACCEL_BY_HANDLE => true
  | _ => false
  end.

(** The value a client reads in the reply. *)
Definition answers (reply : option message) (v : Z) : Prop :=
  exists m, reply = Some m /\ (dfxmgr_split_fpga_state (msg_data m)).1 = dec v.

Definition served (r : dfx_mgr_request) (d : daemon) (reply : option message) (d' : daemon) : Prop :=
  kept d d' /\
  (same_handles d d' \/
   (loads r = true /\ exists h, answers reply h /\ takes d h d') \/
   (unloads r = true /\ exists h, frees d d' h)).

Lemma dec_no_colon v : all_chars (fun d => negb (Ascii.eqb d ":")) (dec v) = true.
Proof.
  eapply all_chars_mono; [|apply dec_chars]. intros c Hc. apply negb_true_iff, Ascii.eqb_neq. intros ->.
  by vm_compute in Hc.
Qed.

(** Splitting a reply gives back the value and the state that were joined. *)
Lemma split_no_state v : dfxmgr_split_fpga_state (dec v ++ "") = (dec v, None).
Proof. unfold dfxmgr_split_fpga_state. by rewrite app_nil_r_str, (strchr_none _ _ (dec_no_colon v)). Qed.
Lemma split_state v f : dfxmgr_split_fpga_state (dec v ++ ":" ++ f) = (dec v, Some f).
Proof.
  change (":" ++ f)%string with (String ":" f).
  unfold dfxmgr_split_fpga_state. by rewrite (strchr_app _ _ f (dec_no_colon v)), substring_app_l, str_drop_app_S.
Qed.

Lemma response_value v allow dirty fs : answers (Some (format_load_response v allow dirty fs)) v.
Proof.
  eexists. split; [done|]. unfold format_load_response. cbn [msg_data message0 record_set setter_of]. destruct fs as [f|]; [destruct (streq f "")|].
  - by rewrite split_no_state.
  - by rewrite split_state.
  - by rewrite split_no_state.
Qed.

Lemma serve_load {A} r w (m : M (sys W) A) (g : A -> Z * option string) s :
  loads r = true -> wp lib_fault m (fun a s' => loaded (dm s) (g a).1 (dm s')) s ->
  wp lib_fault (let! rv := m in load_reply w (g rv)) (fun reply s' => served r (dm s) reply (dm s')) s.
Proof.
  intros Hl Hm. apply wp_bind. eapply wp_mono; [exact Hm|]. intros a s' [Hr Ht].
  apply wp_bind, wp_bind, wp_getd, wp_ret, wp_ret. split; [done|]. destruct Ht as [Ht|Ht]; [|by left].
  right. left. split; [done|]. exists (g a).1. split; [apply response_value|done].
Qed.

Lemma serve_look {A} r (m : M (sys W) A) (k : A -> option message) s :
  wp lib_fault m (fun _ s' => looked (dm s) (dm s')) s ->
  wp lib_fault (let! a := m in ret (k a)) (fun reply s' => served r (dm s) reply (dm s')) s.
Proof. intros Hm. apply wp_bind. eapply wp_mono; [exact Hm|]. intros a s' [Hr Ht]. apply wp_ret. split; [done|by left]. Qed.

Lemma wp_seen {A} (m : M (sys W) A) s :
  wp lib_fault m (fun _ s' => seen (dm s) (dm s')) s -> wp lib_fault m (fun _ s' => looked (dm s) (dm s')) s.
Proof. intros Hm. eapply wp_mono; [exact Hm|]. by intros a s' [? _]. Qed.

Lemma unloaded_served r d reply d' : unloads r = true -> unloaded d d' -> served r d reply d'.
Proof. intros Hu [Hr [Ht|Hf]]; (split; [done|]); [by left|]. right. by right. Qed.

Lemma serve_unload r (m : M (sys W) Z) s :
  unloads r = true -> steady m -> wp lib_fault m (fun _ s' => released (dm s) (dm s')) s ->
  wp lib_fault (let! v := m in ret (Some (number_reply v))) (fun reply s' => served r (dm s) reply (dm s')) s.
Proof.
  intros Hu Hm HQ. apply wp_bind. eapply wp_mono; [by apply kept_unloaded|]. intros a s' Hs.
  apply wp_ret. by apply unloaded_served.
Qed.

Lemma handle_request_served r m s :
  wf (dm s) -> (walks r = true -> firmware_rescan_pending (dm s) = false) ->
  wp lib_fault (handle_request r m) (fun reply s' => served r (dm s) reply (dm s')) s.
Proof.
  intros Hwf Hw. destruct r; cbn [handle_request]; cbv zeta; try destruct (load_args _) as [o cma].
  - apply wp_ret. split; [done|by left].
  - apply (serve_load LOAD_ACCEL _ _ id), ready_load_arg; [done|]. split; auto.
  - apply serve_unload; [done|auto with within|by apply unload_released].
  - apply serve_look, ready_listing. split; auto.
  - destruct (streq _ _); apply serve_look, wp_seen; [by apply list_uio_wp|by apply uio_by_name_wp].
  - by apply serve_look, kept_readback.
  - by apply (serve_load USER_LOAD _ _ id), kept_user_load.
  - by apply serve_look, kept_overlay.
  - apply wp_bind, wp_the; [|by split]. intros n _. by apply (serve_load LOAD_ACCEL_BY_ID _ _ id), kept_load_by_id.
  - apply wp_bind. eapply wp_mono; [apply kept_unloaded; [auto with within|by apply unload_by_id_wp]|].
    intros a s' Hs. apply wp_bind, wp_bind, wp_getd, wp_ret, wp_ret. by apply unloaded_served.
  - apply (serve_load LOAD_ACCEL_BY_NAME _ _ id), ready_load_arg; [done|]. split; auto.
  - apply serve_unload; [done|auto with within|by apply unload_by_name_wp].
  - apply serve_unload; [done|auto with within|by apply unload_released].
Qed.

(** The message may be served as it is: it does not ask for a walk that is due. *)
Definition servable (m : message) (d : daemon) : Prop :=
  forall r, request_of (msg_id m) = Some r -> walks r = true -> firmware_rescan_pending d = false.

Lemma process_served m s :
  wf (dm s) -> servable m (dm s) ->
  wp lib_fault (process_dfx_req m)
     (fun reply s' => kept (dm s) (dm s') /\
        (same_handles (dm s) (dm s') \/
         exists r, request_of (msg_id m) = Some r /\ served r (dm s) reply (dm s'))) s.
Proof.
  intros Hwf Hw. unfold process_dfx_req. unfold servable in Hw. destruct (request_of _) as [r|].
  - eapply wp_mono; [exact (handle_request_served r m s Hwf (Hw r eq_refl))|]. intros reply s' Hs. split; [apply Hs|]. right. by exists r.
  - apply wp_ret. split; [done|by left].
Qed.

Lemma ready_servable m d : ready d -> servable m d.
Proof. intros [_ Hp] r _ _. exact Hp. Qed.

Lemma process_ready m s :
  ready (dm s) -> wp lib_fault (process_dfx_req m) (fun _ s' => ready (dm s')) s.
Proof.
  intros Hr. pose proof Hr as [Hwf Hp]. eapply wp_mono; [apply process_served; [done|by apply ready_servable]|].
  intros r s' [[Hwf' Hp'] _]. split; [done|congruence].
Qed.

(** ** The frame of a request *)

Definition framed {A} (m : M (sys W) A) s : Prop :=
  wp lib_fault m (fun _ s' => frame_of (dm s') = frame_of (dm s)) s.

Lemma framed_steady {A} (m : M (sys W) A) s : steady m -> wp lib_fault m (fun _ _ => True) s -> framed m s.
Proof. intros Hm Ht. eapply wp_mono; [exact (wp_within _ _ _ _ _ Hm Ht)|]. by intros a s' [_ ?]. Qed.

Lemma framed_bind {A B} (m : M (sys W) A) (k : A -> M (sys W) B) s :
  framed m s -> (forall a, steady (k a)) -> wp lib_fault (bind m k) (fun _ _ => True) s -> framed (bind m k) s.
Proof.
  unfold framed, wp, bind. destruct (m s) as [a s1|f]; [|done]. intros Hm Hk. specialize (Hk a s1).
  unfold wp in Hk. destruct (k a s1); congruence.
Qed.

(** Without a walk to do, loading by name is looking the name up and loading. *)
Lemma load_no_walk name cma fs sz s :
  firmware_rescan_pending (dm s) = false ->
  load_accelerator name cma fs sz s =
  match findBaseDesign (dm s) name with
  | None => Ret (- DFX_MGR_NO_PACKAGE_FOUND_ERROR, fs) s
  | Some i => load_accelerator_core i name cma fs sz s
  end.
Proof.
  intros Hp. unfold load_accelerator, bind, getd, gets. rewrite Hp. cbn. by destruct (findBaseDesign (dm s) name).
Qed.

Lemma framed_load name cma fs sz s : ready (dm s) -> framed (load_accelerator name cma fs sz) s.
Proof.
  intros Hr. pose proof (ready_load name cma fs sz s Hr) as Hsafe. destruct Hr as [_ Hp]. revert Hsafe.
  unfold framed, wp. rewrite (load_no_walk name cma fs sz s Hp). destruct (findBaseDesign (dm s) name) as [i|]; [|done].
  pose proof (within_load_core same_frame i name cma fs sz s) as Hst. unfold wp in Hst.
  by destruct (load_accelerator_core i name cma fs sz s).
Qed.

Lemma framed_load_arg name cma fs sz s : ready (dm s) -> framed (load_accelerator_arg name cma fs sz) s.
Proof.
  destruct name as [name|]; [apply framed_load|]. intros [_ Hp].
  apply wp_bind, wp_getd. rewrite Hp. apply wp_bind, wp_ret, wp_bind, wp_getd, wp_bind, wp_guard; [done|by split].
Qed.

Lemma framed_listing flag s : ready (dm s) -> framed (listAccelerators flag) s.
Proof. intros [Hwf Hp]. eapply wp_mono; [by apply listAccelerators_wp|]. by intros a s' ->. Qed.

Lemma handle_request_frame r m s : ready (dm s) -> framed (handle_request r m) s.
Proof.
  intros Hr.
  assert (Hsafe : wp lib_fault (handle_request r m) (fun _ _ => True) s).
  { eapply wp_mono; [apply handle_request_served; [apply Hr|intros _; apply Hr]|done]. }
  destruct r; revert Hsafe; cbn [handle_request]; cbv zeta; try destruct (load_args _) as [o cma]; intros Hsafe.
  2, 11: (apply framed_bind; [by apply framed_load_arg|intros a; within_go|exact Hsafe]).
  3: (apply framed_bind; [by apply framed_listing|intros a; within_go|exact Hsafe]).
  all: (apply framed_steady; [within_go|exact Hsafe]).
Qed.

Lemma process_frame m s : ready (dm s) -> framed (process_dfx_req m) s.
Proof.
  intros Hr. unfold process_dfx_req. destruct (request_of _); [by apply handle_request_frame|done].
Qed.
End RequestSafe.
