(* ===== verification/StartSafe.v ===== *)
(** * Walking the firmware directories

    The walk registers and configures base designs and their packages.  Whatever
    the directories and the JSON and PDI files hold, it leaves the slots, the
    counters, the user loads and the table of handles as they are: [scan].  The
    tables stay well formed as soon as the bases that have slots keep their shape
    ([calm], [scan_wf]); before the first load no base has slots, so that start-up
    establishes the invariant.  Together with [RequestSafe] this makes [wf] an
    invariant of every run. *)
From S2P Require Import Prelude CStr Env Model UserLoad Json Accel Rpu Pdi Slots Invariant ListIds TablesWp.
From S2P Require Import ListIdFacts Registry Eeprom Events RequestSafe.
Open Scope Z_scope.
Open Scope dfx_scope.

(** The accelerator records the directory [pp] as its parent, or nothing, and its
    texts fit. *)
Definition accel_fine (pp : string) (a : accel_info) : Prop :=
  (a_parent_path a = pp \/ a_parent_path a = ""%string) /\ accel_texts a.

(** Every accelerator of a base is fine for the base's directory. *)
Definition tight (b : basePLDesign) : Prop :=
  (fits 512 (base_path b) = true /\ length (accel_list b) = RP_SLOTS_MAX) /\
  forall a, a ∈ accel_list b -> accel_fine (base_path b) a.

(** An entry apart from its slots. *)
Record entry_loose (b : basePLDesign) : Prop := {
  el_range : slots_in_range b;
  el_free : base_path b = ""%string -> is_user_load b = false /\ blank b;
  el_user : is_user_load b = true <-> base_path b = "User"%string;
  el_blank : is_user_load b = true -> blank b;
  el_handle : is_user_load b = true -> -1 <= user_load_handle b;
  el_flat : is_flat_type (b_type b) = true -> 0 < num_pl_slots b;
  el_tight : tight b;
  el_name : fits ACCEL_NAME_MAX (b_name b) = true;
  el_bare : ~ package b -> forall a, a ∈ accel_list b -> accel_bare a;
}.

Lemma package_dec b : package b \/ ~ package b.
Proof. unfold package. destruct (streqP (base_path b) ""), (streqP (base_path b) "User"); tauto. Qed.

Lemma wf_loose b : entry_wf b -> entry_loose b.
Proof.
  intros Hb. split; try apply Hb; [split; [apply Hb|split; apply Hb]|]. split; [split; apply Hb|]. intros a Ha.
  split; [|by apply (ew_texts b Hb)]. destruct (package_dec b) as [Hp|Hp].
  - by apply (ew_parent b Hb).
  - right. by apply (ew_bare b Hb Hp).
Qed.

(** What a walk leaves as it is, and the entries that may change their
    directory. *)
Definition load_state (b : basePLDesign) : option (list (option slot_info)) * Z * bool * bool * Z :=
  (slots b, active b, is_user_load b, user_load_type b, user_load_handle b).
Definition evolves (b b' : basePLDesign) : Prop :=
  load_state b' = load_state b /\
  (base_path b' = base_path b \/ slots b = None /\ is_user_load b = false).

Lemma evolves_refl b : evolves b b.
Proof. split; [done|by left]. Qed.
Lemma evolves_trans b1 b2 b3 : evolves b1 b2 -> evolves b2 b3 -> evolves b1 b3.
Proof.
  intros [H1 P1] [H2 P2]. split; [congruence|]. injection H1 as Hs _ Hu _ _.
  destruct P1 as [P1|P1]; [|by right]. destruct P2 as [P2|P2]; [left; congruence|right]. by rewrite <- Hs, <- Hu.
Qed.

(** The entry keeps its shape if it has slots. *)
Definition calm_entry (b b' : basePLDesign) : bool :=
  match slots b with
  | None => true
  | Some _ => streq (b_type b') (b_type b) && (num_pl_slots b' =? num_pl_slots b) && (num_aie_slots b' =? num_aie_slots b)
  end.
Definition calm (d d' : daemon) : bool :=
  forallb (fun bb => calm_entry bb.1 bb.2) (zip (base_designs d) (base_designs d')).

Lemma calm_lookup d d' i b b' :
  calm d d' = true -> base_designs d !! i = Some b -> base_designs d' !! i = Some b' -> slots b <> None ->
  b_type b' = b_type b /\ num_pl_slots b' = num_pl_slots b /\ num_aie_slots b' = num_aie_slots b.
Proof.
  intros Hc Hb Hb' Hs. assert (Hi : zip (base_designs d) (base_designs d') !! i = Some (b, b'))
    by (apply lookup_zip_with_Some; by exists b, b').
  unfold calm in Hc. rewrite forallb_forall in Hc. specialize (Hc _ (proj1 (list_elem_of_In _ _) (list_elem_of_lookup_2 _ _ _ Hi))).
  unfold calm_entry in Hc. simpl in Hc. destruct (slots b); [|done]. apply andb_true_iff in Hc as [[?%streq_true ?%Z.eqb_eq]%andb_true_iff ?%Z.eqb_eq].
  done.
Qed.

Lemma evolved_entry b b' :
  entry_wf b -> evolves b b' -> entry_loose b' ->
  (slots b <> None -> b_type b' = b_type b /\ num_pl_slots b' = num_pl_slots b /\ num_aie_slots b' = num_aie_slots b) ->
  entry_wf b'.
Proof.
  intros Hb [Hl _] Hb' Hc. injection Hl as Hs _ _ _ _. destruct (el_range _ Hb') as (? & ? & ?).
  destruct (el_tight _ Hb') as [[? ?] Ha].
  split; try apply Hb'; try done.
  - intros a Hin _. by apply Ha.
  - intros l El. rewrite Hs in El. destruct (Hc ltac:(congruence)) as (Ht & Hn1 & Hn2). unfold num_slots.
    rewrite Ht, Hn1, Hn2. by apply Hb.
  - intros l k x El. rewrite Hs in El. destruct (Hc ltac:(congruence)) as (_ & Hn1 & Hn2). unfold num_slots.
    rewrite Hn1, Hn2. by apply (ew_scanned b Hb).
  - split; [apply (el_name _ Hb')|done].
Qed.

Lemma evolved_role pa ra np b b' :
  evolves b b' -> role_ok pa ra np b -> (slots b <> None -> b_type b' = b_type b) ->
  role_ok pa ra np b'.
Proof.
  intros [Hl Hp] (HA & HR & HO) Hc. injection Hl as Hs Ha Hu Ht _. unfold role_ok, occupied, occupied_valid, slot_list in *.
  rewrite Hs, Ha, Hu, Ht. split_and!.
  - intros E. destruct (HA E) as [?|(Hpk & Hty & Hsn & Hrest)]; [by left|right].
    destruct Hp as [Hp|[? _]]; [|done]. unfold package in *. rewrite Hp, (Hc Hsn). done.
  - intros E. destruct (HR E) as (Hpk & Hty & Hsn & Hrest).
    destruct Hp as [Hp|[? _]]; [|done]. unfold package in *. rewrite Hp, (Hc Hsn). done.
  - done.
Qed.

Section Scan.
(** The state that the walk began in, and whether another walk is due. *)
Context {d0 : daemon} {due : bool}.

Record scan (d : daemon) : Prop := {
  sc_wf : wf d0;
  sc_pending : firmware_rescan_pending d = due;
  sc_platform : platform d = platform d0;
  sc_len : length (base_designs d) = MAX_WATCH;
  sc_from : Forall2 evolves (base_designs d0) (base_designs d);
  sc_entry : forall i b, base_designs d !! i = Some b -> entry_loose b;
  sc_paths : forall i j b c, base_designs d !! i = Some b -> base_designs d !! j = Some c ->
               package b -> base_path b = base_path c -> i = j;
}.

Lemma scan_refl : wf d0 -> firmware_rescan_pending d0 = due -> scan d0.
Proof.
  intros Hwf Hp. split; [done|done|done|exact (wf_len _ _ _ _ Hwf)| | |exact (wf_paths _ _ _ _ Hwf)].
  - apply Forall2_same_length_lookup_2; [done|]. intros i x y Hx Hy. simplify_eq. apply evolves_refl.
  - intros i b Hi. by apply wf_loose, (wf_entry _ _ _ _ Hwf i).
Qed.

(** A walk that leaves the shape of the bases with slots keeps the tables well
    formed. *)
Lemma scan_wf d : scan d -> calm d0 d = true -> wf d.
Proof.
  intros Hs Hc. pose proof (sc_wf _ Hs) as Hwf. pose proof (sc_from _ Hs) as HF. unfold wf. rewrite (sc_platform _ Hs).
  assert (Hl : forall i b', base_designs d !! i = Some b' -> exists b, base_designs d0 !! i = Some b /\ evolves b b').
  { intros i b' Hi. by apply (Forall2_lookup_r _ _ _ _ _ HF Hi). }
  assert (Hocc : forall h, sum_list_with (occ h) (base_designs d) = sum_list_with (occ h) (base_designs d0)).
  { intros h. clear -HF. induction HF as [|b b' l l' [Hb _] HF IH]; simpl; [done|]. rewrite IH.
    injection Hb as Hs _ Hu _ Hh. unfold occ, slot_occ, user_occ, slot_list. by rewrite Hs, Hu, Hh. }
  assert (Hpart : partials (base_designs d) = partials (base_designs d0)).
  { clear -HF. unfold partials. induction HF as [|b b' l l' [Hb _] HF IH]; simpl; [done|]. rewrite IH.
    injection Hb as _ _ Hu Ht _. unfold is_partial. by rewrite Hu, Ht. }
  split; [split|exact (wf_pl _ _ _ _ Hwf)|exact (wf_rpu _ _ _ _ Hwf)|].
  - apply Hs.
  - exact (wf_table _ _ _ _ Hwf).
  - intros i b' Hi. destruct (Hl i b' Hi) as (b & Hb & He).
    apply (evolved_entry b); [by apply (wf_entry _ _ _ _ Hwf i)|done|by apply (sc_entry _ Hs i)|].
    intros Hsn. exact (calm_lookup d0 d i b b' Hc Hb Hi Hsn).
  - apply Hs.
  - intros h. rewrite Hocc. exact (wf_handles _ _ _ _ Hwf h).
  - intros i b' Hi. destruct (Hl i b' Hi) as (b & Hb & He). rewrite Hpart.
    apply (evolved_role _ _ _ b b' He); [by apply (wf_role _ _ _ _ Hwf i)|].
    intros Hsn. by apply (calm_lookup d0 d i b b' Hc Hb Hi Hsn).
Qed.

(** An entry without slots that is no user load counts nothing. *)
Lemma scan_inactive d i b :
  scan d -> base_designs d !! i = Some b -> slots b = None -> is_user_load b = false -> active b = 0.
Proof.
  intros Hs Hi Hn Hu. destruct (Forall2_lookup_r _ _ _ _ _ (sc_from _ Hs) Hi) as (b0 & Hb0 & [Hl _]).
  injection Hl as Hls Hla Hlu _ _. destruct (wf_role _ _ _ _ (sc_wf _ Hs) i b0 Hb0) as (HA & HR & HO).
  rewrite Hla. apply HO.
  - destruct (points_to _ i); [|done]. destruct (HA eq_refl) as [(? & _)|(_ & _ & ? & _)]; congruence.
  - destruct (points_to (active_rpu_base _) i); [|done]. destruct (HR eq_refl) as (_ & _ & ? & _). congruence.
Qed.

(** The entry that is found for a directory is a package. *)
Lemma found_package path b :
  entry_loose b -> has_path path b = true -> path <> ""%string -> path <> "User"%string -> package b.
Proof.
  intros Hb [Huse Hp]%andb_true_iff Hne Hu. destruct (package_dec b) as [?|Hnp]; [done|].
  pose proof (el_bare _ Hb Hnp) as Hbare. apply orb_true_iff in Hp as [Hp%streq_true|Hp].
  - split; congruence.
  - apply existsb_exists in Hp as (a & Ha%list_elem_of_In & Hp%streq_true). apply Hbare in Ha as [_ Ha]. congruence.
Qed.

(** A change of entry [b] that configuring it makes. *)
Record configures (b b' : basePLDesign) : Prop := {
  cf_path : base_path b' = base_path b;
  cf_load : load_state b' = load_state b;
  cf_range : slots_in_range b -> slots_in_range b';
  cf_tight : tight b -> tight b';
  cf_name : b_name b' = b_name b;
  cf_flat : (is_flat_type (b_type b) = true -> 0 < num_pl_slots b) ->
            is_flat_type (b_type b') = true -> 0 < num_pl_slots b';
}.

Lemma loose_not_user b : entry_loose b -> package b -> is_user_load b = false.
Proof. intros Hb [_ Hp]. destruct (is_user_load b) eqn:E; [|done]. by apply (el_user b Hb) in E. Qed.

Lemma configured_entry b b' : entry_loose b -> package b -> configures b b' -> entry_loose b'.
Proof.
  intros Hb Hp Hc. pose proof (loose_not_user b Hb Hp) as Hu.
  assert (package b') as Hp' by (unfold package; by rewrite (cf_path _ _ Hc)). pose proof Hp' as [He Hne].
  pose proof (cf_load _ _ Hc) as Hl. injection Hl as _ _ Hu' _ _. rewrite Hu in Hu'.
  split; try done; try congruence.
  - apply (cf_range _ _ Hc), Hb.
  - rewrite Hu'. by split.
  - apply (cf_flat _ _ Hc), Hb.
  - apply (cf_tight _ _ Hc), Hb.
  - rewrite (cf_name _ _ Hc). apply Hb.
Qed.

(** Replacing an entry. *)
Lemma scan_replace d i b b' :
  scan d -> base_designs d !! i = Some b -> entry_loose b' -> path_kept (base_designs d) b b' -> evolves b b' ->
  scan (d <| base_designs ::= <[i := b']> |>).
Proof.
  intros Hs Hi Hb' Hp He. pose proof (lookup_lt_Some _ _ _ Hi) as Hlt.
  assert (Hl : forall j c, <[i := b']> (base_designs d) !! j = Some c ->
                 (j = i /\ c = b') \/ (j <> i /\ base_designs d !! j = Some c)).
  { intros j c. destruct (decide (j = i)) as [->|Hne].
    - rewrite list_lookup_insert_eq by done. intros [= <-]. auto.
    - rewrite list_lookup_insert_ne by done. auto. }
  assert (Hnew : forall k c, package b' -> base_designs d !! k = Some c -> base_path b' = base_path c -> k = i).
  { intros k c Hpk Hk Hpath. destruct (Hp Hpk) as [Hpb|Hfresh]; [|by destruct (Hfresh k c Hk)].
    symmetry. apply (sc_paths d Hs i k b c); [done|done|unfold package in *|]; congruence. }
  split; simpl.
  - apply Hs.
  - apply Hs.
  - apply Hs.
  - rewrite length_insert. apply Hs.
  - pose proof (sc_from _ Hs) as HF. destruct (Forall2_lookup_r _ _ _ _ _ HF Hi) as (b0 & Hb0 & He0).
    rewrite <- (list_insert_id _ _ _ Hb0). apply Forall2_insert; [done|]. by eapply evolves_trans.
  - intros j c [[-> ->]|[_ Hj]]%Hl; [done|by apply (sc_entry _ Hs j)].
  - intros j k c c' [[-> ->]|[Hne Hj]]%Hl [[-> ->]|[Hne' Hk]]%Hl Hpk Hpath; [done| | |].
    + symmetry. by apply (Hnew k c').
    + apply (Hnew j c); [unfold package in *; congruence|done..].
    + by apply (sc_paths _ Hs j k c c').
Qed.

Lemma scan_configure d i b b' :
  scan d -> base_designs d !! i = Some b -> package b -> configures b b' ->
  scan (d <| base_designs ::= <[i := b']> |>).
Proof.
  intros Hs Hi Hp Hc. apply (scan_replace d i b); auto.
  - apply (configured_entry b); auto. by apply (sc_entry _ Hs i).
  - intros _. left. apply Hc.
  - split; [apply Hc|left; apply Hc].
Qed.

(** ** Accelerators *)

Lemma tight_accels b l :
  tight b -> length l = RP_SLOTS_MAX ->
  (forall a, a ∈ l -> a ∈ accel_list b \/ accel_fine (base_path b) a) ->
  configures b (b <| accel_list := l |>).
Proof. intros [[Hf _] Ht] Hl Ha. split; try done. intros _. split; [done|]. intros a [Hin|?]%Ha; [by apply Ht|done]. Qed.

Lemma insert_elem {A} (l : list A) j (x a : A) : a ∈ <[j := x]> l -> a ∈ l \/ a = x.
Proof.
  intros Ha. apply list_elem_of_lookup in Ha as [k Hk]. destruct (decide (k = j)) as [->|Hne].
  - destruct (decide (j < length l)%nat).
    + rewrite list_lookup_insert_eq in Hk by done. right. congruence.
    + rewrite list_insert_ge in Hk by lia. left. by eapply list_elem_of_lookup_2.
  - rewrite list_lookup_insert_ne in Hk by done. left. by eapply list_elem_of_lookup_2.
Qed.

Lemma set_accel_configures b j a :
  tight b -> accel_fine (base_path b) a -> configures b (b <| accel_list ::= <[j := a]> |>).
Proof.
  intros Ht Ha. apply (tight_accels b (<[j := a]> (accel_list b))); [done|rewrite length_insert; apply Ht|].
  intros x [?| ->]%insert_elem; auto.
Qed.

Lemma add_accel_spec l name path pp j l' :
  add_accel l name path pp = (j, l') ->
  length l' = length l /\
  (forall a, a ∈ l' -> a ∈ l \/ exists a0, a0 ∈ l /\ accel_type a = accel_type a0 /\
     (fits ACCEL_NAME_MAX (a_name a) = true /\ fits 512 (a_path a) = true) /\ (a_parent_path a = trunc 512 pp \/ a_parent_path a = a_parent_path a0)) /\
  (forall k, j = Some k -> (k < length l)%nat).
Proof.
  unfold add_accel. destruct (find_index _ l) as [k|] eqn:Ef; [|intros [= <- <-]; split_and!; auto; done].
  destruct (l !! k) as [a|] eqn:Ek; [|intros [= <- <-]; split_and!; auto; done].
  pose proof (lookup_lt_Some _ _ _ Ek) as Hlt. pose proof (list_elem_of_lookup_2 _ _ _ Ek) as Hin.
  destruct (negb (free_accel a)); [intros [= <- <-]; split_and!; [done|auto|congruence]|].
  destruct (fits 512 path) eqn:Hfit; simpl; intros [= <- <-]; rewrite length_insert; (split; [done|]); (split; [|congruence]).
  - intros x [?| ->]%insert_elem; [by left|]. right. exists a. split_and!; try done; [by apply trunc_fits; unfold ACCEL_NAME_MAX; lia|by left].
  - intros x [?| ->]%insert_elem; [by left|]. right. exists a. split_and!; try done. by right.
Qed.

(** Stamping the list IDs does not count. *)
Lemma shape_loose b b' : same_shape b b' -> entry_loose b -> entry_loose b'.
Proof.
  intros Hs Hb. destruct (el_range _ Hb) as (? & ? & ?). destruct (el_tight _ Hb) as [[Hf Hl] Ha].
  split; unfold slots_in_range, tight; rewrite ?(shape_package _ _ Hs), ?(ss_pl _ _ Hs), ?(ss_aie _ _ Hs), ?(ss_path _ _ Hs), ?(ss_name _ _ Hs), ?(ss_user _ _ Hs),
    ?(shape_blank _ _ Hs), ?(ss_handle _ _ Hs), ?(ss_type _ _ Hs); try apply Hb; try done.
  - split; [split; [done|by rewrite (shape_accels_length _ _ Hs)]|]. intros a (a0 & Ha0 & Hk)%(shape_accel _ _ Hs).
    destruct (Ha a0 Ha0) as [Hp Ht]. split; [|by eapply key_texts]. by injection Hk as -> _ _ _.
  - intros Hp a (a0 & Ha0 & Hk)%(shape_accel _ _ Hs). injection Hk as Hk1 Hk2 _ _.
    unfold accel_bare. rewrite Hk1, Hk2. by apply (el_bare _ Hb).
Qed.

Lemma shape_evolves b b' : same_shape b b' -> evolves b b'.
Proof.
  intros Hs. split; [|left; apply Hs]. unfold load_state.
  by rewrite (ss_slots _ _ Hs), (ss_active _ _ Hs), (ss_user _ _ Hs), (ss_utype _ _ Hs), (ss_handle _ _ Hs).
Qed.

Lemma assign_ids_scan d : scan d -> scan (assign_list_ids d).
Proof.
  intros Hd. destruct (stamp_bases_spec 1 (base_designs d)) as (_ & _ & _ & HF).
  assert (Hl : forall i b', base_designs (assign_list_ids d) !! i = Some b' ->
                 exists b, base_designs d !! i = Some b /\ same_shape b b').
  { intros i b' Hi. by apply (Forall2_lookup_r _ _ _ _ _ HF Hi). }
  split; try apply Hd.
  - rewrite <- (sc_len _ Hd). symmetry. exact (Forall2_length _ _ _ HF).
  - apply Forall2_lookup. intros i. pose proof (proj1 (Forall2_lookup _ _ _) (sc_from _ Hd) i) as H0.
    pose proof (proj1 (Forall2_lookup _ _ _) HF i) as H1. simpl.
    destruct H0 as [b0 b H0|]; inversion H1 as [? b' Hs|]; constructor.
    eapply evolves_trans; [exact H0|by apply shape_evolves].
  - intros i b' (b & Hb & Hs)%Hl. apply (shape_loose _ _ Hs). by apply (sc_entry _ Hd i).
  - intros i j b' c' (b & Hb & Hsb)%Hl (c & Hc & Hsc)%Hl. rewrite (shape_package _ _ Hsb), (ss_path _ _ Hsb), (ss_path _ _ Hsc).
    by apply (sc_paths _ Hd).
Qed.

Section StartSafe.
Context {W : Type} `{Env W}.
Implicit Types (s : sys W).

(** The walk has come this far, and entry [i] is a package in [path]. *)
Definition scan_at (i : nat) (path : string) (s : sys W) : Prop :=
  scan (dm s) /\ exists b, bases s !! i = Some b /\ package b /\ base_path b = path.

Lemma scan_config i path b b' s :
  scan (dm s) -> bases s !! i = Some b -> package b -> base_path b = path -> configures b b' ->
  scan_at i path (set_bases (<[i := b']> (bases s)) s).
Proof.
  intros Hid Hi Hp Hpath Hc. split.
  - exact (scan_configure _ _ _ _ Hid Hi Hp Hc).
  - exists b'. simpl. rewrite list_lookup_insert_eq by (by apply lookup_lt_Some in Hi).
    unfold package. rewrite (cf_path _ _ Hc). done.
Qed.

(** ** Operations that do not touch the tables *)

Definition same_dm (s s' : sys W) : Prop :=
  base_designs (dm s') = base_designs (dm s) /\ platform (dm s') = platform (dm s) /\
  firmware_rescan_pending (dm s') = firmware_rescan_pending (dm s).

Lemma scan_same s s' : same_dm s s' -> scan (dm s) -> scan (dm s').
Proof. intros (Hb & Hp & Hf) [? ? ? ? ? ?]. split; by rewrite ?Hb, ?Hp, ?Hf. Qed.
Lemma scan_at_same i path s s' : same_dm s s' -> scan_at i path s -> scan_at i path s'.
Proof. intros Hs [Hid Hb]. split; [by eapply scan_same|]. destruct Hs as (-> & _). done. Qed.

Lemma watch_added_wp wd n p pn pp s :
  wp lib_fault (watch_added wd n p pn pp) (fun _ s' => same_dm s s') s.
Proof.
  apply wp_bind, wp_gets. destruct (add_to_watch _ _ _ _ _ _); [|by apply wp_ret].
  apply wp_bind, wp_modd, wp_ret. done.
Qed.

Lemma same_trans s1 s2 s3 : same_dm s1 s2 -> same_dm s2 s3 -> same_dm s1 s3.
Proof. unfold same_dm. intuition congruence. Qed.

Lemma add_dir_watch_wp p n pn pp s : wp lib_fault (add_dir_watch p n pn pp) (fun _ s' => same_dm s s') s.
Proof.
  apply wp_bind, wp_gets. destruct (path_to_watch _ _); [by apply wp_ret|].
  apply wp_bind, wp_env; [auto with tame|]. intros wd w. destruct (wd =? -1); [by apply wp_ret|].
  apply wp_bind. eapply wp_mono; [apply watch_added_wp|]. intros [] s1 Hs; [by apply wp_ret|].
  apply wp_bind, wp_env; [auto with tame|]. intros [] w'. by apply wp_ret.
Qed.

Lemma watch_design_wp p n cp s : wp lib_fault (watch_design_dir p n cp) (fun _ s' => same_dm s s') s.
Proof.
  apply wp_bind, wp_gets. destruct (path_to_watch _ _) as [k|] eqn:Ek.
  - apply find_index_lookup in Ek as (x & Hx & _). apply wp_bind, wp_gets, wp_bind. eapply wp_the_Some; [exact Hx|].
    apply wp_bind, wp_modd, wp_ret. done.
  - apply wp_bind, wp_env; [auto with tame|]. intros wd w. destruct (wd =? -1); [by apply wp_ret|].
    apply wp_bind. eapply wp_mono; [apply watch_added_wp|]. intros [] s1 Hs; [by apply wp_ret|].
    apply wp_bind, wp_env; [auto with tame|]. intros [] w'. by apply wp_ret.
Qed.

(** ** Accelerators of an entry *)

Lemma add_accel_wp i name path pp Q s :
  scan_at i pp s ->
  (forall o s', scan_at i pp s' ->
     match o with Some j => exists b a, bases s' !! i = Some b /\ accel_list b !! j = Some a | None => True end -> Q o s') ->
  wp lib_fault (add_accel_to_base i name path pp) Q s.
Proof.
  intros (Hid & b & Hi & Hp & Hpath) HQ. apply wp_bind. eapply wp_getb; [done|].
  destruct (add_accel (accel_list b) name path pp) as [o l] eqn:Ea.
  destruct (add_accel_spec _ _ _ _ _ _ Ea) as (Hlen & Hin & Hj). pose proof (el_tight _ (sc_entry _ Hid i b Hi)) as Ht.
  apply wp_bind, wp_setb, wp_ret. apply HQ.
  - eapply scan_config; try done. apply tight_accels; [done|by rewrite Hlen; apply Ht|].
    intros a [?|(a0 & Ha0 & Hty & Hn & He)]%Hin; [by left|]. right.
    destruct (proj2 Ht a0 Ha0) as [Hp0 (_ & _ & Ht0)]. destruct Hn as [Hn Hpt]. split; [|split; [done|split; [done|by rewrite Hty]]].
    destruct He as [->| ->]; [|done]. left. rewrite trunc_id; [done|]. rewrite <- Hpath. apply Ht.
  - destruct o as [j|]; [|done]. specialize (Hj j eq_refl). rewrite <- Hlen in Hj.
    destruct (lookup_lt_is_Some_2 l j Hj) as [a Ha]. exists (b <| accel_list := l |>), a. simpl.
    by rewrite list_lookup_insert_eq by (by apply lookup_lt_Some in Hi).
Qed.

Lemma set_accel_wp i pp j a s :
  scan_at i pp s -> accel_fine pp a ->
  wp lib_fault (set_accel i j a) (fun _ s' => scan_at i pp s') s.
Proof.
  intros (Hid & b & Hi & Hp & Hpath) Ha. apply wp_bind. eapply wp_getb; [done|]. apply wp_setb.
  eapply scan_config; try done. apply set_accel_configures; [by apply (sc_entry _ Hid i b Hi)|by rewrite Hpath].
Qed.

(** The accelerator that was added, as its parent is. *)
Lemma get_accel_wp i pp j Q s :
  scan_at i pp s -> (exists b a, bases s !! i = Some b /\ accel_list b !! j = Some a) ->
  (forall a, accel_fine pp a -> Q a s) ->
  wp lib_fault (get_accel i j) Q s.
Proof.
  intros (Hid & b & Hi & Hp & Hpath) (b' & a & Hi' & Ha) HQ. simplify_eq.
  apply wp_bind. eapply wp_getb; [done|]. eapply wp_the_Some; [done|]. apply HQ.
  destruct (el_tight _ (sc_entry _ Hid i b Hi)) as [_ Ht]. apply Ht. by eapply list_elem_of_lookup_2.
Qed.

Lemma init_json_wp i o pp dir s :
  scan_at i pp s ->
  match o with Some j => exists b a, bases s !! i = Some b /\ accel_list b !! j = Some a | None => True end ->
  wp lib_fault (init_accel_json i o dir) (fun _ s' => scan_at i pp s') s.
Proof.
  intros HI Ho. destruct o as [j|]; [|by apply wp_ret]. apply wp_bind. eapply get_accel_wp; [done..|]. intros a Ha.
  apply wp_bind, wp_in_hw, wp_in_world. eapply wp_mono; [apply initAccel_wp|]. intros ra w (Hpt & Hn & Hpp & Ht).
  apply set_accel_wp; [|destruct Ha as [? (? & ? & ?)]; unfold accel_fine, accel_texts; rewrite Hpp, Hn, Hpt; auto]. eapply scan_at_same; [|exact HI]. done.
Qed.

Lemma tame_parse_dir dir : tame (pdi_parse_dir (W := W) dir).
Proof.
  unfold pdi_parse_dir, pdi_parse_file, pdi_parse_meta_buffer. tame_go.
  all: unfold pdi_rd_u32, byte_at; tame_go.
  all: match goal with |- tame (rd_images ?b ?l ?n ?t) => generalize n; generalize t end.
  all: intros t; induction t as [|t IH]; intros base; simpl; tame_go.
  all: try apply IH; unfold rd_image, pdi_rd_u32, byte_at; tame_go.
Qed.

Lemma init_pdi_wp i o pp dir s :
  scan_at i pp s ->
  match o with Some j => exists b a, bases s !! i = Some b /\ accel_list b !! j = Some a | None => True end ->
  wp lib_fault (init_accel_pdi i o dir) (fun _ s' => scan_at i pp s') s.
Proof.
  intros HI Ho. destruct o as [j|]; [|by apply wp_ret]. apply wp_bind. eapply get_accel_wp; [done..|]. intros a Ha.
  apply (wp_seq _ (fun ra s' => scan_at i pp s' /\ accel_fine pp ra.2)).
  - apply wp_in_hw, wp_in_world. apply wp_bind. eapply wp_mono; [apply tame_parse_dir|].
    intros m w _. destruct m; apply wp_ret; (split; [eapply scan_at_same; [|exact HI]; done|]); [|done].
    destruct Ha as [Hp (Hn & Hpt & _)]. split; [exact Hp|]. split; [exact Hn|]. split; [exact Hpt|]. simpl. unfold pdi_accel_type. by destruct (existsb _ _).
  - intros ra s' [HI' Hpp]. apply set_accel_wp; [done|]. destruct (ra.1 <? 0); [|done]. split; [by right|done].
Qed.

(** ** Packages *)

Lemma wp_same_at {A} (m : M (sys W) A) i pp Q s :
  wp lib_fault m (fun _ s' => same_dm s s') s -> scan_at i pp s ->
  (forall a s', scan_at i pp s' -> Q a s') -> wp lib_fault m Q s.
Proof. intros Hm HI HQ. eapply wp_mono; [exact Hm|]. intros a s' Hs. apply HQ. eapply scan_at_same; [exact Hs|exact HI]. Qed.

Lemma wp_env_at {A} (m : M W A) i pp Q s :
  tame m -> scan_at i pp s -> (forall a s', scan_at i pp s' -> Q a s') -> wp lib_fault (env m) Q s.
Proof. intros Hm HI HQ. apply wp_env; [done|]. intros a w. apply HQ. eapply scan_at_same; [|exact HI]. done. Qed.

Lemma not_dir_at path i pp Q s :
  scan_at i pp s -> (forall a s', scan_at i pp s' -> Q a s') -> wp lib_fault (not_dir path) Q s.
Proof.
  intros HI HQ. apply wp_bind. eapply wp_env_at; [auto with tame|exact HI|]. intros d s' HI'. apply wp_ret. auto.
Qed.

(** An accelerator found or added, then marked. *)
Lemma mark_accel_wp i o pp (f : accel_info -> accel_info) s :
  scan_at i pp s -> (forall a, accel_fine pp a -> accel_fine pp (f a)) ->
  match o with Some j => exists b a, bases s !! i = Some b /\ accel_list b !! j = Some a | None => True end ->
  wp lib_fault (match o with None => ret tt | Some j => let! a := get_accel i j in set_accel i j (f a) end)
     (fun _ s' => scan_at i pp s') s.
Proof.
  intros HI Hf Ho. destruct o as [j|]; [|by apply wp_ret]. apply wp_bind. eapply get_accel_wp; [done..|].
  intros a Ha. apply set_accel_wp; [done|]. by apply Hf.
Qed.

Lemma rpu_slot_dir_wp i dir n pp s :
  scan_at i pp s -> wp lib_fault (parse_rpu_slot_dir i dir n pp) (fun _ s' => scan_at i pp s') s.
Proof.
  intros HI. apply wp_bind. eapply wp_env_at; [auto with tame|exact HI|]. intros [l|] s1 HI1; [|by apply wp_ret].
  apply (wp_for_each _ _ (scan_at i pp)); [|done]. intros e s2 _ HI2. cbv zeta.
  destruct (self_or_parent _); [by apply wp_ret|]. destruct (strrchr _ _) as [k|]; [|by apply wp_ret].
  destruct (negb _); [by apply wp_ret|]. apply wp_bind. eapply add_accel_wp; [exact HI2|]. intros o s3 HI3 Ho.
  apply (mark_accel_wp i o pp (fun a => a <| accel_type := RPU_TYPE_STR |> <| rpu_slot_num := int32 n |>)); [done| |done].
  intros a [Hp (Hn & Hpt & _)]. by split.
Qed.

Lemma tame_dir_has p dir : tame (dir_has (W := W) p dir).
Proof. unfold dir_has. tame_go. Qed.
Lemma tame_scan_slots p n names room : tame (scan_slots (W := W) p n names room).
Proof.
  revert room. induction names as [|x names IH]; intros [|room]; simpl; try apply always_ret.
  destruct (d_name_filter x); [apply IH|]. apply always_bind; [apply always_look|]. intros d.
  destruct (negb d); [apply IH|]. apply always_bind; [apply tame_dir_has|]. intros b. apply always_bind; [apply IH|].
  intros r. apply always_ret.
Qed.
Lemma tame_scan p n m : tame (scan_accel_slots (W := W) p n m).
Proof.
  unfold scan_accel_slots. destruct (m <=? 0); [apply always_ret|]. apply always_bind; [apply always_look|].
  intros [l|]; [apply tame_scan_slots|apply always_ret].
Qed.

Lemma pdi_dir_wp i bn pp name range s :
  scan_at i pp s -> wp lib_fault (pdi_dir i bn pp name range) (fun _ s' => scan_at i pp s') s.
Proof.
  intros HI. unfold pdi_dir. destruct (d_name_filter name); [by apply wp_ret|]. cbv zeta.
  apply wp_bind. eapply not_dir_at; [exact HI|]. intros nd s1 HI1. destruct nd; [by apply wp_ret|].
  apply wp_bind. eapply wp_same_at; [apply add_dir_watch_wp|exact HI1|]. intros ok s2 HI2.
  destruct (negb ok); [by apply wp_ret|]. apply wp_bind. eapply wp_env_at; [apply tame_scan|exact HI2|].
  intros slots s3 HI3. clear dependent s s1 s2 ok. revert range s3 HI3.
  induction slots as [|p slots IH]; intros range s HI; [by apply wp_ret|].
  apply wp_bind. apply (wp_mono _ _ (fun _ s' => scan_at i pp s')).
  { destruct (streq _ _); [by apply wp_ret|]. eapply wp_same_at; [apply add_dir_watch_wp|exact HI|done]. }
  intros ok s1 HI1. destruct (negb ok); [by apply wp_ret|]. destruct (negb (ps_has_pdi p)); [by apply IH|].
  apply wp_bind. eapply add_accel_wp; [exact HI1|]. intros o s2 HI2 Ho. apply wp_bind.
  eapply wp_mono; [by apply init_pdi_wp|]. intros us3 s3 HI3. by apply IH.
Qed.

Lemma type_fits ty : fits 32 ty = true -> fits 128 ty = true.
Proof. unfold fits. intros ?%Nat.ltb_lt. apply Nat.ltb_lt. lia. Qed.

Lemma classify_configures (b : basePLDesign) ty n :
  (is_flat_type ty = true -> u8 n = 1) -> fits 32 ty = true -> configures b (b <| b_type := ty |> <| num_pl_slots := u8 n |>).
Proof.
  intros Hf Hfit. split; try done.
  - intros (_ & Ha & _). split; [|split]; simpl; [apply u8_range|done|by apply type_fits].
  - simpl. intros _ Hty. rewrite Hf by done. lia.
Qed.

Lemma flat_configures b : fits 32 (b_type b) = true -> tight b -> configures b (register_flat_accel b).
Proof.
  intros Hty Ht. unfold register_flat_accel. destruct (accel_list b) as [|a l] eqn:E; [by split|].
  apply tight_accels; [done|destruct Ht as [[_ Hl] _]; by rewrite E in Hl|].
  intros x [-> |Hx]%elem_of_cons; [right|left; rewrite E; by right].
  split; [by left|]. split; [by apply trunc_fits; unfold ACCEL_NAME_MAX; lia|split; [exact (proj1 (proj1 Ht))|exact Hty]].
Qed.

Lemma flat_type_fits ty : is_flat_type ty = true -> fits 32 ty = true.
Proof. unfold is_flat_type. by intros [->%streq_true| ->%streq_true]%orb_true_iff. Qed.

Lemma flat_accel_wp i pp b s :
  scan_at i pp s -> bases s !! i = Some b -> fits 32 (b_type b) = true ->
  wp lib_fault (mod_base i register_flat_accel) (fun _ s' => scan_at i pp s') s.
Proof.
  intros (Hid & b' & Hi & Hp & Hpath) Hb Hty. simplify_eq. eapply wp_modb; [exact Hi|]. eapply scan_config; try done.
  apply flat_configures; [done|]. by apply (sc_entry _ Hid i b' Hi).
Qed.

Lemma pdi_package_wp i bn pp s :
  scan_at i pp s -> wp lib_fault (register_pdi_package i bn pp) (fun _ s' => scan_at i pp s') s.
Proof.
  intros HI. apply wp_bind. eapply wp_env_at; [auto with tame|exact HI|]. intros d s1 HI1.
  apply (wp_seq _ (fun _ s' => scan_at i pp s')).
  { generalize 0 as range. generalize (default [] d) as l. clear dependent s. intros l. revert s1 HI1.
    induction l as [|e l IH]; intros s HI range; [by apply wp_ret|]. apply wp_bind.
    eapply wp_mono; [by apply pdi_dir_wp|]. intros [range' go] s' HI'. destruct go; [by apply IH|by apply wp_ret]. }
  intros range s2 HI2. pose proof HI2 as (Hid & b & Hi & Hp & Hpath).
  apply wp_bind. eapply wp_getb; [exact Hi|]. apply (wp_seq _ (fun b' s' => scan_at i pp s' /\ bases s' = bases s2 /\
     exists ty n, (is_flat_type ty = true -> u8 n = 1) /\ fits 32 ty = true /\ b' = b <| b_type := ty |> <| num_pl_slots := u8 n |>)).
  { apply wp_in_hw, wp_in_world. apply wp_bind. eapply wp_mono; [apply tame_dir_has|]. intros x w _. apply wp_ret.
    split; [eapply scan_at_same; [|exact HI2]; done|]. split; [done|].
    destruct (0 <? range).
    - exists "PL_DFX"%string, range. by split.
    - eexists _, 1. split; [done|]. split; [|reflexivity]. by destruct x. }
  intros b' s3 (HI3 & Hb3 & ty & n & Hty & Hfit & ->).
  apply (wp_seq _ (fun _ s' => scan_at i pp s' /\ exists b', bases s' !! i = Some b' /\ b_type b' = ty)).
  { apply wp_setb. destruct HI3 as (Hid3 & _). split.
    - eapply scan_config; [done|by rewrite Hb3|done|done|by apply classify_configures].
    - simpl. rewrite list_lookup_insert_eq by (rewrite Hb3; by apply lookup_lt_Some in Hi). by eexists. }
  intros us4 s4 (HI4 & b4 & Hi4 & Ht4). destruct (range =? 0); [|by apply wp_ret].
  eapply flat_accel_wp; [done|exact Hi4|by rewrite Ht4].
Qed.

Lemma second_level_wp i fl d1 pp l s :
  scan_at i pp s -> wp lib_fault (parse_second_level i fl d1 pp l) (fun _ s' => scan_at i pp s') s.
Proof.
  intros HI. apply (wp_for_until _ _ (scan_at i pp)); [|done]. intros e s1 _ HI1.
  apply wp_bind. eapply wp_env_at; [auto with tame|exact HI1|]. intros sl s2 HI2.
  destruct (d_name_filter _); [by apply wp_ret|]. apply wp_bind. eapply not_dir_at; [exact HI2|]. intros nd s3 HI3.
  destruct nd; [by apply wp_ret|]. apply wp_bind. eapply wp_same_at; [apply add_dir_watch_wp|exact HI3|]. intros ok s4 HI4.
  destruct (negb ok); [by apply wp_ret|]. apply wp_bind. eapply wp_env_at; [auto with tame|exact HI4|]. intros fn s5 HI5.
  apply wp_bind. eapply wp_env_at; [auto with tame|exact HI5|]. intros there s6 HI6. destruct there; [|by apply wp_ret].
  apply wp_bind. eapply add_accel_wp; [exact HI6|]. intros o s7 HI7 Ho. apply wp_bind.
  eapply wp_mono; [by apply init_json_wp|]. intros us8 s8 HI8. by apply wp_ret.
Qed.

Lemma scan_at_getb i pp Q s : scan_at i pp s -> (forall b, Q b s) -> wp lib_fault (get_base i) Q s.
Proof. intros (_ & b & Hi & _) HQ. by eapply wp_getb. Qed.

Lemma first_level_wp i fname pp e s :
  scan_at i pp s -> wp lib_fault (parse_first_level i fname pp e) (fun _ s' => scan_at i pp s') s.
Proof.
  intros HI. unfold parse_first_level. cbv zeta.
  apply wp_bind. eapply wp_env_at; [auto with tame|exact HI|]. intros fl s1 HI1.
  destruct (d_name_filter _); [by apply wp_ret|]. apply wp_bind. eapply not_dir_at; [exact HI1|]. intros nd s2 HI2.
  destruct nd; [by apply wp_ret|]. apply wp_bind. eapply scan_at_getb; [exact HI2|]. intros b.
  destruct (strtol 10 (d_name e)) as [n rest]. destruct (_ && _ && _).
  { apply wp_bind. eapply wp_same_at; [apply add_dir_watch_wp|exact HI2|]. intros ok s3 HI3.
    apply wp_bind. eapply wp_mono; [by apply rpu_slot_dir_wp|]. intros us4 s4 HI4. by apply wp_ret. }
  apply wp_bind. eapply wp_same_at; [apply add_dir_watch_wp|exact HI2|]. intros ok s3 HI3.
  destruct (negb ok); [by apply wp_ret|]. apply wp_bind. eapply wp_env_at; [auto with tame|exact HI3|]. intros fn s4 HI4.
  apply wp_bind. eapply wp_env_at; [auto with tame|exact HI4|]. intros there s5 HI5. destruct there.
  { apply wp_bind. eapply add_accel_wp; [exact HI5|]. intros o s6 HI6 Ho. apply wp_bind.
    eapply wp_mono; [by apply init_json_wp|]. intros us7 s7 HI7. by apply wp_ret. }
  apply wp_bind. eapply wp_env_at; [auto with tame|exact HI5|]. intros [l|] s6 HI6; [|by apply wp_ret].
  apply wp_bind. eapply wp_mono; [by apply second_level_wp|]. intros stop s7 HI7. destruct stop; [by apply wp_ret|].
  apply wp_bind. eapply scan_at_getb; [exact HI7|]. intros b'. destruct (streq (b_type b') "RPU") eqn:Er; [|by apply wp_ret].
  apply streq_true in Er. apply wp_bind. eapply add_accel_wp; [exact HI7|]. intros o s8 HI8 Ho.
  destruct o as [j|]; [|by apply wp_ret]. apply wp_bind. eapply get_accel_wp; [exact HI8|exact Ho|]. intros a [Hpa (Hna & Hpta & _)].
  apply wp_bind. eapply wp_mono; [apply set_accel_wp; [done|by rewrite Er]|]. intros us9 s9 HI9. by apply wp_ret.
Qed.

Lemma parse_packages_wp i fname pp s :
  scan_at i pp s -> wp lib_fault (parse_packages i fname pp) (fun _ s' => scan_at i pp s') s.
Proof.
  intros HI. pose proof HI as (_ & b & Hi & _). apply wp_bind. eapply wp_getb; [exact Hi|].
  destruct (is_flat_type _) eqn:Ef; [eapply flat_accel_wp; [done|exact Hi|by apply flat_type_fits]|].
  apply wp_bind, wp_gp. destruct (_ && _); [by apply pdi_package_wp|].
  apply wp_bind. eapply wp_env_at; [auto with tame|exact HI|]. intros [l|] s1 HI1; [|by apply wp_ret].
  apply wp_bind. eapply wp_mono.
  - apply (wp_for_until _ _ (scan_at i pp)); [|exact HI1]. intros e s2 _ HI2. by apply first_level_wp.
  - intros stop s2 HI2. by apply wp_ret.
Qed.

(** ** Base designs *)

Lemma reconfigured_configures b b' :
  reconfigured b b' -> slots_in_range b' -> b' = b \/ (is_flat_type (b_type b') = true -> num_pl_slots b' = 1) -> configures b b'.
Proof.
  intros Hrc Hr Hf. split; try (by rewrite Hrc); try done.
  destruct Hf as [->|Hf]; [auto|]. intros _ Hty. rewrite Hf by done. lia.
Qed.

Lemma init_json_base_wp i pp fname s :
  scan_at i pp s -> wp lib_fault (init_base_json i fname) (fun _ s' => scan_at i pp s') s.
Proof.
  intros (Hid & b & Hi & Hp & Hpath). apply wp_bind. eapply wp_getb; [exact Hi|].
  apply wp_bind, wp_env; [auto with tame|]. intros n w. apply wp_bind, wp_in_hw, wp_in_world.
  pose proof (el_range b (sc_entry _ Hid i b Hi)) as Hr.
  eapply wp_mono; [by apply initBaseDesign_wp|]. intros rb w' (Hrc & Hr' & Hf'). apply wp_bind, wp_setb, wp_ret.
  eapply (scan_config i pp b rb.2 (Sys (dm s) _)); try done. by apply reconfigured_configures.
Qed.

Lemma init_pdi_base_wp i pp s :
  scan_at i pp s -> wp lib_fault (init_base_pdi i) (fun _ s' => scan_at i pp s') s.
Proof.
  intros (Hid & b & Hi & Hp & Hpath). apply wp_bind. eapply wp_getb; [exact Hi|].
  apply (wp_seq _ (fun rb s' => dm s' = dm s /\ configures b rb.2)).
  - apply wp_in_hw, wp_in_world, wp_bind. eapply wp_mono; [apply tame_parse_dir|]. intros [m|] w _; apply wp_ret; by split.
  - intros rb s1 [Hd Hc]. apply wp_bind, wp_setb, wp_ret.
    apply (scan_config i pp b rb.2 s1); rewrite ?Hd; done.
Qed.

Lemma strchr_app_cons a c b : exists k, strchr (a ++ String c b)%string c = Some k.
Proof.
  induction a as [|d a IH]; simpl.
  - rewrite Ascii.eqb_refl. by exists 0%nat.
  - destruct (Ascii.eqb d c); [by exists 0%nat|]. destruct IH as [k Hk].
    change (strchr (a +:+ String c b) c) with (strchr (a ++ String c b)%string c). rewrite Hk. by exists (S k).
Qed.

Lemma joined_path a b : (a ++ "/" ++ b)%string <> ""%string /\ (a ++ "/" ++ b)%string <> "User"%string.
Proof. destruct (strchr_app_cons a "/" b) as [k Hk]. split; intros He; change ("/" ++ b)%string with (String "/" b) in He; by rewrite He in Hk. Qed.

(** A new base design takes a free entry. *)
Lemma add_base_scan d name path parent wd :
  scan d -> path <> ""%string -> path <> "User"%string -> fits 512 path = true ->
  scan (d <| base_designs ::= fun l => add_base_design l name path parent wd |>).
Proof.
  intros Hid Hne Hu Hf. unfold add_base_design. simpl.
  destruct (find_index _ (base_designs d)) as [k|] eqn:E1; [by destruct d|].
  destruct (find_index (fun b => streq (base_path b) "") (base_designs d)) as [i|] eqn:E2; [|by destruct d].
  apply find_index_lookup in E2 as (b & Hi & He). apply streq_true in He.
  pose proof (sc_entry _ Hid i b Hi) as Hb. destruct (el_free _ Hb He) as [Hub (_ & _ & Hs)].
  pose proof (scan_inactive d i b Hid Hi Hs Hub) as Hact.
  destruct (el_tight _ Hb) as [[_ Hlen] Hpar]. rewrite He in Hpar.
  set (f := fun b => _). assert (alter f i (base_designs d) = <[i := f b]> (base_designs d)) as Halt.
  { apply list_eq. intros j. destruct (decide (j = i)) as [->|Hji].
    - rewrite list_lookup_alter_eq, Hi. by rewrite list_lookup_insert_eq by (by apply lookup_lt_Some in Hi).
    - by rewrite list_lookup_alter_ne, list_lookup_insert_ne. }
  assert (Hfp : base_path (f b) = path) by (simpl; by apply trunc_id).
  assert (Htight : tight (f b)).
  { split; [by rewrite Hfp|]. intros a Ha. destruct (Hpar a Ha) as [[?|?] ?]; (split; [by right|done]). }
  change (scan (d <| base_designs := alter f i (base_designs d) |>)). rewrite Halt.
  apply (scan_replace d i b); auto.
  - assert (package (f b)) as [Hp1 Hp2] by (unfold package; by rewrite Hfp).
    assert (Hu' : is_user_load (f b) = false) by done.
    split; try apply Hb; try done.
    + rewrite Hu'. split; [done|]. intros Hpu. by rewrite Hpu in Hp2.
    + simpl. apply trunc_fits. unfold ACCEL_NAME_MAX. lia.
    + intros Hnp. by destruct Hnp.
  - intros _. right. intros j c Hj Hc. rewrite Hfp in Hc. rewrite find_index_None in E1.
    specialize (E1 j c Hj). apply streq_false in E1. done.
  - split; [unfold load_state; simpl; by rewrite Hact|by right].
Qed.

Definition scan_state (s : sys W) : Prop := scan (dm s).

Lemma wp_scan_same {A} (m : M (sys W) A) Q s :
  wp lib_fault m (fun _ s' => same_dm s s') s -> scan_state s ->
  (forall a s', scan_state s' -> Q a s') -> wp lib_fault m Q s.
Proof. intros Hm HI HQ. eapply wp_mono; [exact Hm|]. intros a s' Hs. apply HQ. eapply scan_same; [exact Hs|exact HI]. Qed.

Lemma wp_scan_env {A} (m : M W A) Q s :
  tame m -> scan_state s -> (forall a s', scan_state s' -> Q a s') -> wp lib_fault (env m) Q s.
Proof. intros Hm HI HQ. apply wp_env; [done|]. intros a w. apply HQ. eapply scan_same; [|exact HI]. done. Qed.

Lemma register_base_wp dir name cpath wd s :
  scan_state s -> dir <> ""%string -> dir <> "User"%string -> fits 512 dir = true ->
  wp lib_fault (register_base_design dir name cpath wd) (fun _ s' => scan_state s') s.
Proof.
  intros HI Hne Hu Hf. apply wp_bind, wp_modd.
  set (s1 := s <| dm ::= _ |>). assert (HI1 : scan_state s1) by (by apply add_base_scan).
  apply wp_bind, wp_getd. destruct (findBaseDesign_path _ _) as [i|] eqn:Ef; [|by apply wp_ret].
  apply find_index_lookup in Ef as (b & Hi & Hp).
  assert (Hat : scan_at i (base_path b) s1).
  { split; [exact HI1|]. exists b. split; [exact Hi|]. split; [|done].
    by apply (found_package dir); [apply (sc_entry _ HI1 i)|..]. }
  apply (wp_seq _ (fun _ s' => scan_at i (base_path b) s')).
  { apply wp_bind, wp_gp. destruct (_ && _); [by apply init_pdi_base_wp|by apply init_json_base_wp]. }
  intros ok s2 Hat2. destruct ok; [|apply wp_ret; apply Hat2].
  destruct Hat2 as (Hid2 & b2 & Hi2 & Hp2 & Hpath2). apply wp_bind. eapply wp_getb; [exact Hi2|].
  eapply wp_mono; [apply parse_packages_wp|].
  - split; [done|]. by exists b2.
  - intros u3 s3 [HI3 _]. exact HI3.
Qed.

(** ** The walk *)

(** An entry of a directory, whatever is done with those below it. *)
Lemma dir_entry_wp {A} (x : A) (reg : M (sys W) unit -> M (sys W) A) (below : nat -> string -> list dirent -> M (sys W) A)
    depth cpath e s :
  scan_state s ->
  (forall m s', wp lib_fault m (fun _ s' => scan_state s') s' -> wp lib_fault (reg m) (fun _ s' => scan_state s') s') ->
  (forall d dir l s', depth = S d -> scan_state s' -> wp lib_fault (below d dir l) (fun _ s' => scan_state s') s') ->
  wp lib_fault
    (if d_name_filter (d_name e) then ret x
     else
       let! new_dir := env (sprintf_into 512 (cpath ++ "/" ++ d_name e)) in
       let! nd := not_dir new_dir in
       if nd : bool then ret x
       else
         match depth with
         | O => ret x
         | S d =>
             let! wd := watch_design_dir new_dir (d_name e) cpath in
             match wd with
             | None => ret x
             | Some wd =>
                 let! base := dir_is_base_design new_dir (d_name e) in
                 if base : bool then reg (register_base_design new_dir (d_name e) cpath wd)
                 else let! l := env (look (readdir new_dir)) in below d new_dir (default [] l)
             end
         end) (fun _ s' => scan_state s') s.
Proof.
  intros HI Hreg Hbelow. destruct (d_name_filter _); [by apply wp_ret|].
  apply wp_bind, wp_in_hw, wp_in_world; unfold sprintf_into; (destruct (fits 512 _) eqn:Hf; [|by split]); apply wp_ret.
  set (s0 := Sys (dm s) _). assert (HI0 : scan_state s0) by exact HI.
  apply wp_bind. eapply wp_mono; [apply (wp_bind _ _ _ (fun _ s' => scan_state s')); eapply wp_scan_env;
    [auto with tame|exact HI0|intros d s1 HI1; by apply wp_ret]|]. intros nd s1 HI1. destruct nd; [by apply wp_ret|].
  destruct depth as [|depth]; [by apply wp_ret|].
  apply wp_bind. eapply wp_scan_same; [apply watch_design_wp|exact HI1|]. intros [wd|] s2 HI2; [|by apply wp_ret].
  destruct (joined_path cpath (d_name e)) as [Hne Hu].
  apply (wp_seq _ (fun _ s' => scan_state s')).
  { unfold dir_is_base_design. destruct (name_is_rpu _); [by apply wp_ret|]. apply wp_bind, wp_gp.
    destruct (is_versal_platform _); (eapply wp_scan_env; [|exact HI2|done]);
      [apply tame_dir_has|unfold dir_has_shell_json; auto with tame]. }
  intros base s3 HI3. destruct base; [by apply Hreg, register_base_wp|].
  apply wp_bind. eapply wp_scan_env; [auto with tame|exact HI3|]. intros d s4 HI4. by apply Hbelow.
Qed.

Lemma accel_dir_add_wp depth cpath e s :
  scan_state s -> wp lib_fault (accel_dir_add depth cpath e) (fun _ s' => scan_state s') s.
Proof.
  revert cpath e s. induction depth as [|depth IH]; intros cpath e s HI.
  - apply (dir_entry_wp tt id (fun _ _ _ => ret tt) 0); done.
  - apply (dir_entry_wp tt id (fun d dir => for_each (accel_dir_add d dir)) (S depth)); [done..|].
    intros d dir l s' [= <-] HI'. apply (wp_for_each _ _ scan_state); [|exact HI']. intros x s5 _ HI5. by apply IH.
Qed.

Lemma firmware_walk_wp s :
  scan_state s -> wp lib_fault firmware_dir_walk (fun _ s' => scan_state s') s.
Proof.
  intros HI. apply wp_bind, wp_getd. apply (wp_for_each _ _ scan_state); [|exact HI]. intros fwdir s1 _ HI1.
  apply wp_bind. eapply wp_scan_env; [auto with tame|exact HI1|]. intros [l|] s2 HI2; [|by apply wp_ret].
  apply wp_bind. eapply wp_scan_same; [apply add_dir_watch_wp|exact HI2|]. intros ok s3 HI3.
  destruct ok; [|by apply wp_ret]. apply (wp_for_each _ _ scan_state); [|exact HI3].
  intros e s4 _ HI4. by apply accel_dir_add_wp.
Qed.

End StartSafe.
End Scan.
Arguments scan : clear implicits.
Arguments scan_state d0 due {W} s.

Section StartUp.
Context {W : Type} `{Env W}.
Implicit Types (s : sys W).

(** ** Start-up *)

Lemma empty_tables (d : daemon) :
  base_designs d = replicate MAX_WATCH base0 -> active_base (platform d) = None ->
  active_rpu_base (platform d) = None -> available_slot_handle (platform d) = replicate SLOT_HANDLE_MAX 0 ->
  wf d /\ forall d', calm d d' = true.
Proof.
  intros Hds Hpl Hr Ht.
  assert (Hl : forall i b, base_designs d !! i = Some b -> b = base0).
  { intros i b. rewrite Hds. intros [-> _]%lookup_replicate. done. }
  assert (Hz : forall a, a ∈ accel_list base0 -> a = accel_info0).
  { intros a Ha. change (a ∈ replicate RP_SLOTS_MAX accel_info0) in Ha. by apply elem_of_replicate_inv in Ha. }
  assert (He : entry_wf base0).
  { split; try done; try (simpl; lia); [intros a _ [Hp _]; by destruct Hp|by intros a ->%Hz|by intros _ a ->%Hz]. }
  split.
  - unfold wf. rewrite Hpl, Hr, Ht. split; [|done|done|].
    + split.
      * by rewrite Hds, length_replicate.
      * by rewrite length_replicate.
      * intros i b ->%Hl. done.
      * intros i j b c ->%Hl _ [Hp _]. done.
      * intros h. rewrite Hds, sum_replicate_0 by done. unfold marked.
        destruct (replicate SLOT_HANDLE_MAX 0 !! h) as [v|] eqn:E; [|done]. apply lookup_replicate in E as [-> _]. done.
    + intros i b ->%Hl. by apply empty_role.
  - intros d'. apply forallb_forall. intros [b b'] [i Hi]%list_elem_of_In%list_elem_of_lookup.
    apply lookup_zip_with_Some in Hi as (x & y & [= -> ->] & Hx & _). apply Hl in Hx as ->. done.
Qed.

Lemma start_registry_wp s :
  active_base (platform (dm s)) = None -> active_rpu_base (platform (dm s)) = None ->
  table s = replicate SLOT_HANDLE_MAX 0 -> firmware_rescan_pending (dm s) = false ->
  wp lib_fault start_registry (fun _ s' => ready (dm s')) s.
Proof.
  intros Hpl Hr Ht Hpe. apply wp_bind, wp_modd. set (s1 := s <| dm ::= _ |>).
  destruct (empty_tables (dm s1)) as [Hwf Hcalm]; [done..|].
  assert (HI : scan (dm s1) false (dm s1)) by (by apply scan_refl).
  apply wp_bind. eapply wp_mono; [exact (firmware_walk_wp (d0 := dm s1) (due := false) s1 HI)|]. intros u2 s2 HI2.
  apply wp_bind, wp_modd. apply wp_env; [unfold init_user_load; tame_go|]. intros [] w.
  split; [|exact (sc_pending _ HI2)]. simpl. apply assign_list_ids_wf. eapply scan_wf; [exact HI2|apply Hcalm].
Qed.

(** The pieces of [dfx_init()] that only look around. *)
Lemma tame_read_strings {St} json ts k n : tame (read_strings (St := St) json ts k n).
Proof. revert k. induction n as [|n IH]; intros k; simpl; tame_go; apply IH. Qed.
Lemma tame_read_pairs {St} json ts k n : tame (read_pairs (St := St) json ts k n).
Proof. revert k. induction n as [|n IH]; intros k; simpl; tame_go; apply IH. Qed.
#[local] Hint Resolve tame_read_strings tame_read_pairs : tame.
Lemma tame_conf_default json ts i p : tame (conf_default_accel (W := W) json ts i p).
Proof. unfold conf_default_accel, scan_word. tame_go. Qed.
Lemma tame_conf_array json ts key f i p : tame (conf_array (W := W) json ts key f i p).
Proof. unfold conf_array. tame_go. Qed.
Lemma tame_conf_map json ts i p : tame (conf_name_map (W := W) json ts i p).
Proof. unfold conf_name_map. tame_go. Qed.
#[local] Hint Resolve tame_conf_default tame_conf_array tame_conf_map : tame.
Lemma tame_config_loop n json ts i p : tame (config_loop (W := W) n json ts i p).
Proof.
  revert i p. induction n as [|n IH]; intros i p; simpl; (destruct (_ <? _); [|apply always_ret]).
  - apply always_crash. by split.
  - apply always_bind; [unfold config_body; tame_go|]. intros r. apply IH.
Qed.
Lemma tame_parse_config path c : tame (parse_config (W := W) path c).
Proof.
  unfold parse_config. tame_go. all: apply tame_config_loop.
Qed.

Lemma tame_read_boards map sz l name fb : tame (read_boards (W := W) map sz l name fb).
Proof.
  revert name fb. induction l as [|q l IH]; intros name fb; simpl; [apply always_ret|].
  apply always_bind; [unfold try_read_board_from_eeprom; tame_go|]. intros [raw|]; [|apply IH].
  destruct (lookup_board_name _ _ _) as [[] t]; apply IH.
Qed.
Lemma tame_eeprom c name sz : tame (read_board_name_from_eeprom (W := W) c name sz).
Proof.
  unfold read_board_name_from_eeprom. destruct (eeprom_location c) as [|p l]; [apply always_ret|].
  apply always_bind; [apply tame_read_boards|intros [? ?]; apply always_ret].
Qed.
Lemma tame_boot_uid : tame (pdi_boot_pl_uid (W := W)).
Proof. unfold pdi_boot_pl_uid. tame_go. Qed.
Lemma tame_detect : tame (detect_fpga_mgr_type (W := W)).
Proof. unfold detect_fpga_mgr_type. tame_go. Qed.

(** The state before [main()]: the zeroed globals. *)
Definition boot (m : hw W) : sys W := Sys daemon0 m.

Definition fresh (s : sys W) : Prop :=
  pl_base s = None /\ rpu_base s = None /\ table s = replicate SLOT_HANDLE_MAX 0 /\
  firmware_rescan_pending (dm s) = false.

Lemma wp_fresh_env {A} (m : M W A) Q s :
  tame m -> fresh s -> (forall a s', fresh s' -> Q a s') -> wp lib_fault (env m) Q s.
Proof. intros Hm Hf HQ. apply wp_env; [done|]. intros a w. by apply HQ. Qed.

Lemma dfx_init_wp s : fresh s -> wp lib_fault dfx_init (fun _ s' => ready (dm s')) s.
Proof.
  intros Hf. unfold dfx_init. apply wp_bind, wp_modd, wp_bind, wp_modp, wp_bind, wp_getd.
  apply wp_bind. eapply wp_fresh_env; [apply tame_parse_config|exact Hf|]. intros c s1 Hf1.
  apply wp_bind, wp_modd, wp_bind, wp_gp, wp_bind. eapply wp_fresh_env; [apply tame_eeprom|exact Hf1|]. intros rb s2 Hf2.
  apply wp_bind, wp_modp, wp_bind. eapply wp_fresh_env; [apply tame_detect|exact Hf2|]. intros m s3 Hf3.
  apply wp_bind, wp_modp, wp_bind, wp_gp. apply (wp_seq _ (fun _ s' => fresh s')).
  { destruct (is_versal_platform _); [|apply wp_ret; exact Hf3].
    apply wp_bind. eapply wp_fresh_env; [apply tame_boot_uid|exact Hf3|]. intros u s4 Hf4. apply wp_modp. exact Hf4. }
  intros u s4 (Hp & Hr & Ht & Hpe). by apply start_registry_wp.
Qed.
End StartUp.
