(* ===== verification/EventsSafe.v ===== *)
(** * Changes of the firmware directories

    Packages that appear, change or leave a base, and bases that appear or that
    leave before they were loaded from, change the tables as a walk does
    ([scan]), whatever the directories and files then hold: the tables stay well
    formed if the bases that have slots keep their shape.  The same for the walk
    that a request begins with.  [Hazards] runs the events that are left out. *)
From S2P Require Import Prelude CStr Env Model UserLoad Json Accel Rpu Pdi Slots Invariant ListIds TablesWp.
From S2P Require Import ListIdFacts UnloadSafe Registry Eeprom Events Listing Proto RequestSafe StartSafe.
Open Scope Z_scope.
Open Scope dfx_scope.

(** The first element with [p], if any, also has [q]. *)
Definition first_has {A} (p q : A -> bool) (l : list A) : bool :=
  match find_index p l with
  | None => true
  | Some i => match l !! i with Some x => q x | None => true end
  end.

Lemma first_has_at {A} (p q : A -> bool) l i x :
  first_has p q l = true -> find_index p l = Some i -> l !! i = Some x -> q x = true.
Proof. unfold first_has. intros Hf Hi Hx. by rewrite Hi, Hx in Hf. Qed.

(** The directory is not mistaken for that of a user load, or of another base:
    [findBaseDesign_path()] also finds a base by the directory of one of its
    packages, and any base with a free accelerator for an empty path. *)
Definition no_user (d : daemon) (path : string) : bool :=
  first_has (has_path path) (fun b => negb (is_user_load b)) (base_designs d).
Definition own_base (d : daemon) (path : string) : bool :=
  first_has (has_path path) (fun b => negb (is_user_load b) && streq (base_path b) path) (base_designs d).

(** What forgetting the entry leaves is a free entry: nothing was ever loaded
    from it, and the fields that stay were never set. *)
Definition forgettable (b : basePLDesign) : bool :=
  match slots b with None => true | Some _ => false end && (num_aie_slots b =? 0) &&
  forallb (fun a => negb (free_accel a) || streq (a_parent_path a) "") (accel_list b).

(** The event makes the watch thread forget a base design that has been loaded
    from, or has AIE slots. *)
Definition drops_base (d : daemon) (e : inotify_event) : bool :=
  (IN_DELETE e || IN_MOVED_FROM e) && IN_ISDIR e &&
  match get_watch (active_watch d) (e_wd e) with
  | None => false
  | Some w =>
      streq (w_parent_name w) "" &&
      negb (first_has (fun b => streq (base_path b) (w_path w ++ "/" ++ e_name e)%string) forgettable (base_designs d))
  end.

(** The event makes the thread read a base's description from the directory of
    one of its packages. *)
Definition misreads_base (d : daemon) (e : inotify_event) : bool :=
  match get_watch (active_watch d) (e_wd e) with
  | None => false
  | Some w =>
      (streq (e_name e) "shell.json" || name_is_pdi (e_name e) && streq (w_parent_name w) "") &&
        negb (own_base d (w_path w)) ||
      IN_MOVED_TO e && IN_ISDIR e && negb (own_base d (w_path w ++ "/" ++ e_name e)%string)
  end.

(** The directories a package event is looked up in find no user load. *)
Definition finds_no_user (d : daemon) (w : watch) : bool :=
  no_user d (w_parent_path w) &&
  first_has (fun pw => streq (w_parent_path w) (w_path pw)) (fun pw => no_user d (w_parent_path pw)) (active_watch d).

(** The event gives a user load an accelerator. *)
Definition fills_user (d : daemon) (e : inotify_event) : bool :=
  match get_watch (active_watch d) (e_wd e) with
  | None => false
  | Some w =>
      (streq (e_name e) "accel.json" || name_is_pdi (e_name e)) && negb (finds_no_user d w)
  end.

(** The other events: packages come, change and go, bases come, and bases that
    were never loaded from go. *)
Definition tracked (d : daemon) (e : inotify_event) : bool :=
  negb (drops_base d e) && negb (misreads_base d e) && negb (fills_user d e).

Section EventsSafe.
Context {W : Type} `{Env W}.
Implicit Types (s : sys W).

(** The tables before the event. *)
Context {d0 : daemon}.

(** The event changed what it may; a walk may be due. *)
Definition settled (d : daemon) : Prop := exists due, scan d0 due d.

Lemma settle {A} due (m : M (sys W) A) s :
  wp lib_fault m (fun _ s' => scan_state d0 due s') s -> wp lib_fault m (fun _ s' => settled (dm s')) s.
Proof. intros Hm. eapply wp_mono; [exact Hm|]. intros a s' Hs. by exists due. Qed.

(** An operation, then an answer. *)
Lemma wp_then {A B} (m : M (sys W) A) (b : B) P s :
  wp lib_fault m (fun _ s' => P s') s -> wp lib_fault (m ;; ret b) (fun _ s' => P s') s.
Proof. intros Hm. apply wp_bind. eapply wp_mono; [exact Hm|]. intros a s' Hs. by apply wp_ret. Qed.

Lemma wp_weaken_at {A} due i pp (m : M (sys W) A) s :
  wp lib_fault m (fun _ s' => scan_at (d0 := d0) (due := due) i pp s') s -> wp lib_fault m (fun _ s' => scan_state d0 due s') s.
Proof. intros Hm. eapply wp_mono; [exact Hm|]. by intros a s' [? _]. Qed.

Lemma scan_stamped due d : scan d0 due d -> scan d0 due (assign_list_ids d <| pkg_listing_dirty := true |>).
Proof. intros [? ? ? ? ? ? ?]%assign_ids_scan. by split. Qed.

(** Stamping leaves the paths, so it leaves the lookup by path. *)
Lemma existsb_path path l l' :
  map a_path l' = map a_path l ->
  existsb (fun a => streq (a_path a) path) l' = existsb (fun a => streq (a_path a) path) l.
Proof.
  revert l'. induction l as [|a l IH]; intros [|a' l'] Hl; try done. injection Hl as Ha Hl. simpl. by rewrite Ha, (IH l').
Qed.

Lemma stamp_base_path id b path :
  is_user_load (stamp_base id b).2 = is_user_load b /\ base_path (stamp_base id b).2 = base_path b /\ has_path path (stamp_base id b).2 = has_path path b.
Proof.
  unfold stamp_base, has_path. destruct (lists_packages b).
  - destruct (stamp_accels id (accel_list b)) as [k m] eqn:Es.
    destruct (stamp_accels_spec _ _ _ _ Es) as (_ & _ & _ & _ & Hp).
    split; [by destruct (is_user_load (b <| accel_list := m |>)) eqn:E|].
    destruct (is_user_load (b <| accel_list := m |>)); simpl; by rewrite (existsb_path _ _ _ Hp).
  - split; [by destruct (is_user_load b) eqn:E|by destruct (is_user_load b)].
Qed.

Lemma stamp_first q path d :
  (forall id b, q (stamp_base id b).2 = q b) ->
  first_has (has_path path) q (base_designs (assign_list_ids d)) = first_has (has_path path) q (base_designs d).
Proof.
  intros Hq. unfold first_has, assign_list_ids. simpl. generalize 1 (base_designs d). intros id l. revert id.
  induction l as [|b l IH]; intros id; [done|]. simpl. destruct (stamp_base id b) as [id' b'] eqn:Eb.
  pose proof (stamp_base_path id b path) as (_ & _ & Hh). specialize (Hq id b). rewrite Eb in Hh, Hq. simpl in Hh, Hq. simpl. rewrite Hh.
  destruct (has_path path b); [done|]. specialize (IH id').
  destruct (find_index _ (stamp_bases id' l)), (find_index _ l); done.
Qed.

Definition same_lookups (d d' : daemon) : Prop :=
  active_watch d' = active_watch d /\ forall path, own_base d' path = own_base d path /\ no_user d' path = no_user d path.

Lemma stamp_lookups d : same_lookups d (assign_list_ids d).
Proof.
  split; [done|]. intros path. split; apply stamp_first; intros id b; destruct (stamp_base_path id b "") as (Hu & Hp & _); by rewrite ?Hu, ?Hp.
Qed.

Lemma scan_rescan due d : scan d0 due d -> scan d0 true (d <| firmware_rescan_pending := true |>).
Proof. by intros [? ? ? ? ? ? ?]. Qed.
Lemma scan_watches due d l : scan d0 due d -> scan d0 due (d <| active_watch := l |>).
Proof. by intros [? ? ? ? ? ? ?]. Qed.

Lemma rescan_wp due s : scan_state d0 due s -> wp lib_fault rescan_pending (fun _ s' => scan_state d0 true s') s.
Proof. intros Hs. apply wp_modd. by eapply scan_rescan. Qed.

(** The entry that is found for a path. *)
Definition found due (path : string) s (o : option nat) : Prop :=
  match o with
  | None => True
  | Some i => (no_user (dm s) path = true -> exists pp, scan_at (d0 := d0) (due := due) i pp s) /\
              (own_base (dm s) path = true -> scan_at (d0 := d0) (due := due) i path s)
  end.

Lemma not_user_package b : entry_loose b -> in_use b = true -> is_user_load b = false -> package b.
Proof.
  intros Hb Huse Hu. split.
  - intros He. unfold in_use, ISZERO in Huse. by rewrite He in Huse.
  - intros He. apply (el_user b Hb) in He. congruence.
Qed.

Lemma scan_found due path s : scan_state d0 due s -> found due path s (findBaseDesign_path (dm s) path).
Proof.
  intros HI. destruct (findBaseDesign_path _ _) as [i|] eqn:Hf; [|done].
  pose proof (find_index_lookup _ _ _ Hf) as (b & Hi & [Huse _]%andb_true_iff).
  assert (Hat : is_user_load b = false -> scan_at (d0 := d0) (due := due) i (base_path b) s).
  { intros Hu. split; [exact HI|]. exists b. split; [exact Hi|]. split; [|done].
    apply not_user_package; [by apply (sc_entry _ HI i)|done..]. }
  split; intros Hn; pose proof (first_has_at _ _ _ _ _ Hn Hf Hi) as Hq; simpl in Hq.
  - exists (base_path b). apply Hat. by apply negb_true_iff in Hq.
  - apply andb_true_iff in Hq as [Hu%negb_true_iff <-%streq_true]. by apply Hat.
Qed.

(** ** The events *)

Lemma add_pdi_accel_wp due i pp name path dir s :
  scan_at (d0 := d0) (due := due) i pp s -> wp lib_fault (add_pdi_accel i name path dir) (fun _ s' => scan_state d0 due s') s.
Proof.
  intros HI. pose proof HI as (_ & b & Hi & _ & Hpath). apply wp_bind. eapply wp_getb; [exact Hi|]. rewrite Hpath.
  apply wp_bind. eapply add_accel_wp; [exact HI|]. intros o s1 HI1 Ho.
  eapply wp_weaken_at. by apply init_pdi_wp.
Qed.

Lemma finds_same d d' w : same_lookups d d' -> finds_no_user d' w = finds_no_user d w.
Proof.
  intros [Hw Hl]. unfold finds_no_user, first_has. rewrite (proj2 (Hl _)), Hw. f_equal.
  destruct (find_index _ _) as [i|]; [|done]. destruct (_ !! i); [|done]. apply Hl.
Qed.

Lemma finds_grandparent d w k pw :
  finds_no_user d w = true -> path_to_watch (active_watch d) (w_parent_path w) = Some k -> active_watch d !! k = Some pw ->
  no_user d (w_parent_path pw) = true.
Proof. intros [_ Hf]%andb_true_iff Hk Hpw. exact (first_has_at _ _ _ _ _ Hf Hk Hpw). Qed.

Lemma pdi_in_slot_wp due w s :
  scan_state d0 due s -> finds_no_user (dm s) w = true ->
  wp lib_fault (pdi_in_slot w) (fun _ s' => scan_state d0 due s') s.
Proof.
  intros HI Hw. pose proof Hw as [Hw1 _]%andb_true_iff.
  apply wp_bind, wp_getd. apply (wp_seq _ (fun o s' => s' = s /\
    match o with Some i => exists pp, scan_at (d0 := d0) (due := due) i pp s | None => True end)).
  { pose proof (scan_found due (w_parent_path w) s HI) as Hf. destruct (findBaseDesign_path _ _) as [i|]; [|by apply wp_ret].
    destruct (proj1 Hf Hw1) as [pp Hat]. pose proof Hat as (_ & b & Hi & _).
    apply wp_bind. eapply wp_getb; [exact Hi|]. apply wp_ret. destruct (streq _ _); [|done]. split; [done|]. by exists pp. }
  intros [i|] s' [-> Hd]; [destruct Hd as [pp Hd]; by eapply add_pdi_accel_wp|].
  destruct (path_to_watch _ _) as [k|] eqn:Ek; [|by apply wp_ret].
  pose proof (find_index_lookup _ _ _ Ek) as (pw & Hk & _). apply wp_bind. eapply wp_the_Some; [exact Hk|].
  pose proof (scan_found due (w_parent_path pw) s HI) as Hf. destruct (findBaseDesign_path _ _) as [i|]; [|by apply wp_ret].
  destruct (proj1 Hf (finds_grandparent _ _ _ _ Hw Ek Hk)) as [pp Hat]. by eapply add_pdi_accel_wp.
Qed.

Lemma dirty_wp due Q s :
  scan_state d0 due s ->
  (forall s', scan_state d0 due s' -> same_lookups (dm s) (dm s') -> Q tt s') ->
  wp lib_fault mark_pkg_listing_dirty Q s.
Proof.
  intros HI HQ. apply wp_bind, wp_modd, wp_modd. apply HQ; [exact (scan_stamped _ _ HI)|exact (stamp_lookups (dm s))].
Qed.

Lemma find_base_wp due path Q s :
  scan_state d0 due s -> (forall o, found due path s o -> Q o s) -> wp lib_fault (find_base_path path) Q s.
Proof. intros HI HQ. apply wp_bind, wp_getd, wp_ret, HQ. by apply scan_found. Qed.

(** A base is read again, and its packages if that succeeded. *)
Lemma reread_wp due i pp name (init : M (sys W) bool) s :
  wp lib_fault init (fun _ s' => scan_at (d0 := d0) (due := due) i pp s') s ->
  wp lib_fault (let! ok := init in if ok : bool then parse_packages i name pp else ret tt)
     (fun _ s' => scan_state d0 due s') s.
Proof.
  intros Hinit. apply wp_bind. eapply wp_mono; [exact Hinit|]. intros [] s' HI'; [|by apply wp_ret, HI'].
  eapply wp_weaken_at. by apply parse_packages_wp.
Qed.

Lemma handle_pdi_event_wp due o s :
  scan_state d0 due s ->
  match o with
  | Some w => (w_parent_name w = ""%string -> own_base (dm s) (w_path w) = true) /\ finds_no_user (dm s) w = true
  | None => True
  end ->
  wp lib_fault (handle_pdi_event o) (fun _ s' => settled (dm s')) s.
Proof.
  intros HI Ho. destruct o as [w|]; [|apply wp_ret; by exists due]. apply wp_bind. eapply dirty_wp; [exact HI|].
  intros s1 HI1 Hsame. destruct Ho as [Ho Hu]. destruct (streq _ _) eqn:En.
  - apply streq_true in En. apply wp_bind. eapply find_base_wp; [exact HI1|].
    intros [i|] Hf; [|by eapply settle, rescan_wp]. destruct Hf as [_ Hf]. rewrite (proj1 (proj2 Hsame _)) in Hf.
    eapply settle, reread_wp. apply init_pdi_base_wp. by apply Hf, Ho.
  - eapply settle, pdi_in_slot_wp; [done|]. by rewrite (finds_same _ _ _ Hsame).
Qed.

Lemma shell_json_in_wp due w dir s :
  scan_state d0 due s -> own_base (dm s) dir = true ->
  wp lib_fault (shell_json_in w dir) (fun _ s' => scan_state d0 due s') s.
Proof.
  intros HI Hown. apply wp_bind. eapply find_base_wp; [exact HI|]. intros [i|] Hf; [|by apply wp_ret].
  destruct Hf as [_ Hi]. specialize (Hi Hown).
  apply wp_bind, wp_in_hw, wp_in_world. unfold sprintf_into. destruct (fits 600 _); [|by split]. apply wp_ret.
  set (s1 := Sys (dm s) _). assert (HI1 : scan_at (d0 := d0) (due := due) i dir s1) by exact Hi.
  apply wp_bind. eapply wp_mono; [exact (init_json_base_wp _ _ _ _ HI1)|]. intros ok s2 HI2. apply wp_then.
  destruct ok; [|by apply wp_ret, HI2]. eapply wp_weaken_at. by apply parse_packages_wp.
Qed.

Lemma accel_json_in_wp due w s :
  scan_state d0 due s -> finds_no_user (dm s) w = true ->
  wp lib_fault (accel_json_in w) (fun _ s' => scan_state d0 due s') s.
Proof.
  intros HI Hw. apply wp_bind, wp_getd. destruct (path_to_watch _ _) as [k|] eqn:Ek; [|by apply wp_ret].
  pose proof (find_index_lookup _ _ _ Ek) as (pw & Hk & _). apply wp_bind. eapply wp_the_Some; [exact Hk|].
  apply wp_bind. eapply dirty_wp; [exact HI|]. intros s1 HI1 Hsame.
  apply wp_bind. eapply find_base_wp; [exact HI1|]. intros [i|] Hf; [|by apply wp_ret].
  destruct Hf as [Hf _]. rewrite (proj2 (proj2 Hsame _)) in Hf.
  destruct (Hf (finds_grandparent _ _ _ _ Hw Ek Hk)) as [pp Hi]. pose proof Hi as (_ & b & Hb & _ & Hpath).
  apply wp_bind. eapply wp_getb; [exact Hb|]. rewrite Hpath.
  apply wp_bind. eapply add_accel_wp; [exact Hi|]. intros o s2 HI2 Ho. apply wp_then.
  eapply wp_weaken_at. by apply init_json_wp.
Qed.

Lemma dir_created_wp due w name s :
  scan_state d0 due s -> wp lib_fault (dir_created w name) (fun _ s' => settled (dm s')) s.
Proof.
  intros HI. unfold dir_created. destruct (has_sub _ _); [apply wp_ret; by exists due|].
  apply wp_bind, wp_in_hw, wp_in_world. unfold sprintf_into. destruct (fits 512 _); [|by split]. apply wp_ret.
  set (s1 := Sys (dm s) _). assert (HI1 : scan_state d0 due s1) by exact HI.
  apply wp_bind, wp_gets. destruct (path_to_watch _ _); [apply wp_ret; by exists due|].
  apply wp_bind. eapply wp_scan_same; [apply add_dir_watch_wp|exact HI1|]. intros [] s2 HI2; [|apply wp_ret; by exists due].
  apply wp_then. by eapply settle, rescan_wp.
Qed.

(** *** A package left its base *)

Lemma forgotten_accels path b :
  exists l, forget_accel_at path b = b <| accel_list := l |> /\ length l = length (accel_list b) /\
    forall a, a ∈ l -> exists a0, a0 ∈ accel_list b /\ (a = a0 \/ a = forget_accel a0).
Proof.
  unfold forget_accel_at. destruct (find_index _ _) as [j|] eqn:Ef.
  - exists (alter forget_accel j (accel_list b)). split; [done|]. split; [apply length_alter|].
    intros a Ha. apply list_elem_of_lookup in Ha as [k Hk]. destruct (decide (k = j)) as [->|Hne].
    + rewrite list_lookup_alter_eq in Hk. apply fmap_Some in Hk as (a0 & Ha0 & ->).
      exists a0. split; [by eapply list_elem_of_lookup_2|by right].
    + rewrite list_lookup_alter_ne in Hk by done. exists a. split; [by eapply list_elem_of_lookup_2|by left].
  - exists (accel_list b). split; [by destruct b|]. split; [done|]. intros a Ha. exists a. split; [done|by left].
Qed.

Lemma forget_accel_fine pp a : accel_fine pp a -> accel_fine pp (forget_accel a).
Proof. intros [_ (_ & _ & Ht)]. split; [by right|]. by split. Qed.

(** Replacing the accelerators: each is an old one, or forgotten. *)
Lemma forgetful_entry b l :
  entry_loose b -> length l = length (accel_list b) ->
  (forall a, a ∈ l -> exists a0, a0 ∈ accel_list b /\ (a = a0 \/ a = forget_accel a0)) ->
  entry_loose (b <| accel_list := l |>).
Proof.
  intros Hb Hlen Hl. destruct (el_tight _ Hb) as [[? ?] Ha]. split; try apply Hb.
  - split; [split; [done|simpl; congruence]|]. intros a (a0 & Hin & [->| ->])%Hl; [by apply Ha|by apply forget_accel_fine, Ha].
  - intros Hp a (a0 & Hin & [->| ->])%Hl; [by apply (el_bare _ Hb)|done].
Qed.

Lemma forget_accel_scan due path i b d :
  scan d0 due d -> base_designs d !! i = Some b -> scan d0 due (d <| base_designs ::= <[i := forget_accel_at path b]> |>).
Proof.
  intros Hid Hi. destruct (forgotten_accels path b) as (l & -> & Hlen & Hl).
  apply (scan_replace d i b); try done.
  - by apply forgetful_entry; [apply (sc_entry _ Hid i)|..].
  - intros _. by left.
  - split; [done|by left].
Qed.

Lemma remove_watch_same path s : wp lib_fault (remove_watch path) (fun _ s' => same_dm s s') s.
Proof.
  apply wp_bind, wp_gets, wp_bind. eapply wp_mono.
  - apply (wp_for_each _ _ (same_dm s)); [|done]. intros w s1 _ Hs.
    destruct (streq _ _); [|by apply wp_ret]. apply wp_env; [auto with tame|]. intros v h. exact Hs.
  - intros u s1 Hs. apply wp_modd. exact Hs.
Qed.

Lemma remove_watch_wp due path s :
  scan_state d0 due s -> wp lib_fault (remove_watch path) (fun _ s' => scan_state d0 due s') s.
Proof. intros HI. eapply wp_scan_same; [apply remove_watch_same|exact HI|done]. Qed.

Lemma scan_lookup due i s :
  scan_state d0 due s -> (i < MAX_WATCH)%nat -> exists b, bases s !! i = Some b.
Proof. intros HI Hi. apply lookup_lt_is_Some_2. by rewrite (sc_len _ HI). Qed.

Lemma forget_package_wp due path parent s :
  scan_state d0 due s -> wp lib_fault (remove_base_design path parent false) (fun _ s' => scan_state d0 due s') s.
Proof.
  intros HI. apply wp_bind, wp_getd. rewrite (sc_len _ HI).
  apply (wp_for_each _ _ (scan_state d0 due)); [|exact HI]. intros i s1 Hi HI1. apply elem_of_seq in Hi as [_ Hi].
  destruct (scan_lookup due i s1 HI1 Hi) as [b Hb]. apply wp_bind. eapply wp_getb; [exact Hb|].
  destruct (_ && _); [|by apply wp_ret]. apply wp_bind. eapply wp_mono; [by apply remove_watch_wp|]. intros u s2 HI2.
  destruct (scan_lookup due i s2 HI2 Hi) as [b2 Hb2]. eapply wp_modb; [exact Hb2|]. by apply forget_accel_scan.
Qed.

(** *** A base design left *)

Lemma forgotten_base b :
  entry_loose b -> is_user_load b = false -> forgettable b = true -> entry_loose (forget_base b).
Proof.
  intros Hb Hu [[Hs Haie%Z.eqb_eq]%andb_true_iff Hfree]%andb_true_iff.
  assert (Hbl : blank (forget_base b)).
  { split; [done|]. split; [unfold num_slots; simpl; lia|]. simpl. by destruct (slots b). }
  destruct (el_tight _ Hb) as [[_ Hlen] Ha]. rewrite forallb_forall in Hfree.
  assert (Hbare : forall a, a ∈ accel_list (forget_base b) -> accel_bare a /\ accel_texts a).
  { intros a (a0 & <- & Hin0)%list_elem_of_In%in_map_iff. pose proof (Hfree a0 Hin0) as Hf.
    apply list_elem_of_In in Hin0 as Hin.
    destruct (Ha a0 Hin) as [_ (Hn & Hpt & Ht)]. destruct (free_accel a0) eqn:E; [|by split].
    split; [|by split]. apply streq_true in E. apply orb_true_iff in Hf as [Hf|Hf%streq_true]; [by apply negb_true_iff in Hf|done]. }
  assert (is_user_load (forget_base b) = false) as Hu' by done. split; rewrite ?Hu'; try done.
  - split; [done|]. split; [|done]. apply (el_range _ Hb).
  - split; [split; [done|by simpl; rewrite length_map]|]. intros a [[Hp _] Ht]%Hbare. split; [by right|done].
  - intros _ a Hin. by apply Hbare.
Qed.

(** An entry that is forgotten counted nothing. *)
Lemma forget_base_scan due i b d :
  scan d0 due d -> base_designs d !! i = Some b -> is_user_load b = false -> forgettable b = true ->
  scan d0 due (d <| base_designs ::= <[i := forget_base b]> |>).
Proof.
  intros Hid Hi Hu Hf. pose proof Hf as [[Hs _]%andb_true_iff _]%andb_true_iff.
  assert (slots b = None) as Hsn by (by destruct (slots b)).
  apply (scan_replace d i b); try done.
  - apply forgotten_base; [by apply (sc_entry _ Hid i)|done..].
  - intros [He _]. by destruct He.
  - split; [|by right]. unfold load_state. simpl. by rewrite (scan_inactive d i b Hid Hi Hsn Hu).
Qed.

Lemma forget_base_wp due dir name parent s :
  scan_state d0 due s ->
  first_has (fun b => streq (base_path b) (dir ++ "/" ++ name)%string) forgettable (bases s) = true ->
  wp lib_fault (remove_base_design (dir ++ "/" ++ name) parent true) (fun _ s' => scan_state d0 due s') s.
Proof.
  intros HI Hf. apply wp_bind, wp_getd. destruct (find_index _ _) as [i|] eqn:Ei; [|by apply wp_ret].
  pose proof (find_index_lookup _ _ _ Ei) as (b & Hi & Hp%streq_true). pose proof (first_has_at _ _ _ _ _ Hf Ei Hi) as Hfb.
  destruct (joined_path dir name) as [_ Hu].
  apply wp_bind. eapply wp_getb; [exact Hi|]. apply (wp_seq _ (fun _ s' => same_dm s s')).
  - apply (wp_for_each _ _ (same_dm s)); [|done]. intros a s1 _ Hs. destruct (free_accel a); [by apply wp_ret|].
    eapply wp_mono; [apply remove_watch_same|]. intros u s2. by apply same_trans.
  - intros u s' Hs. pose proof (scan_same _ _ Hs HI) as HI'. destruct Hs as (Hb & _).
    eapply wp_modb; [by rewrite Hb|]. apply forget_base_scan; [exact HI'|by rewrite Hb| |done].
    destruct (is_user_load b) eqn:E; [|done]. apply (el_user b (sc_entry _ HI i b Hi)) in E. by rewrite E in Hp.
Qed.

Lemma dir_removed_wp due w name s :
  scan_state d0 due s ->
  (streq (w_parent_name w) "" = true ->
   first_has (fun b => streq (base_path b) (w_path w ++ "/" ++ name)%string) forgettable (bases s) = true) ->
  wp lib_fault (dir_removed w name) (fun _ s' => scan_state d0 due s') s.
Proof.
  intros HI Hpn. unfold dir_removed.
  apply wp_bind, wp_in_hw, wp_in_world. unfold sprintf_into. destruct (fits 512 _); [|by split]. apply wp_ret.
  set (s1 := Sys (dm s) _). assert (HI1 : scan_state d0 due s1) by exact HI.
  apply wp_bind. apply (wp_mono _ _ (fun _ s' => scan_state d0 due s')).
  { destruct (streq _ _); [by apply forget_base_wp; [|apply Hpn]|by apply forget_package_wp]. }
  intros u s2 HI2.
  apply wp_bind. eapply wp_mono; [exact (remove_watch_wp due _ _ HI2)|]. intros u3 s3 HI3.
  apply wp_bind. eapply dirty_wp; [exact HI3|]. intros s4 HI4 _. by apply wp_ret.
Qed.

Lemma moved_in_wp due w e s :
  scan_state d0 due s -> (streq (e_name e) "shell.json" = true -> own_base (dm s) (w_path w) = true) ->
  (IN_ISDIR e = true -> own_base (dm s) (w_path w ++ "/" ++ e_name e)%string = true) ->
  IN_ISDIR e || streq (e_name e) "shell.json" = true ->
  wp lib_fault (moved_in w e) (fun _ s' => settled (dm s')) s.
Proof.
  intros HI Hf Hd Hany. unfold moved_in. destruct (has_sub _ _); [apply wp_ret; by exists due|].
  apply wp_bind. eapply dirty_wp; [exact HI|]. intros s1 HI1 Hown.
  apply (wp_seq _ (fun _ s' => exists due', scan_state d0 due' s' /\ forall path, own_base (dm s') path = own_base (dm s) path)).
  { assert (Hown' : forall path, own_base (dm s1) path = own_base (dm s) path) by (intros path; apply Hown).
    destruct (IN_ISDIR e); [|apply wp_ret; by exists due]. apply wp_modd. exists true. split; [by eapply scan_rescan|done]. }
  intros u s2 (due' & HI2 & Hown2). apply wp_bind, wp_gp. destruct (is_versal_platform _); [apply wp_ret; by exists due'|].
  apply wp_bind. destruct (IN_ISDIR e); apply wp_in_hw, wp_in_world; unfold sprintf_into; (destruct (fits 512 _); [|by split]);
    apply wp_ret; set (s3 := Sys (dm s2) _); (assert (HI3 : scan_state d0 due' s3) by exact HI2); eapply settle;
    apply shell_json_in_wp; try exact HI3; change (dm s3) with (dm s2); rewrite Hown2; auto.
Qed.

(** Whatever a tracked event is about, handling it changes what it may. *)
Lemma handle_event_wp e s :
  settled (dm s) -> tracked (dm s) e = true -> wp lib_fault (handle_event e) (fun _ s' => settled (dm s')) s.
Proof.
  intros [due HI] Htr. change (scan_state d0 due s) in HI.
  apply andb_true_iff in Htr as [[Hdrop%negb_true_iff Hown%negb_true_iff]%andb_true_iff Huser%negb_true_iff].
  unfold drops_base, misreads_base, fills_user in *.
  assert (Hstay : forall b : bool, wp lib_fault (ret b) (fun _ (s' : sys W) => settled (dm s')) s)
    by (intros; apply wp_ret; by exists due).
  assert (Hscan : wp lib_fault (rescan_pending ;; ret true) (fun _ (s' : sys W) => settled (dm s')) s)
    by (apply wp_then; by eapply settle, rescan_wp).
  apply wp_bind, wp_gets, wp_bind, wp_gp. destruct (get_watch _ _) as [w|].
  - apply orb_false_iff in Hown as [Hfile Hdir].
    assert (Hown : streq (e_name e) "shell.json" || name_is_pdi (e_name e) && streq (w_parent_name w) "" = true ->
                   own_base (dm s) (w_path w) = true).
    { intros E. rewrite E in Hfile. by destruct (own_base _ _). }
    assert (Hno : streq (e_name e) "accel.json" || name_is_pdi (e_name e) = true -> finds_no_user (dm s) w = true).
    { intros E. rewrite E in Huser. by apply negb_false_iff in Huser. }
    assert (Hpdi : name_is_pdi (e_name e) = true ->
                   wp lib_fault (handle_pdi_event (Some w) ;; ret true) (fun _ s' => settled (dm s')) s).
    { intros E. apply wp_then. eapply handle_pdi_event_wp; [exact HI|]. rewrite E in Hown, Hno. split.
      - intros E2. apply Hown. by rewrite E2, orb_true_r.
      - apply Hno, orb_true_r. }
    destruct (IN_CREATE e || IN_CLOSE_WRITE e).
    { destruct (IN_ISDIR e); [by eapply dir_created_wp|]. destruct (streq (e_name e) "shell.json").
      - destruct (is_versal_platform _); [apply Hstay|]. apply wp_bind. eapply dirty_wp; [exact HI|].
        intros s1 HI1 Hsame. eapply settle, shell_json_in_wp; [exact HI1|]. rewrite (proj1 (proj2 Hsame _)). by apply Hown.
      - destruct (streq (e_name e) "accel.json");
          [destruct (is_versal_platform _); [apply Hstay|by eapply settle, accel_json_in_wp; [|apply Hno]]|].
        destruct (is_versal_platform _ && name_is_pdi (e_name e)) eqn:Ev; [|exact Hscan].
        apply andb_true_iff in Ev as [_ Ev]. by apply Hpdi. }
    destruct ((IN_DELETE e || IN_MOVED_FROM e) && IN_ISDIR e).
    { eapply settle, dir_removed_wp; [exact HI|]. intros E. rewrite E in Hdrop. by apply negb_false_iff in Hdrop. }
    destruct (IN_MOVED_TO e); [|apply Hstay].
    destruct (IN_ISDIR e || streq (e_name e) "shell.json") eqn:Em.
    + eapply moved_in_wp; [exact HI| |intros E|exact Em]; [intros E; apply Hown; by rewrite E|].
      rewrite E in Hdir. by apply negb_false_iff in Hdir.
    + destruct (is_versal_platform _ && name_is_pdi (e_name e)) eqn:Ev; [|exact Hscan].
      apply andb_true_iff in Ev as [_ Ev]. by apply Hpdi.
  - assert (Hpdi : wp lib_fault (handle_pdi_event None ;; ret true) (fun _ s' => settled (dm s')) s)
      by (apply wp_then; eapply handle_pdi_event_wp; [exact HI|done]).
    by repeat (match goal with |- context [if ?c then _ else _] => destruct c end);
      first [apply Hstay|exact Hscan|exact Hpdi].
Qed.

End EventsSafe.
Arguments settled : clear implicits.

Section Walk.
Context {W : Type} `{Env W}.
Implicit Types (s : sys W).

(** ** Requests that walk

    Some requests walk the firmware directories first when a walk is due. *)

Definition rescan : M (sys W) unit :=
  modd (fun d => d <| firmware_rescan_pending := false |>) ;; firmware_dir_walk.

Lemma walk_first {A} (rest : M (sys W) A) s :
  firmware_rescan_pending (dm s) = true ->
  (forall s', rescan s = Ret tt s' -> firmware_rescan_pending (dm s') = false) ->
  let m := let! d := getd in (if firmware_rescan_pending d then rescan else ret tt) ;; rest in
  m s = (rescan ;; m) s.
Proof.
  intros Hp Hs'. unfold bind at 1 2 3, getd, gets. rewrite Hp. destruct (rescan s) as [[] s'|f]; [|done].
  specialize (Hs' s' eq_refl). cbn. by rewrite Hs'.
Qed.

Lemma bind_congr {A B} (m m' : M (sys W) A) (k : A -> M (sys W) B) s : m s = m' s -> bind m k s = bind m' k s.
Proof. unfold bind. by intros ->. Qed.
Lemma bind_rescan {A B} (m : M (sys W) A) (k : A -> M (sys W) B) s : bind (rescan ;; m) k s = (rescan ;; bind m k) s.
Proof. unfold bind. by destruct (rescan s). Qed.

(** Serving one of these requests is walking, then serving it. *)
Lemma process_walks_first msg r s :
  request_of (msg_id msg) = Some r -> walks r = true -> firmware_rescan_pending (dm s) = true ->
  (forall s', rescan s = Ret tt s' -> firmware_rescan_pending (dm s') = false) ->
  process_dfx_req msg s = (rescan ;; process_dfx_req msg) s.
Proof.
  intros Hr Hw Hp Hs'. unfold process_dfx_req. rewrite Hr.
  destruct r; try done; cbn [handle_request]; cbv zeta; try destruct (load_args _) as [[name|] cma]; rewrite <- bind_rescan;
    apply bind_congr; [apply (walk_first _ s Hp Hs')..].
Qed.

Lemma rescan_scan s :
  wf (dm s) -> wp lib_fault rescan (fun _ s' => scan (dm s) false (dm s')) s.
Proof.
  intros Hwf. pose proof (scan_refl (due := firmware_rescan_pending (dm s)) Hwf eq_refl) as HI.
  apply wp_bind, wp_modd. apply (firmware_walk_wp (d0 := dm s) (due := false)). destruct HI as [? ? ? ? ? ? ?]. by split.
Qed.

(** The walk of the request, if it makes one, leaves the bases that have slots
    their shape. *)
Definition quiet_walk s (msg : message) : Prop :=
  forall r s', request_of (msg_id msg) = Some r -> walks r = true -> firmware_rescan_pending (dm s) = true ->
    rescan s = Ret tt s' -> calm (dm s) (dm s') = true.

(** What serving a request does to the tables and to the handles: [d] are the
    tables after its walk. *)
Definition walked_served s (msg : message) (reply : option message) (s' : sys W) : Prop :=
  wf (dm s') /\ exists d, table s = available_slot_handle (platform d) /\ firmware_rescan_pending (dm s') = firmware_rescan_pending d /\
    (same_handles d (dm s') \/ exists r, request_of (msg_id msg) = Some r /\ served r d reply (dm s')).

Lemma walk_not_due msg s :
  servable msg (dm s) \/
  exists r, request_of (msg_id msg) = Some r /\ walks r = true /\ firmware_rescan_pending (dm s) = true.
Proof.
  unfold servable. destruct (request_of (msg_id msg)) as [r|]; [|by left]. destruct (walks r) eqn:Ew; [|left; congruence].
  destruct (firmware_rescan_pending (dm s)); [right; by exists r|by left].
Qed.

Lemma servable_served msg s d :
  wf (dm s) -> servable msg (dm s) -> platform (dm s) = platform d ->
  forall s0, platform (dm s0) = platform d -> wp lib_fault (process_dfx_req msg) (walked_served s0 msg) s.
Proof.
  intros Hwf Hs Hd s0 H0. eapply wp_mono; [by apply process_served|]. intros reply s' [[Hwf' Hp'] Hr]. split; [done|].
  exists (dm s). split; [congruence|]. by split.
Qed.

Lemma request_walks msg s :
  wf (dm s) -> quiet_walk s msg -> wp lib_fault (process_dfx_req msg) (walked_served s msg) s.
Proof.
  intros Hwf Hq. destruct (walk_not_due msg s) as [Hs|(r & Hr & Hw & Hp)]; [by apply (servable_served msg s (dm s))|].
  assert (Hscan : forall s', rescan s = Ret tt s' -> scan (dm s) false (dm s')).
  { intros s'. exact (wp_returns _ _ _ _ _ _ (rescan_scan s Hwf)). }
  unfold wp. rewrite (process_walks_first msg r s Hr Hw Hp); [|intros s' E; exact (sc_pending _ (Hscan s' E))].
  change (wp lib_fault (rescan ;; process_dfx_req msg) (walked_served s msg) s).
  apply (wp_seq _ (fun u s' => rescan s = Ret u s')).
  { pose proof (rescan_scan s Hwf) as Hsafe. unfold wp in *. by destruct (rescan s). }
  intros [] s1 E. specialize (Hscan s1 E). apply (servable_served msg s1 (dm s)); [| |apply (sc_platform _ Hscan)|done].
  - apply (scan_wf _ Hscan). by apply (Hq r).
  - apply ready_servable. split; [|apply (sc_pending _ Hscan)]. apply (scan_wf _ Hscan). by apply (Hq r).
Qed.
End Walk.
