(* ===== verification/Threads.v ===== *)
(** * A request and the watch thread

    The main thread serves a request while the watch thread handles file-system
    events; they share the tables without a lock.  Here a request is cut into
    steps: the walk of the firmware directories that it begins with into one step
    per directory entry, then the lookup of the package, then the load, the
    listing or whatever else was asked for.  A step and what is left after it are
    what was left before it, in every state ([step_finish]), so that the steps make
    up the request; between any two of them events may come ([InFlight]).  Two
    things are coarser than in the code: a directory is read at once, where the
    code visits each entry as [readdir()] returns it; and what follows the walk and
    the lookup is one step, so a load under way is not interrupted. *)
From S2P Require Import Prelude CStr Env Model UserLoad Json Accel Rpu Pdi Slots Invariant ListIds TablesWp.
From S2P Require Import ListIdFacts Load LoadSafe Registry Eeprom Events Listing ListingSafe Proto Frame RequestSafe StartSafe EventsSafe.
Open Scope Z_scope.
Open Scope dfx_scope.

(** What is left of a walk: firmware locations, and entries of directories with
    the number of levels that may still be entered. *)
Inductive todo := Location (fwdir : string) | Below (depth : nat) (cpath : string) (e : dirent).

(** Where the main thread is in a request. *)
Inductive phase :=
  | Begin
  | Walking (l : list todo)
  | Walked
  | Found (i : nat) (name : string) (cma : option string)   (* [findBaseDesign()] has returned *)
  | Replied (reply : option message).

Section Steps.
Context {W : Type} `{Env W}.
Implicit Types (s : sys W).

(** One entry of the walk, and the entries that are left below it. *)
Definition visit (t : todo) : M (sys W) (list todo) :=
  match t with
  | Location fwdir =>
      let! l := env (look (readdir fwdir)) in
      match l with
      | None => ret []
      | Some l =>
          let! ok := add_dir_watch fwdir ""%string ""%string ""%string in
          ret (if ok : bool then map (Below MAX_RECURSION_DEPTH fwdir) l else [])
      end
  | Below depth cpath e =>
      let name := d_name e in
      if d_name_filter name then ret []
      else
        let! new_dir := env (sprintf_into 512 (cpath ++ "/" ++ name)) in
        let! nd := not_dir new_dir in
        if nd : bool then ret []
        else
          match depth with
          | O => ret []
          | S depth =>
              let! wd := watch_design_dir new_dir name cpath in
              match wd with
              | None => ret []
              | Some wd =>
                  let! base := dir_is_base_design new_dir name in
                  if base : bool then register_base_design new_dir name cpath wd ;; ret []
                  else let! d := env (look (readdir new_dir)) in ret (map (Below depth new_dir) (default [] d))
              end
          end
  end.

(** [load_accelerator()] and [listAccelerators()] after their walk. *)
Definition found_none (d : daemon) (name : option string) : M (sys W) (Z * option string) :=
  guard_that NullArg (match name with Some _ => true | None => negb (existsb in_use (base_designs d)) end) ;;
  ret (- DFX_MGR_NO_PACKAGE_FOUND_ERROR, Some ""%string).
Definition lookup_name (d : daemon) (name : option string) : option (nat * string) :=
  match name with Some n => (fun i => (i, n)) <$> findBaseDesign d n | None => None end.
Definition list_packages (flag : Z) : M (sys W) (option message) :=
  modd assign_list_ids ;; modd (fun d => d <| pkg_listing_dirty := false |>) ;;
  let! t := render_listing flag in ret (Some (text_reply t)).

(** One step of the main thread. *)
Definition main_step (r : dfx_mgr_request) (m : message) (p : phase) : M (sys W) phase :=
  match p with
  | Begin =>
      let! d := getd in
      if walks r && firmware_rescan_pending d then
        modd (fun d => d <| firmware_rescan_pending := false |>) ;;
        let! d := getd in
        ret (Walking (map Location (firmware_locations (config d))))
      else ret Walked
  | Walking [] => ret Walked
  | Walking (t :: l) => let! ts := visit t in ret (Walking (ts ++ l))
  | Walked =>
      match r with
      | LOAD_ACCEL | LOAD_ACCEL_BY_NAME =>
          let '(name, cma) := load_args (msg_data m) in
          let! d := getd in
          match lookup_name d name with
          | Some (i, n) => ret (Found i n cma)
          | None => let! rv := found_none d name in let! x := load_reply false rv in ret (Replied x)
          end
      | LIST_PACKAGE => let! x := list_packages (msg_flags m) in ret (Replied x)
      | _ => let! x := handle_request r m in ret (Replied x)
      end
  | Found i n cma =>
      let! rv := load_accelerator_core i n cma (Some ""%string) FPGA_STATE_SIZE in
      let! x := load_reply false rv in
      ret (Replied x)
  | Replied x => ret (Replied x)
  end.

(** *** A step, and what is left after it *)

(** All of the walk below an entry, and what a phase has still to do. *)
Definition visit_all (t : todo) : M (sys W) unit :=
  match t with
  | Location fwdir =>
      let! l := env (look (readdir fwdir)) in
      match l with
      | None => ret tt
      | Some l =>
          let! ok := add_dir_watch fwdir ""%string ""%string ""%string in
          if ok : bool then for_each (accel_dir_add MAX_RECURSION_DEPTH fwdir) l else ret tt
      end
  | Below depth cpath e => accel_dir_add depth cpath e
  end.
Definition serve_found (i : nat) (n : string) (cma : option string) : M (sys W) (option message) :=
  let! rv := load_accelerator_core i n cma (Some ""%string) FPGA_STATE_SIZE in load_reply false rv.
Definition serve_walked (r : dfx_mgr_request) (m : message) : M (sys W) (option message) :=
  match r with
  | LOAD_ACCEL | LOAD_ACCEL_BY_NAME =>
      let '(name, cma) := load_args (msg_data m) in
      let! d := getd in
      match lookup_name d name with
      | Some (i, n) => serve_found i n cma
      | None => let! rv := found_none d name in load_reply false rv
      end
  | LIST_PACKAGE => list_packages (msg_flags m)
  | _ => handle_request r m
  end.
Definition finish (r : dfx_mgr_request) (m : message) (p : phase) : M (sys W) (option message) :=
  match p with
  | Begin => handle_request r m
  | Walking l => for_each visit_all l ;; serve_walked r m
  | Walked => serve_walked r m
  | Found i n cma => serve_found i n cma
  | Replied x => ret x
  end.

Lemma visit_then t : visit_all t ≈ (let! ts := visit t in for_each visit_all ts).
Proof.
  destruct t as [fwdir|depth cpath e]; cbn [visit visit_all].
  - rewrite bind_assoc. apply bind_then. intros [l|]; [|done]. rewrite bind_assoc. apply bind_then.
    intros []; [|done]. rewrite bind_ret_l. by rewrite for_each_map.
  - destruct depth as [|depth]; cbn [accel_dir_add]; cbv zeta; destruct (d_name_filter _); try done;
      rewrite bind_assoc; apply bind_then; intros dir; rewrite bind_assoc; apply bind_then; intros []; try done.
    rewrite bind_assoc. apply bind_then. intros [wd|]; [|done]. rewrite bind_assoc. apply bind_then. intros [].
    + rewrite bind_assoc. rewrite <- bind_ret_r at 1. by apply bind_then; intros [].
    + rewrite bind_assoc. apply bind_then. intros d. rewrite bind_ret_l. by rewrite for_each_map.
Qed.

(** A walk, then the rest: entry by entry. *)
Lemma visit_walk {A} t l (rest : M (sys W) A) :
  (let! ts := visit t in for_each visit_all (ts ++ l) ;; rest) ≈ (for_each visit_all (t :: l) ;; rest).
Proof.
  cbn [for_each]. setoid_rewrite (visit_then t). setoid_rewrite for_each_app. by repeat setoid_rewrite bind_assoc.
Qed.

(** The walk that is due, then the rest. *)
Definition walk_then {A} (rest : M (sys W) A) : M (sys W) A :=
  let! d := getd in
  (if firmware_rescan_pending d then rescan else ret tt) ;; rest.

Lemma walk_assoc {A B} (rest : M (sys W) A) (k : A -> M (sys W) B) : bind (walk_then rest) k ≈ walk_then (bind rest k).
Proof. unfold walk_then. repeat setoid_rewrite bind_assoc. done. Qed.

Lemma load_arg_walk name cma fs sz :
  load_accelerator_arg name cma fs sz ≈ walk_then (
    let! d := getd in
    match lookup_name d name with
    | Some (i, n) => load_accelerator_core i n cma fs sz
    | None => guard_that NullArg (match name with Some _ => true | None => negb (existsb in_use (base_designs d)) end) ;;
              ret (- DFX_MGR_NO_PACKAGE_FOUND_ERROR, fs)
    end).
Proof.
  destruct name as [name|]; [|done]. apply bind_then. intros d. apply bind_then. intros []. apply bind_then. intros d'.
  unfold lookup_name. by destruct (findBaseDesign d' name).
Qed.

Lemma walks_first r m : walks r = true -> handle_request r m ≈ walk_then (serve_walked r m).
Proof.
  assert (Hload : forall name cma,
    (let! rv := load_accelerator_arg name cma (Some ""%string) FPGA_STATE_SIZE in load_reply false rv) ≈
    walk_then (let! d := getd in
      match lookup_name d name with
      | Some (i, n) => serve_found i n cma
      | None => let! rv := found_none d name in load_reply false rv
      end)).
  { intros name cma. rewrite load_arg_walk, walk_assoc. apply bind_then. intros d. apply bind_then. intros [].
    rewrite bind_assoc. apply bind_then. intros d'. by destruct (lookup_name d' name) as [[i n]|]. }
  destruct r; try done; intros _; cbn [handle_request serve_walked].
  - destruct (load_args _) as [name cma]. apply Hload.
  - unfold listAccelerators, list_packages. rewrite bind_assoc. apply bind_then. intros d. rewrite bind_assoc.
    apply bind_then. intros []. rewrite bind_assoc. apply bind_then. intros []. by rewrite bind_assoc.
  - destruct (load_args _) as [name cma]. apply Hload.
Qed.

(** One step, then what is left: that is what was left. *)
Lemma step_finish r m p : (let! p' := main_step r m p in finish r m p') ≈ finish r m p.
Proof.
  destruct p as [|[|t l]| |i n cma|x]; cbn [main_step finish].
  - destruct (walks r) eqn:Ew.
    + rewrite (walks_first r m Ew), bind_assoc. apply bind_then. intros d. cbn [andb].
      destruct (firmware_rescan_pending d); [|by rewrite !bind_ret_l].
      unfold rescan. rewrite bind_assoc. etransitivity; [|symmetry; apply bind_assoc]. apply bind_then. intros []. 
      unfold firmware_dir_walk. rewrite bind_assoc. etransitivity; [|symmetry; apply bind_assoc]. apply bind_then. intros d'.
      rewrite bind_ret_l. cbn [finish]. by rewrite for_each_map.
    + rewrite bind_assoc. split. intros s. cbn. by destruct r.
  - done.
  - rewrite bind_assoc. setoid_rewrite bind_ret_l. apply visit_walk.
  - destruct r; cbn [serve_walked]; try (rewrite bind_assoc; by rewrite bind_ret_r).
    all: destruct (load_args _) as [name cma]; rewrite bind_assoc; apply bind_then; intros d;
      destruct (lookup_name d name) as [[i n]|]; [done|]; rewrite !bind_assoc; apply bind_then; intros rv;
      rewrite bind_assoc; by rewrite bind_ret_r.
  - unfold serve_found. rewrite !bind_assoc. apply bind_then. intros rv. rewrite bind_assoc. by rewrite bind_ret_r.
  - done.
Qed.

(** The request has its reply. *)
Definition answered (p : phase) : bool := match p with Replied _ => true | _ => false end.
End Steps.
