(* ===== verification/Owners.v ===== *)
(** * Who owns what, over a request

    The ledger of the daemon: the owner of every handle that is out.  It is the
    state of an abstract allocator, and what a request does to it is one step: the
    handles that a request does not take or give back stay with the slot or the
    user load that has them, in the slot where it is. *)
From S2P Require Import Prelude CStr Env Model UserLoad Json Accel Rpu Pdi Slots Invariant ListIds TablesWp.
From S2P Require Import ListIdFacts Load LoadSafe Unload UnloadSafe UserSafe Registry Eeprom Events Listing ListingSafe.
From S2P Require Import Proto Frame Handles RequestSafe StartSafe EventsSafe Threads.
Open Scope Z_scope.
Open Scope dfx_scope.

(** ** The abstract allocator

    It hands out the least free handle. *)

Inductive alloc_event : Set := Keep | Take (h : nat) (o : owner) | Free (h : nat).

Inductive alloc_step (L : gmap nat owner) : alloc_event -> gmap nat owner -> Prop :=
  | alloc_keep : alloc_step L Keep L
  | alloc_take h o :
      (h < SLOT_HANDLE_MAX)%nat -> L !! h = None -> (forall k, (k < h)%nat -> is_Some (L !! k)) ->
      alloc_step L (Take h o) (<[h := o]> L)
  | alloc_free h : is_Some (L !! h) -> alloc_step L (Free h) (delete h L).

(** ** The ledger *)

Definition of_handle (h : Z) (o : owner) : list (nat * owner) := if 0 <=? h then [(Z.to_nat h, o)] else [].
Definition in_slot (i k : nat) (x : option slot_info) : list (nat * owner) :=
  match x with Some x => of_handle (slot_handle x) (OSlot i k) | None => [] end.
Definition entry_owners (i : nat) (b : basePLDesign) : list (nat * owner) :=
  mjoin (imap (in_slot i) (slot_list b)) ++ if is_user_load b then of_handle (user_load_handle b) (OUser i) else [].
Definition ledger (d : daemon) : gmap nat owner := list_to_map (mjoin (imap entry_owners (base_designs d))).

Lemma elem_of_handle h o n o' : (n, o') ∈ of_handle h o <-> h = Z.of_nat n /\ o' = o.
Proof.
  unfold of_handle. destruct (Z.leb_spec 0 h) as [Hh|Hh].
  - rewrite list_elem_of_singleton. split; [intros [= -> ->]; split; [lia|done]|]. intros [-> ->]. by rewrite Nat2Z.id.
  - split; [by intros ?%elem_of_nil|]. intros [-> _]. lia.
Qed.

Lemma elem_of_imaps {A B} (f : nat -> A -> list B) l y :
  y ∈ mjoin (imap f l) <-> exists i x, l !! i = Some x /\ y ∈ f i x.
Proof.
  rewrite list_elem_of_join. split.
  - intros (ys & Hy & Hys). apply elem_of_lookup_imap in Hys as (i & x & -> & Hx). by exists i, x.
  - intros (i & x & Hx & Hy). exists (f i x). split; [done|]. apply elem_of_lookup_imap. by exists i, x.
Qed.

Lemma elem_of_ledger d h o : (h, o) ∈ mjoin (imap entry_owners (base_designs d)) <-> owns d o h.
Proof.
  rewrite elem_of_imaps. unfold entry_owners. split.
  - intros (i & b & Hi & [Ho|Ho]%elem_of_app).
    + apply elem_of_imaps in Ho as (k & [x|] & Hk & Ho); [|by apply elem_of_nil in Ho].
      apply elem_of_handle in Ho as [Hh ->]. by exists b, x.
    + destruct (is_user_load b) eqn:Hu; [|by apply elem_of_nil in Ho]. apply elem_of_handle in Ho as [Hh ->]. by exists b.
  - destruct o as [i k|i]; cbn [owns].
    + intros (b & x & Hi & Hk & Hh). exists i, b. split; [done|]. apply elem_of_app. left. apply elem_of_imaps.
      exists k, (Some x). split; [done|]. by apply elem_of_handle.
    + intros (b & Hi & Hu & Hh). exists i, b. split; [done|]. apply elem_of_app. right. rewrite Hu. by apply elem_of_handle.
Qed.

(** The ledger of consistent tables: it knows the one owner of each handle. *)
Lemma ledger_owns d h o : wf d -> ledger d !! h = Some o <-> owns d o h.
Proof.
  intros Hwf. rewrite <- elem_of_ledger. split; [apply elem_of_list_to_map_2|]. intros Ho. apply elem_of_list_to_map_1'; [|done].
  intros o' Ho'. apply elem_of_ledger in Ho, Ho'. exact (owner_unique d o o' h Hwf Ho Ho').
Qed.

Lemma ledger_marked d h : wf d -> is_Some (ledger d !! h) <-> marked (available_slot_handle (platform d)) h = 1%nat.
Proof.
  intros Hwf. split.
  - intros [o Ho%ledger_owns]; [|done]. by eapply owns_marked.
  - intros (o & Ho)%marked_owned; [|done]. exists o. by apply ledger_owns.
Qed.
Lemma ledger_unmarked d h : wf d -> ledger d !! h = None <-> marked (available_slot_handle (platform d)) h = 0%nat.
Proof.
  intros Hwf. rewrite eq_None_not_Some, ledger_marked by done. pose proof (marked_le (available_slot_handle (platform d)) h). lia.
Qed.

(** ** Tracing owners back *)

(** Whoever owns a handle afterwards owned it before, or it was free. *)
Definition traces (d d' : daemon) : Prop :=
  forall o h, owns d' o h -> owns d o h \/ marked (available_slot_handle (platform d)) h = 0%nat.

(** No handle gets a new owner. *)
Definition no_new (d d' : daemon) : Prop := forall o h, owns d' o h -> owns d o h.

(** No handle that is out is given back, or gets a new owner. *)
Record fresh_owners (d d' : daemon) : Prop := {
  fo_marks h : marked (available_slot_handle (platform d)) h = 1%nat -> marked (available_slot_handle (platform d')) h = 1%nat;
  fo_owners : traces d d';
}.

#[export] Instance no_new_preorder : PreOrder no_new.
Proof. split; [by intros d o h|]. intros d1 d2 d3 H1 H2 o h Ho. apply H1, H2, Ho. Qed.
#[export] Instance fresh_owners_preorder : PreOrder fresh_owners.
Proof.
  split; [intros d; split; [done|by left]|]. intros d1 d2 d3 [M1 T1] [M2 T2]. split; [auto|].
  intros o h [Ho|Hm]%T2; [by apply T1|right]. specialize (M1 h). pose proof (marked_le (available_slot_handle (platform d1)) h).
  destruct (decide (marked (available_slot_handle (platform d1)) h = 1%nat)) as [E|E]; [|lia]. rewrite (M1 E) in Hm. lia.
Qed.

Lemma no_new_traces d d' : no_new d d' -> traces d d'.
Proof. intros Hn o h Ho. left. by apply Hn. Qed.
Lemma no_new_fresh d d' :
  no_new d d' -> available_slot_handle (platform d') = available_slot_handle (platform d) -> fresh_owners d d'.
Proof. intros Hn Ht. split; [by rewrite Ht|by apply no_new_traces]. Qed.

Definition place_of (o : owner) : option nat := match o with OSlot _ k => Some k | OUser _ => None end.
Lemma owns_at d o h :
  owns d o h <-> exists b, base_designs d !! entry_of o = Some b /\ holds_at b (place_of o) (Z.of_nat h).
Proof.
  destruct o as [i k|i]; cbn; [|done]. split.
  - intros (b & x & Hi & Hx). by exists b; split; [|exists x].
  - intros (b & Hi & x & Hx). by exists b, x.
Qed.

(** Entry by entry: nothing is held that was not held there before. *)
Definition shrinks (d d' : daemon) : Prop :=
  forall i b', base_designs d' !! i = Some b' -> exists b, base_designs d !! i = Some b /\ sheds b b'.
#[export] Instance shrinks_preorder : PreOrder shrinks.
Proof.
  split; [intros d i b Hb; exists b; split; [done|by intros k h]|]. intros d1 d2 d3 H1 H2 i b3 (b2 & Hb2 & S2)%H2.
  destruct (H1 _ _ Hb2) as (b1 & Hb1 & S1). exists b1. split; [done|]. intros k h Hk. by apply S1, S2.
Qed.

Lemma no_new_entries d d' : shrinks d d' -> no_new d d'.
Proof. intros Hl o h (b' & Hb' & Ho)%owns_at. destruct (Hl _ _ Hb') as (b & Hb & Hs). apply owns_at. exists b. auto. Qed.

Lemma shrinks_base d i b b' :
  base_designs d !! i = Some b -> sheds b b' -> shrinks d (d <| base_designs := <[i := b']> (base_designs d) |>).
Proof.
  intros Hi Hs j c Hj. simpl in Hj.
  apply list_lookup_insert_Some in Hj as [(<- & <- & _)|(_ & Hj)]; [by exists b|].
  exists c. split; [done|by intros k h].
Qed.
Lemma no_new_base d i b b' :
  base_designs d !! i = Some b -> sheds b b' -> no_new d (d <| base_designs := <[i := b']> (base_designs d) |>).
Proof. intros. eapply no_new_entries, shrinks_base; eassumption. Qed.

Lemma shape_sheds b b' : same_shape b b' -> sheds b b'.
Proof. intros Hs. apply sheds_same; apply Hs. Qed.
Lemma shrinks_stamp d : shrinks d (assign_list_ids d).
Proof.
  destruct (stamp_bases_spec 1 (base_designs d)) as (_ & _ & _ & HF). intros i b' Hi.
  destruct (Forall2_lookup_r _ _ _ _ _ HF Hi) as (b & Hb & Hs). exists b. split; [done|by apply shape_sheds].
Qed.
Lemma no_new_stamp d : no_new d (assign_list_ids d).
Proof. apply no_new_entries, shrinks_stamp. Qed.

Lemma shrinks_same d d' : base_designs d' = base_designs d -> shrinks d d'.
Proof. intros E i b. rewrite E. intros Hb. exists b. split; [done|by intros k h]. Qed.
#[local] Instance shrinks_books : Bookkeeping shrinks.
Proof. split; [typeclasses eauto|exact shrinks_base|by intros; apply shrinks_same..|exact shrinks_stamp|by intros; apply shrinks_same]. Qed.
#[export] Instance shrinks_releases : Releasing shrinks.
Proof. split; [typeclasses eauto|by intros; apply shrinks_same]. Qed.

#[local] Instance no_new_books : Bookkeeping no_new.
Proof. split; [typeclasses eauto|exact no_new_base|by intros d v o h..|exact no_new_stamp|by intros d v o h]. Qed.
#[export] Instance no_new_releases : Releasing no_new.
Proof. split; [typeclasses eauto|by intros d n o h]. Qed.

#[local] Instance fresh_owners_books : Bookkeeping fresh_owners.
Proof.
  split; [typeclasses eauto|..]; intros; apply no_new_fresh;
    first [done|by eapply no_new_base|apply no_new_stamp|by intros ? ?].
Qed.
#[export] Instance fresh_owners_takes : Taking fresh_owners.
Proof.
  split; [typeclasses eauto|]. intros d i b b' h t' Hi Ht Hb. destruct (take_handle_spec _ _ _ Ht) as (_ & _ & Hm & _).
  split.
  - intros n Hn. simpl. pose proof (marked_le t' n). rewrite (Hm n) in *. lia.
  - intros o n (c & Hc & Ho)%owns_at. simpl in Hc. apply list_lookup_insert_Some in Hc as [(Hi' & <- & _)|(_ & Hc)].
    + apply Hb in Ho as [Ho| <-]; [left; apply owns_at; exists b; by rewrite <- Hi'|right].
      pose proof (marked_le t' n) as Hle. rewrite (Hm n), Z.eqb_refl in Hle. lia.
    + left. apply owns_at. by exists c.
Qed.

(** The walk of the directories and the events leave everybody what they own. *)
Lemma scan_no_new d0 due d : scan d0 due d -> no_new d0 d.
Proof.
  intros Hs. apply no_new_entries. intros i b' Hi. destruct (Forall2_lookup_r _ _ _ _ _ (sc_from _ Hs) Hi) as (b & Hb & He & _).
  exists b. split; [done|]. injection He as H1 _ H2 _ H3. by apply sheds_same.
Qed.
Lemma settled_no_new d0 d : settled d0 d -> no_new d0 d.
Proof. intros [due Hs]. by eapply scan_no_new. Qed.
Lemma traces_after d0 d d' : no_new d0 d -> platform d = platform d0 -> traces d d' -> traces d0 d'.
Proof. intros Hn Hp Ht o h [Ho|Hm]%Ht; [left; by apply Hn|right; by rewrite <- Hp]. Qed.

(** ** Steps of the ledger *)

Section Steps.
Context (d d' : daemon) (Hwf : wf d) (Hwf' : wf d') (Htr : traces d d').
Abbreviation t := (available_slot_handle (platform d)).
Abbreviation t' := (available_slot_handle (platform d')).

Lemma ledger_kept h : marked t h = 1%nat -> marked t' h = 1%nat -> ledger d' !! h = ledger d !! h.
Proof.
  intros Hm (o & Ho)%marked_owned; [|done]. rewrite (proj2 (ledger_owns _ _ _ Hwf') Ho). symmetry.
  apply ledger_owns; [done|]. apply Htr in Ho as [Ho|Ho]; [done|lia].
Qed.
Lemma ledger_out h : marked t h = 0%nat -> marked t' h = 0%nat -> ledger d' !! h = ledger d !! h.
Proof. intros Hm Hm'. rewrite (proj2 (ledger_unmarked _ _ Hwf') Hm'). symmetry. by apply ledger_unmarked. Qed.
Lemma ledger_same h : marked t' h = marked t h -> ledger d' !! h = ledger d !! h.
Proof.
  intros Hm. pose proof (marked_le t h). destruct (decide (marked t h = 1%nat)); [apply ledger_kept|apply ledger_out]; lia.
Qed.

Lemma ledger_keep : same_handles d d' -> ledger d' = ledger d.
Proof. intros Ht. apply map_eq. intros h. apply ledger_same. by rewrite Ht. Qed.

Lemma ledger_take r :
  take_handle t = (r, t') ->
  (exists h, r = Z.of_nat h /\ forall o, owns d' o h -> alloc_step (ledger d) (Take h o) (ledger d')) \/
  (r = -1 /\ ledger d' = ledger d).
Proof.
  intros Ht. destruct (take_handle_spec _ _ _ Ht) as (_ & Hr & Hm & _). unfold take_handle in Ht.
  destruct (find_index _ t) as [h|] eqn:E; injection Ht as Hr' Ht'; subst r; [left|right; split; [done|by apply ledger_keep]].
  exists h. split; [done|]. intros o Ho. apply find_index_Some in E as (v & Hv & ->%Z.eqb_eq & Hlt).
  assert (Hno : ledger d !! h = None) by (apply ledger_unmarked; [done|]; unfold marked; by rewrite Hv).
  replace (ledger d') with (<[h := o]> (ledger d)).
  - constructor; [apply lookup_lt_Some in Hv; rewrite <- (wf_table _ _ _ _ Hwf); exact Hv|done|].
    intros k Hk. apply ledger_marked; [done|]. unfold marked.
    destruct (lookup_lt_is_Some_2 t k) as [x Hx]; [apply lookup_lt_Some in Hv; lia|].
    rewrite Hx. by rewrite (Hlt k x Hk Hx).
  - apply map_eq. intros k. destruct (decide (k = h)) as [->|Hne].
    + rewrite lookup_insert_eq. symmetry. by apply ledger_owns.
    + rewrite lookup_insert_ne by done. symmetry. apply ledger_same. rewrite (Hm k).
      destruct (Z.eqb_spec (Z.of_nat h) (Z.of_nat k)); lia.
Qed.

Lemma ledger_free n : marked t n = 1%nat -> t' = <[n := 0]> t -> ledger d' = delete n (ledger d).
Proof.
  intros Hm Ht. pose proof (marked_lt _ _ Hm) as Hlt. apply map_eq. intros k. destruct (decide (k = n)) as [->|Hne].
  - rewrite lookup_delete_eq. apply ledger_unmarked; [done|]. rewrite Ht, release_marked by done. by rewrite decide_True.
  - rewrite lookup_delete_ne by done. apply ledger_same. rewrite Ht, release_marked by done. by rewrite decide_False.
Qed.
Lemma ledger_frees n : frees d d' (Z.of_nat n) -> ledger d' = delete n (ledger d).
Proof. intros (k & Hk & Hm & Ht). assert (k = n) as -> by lia. by apply ledger_free. Qed.
End Steps.

(** Tables whose owners are all still there have the same ledger. *)
Lemma seen_ledger d d' : wf d -> seen d d' -> ledger d' = ledger d.
Proof.
  intros Hwf [[[Hwf' _] Ht] Ho]. apply ledger_keep; [done..| |exact Ht]. intros o h Ho'.
  pose proof (owns_marked _ _ _ Hwf' Ho') as Hm. unfold same_handles in Ht. rewrite Ht in Hm.
  destruct (marked_owned d h Hwf Hm) as [o' Hd]. left. by rewrite (owner_unique d' o o' h Hwf' Ho' (Ho _ _ Hd)).
Qed.

Lemma take_free_ledger L h o L' : alloc_step L (Take h o) L' -> delete h L' = L.
Proof. inversion 1; subst. by apply delete_insert_id. Qed.

(** A load of [name] from base [i] that returned [r]: one handle for one slot of
    the base, or an error. *)
Definition loaded_into (d : daemon) (i : nat) (name : string) (r : Z) (d' : daemon) : Prop :=
  (exists h k b x, r = Z.of_nat h /\ alloc_step (ledger d) (Take h (OSlot i k)) (ledger d') /\
     base_designs d' !! i = Some b /\ slot_list b !! k = Some (Some x) /\ slot_handle x = r /\
     s_name x = trunc ACCEL_NAME_MAX name) \/
  (is_error r /\ ledger d' = ledger d).

Lemma load_post_into d i name r d' : wf d -> load_post d i name r d' -> traces d d' -> loaded_into d i name r d'.
Proof.
  intros Hwf [Hwf' [[Ht (b & k & x & Hi & Hx & Hn & Hh)]|[Hr Ht]]] Htr.
  - destruct (ledger_take d d' Hwf Hwf' Htr r Ht) as [(h & -> & Hst)|[-> Hk]]; [left|by right].
    exists h, k, b, x. split_and!; try done. apply Hst. by exists b, x.
  - right. split; [done|]. by apply ledger_keep.
Qed.

(** ** Requests *)

Section Requests.
Context {W : Type} `{Env W}.
Implicit Types (s : sys W).

Lemma fresh_traces {A} (m : M (sys W) A) s :
  within fresh_owners m -> wp any_fault m (fun _ s' => traces (dm s) (dm s')) s.
Proof. intros Hm. eapply wp_mono; [apply Hm|]. by intros a s' [_ ?]. Qed.
Lemma no_new_run {A} (m : M (sys W) A) s :
  within no_new m -> wp any_fault m (fun _ s' => traces (dm s) (dm s')) s.
Proof. intros Hm. eapply wp_mono; [apply Hm|]. intros a s'. apply no_new_traces. Qed.

Lemma within_found i n cma : within fresh_owners (serve_found i n cma).
Proof. unfold serve_found. within_go. Qed.
Lemma within_lookup (R : relation daemon) `{!PreOrder R} d name : within (W := W) R (found_none d name).
Proof. unfold found_none. within_go. Qed.
#[local] Hint Resolve within_found within_lookup : within.

Lemma packages_traces flag s : wf (dm s) -> wp any_fault (list_packages flag) (fun _ s' => traces (dm s) (dm s')) s.
Proof.
  intros Hwf. apply wp_bind, wp_modd, wp_bind, wp_modd, wp_bind. eapply wp_weaken; [done|].
  eapply wp_mono; [apply render_listing_wp; exact (assign_list_ids_wf _ Hwf)|]. intros t s' Hd. apply wp_ret. rewrite Hd.
  apply no_new_traces. intros o h Ho. by apply no_new_stamp.
Qed.

(** Unloading what a slot owns. *)
Lemma unload_owned_ledger i k h s :
  wf (dm s) -> owns (dm s) (OSlot i k) h ->
  wp lib_fault (unload_accelerator (Z.of_nat h))
     (fun _ s' => wf (dm s') /\ frees (dm s) (dm s') (Z.of_nat h) /\ ledger (dm s') = delete h (ledger (dm s))) s.
Proof.
  intros Hwf Ho. eapply wp_mono; [apply (wp_within no_new); [auto with within|by eapply unload_owned_wp]|].
  intros r s' [[Hwf' Hf] Hn]. split; [done|]. split; [done|]. by apply ledger_frees, Hf; [..|apply no_new_traces].
Qed.

(** What is served after the walk. *)
Lemma walked_traces r m s : wf (dm s) -> wp any_fault (serve_walked r m) (fun _ s' => traces (dm s) (dm s')) s.
Proof.
  intros Hwf. destruct r; cbn [serve_walked handle_request]; try (by apply packages_traces).
  all: first [apply fresh_traces; by within_go|apply no_new_run; by within_go].
Qed.

(** A request, with the walk that it may begin with. *)
Lemma request_traces msg s :
  wf (dm s) -> quiet_walk s msg -> wp any_fault (process_dfx_req msg) (fun _ s' => traces (dm s) (dm s')) s.
Proof.
  intros Hwf Hq. unfold process_dfx_req. destruct (request_of (msg_id msg)) as [r|] eqn:Er; [|by apply wp_ret; left].
  destruct (walks r) eqn:Ew.
  2: { pose proof (walked_traces r msg s Hwf) as Hs. by destruct r. }
  eapply wp_same_op; [by apply walks_first|]. apply wp_bind, wp_getd. destruct (firmware_rescan_pending (dm s)) eqn:Ep.
  2: { apply wp_bind, wp_ret. by apply walked_traces. }
  destruct (rescan s) as [[] s1|f] eqn:E; [|by apply any_fault_first; exists f].
  unfold wp, bind. rewrite E. pose proof (wp_returns _ _ _ _ _ _ (rescan_scan s Hwf) E) as Hs.
  change (wp any_fault (serve_walked r msg) (fun _ s' => traces (dm s) (dm s')) s1).
  assert (Hwf1 : wf (dm s1)) by exact (scan_wf _ Hs (Hq r s1 Er Ew Ep E)).
  eapply wp_mono; [exact (walked_traces r msg s1 Hwf1)|]. intros x s' Ht.
  apply (traces_after _ (dm s1)); [exact (scan_no_new _ _ _ Hs)|apply Hs|exact Ht].
Qed.
End Requests.
