(* ===== verification/InFlight.v ===== *)
(** * Events while a request is served

    The steps of a request ([Threads]) with events, and changes of the world,
    between any two of them.  The tables that the walk and the events leave are
    those of [EventsSafe], whatever the order; the load, or the listing, starts
    from well-formed tables if the bases that had slots when the request came have
    kept their shape, even if the package that was looked up is gone by then. *)
From S2P Require Import Prelude CStr Env Model UserLoad Json Accel Rpu Pdi Slots Invariant ListIds TablesWp.
From S2P Require Import ListIdFacts Load LoadSafe Registry Eeprom Events Listing ListingSafe Proto Frame RequestSafe StartSafe EventsSafe.
From S2P Require Import Threads Handles Owners.
Open Scope Z_scope.
Open Scope dfx_scope.

Section InFlight.
Context {W : Type} `{Env W}.
Implicit Types (s : sys W).

(** The step reads or changes what is loaded. *)
Definition serves (p : phase) : bool := match p with Walked | Found _ _ _ => true | _ => false end.

(** Request [r] came in state [s0]; now the main thread is at [p]. *)
Inductive in_flight (r : dfx_mgr_request) (m : message) s0 : phase -> sys W -> Prop :=
  | fly_begin : in_flight r m s0 Begin s0
  | fly_main p p' s s' :
      in_flight r m s0 p s -> answered p = false -> (serves p = true -> calm (dm s0) (dm s) = true) ->
      main_step r m p s = Ret p' s' -> in_flight r m s0 p' s'
  | fly_event p e go s s' :
      in_flight r m s0 p s -> answered p = false -> tracked (dm s) e = true -> handle_event e s = Ret go s' ->
      in_flight r m s0 p s'
  | fly_world p h s : in_flight r m s0 p s -> in_flight r m s0 p (Sys (dm s) h).

(** What holds at each phase of a request that came with the tables [d0]. *)
Definition flight_inv (r : dfx_mgr_request) (d0 : daemon) (p : phase) (d : daemon) : Prop :=
  match p with
  | Replied reply => exists d1, platform d1 = platform d0 /\ served r d1 reply d
  | Found i _ _ => settled d0 d /\ loads r = true /\ (i < MAX_WATCH)%nat
  | _ => settled d0 d
  end.

(** A load into any entry, even one that was freed since it was looked up. *)
Lemma load_any_wp i name cma fs sz s :
  wf (dm s) -> (i < MAX_WATCH)%nat ->
  wp lib_fault (load_accelerator_core i name cma fs sz) (fun r s' => load_post (dm s) i name r.1 (dm s')) s.
Proof.
  intros Hwf Hlt. rewrite <- (wf_len _ _ _ _ Hwf) in Hlt. destruct (lookup_lt_is_Some_2 _ _ Hlt) as [b Hi].
  destruct (in_use b) eqn:Huse; [by apply (load_core_wp i b)|].
  assert (Hp : base_path b = ""%string) by (apply negb_false_iff, streq_true in Huse; exact Huse).
  destruct (ew_free b (wf_entry _ _ _ _ Hwf i b Hi) Hp) as (_ & Hty & _ & _).
  apply wp_bind, wp_env; [by auto with tame|]. intros slot w. apply wp_bind. eapply wp_getb; [done|].
  apply wp_bind, wp_getd. rewrite Hty. destruct (_ && _); [by apply wp_ret, refuse|].
  destruct (accel_in_base b name); by apply wp_ret, refuse.
Qed.

Lemma visit_wp d0 due t s :
  scan_state d0 due s -> wp lib_fault (visit t) (fun _ s' => scan_state d0 due s') s.
Proof.
  intros HI. destruct t as [fwdir|depth cpath e]; cbn [visit].
  - apply wp_bind. eapply wp_scan_env; [auto with tame|exact HI|]. intros [l|] s2 HI2; [|by apply wp_ret].
    apply wp_bind. eapply wp_scan_same; [apply add_dir_watch_wp|exact HI2|]. intros ok s3 HI3. by apply wp_ret.
  - apply (dir_entry_wp [] (fun n => n ;; ret []) (fun d dir l => ret (map (Below d dir) l)) depth); [done| |].
    + intros n s' Hn. by apply wp_then.
    + intros d dir l s' _ HI'. by apply wp_ret.
Qed.

Lemma packages_served r flag s :
  wf (dm s) -> wp lib_fault (list_packages flag) (fun reply s' => served r (dm s) reply (dm s')) s.
Proof.
  intros Hwf. apply wp_bind, wp_modd, wp_bind, wp_modd, wp_bind. pose proof (assign_list_ids_wf _ Hwf) as Hwf'.
  eapply wp_mono; [apply render_listing_wp; exact Hwf'|]. intros t s' Hd. apply wp_ret. rewrite Hd.
  split; [by split|by left].
Qed.

Lemma core_served r i name cma fs sz s :
  wf (dm s) -> loads r = true -> (i < MAX_WATCH)%nat ->
  wp lib_fault (let! rv := load_accelerator_core i name cma fs sz in load_reply false rv)
     (fun reply s' => served r (dm s) reply (dm s')) s.
Proof.
  intros Hwf Hl Hlt. apply (serve_load r false _ id); [done|].
  eapply wp_mono; [apply wp_kept; [auto with within|by apply load_any_wp]|].
  intros rv s' [Hpost Hp']. by eapply load_post_loaded.
Qed.

Lemma none_served r d name s :
  wf (dm s) -> loads r = true ->
  wp lib_fault (let! rv := found_none d name in load_reply false rv) (fun reply s' => served r (dm s) reply (dm s')) s.
Proof.
  intros Hwf Hl. apply (serve_load r false _ id); [done|]. apply wp_bind, wp_guard; [|by split].
  intros _. by apply wp_ret, loaded_refl.
Qed.

(** The step answers, and the request is served. *)
Lemma answer_served r d0 (k : M (sys W) (option message)) s :
  platform (dm s) = platform d0 -> wp lib_fault k (fun reply s' => served r (dm s) reply (dm s')) s ->
  wp lib_fault (let! x := k in ret (Replied x)) (fun p' s' => flight_inv r d0 p' (dm s')) s.
Proof. intros Hd Hk. apply wp_bind. eapply wp_mono; [exact Hk|]. intros x s' Hs. apply wp_ret. by exists (dm s). Qed.

(** The lookup, and where it leads. *)
Lemma lookup_keeps r m d0 s :
  wf (dm s) -> settled d0 (dm s) -> loads r = true ->
  wp lib_fault (let '(name, cma) := load_args (msg_data m) in
     let! d := getd in
     match lookup_name d name with
     | Some (i, n) => ret (Found i n cma)
     | None => let! rv := found_none d name in let! x := load_reply false rv in ret (Replied x)
     end) (fun p' s' => flight_inv r d0 p' (dm s')) s.
Proof.
  intros Hwf Hs Hl. destruct (load_args _) as [name cma]. apply wp_bind, wp_getd.
  destruct (lookup_name (dm s) name) as [[i n]|] eqn:Ei.
  - apply wp_ret. split; [done|]. split; [done|]. destruct name as [name|]; [|done]. cbn [lookup_name] in Ei.
    destruct (findBaseDesign (dm s) name) as [j|] eqn:Ef; [|done]. injection Ei as -> _.
    apply find_index_lookup in Ef as (b & Hi & _). rewrite <- (wf_len _ _ _ _ Hwf). by eapply lookup_lt_Some.
  - eapply wp_same_op; [symmetry; exact (bind_assoc (found_none (dm s) name) (load_reply false) (fun x => ret (Replied x)))|]. apply answer_served; [|by apply none_served].
    destruct Hs as [due Hs]. apply Hs.
Qed.

(** A step keeps what holds of the request. *)
Lemma step_keeps r m d0 p s :
  flight_inv r d0 p (dm s) -> answered p = false -> (serves p = true -> calm d0 (dm s) = true) ->
  wp lib_fault (main_step r m p) (fun p' s' => flight_inv r d0 p' (dm s')) s.
Proof.
  assert (Hready : settled d0 (dm s) -> calm d0 (dm s) = true -> wf (dm s) /\ platform (dm s) = platform d0).
  { intros [due Hs] Hc. split; [by apply (scan_wf _ Hs)|apply Hs]. }
  destruct p as [|[|t l]| |i n cma|x]; cbn [flight_inv main_step serves]; intros Hp Ha Hc; [| | | | |done].
  - apply wp_bind, wp_getd. destruct (_ && _); [|by apply wp_ret]. apply wp_bind, wp_modd, wp_bind, wp_getd, wp_ret.
    destruct Hp as [due [? ? ? ? ? ? ?]]. by exists false.
  - by apply wp_ret.
  - destruct Hp as [due HI]. apply wp_bind. eapply wp_mono; [by apply (visit_wp d0 due)|].
    intros ts s' HI'. apply wp_ret. by exists due.
  - destruct (Hready Hp (Hc eq_refl)) as [Hwf Hpl].
    assert (Hother : walks r = false -> wp lib_fault (let! x := handle_request r m in ret (Replied x))
                       (fun p' s' => flight_inv r d0 p' (dm s')) s).
    { intros Hw. apply answer_served; [done|]. apply handle_request_served; congruence. }
    destruct r; try (by apply Hother); [by apply lookup_keeps| |by apply lookup_keeps].
    by apply answer_served, packages_served.
  - destruct Hp as (Hs & Hl & Hlt). destruct (Hready Hs (Hc eq_refl)) as [Hwf Hpl].
    eapply wp_same_op; [symmetry; exact (bind_assoc _ (load_reply false) (fun x => ret (Replied x)))|]. by apply answer_served, core_served.
Qed.

Lemma event_keeps r d0 p e s :
  flight_inv r d0 p (dm s) -> answered p = false -> tracked (dm s) e = true ->
  wp lib_fault (handle_event e) (fun _ s' => flight_inv r d0 p (dm s')) s.
Proof.
  intros Hp Ha Ht. assert (Hs : settled d0 (dm s)) by (destruct p; [exact Hp..|exact (proj1 Hp)|done]).
  eapply wp_mono; [by apply (handle_event_wp (d0 := d0))|]. intros go s' Hs'. destruct p; try done. exact (conj Hs' (proj2 Hp)).
Qed.

(** Whatever came between its steps, a request in flight is in order. *)
Lemma in_flight_inv r m s0 p s : wf (dm s0) -> in_flight r m s0 p s -> flight_inv r (dm s0) p (dm s).
Proof.
  intros Hwf. induction 1 as [|p p' s s' _ IH Ha Hc E|p e go s s' _ IH Ha Ht E|p h s _ IH].
  - exists (firmware_rescan_pending (dm s0)). by apply scan_refl.
  - exact (wp_returns _ _ _ _ _ _ (step_keeps r m (dm s0) p s IH Ha Hc) E).
  - exact (wp_returns _ _ _ _ _ _ (event_keeps r (dm s0) p e s IH Ha Ht) E).
  - by destruct p.
Qed.

(** ** Owners *)

#[local] Hint Resolve within_found within_lookup : within.

Lemma serving_traces r m p s :
  wf (dm s) -> serves p = true -> wp any_fault (main_step r m p) (fun _ s' => traces (dm s) (dm s')) s.
Proof.
  intros Hwf. destruct p as [|l| |i n cma|x]; try done; intros _; cbn [main_step].
  - destruct r; cbn [handle_request]; try (by apply wp_bind, wp_mono with (1 := packages_traces _ _ Hwf)).
    all: first [apply fresh_traces; by within_go|apply no_new_run; by within_go].
  - apply fresh_traces. within_go.
Qed.

Lemma walking_goes_on r m p s :
  serves p = false -> answered p = false -> wp any_fault (main_step r m p) (fun p' _ => answered p' = false) s.
Proof.
  destruct p as [|[|t l]| |i n cma|x]; try done; intros _ _; cbn [main_step].
  - apply wp_any_bind. intros d s1. destruct (_ && _); [|by apply wp_ret]. apply wp_any_bind. intros [] s2.
    apply wp_any_bind. intros d' s3. by apply wp_ret.
  - apply wp_any_bind. intros ts s1. by apply wp_ret.
Qed.

(** Whoever owns a handle owned it when the request came, or it was free then. *)
Lemma in_flight_traces r m s0 p s : wf (dm s0) -> in_flight r m s0 p s -> traces (dm s0) (dm s).
Proof.
  intros Hwf Hf.
  assert (Hset : forall q s1, in_flight r m s0 q s1 -> answered q = false -> settled (dm s0) (dm s1)).
  { intros q s1 Hq Hqa. pose proof (in_flight_inv r m s0 q s1 Hwf Hq). by destruct q; [..|apply H0|]. }
  destruct (answered p) eqn:Ea; [|by apply no_new_traces, settled_no_new, (Hset p)].
  induction Hf as [|p p' s s' Hp IH Hpa Hc E|p e go s s' Hp IH Hpa Ht E|p h s Hp IH]; [done| |congruence|by apply IH].
  pose proof (Hset p s Hp Hpa) as Hs. destruct (serves p) eqn:Es.
  - destruct Hs as [due Hs]. apply (traces_after _ (dm s)); [exact (scan_no_new _ _ _ Hs)|apply Hs|].
    exact (wp_returns _ _ _ _ _ _ (serving_traces r m p s (scan_wf _ Hs (Hc eq_refl)) Es) E).
  - pose proof (wp_returns _ _ _ _ _ _ (walking_goes_on r m p s Es Hpa) E). simpl in *. congruence.
Qed.

(** A schedule, run: [None] is a step of the main thread, [Some e] an event. *)
Fixpoint scheduled (r : dfx_mgr_request) (m : message) (d0 : daemon) (l : list (option inotify_event)) (p : phase) s :
    option (phase * sys W) :=
  match l with
  | [] => Some (p, s)
  | o :: l =>
      if answered p then None
      else
        match o with
        | None =>
            if serves p && negb (calm d0 (dm s)) then None
            else match main_step r m p s with Ret p' s' => scheduled r m d0 l p' s' | Fault _ => None end
        | Some e =>
            if tracked (dm s) e then
              match handle_event e s with Ret _ s' => scheduled r m d0 l p s' | Fault _ => None end
            else None
        end
  end.

Lemma scheduled_in_flight r m s0 l : forall p s p' s',
  in_flight r m s0 p s -> scheduled r m (dm s0) l p s = Some (p', s') -> in_flight r m s0 p' s'.
Proof.
  induction l as [|o l IH]; intros p s p' s' Hp E; cbn [scheduled] in E; [by injection E as <- <-|].
  destruct (answered p) eqn:Ha; [done|]. destruct o as [e|].
  - destruct (tracked (dm s) e) eqn:Et; [|done]. destruct (handle_event e s) as [go s1|] eqn:Ee; [|done].
    eapply IH; [|exact E]. by eapply fly_event.
  - destruct (serves p && negb (calm (dm s0) (dm s))) eqn:Ec; [done|].
    destruct (main_step r m p s) as [p1 s1|] eqn:Es; [|done]. eapply IH; [|exact E]. eapply fly_main; [done..| |exact Es].
    intros Hs. rewrite Hs in Ec. by apply negb_false_iff.
Qed.
End InFlight.
