(* ===== verification/Returns.v ===== *)
(** * Operations that return

    The daemon's own bookkeeping, the file system calls and the sysfs path of a
    user load have no fault of their own: they are [quiet].  Together with the
    Hoare triples of the components, which exclude the accesses outside the
    tables, they return from every state that satisfies the invariant.  Loading is
    quiet except where it reads shell.json. *)
From S2P Require Import Prelude CStr Env Model UserLoad Json Accel Rpu Pdi Slots Invariant ListIds TablesWp.
From S2P Require Import ListIdFacts Load LoadSafe Unload UnloadSafe UserSafe Handles.
Open Scope Z_scope.
Open Scope dfx_scope.

Section Returns.
Context {W : Type} `{Env W}.
Implicit Types (s : sys W).

(** ** Quiet operations *)

Lemma quiet_getd : quiet (getd (W := W)).
Proof. done. Qed.
Lemma quiet_gp {A} (f : platform_info -> A) : quiet (gp (W := W) f).
Proof. done. Qed.
Lemma quiet_modd f : quiet (modd (W := W) f).
Proof. done. Qed.
Lemma quiet_modp f : quiet (modp (W := W) f).
Proof. done. Qed.
#[local] Hint Resolve quiet_getd quiet_gp quiet_modd quiet_modp : tame.

Lemma quiet_get_base i : quiet (get_base (W := W) i).
Proof. unfold get_base. tame_go. Qed.
Lemma quiet_set_base i b : quiet (set_base (W := W) i b).
Proof. apply quiet_modd. Qed.
#[local] Hint Resolve quiet_get_base quiet_set_base : tame.
Lemma quiet_mod_base i f : quiet (mod_base (W := W) i f).
Proof. unfold mod_base. tame_go. Qed.
Lemma quiet_get_slot i k : quiet (get_slot (W := W) i k).
Proof. unfold get_slot. tame_go. Qed.
Lemma quiet_set_slot i k x : quiet (set_slot (W := W) i k x).
Proof. unfold set_slot. tame_go. Qed.
Lemma quiet_release_handle h : quiet (release_handle (W := W) h).
Proof. unfold release_handle. tame_go. Qed.
Lemma quiet_free_handle : quiet (get_free_slot_handle (W := W)).
Proof. unfold get_free_slot_handle. tame_go. Qed.
#[local] Hint Resolve quiet_mod_base quiet_get_slot quiet_set_slot quiet_release_handle quiet_free_handle : tame.
Lemma quiet_add_active o n : quiet (add_active (W := W) o n).
Proof. unfold add_active. tame_go. Qed.
Lemma quiet_env {A} (m : M W A) : quiet m -> quiet (env m).
Proof. intros Hm. by apply always_in_hw, always_in_world. Qed.
Ltac quiet_go := repeat first [ solve [auto with tame nocore] | apply quiet_env | tame_step ].

Lemma quiet_mark_dirty : quiet (mark_pkg_listing_dirty (W := W)).
Proof. unfold mark_pkg_listing_dirty. tame_go. Qed.
#[local] Hint Resolve quiet_add_active quiet_mark_dirty : tame.

(** An operation that always returns is quiet. *)
Lemma safe_quiet {A} (m : M W A) (Q : W -> A -> W -> Prop) : (forall w, safe m (Q w) w) -> quiet m.
Proof. intros Hm w. eapply wp_mono; [apply wp_safe, Hm|done]. Qed.

Lemma quiet_remove_overlay dir : quiet (remove_overlay_dir (W := W) dir).
Proof. unfold remove_overlay_dir. tame_go. Qed.
Lemma quiet_remove_base id : quiet (remove_base (W := W) id).
Proof. unfold remove_base, sys_remove_base. tame_go. Qed.
Lemma quiet_bitstream b o r fl k st sz : quiet (user_load_bitstream (W := W) b o r fl k st sz).
Proof. eapply safe_quiet. intros w. apply user_load_bitstream_outcome. Qed.
#[local] Hint Resolve quiet_remove_overlay quiet_remove_base quiet_bitstream : tame.

(** The command that stops an RPU fits its buffer. *)
Lemma rpu_command_fits k : (k < 510)%nat -> fits 1024 ("echo stop > " ++ remoteproc (Z.of_nat k) "state") = true.
Proof.
  intros Hk.
  assert (Hall : Forall (fun k => fits 1024 ("echo stop > " ++ remoteproc (Z.of_nat k) "state") = true) (seq 0 510))
    by (apply (bool_decide_unpack _); vm_compute; reflexivity).
  rewrite Forall_forall in Hall. apply Hall, elem_of_seq. lia.
Qed.
Lemma quiet_remove_rpu k : (k < 510)%nat -> quiet (remove_rpu (W := W) (Z.of_nat k)).
Proof.
  intros Hk w. unfold remove_rpu, sprintf_into. rewrite rpu_command_fits by done.
  apply wp_bind, wp_ret, wp_bind, wp_act. by apply wp_ret.
Qed.

(** ** Unloading *)

Lemma quiet_user_unload_overlay region : quiet (user_unload_overlay (W := W) region).
Proof. unfold user_unload_overlay. quiet_go. Qed.
#[local] Hint Resolve quiet_user_unload_overlay : tame.
Lemma quiet_user_unload h : quiet (user_unload (W := W) h).
Proof. unfold user_unload. quiet_go. Qed.
Lemma quiet_unload_accel_base : quiet (unload_accel_base (W := W)).
Proof. unfold unload_accel_base. quiet_go. Qed.
Lemma quiet_find_slot i h : quiet (find_slot_from_handle (W := W) i h).
Proof. unfold find_slot_from_handle. quiet_go. Qed.
Lemma quiet_unload_rpu_slot i k h : (k < 510)%nat -> quiet (unload_rpu_slot (W := W) i k h).
Proof. intros Hk. pose proof (quiet_remove_rpu k Hk). unfold unload_rpu_slot. quiet_go. Qed.

(** Unloading a PL slot that holds a plain accelerator is quiet. *)
Definition plain_slot (x : slot_info) : Prop := forall a, s_accel x = Some a -> plain a /\ pkg a <> None.

Lemma unload_pl_slot_faults i k h s :
  (forall b l x, bases s !! i = Some b -> slots b = Some l -> l !! k = Some (Some x) -> plain_slot x) ->
  wp core_fault (unload_pl_slot i k h) (fun _ _ => True) s.
Proof.
  intros Hx. assert (Hq : forall A (m : M (sys W) A) s', quiet m -> wp core_fault m (fun _ _ => True) s') by auto.
  apply (wp_seq _ (fun o _ => match o with Some x => plain_slot x | None => True end)).
  { unfold get_slot. apply wp_bind, wp_bind, wp_the; [|by right]. intros b Hb. apply wp_bind, wp_the; [|by left].
    intros l Hl. apply wp_the; [|by right]. intros [x|] Hk; [by eapply Hx|done]. }
  intros o s' Ho. apply wp_bind, wp_the; [|by left]. intros x ->. destruct (is_aie x); [apply Hq; quiet_go|].
  apply wp_bind, wp_the; [|by left]. intros a Ha. destruct (Ho a Ha) as [Hpl Hp].
  apply wp_bind, wp_the; [|by left]. intros p _. apply wp_bind, wp_gp.
  apply (wp_seq _ (fun _ _ => True)); [|intros r s1 _; apply Hq; quiet_go].
  destruct (use_user_load_path _); [apply Hq; quiet_go|].
  apply wp_bind, wp_in_hw, wp_safe. eapply wp_mono; [by apply remove_accel_plain|]. intros ra h' _. by apply wp_ret.
Qed.

(** So unloading what a slot holds always returns. *)
Lemma unload_owned_returns i k h Q s :
  wf (dm s) -> owns (dm s) (OSlot i k) h ->
  wp lib_fault (unload_accelerator (Z.of_nat h)) Q s -> safe (unload_accelerator (Z.of_nat h)) Q s.
Proof.
  intros Hwf Ho. unfold wp at 1 2. rewrite (unload_dispatch _ _ _ _ Hwf Ho).
  destruct Ho as (b & x & Hi & Hx & Hh). destruct (slot_list_lookup _ _ _ Hx) as (l & Hl & Hk).
  destruct (ew_slots b (wf_entry _ _ _ _ Hwf i b Hi) l Hl) as (_ & Hlen & Hok).
  destruct (decide (rpu_base s = Some i)) as [Er|Er]; intros Hw.
  - eapply quiet_safe; [|exact Hw]. apply quiet_unload_rpu_slot. apply lookup_lt_Some in Hk. lia.
  - destruct (slot_owner_active _ _ _ _ Hwf ltac:(by exists b, x)) as [Ha|Ha]; [|done].
    assert (Ht : b_type b <> "RPU"%string).
    { destruct (wf_role _ _ _ _ Hwf i b Hi) as (HA & _).
      destruct (HA (proj2 (points_to_true _ _) Ha)) as [(Hu & _)|(_ & Hty & _)]; [|by apply pl_type_not_rpu].
      destruct (ew_blank b (wf_entry _ _ _ _ Hwf i b Hi) Hu) as (_ & _ & Hs). unfold slot_list in Hx. by rewrite Hs in Hx. }
    assert (Hf : wp core_fault (unload_pl_slot i k (Z.of_nat h)) (fun _ _ => True) s).
    { apply unload_pl_slot_faults. intros c l' y Hc Hl' Hy a Ha'. simplify_eq.
      destruct (Hok _ (list_elem_of_lookup_2 _ _ _ Hk)) as (_ & _ & a' & Ea & Hpl & Hp). simplify_eq.
      split; [done|by apply Hp]. }
    revert Hw Hf. unfold wp, core_fault, lib_fault, no_fault.
    destruct (unload_pl_slot i k (Z.of_nat h) s) as [|f]; [done|]. by intros [? ?] [?|?].
Qed.

(** ** Loading

    Where it is not quiet, a load stops as the reader of shell.json does. *)

Definition load_fault (f : fault) : Prop := core_fault f \/ shell_fault (W := W) f.
Abbreviation cautious := (always load_fault).

Lemma quiet_cautious {S A} (m : M S A) : quiet m -> cautious m.
Proof. intros Hm s. eapply wp_weaken; [|apply Hm]. by left. Qed.
Ltac cautious_go := repeat first [ solve [auto with tame nocore] | solve [apply quiet_cautious; quiet_go] | tame_step ].

Lemma cautious_load_accel a sc :
  pkg a <> None /\ plain a /\ atype a <> "XRT_AIE_DFX"%string -> cautious (in_hw (load_accel a sc)).
Proof.
  intros (_ & Ha & Hty). apply always_in_hw. intros h. eapply wp_weaken; [|eapply wp_mono; [by apply load_accel_plain|done]].
  by right.
Qed.

Lemma quiet_from_dir d n p fs sz : quiet (user_load_from_dir (W := W) d n p fs sz).
Proof. unfold user_load_from_dir, find_bitstream_file, find_overlay_file, find_file_with_extensions. quiet_go. Qed.
Lemma quiet_update_env path : quiet (update_env (W := W) path).
Proof. unfold update_env. quiet_go. Qed.
Lemma quiet_load_rpu path n fw : quiet (load_rpu (W := W) path n fw).
Proof. unfold load_rpu, start_rpu_firmware. quiet_go. Qed.
Lemma quiet_alloc i : quiet (alloc_base_slots (W := W) i).
Proof. unfold alloc_base_slots. quiet_go. Qed.
Lemma quiet_assign i slot a name n : quiet (assign_slot (W := W) i slot a name n).
Proof. unfold assign_slot. quiet_go. Qed.
#[local] Hint Resolve quiet_from_dir quiet_update_env quiet_load_rpu quiet_alloc quiet_assign : tame.
Lemma quiet_finish_rpu i slot name n : quiet (finish_rpu (W := W) i slot name n).
Proof. unfold finish_rpu, finalize_rpu_slot_setup, get_new_rpmsg_ctrl_dev, ctrl_recorded. quiet_go. Qed.
Lemma quiet_load_new_rpu i ai slot name : quiet (load_new_rpu (W := W) i ai slot name).
Proof. pose proof quiet_finish_rpu. unfold load_new_rpu, validate_rpu_slot_availability. quiet_go. Qed.
Lemma quiet_setup_rpu i parent : quiet (setup_rpu_base (W := W) i parent).
Proof. unfold setup_rpu_base. quiet_go. Qed.
Lemma quiet_evict parent : quiet (leave_or_evict_pl (W := W) parent).
Proof. unfold leave_or_evict_pl. quiet_go. Qed.
#[local] Hint Resolve quiet_finish_rpu quiet_load_new_rpu quiet_setup_rpu quiet_evict : tame.

Lemma cautious_flat i name cma sp slot fs sz : cautious (load_flat (W := W) i name cma sp slot fs sz).
Proof.
  assert (Hp : forall b p u, ptype p = ACAPD_ACCEL_PKG_TYPE_NONE -> cautious (flat_program (W := W) i name cma sp fs sz b p u)).
  { intros b p u Hp. unfold flat_program. destruct u; [cautious_go|].
    apply always_bind; [apply cautious_load_accel; by eapply accel_ok|]. cautious_go. }
  unfold load_flat. apply always_bind; [cautious_go|]. intros _. apply always_bind; [cautious_go|]. intros ab.
  apply always_bind; [cautious_go|]. intros []; [cautious_go|]. apply always_bind; [cautious_go|]. intros b.
  apply always_bind; [cautious_go|]. intros u. apply always_bind; [by apply Hp|]. cautious_go.
Qed.

Lemma cautious_setup_pl i parent cma sp fs sz : cautious (setup_pl_base (W := W) i parent cma sp fs sz).
Proof.
  assert (Hp : cautious (program_base (W := W) i cma sp fs sz)).
  { unfold program_base. apply always_bind; [cautious_go|]. intros b. apply always_bind; [cautious_go|].
    intros []; [cautious_go|]. apply always_bind; [apply cautious_load_accel; by eapply accel_ok|]. cautious_go. }
  unfold setup_pl_base. cautious_go.
Qed.

Section Named.
Variables (ai : accel_info) (name : string).
Hypothesis Hname : fits ACCEL_NAME_MAX name = true.
Hypothesis Htexts : accel_texts ai.

Lemma cautious_program path k cma sp fs sz :
  accel_type ai <> "XRT_AIE_DFX"%string -> cautious (program_slot (W := W) ai name path k cma sp fs sz).
Proof.
  intros Hty. unfold program_slot, sprintf_into. change (fits 128 name) with (fits ACCEL_NAME_MAX name).
  rewrite Hname, (proj2 (proj2 Htexts)). apply always_bind; [done|]. intros nm. apply always_bind; [cautious_go|].
  intros []; [cautious_go|]. intros s. apply wp_bind, wp_ret. revert s.
  change (cautious (let! ra := in_hw (load_accel (set_cma cma ((init_accel (Pkg ACAPD_ACCEL_PKG_TYPE_NONE nm path))
    <| rm_slot := Z.of_nat k |> <| atype := accel_type ai |> <| tmp_dir := trunc 512 path |>)) (Some sp)) in
    if ra.1 <? 0 then ret (ra.1, ra.2, fs) else ret (ra.1, ra.2, put_state fs sz (sys_fpga_state ra.2)) : M (sys W) _)).
  apply always_bind; [apply cautious_load_accel; by eapply accel_ok|]. cautious_go.
Qed.

Lemma cautious_try i r slot cma sp fs sz k : cautious (try_slot (W := W) i r ai slot name cma sp fs sz k).
Proof.
  unfold try_slot. apply always_bind; [cautious_go|]. intros [x|]; [cautious_go|]. cbv zeta.
  apply always_bind; [cautious_go|]. intros there. destruct (negb there); [cautious_go|].
  destruct r; [cautious_go|]. destruct (streq (accel_type ai) _) eqn:E; [cautious_go|]. apply streq_false in E.
  apply always_bind; [by apply cautious_program|]. cautious_go.
Qed.

Lemma cautious_slotted i slot cma sp fs sz : cautious (load_slotted (W := W) i ai slot name cma sp fs sz).
Proof. pose proof cautious_try. pose proof cautious_setup_pl. unfold load_slotted. cautious_go. Qed.
End Named.

(** A load of a well-formed entry. *)
Lemma load_core_cautious i name cma fs sz s :
  wf (dm s) -> wp load_fault (load_accelerator_core i name cma fs sz) (fun _ _ => True) s.
Proof.
  intros Hwf. assert (Hc : forall A (m : M (sys W) A) s', cautious m -> wp load_fault m (fun _ _ => True) s') by auto.
  apply wp_bind, wp_in_hw, wp_in_world, wp_look.
  apply (wp_seq _ (fun b s' => bases s !! i = Some b)).
  { unfold get_base. apply wp_bind, wp_the; [|by left; right]. done. }
  intros b s' Hi. apply wp_bind, wp_getd. cbv zeta. destruct (_ && _); [by apply wp_ret|].
  destruct (is_flat_type _); [apply Hc, cautious_flat|].
  destruct (accel_in_base b name) as [ai|] eqn:Ea; [|by apply wp_ret].
  destruct (_ || _); [|by apply wp_ret]. unfold accel_in_base in Ea. apply last_Some_elem_of in Ea.
  apply list_elem_of_In, filter_In in Ea as [Hin Hn]. apply list_elem_of_In in Hin. apply streq_true in Hn.
  pose proof (ew_texts b (wf_entry _ _ _ _ Hwf i b Hi) ai Hin) as Ht.
  apply Hc, cautious_slotted; [rewrite <- Hn; apply Ht|done].
Qed.

(** So a load stops only where shell.json does not read. *)
Lemma cautious_returns {A} (m : M (sys W) A) Q s :
  wp lib_fault m Q s -> wp load_fault m (fun _ _ => True) s -> wp (shell_fault (W := W)) m Q s.
Proof.
  unfold wp, load_fault, core_fault, lib_fault. destruct (m s) as [|f]; [done|]. by intros [? ?] [[?|?]|?].
Qed.

Lemma load_core_returns i name cma fs sz Q s :
  wf (dm s) -> wp lib_fault (load_accelerator_core i name cma fs sz) Q s ->
  wp (shell_fault (W := W)) (load_accelerator_core i name cma fs sz) Q s.
Proof. intros Hwf Hw. apply cautious_returns; [done|by apply load_core_cautious]. Qed.

Lemma quiet_find_id id : quiet (find_accel_by_list_id (W := W) id).
Proof. unfold find_accel_by_list_id, id_in_base, id_of_accel, slot_handle_of_name. quiet_go. Qed.

Lemma load_by_id_returns id cma fs sz Q s :
  wf (dm s) -> wp lib_fault (load_accelerator_by_id id cma fs sz) Q s ->
  wp (shell_fault (W := W)) (load_accelerator_by_id id cma fs sz) Q s.
Proof.
  intros Hwf Hw. apply cautious_returns; [done|]. unfold load_accelerator_by_id. apply wp_bind. eapply wp_mono.
  - eapply wp_safe, quiet_safe; [apply quiet_find_id|]. by apply find_by_id_wp.
  - intros [res|] s' [-> _]; [|by apply wp_ret]. destruct (res_accel res) as [j|]; [|by apply wp_ret].
    unfold get_base. apply wp_bind, wp_bind, wp_the; [|by left; right]. intros b _.
    apply wp_bind, wp_the; [|by left; right]. intros a _. by apply load_core_cautious.
Qed.

(** ** User loads *)

Lemma quiet_user_load flag ff bin ov region key fs sz : quiet (user_load (W := W) flag ff bin ov region key fs sz).
Proof.
  unfold user_load. destruct bin as [bin|].
  - apply always_bind; [unfold user_load_admit; quiet_go|]. intros [r|]; [done|].
    apply always_bind; [unfold user_load_checks; quiet_go|]. intros []; [|done]. simpl negb. cbv iota.
    apply always_bind; [done|]. intros bf. unfold user_load_register. quiet_go.
  - apply always_bind; [unfold user_load_admit; quiet_go|]. intros [r|] s; [done|].
    apply (wp_seq _ (fun ok s' => ok = false)); [|by intros ok s' ->].
    unfold user_load_checks. apply wp_bind, wp_gp, wp_bind, wp_getd. cbv zeta. repeat (destruct (_ && _); [by apply wp_ret|]). by apply wp_ret.
Qed.

(** A user load returns; and so does unloading its handle. *)
Lemma user_load_returns flag ff bin ov region key fs sz s :
  wf (dm s) ->
  safe (user_load flag ff bin ov region key fs sz) (fun r s' => user_load_post (dm s) r.1 (dm s')) s.
Proof. intros Hwf. apply quiet_safe; [apply quiet_user_load|by apply user_load_wp]. Qed.

Lemma unload_user_returns i h Q s :
  owns (dm s) (OUser i) h -> wp lib_fault (unload_accelerator (Z.of_nat h)) Q s ->
  safe (unload_accelerator (Z.of_nat h)) Q s.
Proof.
  intros (b & Hi & Hu & Hh) Hw. assert (E : unload_accelerator (Z.of_nat h) s = user_unload (Z.of_nat h) s).
  { unfold unload_accelerator. destruct (Z.eqb_spec (Z.of_nat h) (-1)); [lia|]. erewrite bind_Ret by reflexivity.
    replace (existsb _ _) with true; [done|]. symmetry. apply existsb_exists. exists b.
    split; [by eapply list_elem_of_In, list_elem_of_lookup_2|]. unfold has_user_handle. by rewrite Hu, Hh, Z.eqb_refl. }
  revert Hw. unfold wp at 1 2. rewrite E. apply quiet_safe, quiet_user_unload.
Qed.
End Returns.
