(* ===== verification/Sample.v ===== *)
(** * A concrete environment

    A board without memory of its own: a fixed tree of files, drivers
    that always succeed.  The
    witnesses instantiate the theorems here, by evaluation. *)
From S2P Require Import Prelude CStr Env Model Json Accel Rpu Pdi Slots Invariant ListIds TablesWp Load Unload.
From S2P Require Import Registry Eeprom Events Listing Proto Frame RequestSafe StartSafe Handles.
Open Scope Z_scope.
Open Scope dfx_scope.

(** JSON text, written with single quotes. *)
Definition json_text (s : string) : string :=
  smap (fun c => if Ascii.eqb c "'" then "034"%char else c) s.

Definition conf_json : string := json_text "{'firmware_location':['/fw']}".
Definition flat_json : string := json_text "{'shell_type':'PL_FLAT'}".
Definition dfx_json : string := json_text "{'shell_type':'PL_DFX','num_pl_slots':'2'}".
Definition accel_json : string := json_text "{'accel_type':'XRT_PL_DFX'}".

Definition sample_files : list (string * string) :=
  [ ("/etc/dfx-mgrd/daemon.conf", conf_json);
    ("/sys/class/fpga_manager/fpga0/name", "Xilinx ZynqMP FPGA Manager");
    ("/fw/flat/shell.json", flat_json);
    ("/fw/other/shell.json", flat_json);
    ("/fw/dfx/shell.json", dfx_json);
    ("/fw/dfx/acc/acc_slot0/accel.json", accel_json);
    ("/fw/dfx/acc/acc_slot1/accel.json", accel_json) ]%string.

Definition sample_dirs : list (string * list dirent) :=
  let dir n := Dirent n DT_DIR in
  let file n := Dirent n DT_REG in
  [ ("/fw", [dir "."; dir ".."; dir "flat"; dir "other"; dir "dfx"]);
    ("/fw/flat", [file "shell.json"; file "flat.bin"]);
    ("/fw/other", [file "shell.json"; file "other.bin"]);
    ("/fw/dfx", [file "shell.json"; file "dfx.bin"; dir "acc"]);
    ("/fw/dfx/acc", [dir "acc_slot0"; dir "acc_slot1"]);
    ("/fw/dfx/acc/acc_slot0", [file "accel.json"; file "acc.bin"]);
    ("/fw/dfx/acc/acc_slot1", [file "accel.json"; file "acc.bin"]);
    ("/sys/bus/rpmsg/devices", [dir "."; dir ".."; dir "virtio0.rpmsg_ctrl.0.0"; dir "virtio0.echo.-1.1024"]) ]%string.

Definition assoc {A} (l : list (string * A)) (k : string) : option A :=
  snd <$> List.find (fun kv => streq kv.1 k) l.

(** The image list of a metaheader with one PL image. *)
Definition meta_bytes : list Z :=
  [0; 0; 0; 0; 1; 0; 0; 0] ++ replicate 120 0 ++ replicate 32 0 ++
  [0; 0; 0x70; 0x18; 7; 0; 0; 0; 9; 0; 0; 0] ++ replicate 20 0.

(** A world that decides what the tree holds and what a register store does. *)
Definition poked_env {W} (files : W -> list (string * string)) (dirs : W -> list (string * list dirent))
    (poke : Z -> Z -> W -> W) : Env W := {|
  readdir p w := assoc (dirs w) p;
  is_dir p w := if assoc (dirs w) p is Some _ then true else false;
  is_reg p w := if assoc (files w) p is Some _ then true else false;
  exists_ p w := (if assoc (files w) p is Some _ then true else false) ||
                 (if assoc (dirs w) p is Some _ then true else false);
  read_file p w := assoc (files w) p;
  read_line p n w := trunc (Z.to_nat n) <$> assoc (files w) p;
  open_ _ _ w := (3, w);
  read_fd _ _ _ := Some "(null)"%string;
  write_fd _ s w := (Z.of_nat (strlen s), w);
  close_fd _ w := w;
  mkdir_ _ w := (0, w);
  rmdir_ _ w := (0, w);
  unlink_ _ w := (0, w);
  getenv _ _ := None;
  system _ w := (0, w);
  popen_line _ w := (None, w);
  glob _ _ := [];
  usleep _ w := w;
  mkdtemp _ w := (None, w);
  get_errno _ := 0;
  mmap_ _ _ _ w := (Some 0x10000, w);
  munmap_ _ _ w := w;
  reg_read _ w := (0, w);
  reg_write := poke;
  vfio_set_container _ _ w := (0, w);
  vfio_set_iommu _ w := (0, w);
  vfio_get_device_fd _ _ w := (4, w);
  vfio_num_regions _ _ := (0, 1);
  vfio_region_info _ _ := (0, (true, 0x1000, 0));
  vfio_map_dma _ _ _ _ w := (0, w);
  vfio_unmap_dma _ _ _ w := (0, w);
  inotify_add_watch p w := (Z.of_nat (strlen p), w);
  inotify_rm_watch _ w := w;
  dfx_cfg_init _ _ _ w := (1, w);
  dfx_cfg_load _ w := (0, w);
  dfx_cfg_remove _ w := (0, w);
  dfx_cfg_destroy _ w := (0, w);
  dfx_get_fpga_state _ _ := Some "operating"%string;
  dfx_set_fpga_flags _ w := (0, w);
  dfx_set_fpga_key _ w := (0, w);
  dfx_set_fpga_firmware _ w := (0, w);
  dfx_set_firmware_search_path _ w := w;
  dfx_set_overlay_path _ _ w := (0, w);
  dfx_get_overlay_path _ _ _ := None;
  dfx_get_overlay_status _ _ _ := None;
  dfx_fpga_readback _ _ w := (0, w);
  dfx_get_meta_header _ _ := (192, meta_bytes);
  dfx_get_active_uid_list _ := (0, []);
  DFX_NORMAL_EN := 0;
  DFX_EXTERNAL_CONFIG_EN := 1;
  DFX_ENCRYPTION_USERKEY_EN := 0x20;
  DFX_INVALID_PARAM := 13;
  DFX_INVALID_PLATFORM_ERROR := 24;
  DFX_READBACK_ERROR := 49;
  rpmsg_create_ept _ _ _ _ w := (0, w);
  junk_bool _ := true;
  junk_Z _ := 42;
  junk_string _ := "junk"%string;
  strtof_uint _ := 0;
|}.

Definition tree_env {W} (files : W -> list (string * string)) (dirs : W -> list (string * list dirent)) : Env W :=
  poked_env files dirs (fun _ _ w => w).

#[export] Instance sample_env : Env unit := tree_env (fun _ => sample_files) (fun _ => sample_dirs).

Definition board : hw unit := Hw [] device0 device0 tt.

(** The state [m] leads to. *)
Definition after {A} (m : M (sys unit) A) (s : sys unit) : sys unit :=
  match m s with Ret _ s' => s' | Fault _ => s end.
Definition returns {A} (m : M (sys unit) A) (s : sys unit) : bool :=
  match m s with Ret _ _ => true | Fault _ => false end.
Definition result {A} (m : M (sys unit) A) (s : sys unit) (a : A) : A :=
  match m s with Ret a _ => a | Fault _ => a end.

(** The daemon after its start. *)
Definition started : sys unit := after dfx_init (boot board).

Lemma after_ret {A} (m : M (sys unit) A) s : returns m s = true -> exists a, m s = Ret a (after m s).
Proof. unfold returns, after. destruct (m s) as [a s'|]; [by exists a|done]. Qed.

Lemma after_wp {A} F (m : M (sys unit) A) (P : sys unit -> Prop) s :
  returns m s = true -> wp F m (fun _ => P) s -> P (after m s).
Proof. intros (a & E)%after_ret Hm. unfold wp in Hm. by rewrite E in Hm. Qed.

(** A client's session: load a flat design, then unload its handle. *)
Definition request (r : dfx_mgr_request) (data : string) : message := Message (request_id r) 0 0 0 data.
Definition with_flat : sys unit := after (process_dfx_req (request LOAD_ACCEL "flat")) started.
Definition with_slot : sys unit := after (process_dfx_req (request LOAD_ACCEL "acc")) started.
Definition with_user : sys unit :=
  after (process_dfx_req (request USER_LOAD "/tmp/a.bin")) started.
Definition with_slots : sys unit := after (process_dfx_req (request LOAD_ACCEL "acc")) with_slot.

Definition nth_base (s : sys unit) (i : nat) : basePLDesign := default base0 (bases s !! i).

(** Ownership, by evaluation. *)
Definition owns_slot (d : daemon) (i k h : nat) : bool :=
  match base_designs d !! i with
  | Some b => match slot_list b !! k with Some (Some x) => slot_handle x =? Z.of_nat h | _ => false end
  | None => false
  end.
Lemma owns_slot_true d i k h : owns_slot d i k h = true -> owns d (OSlot i k) h.
Proof.
  unfold owns_slot. destruct (base_designs d !! i) as [b|] eqn:Hi; [|done].
  destruct (slot_list b !! k) as [[x|]|] eqn:Hk; [|done..]. intros Hx%Z.eqb_eq. by exists b, x.
Qed.
