(* ===== verification/Reach.v ===== *)
(** * Reachable states

    The daemon as a transition system: it starts from its zeroed globals, then
    requests and file-system events come in any order, events also between the
    steps of a request ([in_flight]), and between any two steps the world changes
    as it likes.  Events and walks that change the shape of a base design that has
    slots are left out ([calm]), and so are the events that are not [tracked]:
    [Hazards] shows that those need not keep the invariant. *)
From S2P Require Import Prelude CStr Env Model UserLoad Json Accel Rpu Pdi Slots Invariant ListIds TablesWp.
From S2P Require Import ListIdFacts Load LoadSafe Unload UnloadSafe UserSafe Registry Eeprom Events Listing.
From S2P Require Import Proto Client Frame RequestSafe StartSafe EventsSafe Threads Handles Owners InFlight Sample.
Open Scope Z_scope.
Open Scope dfx_scope.

Section Reach.
Context {W : Type} `{Env W}.
Implicit Types (s : sys W).

Inductive reachable (m : hw W) : sys W -> Prop :=
  | reach_start s : dfx_init (boot m) = Ret tt s -> reachable m s
  | reach_event e go s s' :
      reachable m s -> tracked (dm s) e = true -> handle_event e s = Ret go s' -> calm (dm s) (dm s') = true ->
      reachable m s'
  | reach_request msg r s s' : reachable m s -> quiet_walk s msg -> process_dfx_req msg s = Ret r s' -> reachable m s'
  | reach_flight r msg reply s s' :
      reachable m s -> request_of (msg_id msg) = Some r -> in_flight r msg s (Replied reply) s' -> reachable m s'
  | reach_world h s : reachable m s -> reachable m (Sys (dm s) h).

(** ... and no walk is due. *)
Definition walked (m : hw W) s : Prop := reachable m s /\ firmware_rescan_pending (dm s) = false.

Lemma reachable_inv m s : reachable m s -> wf (dm s).
Proof.
  induction 1 as [s E|e go s s' _ IH Ht E Hc|msg r s s' _ IH Hq E|r msg reply s s' _ IH Hr Hf|h s _ IH]; [| | | |done].
  - exact (proj1 (wp_returns _ _ _ _ _ _ (dfx_init_wp (boot m) ltac:(done)) E)).
  - assert (Hs : settled (dm s) (dm s)) by (exists (firmware_rescan_pending (dm s)); by apply scan_refl).
    destruct (wp_returns _ _ _ _ _ _ (handle_event_wp (d0 := dm s) e s Hs Ht) E) as [due Hd]. exact (scan_wf _ Hd Hc).
  - exact (proj1 (wp_returns _ _ _ _ _ _ (request_walks msg s IH Hq) E)).
  - destruct (in_flight_inv r msg s _ s' IH Hf) as (d & _ & Hs). apply Hs.
Qed.

Lemma walked_ready m s : walked m s -> ready (dm s).
Proof. intros [Hs Hp]. split; [by eapply reachable_inv|done]. Qed.

Lemma walked_quiet m s msg : walked m s -> quiet_walk s msg.
Proof. intros [_ Hp] r s' _ _ Hp'. congruence. Qed.

Lemma boot_walked m s : dfx_init (boot m) = Ret tt s -> walked m s.
Proof.
  intros E. split; [by apply reach_start|].
  exact (proj2 (wp_returns _ _ _ _ _ _ (dfx_init_wp (boot m) ltac:(done)) E)).
Qed.

Lemma walked_request m msg r s s' : walked m s -> process_dfx_req msg s = Ret r s' -> walked m s'.
Proof.
  intros Hs E. split.
  - eapply reach_request; [apply Hs|by eapply walked_quiet|exact E].
  - exact (proj2 (wp_returns _ _ _ _ _ _ (process_ready msg s (walked_ready m s Hs)) E)).
Qed.

Lemma walked_world m h s : walked m s -> walked m (Sys (dm s) h).
Proof. intros [Hs Hp]. split; [by apply reach_world|exact Hp]. Qed.

(** C1: The tables are consistent in every state the daemon reaches by the steps
    of [reachable]: its start, requests, file-system events between requests and
    between the steps of a request, and changes of the world, in any order.
    Consistent: the arrays have their extents, every entry is well formed, package
    paths are unique, the handle table marks exactly the handles that are held,
    the counters of the two active bases are the numbers of their occupied slots,
    and no other entry counts or occupies anything. The steps are limited in two
    ways. An event is [tracked]: the watch thread does not forget a base that was
    loaded from, that has AIE slots or whose free accelerators keep a path; it
    does not read the description of a base from the directory of one of its
    packages; it does not put a package into a user load. And an event, or a walk
    of the directories that a request begins with, is [calm]: it does not change
    the type or a number of slots of a base that has a slot array (events in
    flight count when the request is served). Hazards.v runs what this leaves out. *)
Theorem reachable_wf m s : reachable m s -> wf (dm s).
Proof. apply reachable_inv. Qed.

(** C2: Serving a request never goes through a NULL pointer and never leaves the
    bounds of a table, for every message, malformed ones too, in every [reachable]
    state, under one condition ([quiet_walk]): if a walk of the firmware
    directories is due and the request makes it (a load by name or a listing),
    that walk does not change the type or a number of slots of a base that has a
    slot array. With no walk due there is no condition. (Where the walk does
    change them, the daemon can overrun a table:
    [Hazards.due_walk_under_load_overruns].) *)
Theorem request_stays_in_bounds m s msg f :
  reachable m s -> quiet_walk s msg -> process_dfx_req msg s = Fault f -> f <> NullDeref /\ f <> OutOfBounds.
Proof. intros Hs%reachable_inv Hq E. exact (wp_faults _ _ _ _ _ (request_walks msg s Hs Hq) E). Qed.

(** C3: The slot handles are a resource with one owner: in every reachable state a
    handle is marked in the table exactly when a slot or a user load holds it, and
    never two. *)
Theorem handle_has_one_owner m s h :
  reachable m s ->
  (marked (table s) h = 1%nat <-> exists o, owns (dm s) o h) /\
  (forall o o', owns (dm s) o h -> owns (dm s) o' h -> o = o').
Proof.
  intros Hwf%reachable_inv. split; [split|].
  - by apply marked_owned.
  - intros [o Ho]. by eapply owns_marked.
  - intros o o'. by apply owner_unique.
Qed.

(** What a request does to the ledger is a step of the allocator. *)
Definition allocates (msg : message) (reply : option message) (d d' : daemon) : Prop :=
  exists e, alloc_step (ledger d) e (ledger d') /\
    match e with
    | Keep => True
    | Take h o => answers reply (Z.of_nat h) /\ exists r, request_of (msg_id msg) = Some r /\ loads r = true
    | Free h => exists r, request_of (msg_id msg) = Some r /\ unloads r = true
    end.

Lemma keep_allocates msg reply d d' : ledger d' = ledger d -> allocates msg reply d d'.
Proof. unfold allocates. intros ->. exists Keep. split; [constructor|done]. Qed.

(** [d1] are the tables after the walk of the request. *)
Lemma served_allocates r msg d d1 reply d' :
  wf d -> traces d d' -> available_slot_handle (platform d1) = available_slot_handle (platform d) ->
  request_of (msg_id msg) = Some r -> served r d1 reply d' ->
  allocates msg reply d d'.
Proof.
  intros Hwf Htr Hd Hr ([Hwf' _] & Hs). unfold same_handles, takes, frees in Hs. rewrite Hd in Hs.
  destruct Hs as [Ht|[(Hl & v & Hv & Ht)|(Hu & v & n & -> & Hm & Ht)]].
  - by apply keep_allocates, ledger_keep.
  - destruct (ledger_take d d' Hwf Hwf' Htr v Ht) as [(h & -> & Hst)|[_ Hk]]; [|by apply keep_allocates].
    destruct (take_handle_spec _ _ _ Ht) as (_ & _ & Hm & _). specialize (Hm h). rewrite Z.eqb_refl in Hm.
    pose proof (marked_le (available_slot_handle (platform d')) h).
    destruct (marked_owned d' h Hwf') as [o Ho]; [lia|]. exists (Take h o). split; [by apply Hst|]. eauto.
  - exists (Free n). rewrite (ledger_free d d' Hwf Hwf' Htr n Hm Ht). split; [|by exists r].
    constructor. by apply ledger_marked.
Qed.

(** C4: The daemon refines the allocator, which knows the owner of every handle
    that is out: a request that is answered in a [reachable] state either leaves
    the ledger as it is, or is a load that takes the least free handle for one new
    owner and answers its number, or is an unload that gives one handle back.
    Every other handle stays with the slot or the user load that has it. As in C2,
    if the request first makes a walk that is due, that walk must not change the
    type or a number of slots of a base that has a slot array ([quiet_walk]). *)
Theorem request_refines_allocator m s msg reply s' :
  reachable m s -> quiet_walk s msg -> process_dfx_req msg s = Ret reply s' -> allocates msg reply (dm s) (dm s').
Proof.
  intros Hwf%reachable_inv Hq E. pose proof (wp_returns _ _ _ _ _ _ (request_traces msg s Hwf Hq) E) as Htr.
  destruct (wp_returns _ _ _ _ _ _ (request_walks msg s Hwf Hq) E) as (Hwf' & d & Hd & _ & [Ht|(r & Hr & Hs)]).
  - apply keep_allocates, ledger_keep; [done..|]. unfold same_handles in *. congruence.
  - by apply (served_allocates r msg (dm s) d).
Qed.

(** C5: The refinement of C4 when file-system events come between the steps of the
    request (those of Threads.v: one per directory entry of its walk, its lookup,
    its load): the entry it looked up may be gone when it loads, and still it
    leaves the tables consistent and takes, or gives back, at most the one handle
    that it answers; every other handle stays with its owner. The request came in
    a [reachable] state; the events are [tracked] (they forget no base that was
    loaded from, has AIE slots or whose free accelerators keep a path, misread no
    base, give no user load a package); and when the step that loads, lists or
    unloads runs, the bases that had a slot array when the request came still have
    their types and numbers of slots ([calm]). *)
Theorem interleaved_request_refines_allocator m s0 r msg reply s :
  reachable m s0 -> request_of (msg_id msg) = Some r -> in_flight r msg s0 (Replied reply) s ->
  wf (dm s) /\ allocates msg reply (dm s0) (dm s).
Proof.
  intros Hwf%reachable_inv Hr Hf. destruct (in_flight_inv r msg s0 _ s Hwf Hf) as (d & Hd & Hs).
  split; [apply Hs|]. apply (served_allocates r msg _ d); [done|by eapply in_flight_traces|by rewrite Hd|done..].
Qed.

(** C6: While a request is in flight as in C5 (it came in a [reachable] state, the
    events so far were [tracked], and the bases that had a slot array kept their
    types and numbers of slots up to the steps that served it), neither thread
    goes through a NULL pointer or leaves the bounds of a table: not the main
    thread in its next step, provided that, if this step loads, lists or unloads,
    those bases still have their types and numbers of slots ([calm]); and not the
    watch thread in a [tracked] event that comes before it. (Hazards.v runs
    sessions that break these conditions and end on a NULL pointer or outside a
    table.) *)
Theorem interleaved_steps_stay_in_bounds m s0 r msg p s f :
  reachable m s0 -> in_flight r msg s0 p s -> answered p = false ->
  (main_step r msg p s = Fault f /\ (serves p = true -> calm (dm s0) (dm s) = true)) \/
  (exists e, handle_event e s = Fault f /\ tracked (dm s) e = true) ->
  f <> NullDeref /\ f <> OutOfBounds.
Proof.
  intros Hwf%reachable_inv Hf Ha. pose proof (in_flight_inv r msg s0 p s Hwf Hf) as Hp.
  intros [[E Hc]|(e & E & Ht)].
  - exact (wp_faults _ _ _ _ _ (step_keeps r msg (dm s0) p s Hp Ha Hc) E).
  - exact (wp_faults _ _ _ _ _ (event_keeps r (dm s0) p e s Hp Ha Ht) E).
Qed.

(** Serving requests, even loads and unloads, leaves alone the configuration,
    the watches, the board name, the kind of FPGA manager and the boot UID. *)
Theorem request_frame m s msg reply s' :
  walked m s -> process_dfx_req msg s = Ret reply s' -> frame_of (dm s') = frame_of (dm s).
Proof.
  intros Hs%walked_ready E. exact (wp_returns _ _ _ _ _ _ (process_frame msg s Hs) E).
Qed.
End Reach.

Lemma started_walked : walked board started.
Proof. apply boot_walked. vm_compute. reflexivity. Qed.
Lemma started_reachable : reachable board started.
Proof. exact (proj1 started_walked). Qed.

Lemma after_request_walked msg s :
  walked board s -> returns (process_dfx_req msg) s = true -> walked board (after (process_dfx_req msg) s).
Proof. intros Hs (r & E)%after_ret. by eapply walked_request. Qed.

Lemma with_flat_walked : walked board with_flat.
Proof. apply after_request_walked; [exact started_walked|vm_compute; reflexivity]. Qed.
Lemma with_flat_reachable : reachable board with_flat.
Proof. exact (proj1 with_flat_walked). Qed.
Lemma with_slot_walked : walked board with_slot.
Proof. apply after_request_walked; [exact started_walked|vm_compute; reflexivity]. Qed.
Lemma with_slot_reachable : reachable board with_slot.
Proof. exact (proj1 with_slot_walked). Qed.
Lemma with_user_reachable : reachable board with_user.
Proof. apply after_request_walked; [exact started_walked|vm_compute; reflexivity]. Qed.
Lemma with_slots_reachable : reachable board with_slots.
Proof. apply after_request_walked; [exact with_slot_walked|vm_compute; reflexivity]. Qed.

Lemma started_ready : ready (dm started).
Proof. exact (walked_ready board started started_walked). Qed.

(** *** Witnesses *)

(** A handler that ends in a state whose loaded bases kept their shape. *)
Lemma after_event_reachable e s :
  reachable board s ->
  returns (handle_event e) s && tracked (dm s) e && calm (dm s) (dm (after (handle_event e) s)) = true ->
  reachable board (after (handle_event e) s).
Proof.
  intros Hs [[(go & E)%after_ret Ht]%andb_true_iff Hc]%andb_true_iff. by eapply reach_event.
Qed.

(** Two accelerators are loaded, then one of them leaves the disk and comes back,
    and a directory of packages appears: a walk is due. *)
Definition gone : inotify_event := Event 11 "acc_slot0" false false true false false true.
Definition come : inotify_event := Event 3 "new" true false false false false true.
Definition rewritten : inotify_event := Event 7 "shell.json" false true false false false false.
Definition busy : sys unit :=
  after (handle_event come) (after (handle_event rewritten) (after (handle_event gone) with_slots)).

Lemma busy_reachable : reachable board busy.
Proof.
  apply after_event_reachable; [|vm_compute; reflexivity]. apply after_event_reachable; [|vm_compute; reflexivity].
  apply after_event_reachable; [exact with_slots_reachable|vm_compute; reflexivity].
Qed.

(** One is loaded and a walk is due, which the load of another makes first. *)
Definition walk_due : sys unit := after (handle_event come) with_slot.
Definition another : message := request LOAD_ACCEL "acc".
Definition loaded_after : sys unit := after (process_dfx_req another) walk_due.

Lemma walk_due_reachable : reachable board walk_due.
Proof. apply after_event_reachable; [exact with_slot_reachable|vm_compute; reflexivity]. Qed.

Lemma walk_due_quiet : quiet_walk walk_due another.
Proof.
  intros r s' _ _ _ E. assert (s' = after rescan walk_due) as -> by (unfold after; by rewrite E). vm_compute. reflexivity.
Qed.

Lemma reachable_wf_witness : table busy !! 1%nat = Some 1 /\ wf (dm busy).
Proof. split; [vm_compute; reflexivity|exact (reachable_wf board busy busy_reachable)]. Defined.

(** An empty load request: its name is NULL. *)
Lemma request_stays_in_bounds_witness :
  process_dfx_req (request LOAD_ACCEL "") started = Fault NullArg /\ NullArg <> NullDeref /\ NullArg <> OutOfBounds.
Proof.
  assert (E : process_dfx_req (request LOAD_ACCEL "") started = Fault NullArg) by (vm_compute; reflexivity).
  split; [exact E|]. exact (request_stays_in_bounds board started _ _ started_reachable (walked_quiet _ _ _ started_walked) E).
Defined.

Lemma handle_has_one_owner_witness : exists o, owns (dm busy) o 0.
Proof.
  apply (proj1 (proj1 (handle_has_one_owner board busy 0 busy_reachable))). vm_compute. reflexivity.
Defined.

Lemma request_refines_allocator_witness :
  firmware_rescan_pending (dm walk_due) = true /\ ledger (dm walk_due) !! 1%nat = None /\
  ledger (dm loaded_after) !! 1%nat = Some (OSlot 2 1) /\
  exists reply, process_dfx_req another walk_due = Ret reply loaded_after /\
                allocates another reply (dm walk_due) (dm loaded_after).
Proof.
  do 3 (split; [vm_compute; reflexivity|]).
  destruct (after_ret (process_dfx_req another) walk_due) as [reply E]; [vm_compute; reflexivity|].
  exists reply. split; [exact E|].
  exact (request_refines_allocator board walk_due _ _ _ walk_due_reachable walk_due_quiet E).
Defined.

Lemma request_frame_witness :
  exists reply, process_dfx_req (request LOAD_ACCEL "flat") started = Ret reply with_flat /\
  frame_of (dm with_flat) = frame_of (dm started).
Proof.
  destruct (after_ret (process_dfx_req (request LOAD_ACCEL "flat")) started) as [reply E]; [vm_compute; reflexivity|].
  exists reply. split; [exact E|]. exact (request_frame board started _ _ _ started_walked E).
Defined.

(** One accelerator is loaded and a walk is due: the load of another is in flight
    when shell.json is rewritten, in the middle of the walk, and again when the
    directory of the package leaves, between the lookup and the load. *)
Definition turns : nat -> list (option inotify_event) := fun n => replicate n None.
Definition schedule : list (option inotify_event) := turns 4 ++ [Some rewritten] ++ turns 5 ++ [Some gone] ++ turns 1.
Definition flight (l : list (option inotify_event)) : phase * sys unit :=
  default (Begin, walk_due) (scheduled LOAD_ACCEL another (dm walk_due) l Begin walk_due).

Lemma flight_in_flight l :
  bool_decide (is_Some (scheduled LOAD_ACCEL another (dm walk_due) l Begin walk_due)) = true ->
  in_flight LOAD_ACCEL another walk_due (flight l).1 (flight l).2.
Proof.
  unfold flight. intros [[p s] E]%bool_decide_eq_true. rewrite E. cbn [default fst snd].
  eapply scheduled_in_flight; [constructor|exact E].
Qed.

Definition flight_reply : message := Message 0 12 0 0 "1:operating".

Lemma interleaved_request_refines_allocator_witness :
  wf (dm (flight schedule).2) /\ allocates another (Some flight_reply) (dm walk_due) (dm (flight schedule).2).
Proof.
  assert (Hf : in_flight LOAD_ACCEL another walk_due (flight schedule).1 (flight schedule).2)
    by (apply flight_in_flight; vm_compute; reflexivity).
  assert (E : (flight schedule).1 = Replied (Some flight_reply)) by (vm_compute; reflexivity).
  rewrite E in Hf.
  apply (interleaved_request_refines_allocator board walk_due LOAD_ACCEL another _ _ walk_due_reachable); [|exact Hf].
  vm_compute. reflexivity.
Defined.

(** An empty load request faults in its lookup, on a NULL name. *)
Definition nameless : message := request LOAD_ACCEL "".

Lemma interleaved_steps_stay_in_bounds_witness :
  main_step LOAD_ACCEL nameless Walked started = Fault NullArg /\ NullArg <> NullDeref /\ NullArg <> OutOfBounds.
Proof.
  assert (E : main_step LOAD_ACCEL nameless Walked started = Fault NullArg) by (vm_compute; reflexivity).
  split; [exact E|].
  apply (interleaved_steps_stay_in_bounds board started LOAD_ACCEL nameless Walked started NullArg started_reachable);
    [|reflexivity|left; split; [exact E|intros _; vm_compute; reflexivity]].
  apply (fly_main LOAD_ACCEL nameless started Begin Walked started started); [constructor|reflexivity|done|vm_compute; reflexivity].
Defined.

(** The base leaves between the lookup and the load: the load finds a free entry
    and answers an error. *)
Definition vanish : inotify_event := Event 3 "dfx" false false true false false true.
Lemma vanished_base_is_refused :
  (fun ps => match ps.1 with Replied (Some x) => Some (msg_data x) | _ => None end) <$>
    scheduled LOAD_ACCEL another (dm started) (turns 2 ++ [Some vanish] ++ turns 1) Begin started = Some (Some "-1"%string).
Proof. vm_compute. reflexivity. Qed.
