(* ===== verification/Fields.v ===== *)
(** * The fields hold what C keeps in them

    The model has integers and strings where the structures of [src/model.h] have
    machine words and arrays.  In every reachable state each of them is a value
    that its C field can hold, so that no width of the tables is lost in the
    model. *)
From S2P Require Import Prelude CStr Env Model Json Accel Slots Invariant TablesWp Load Unload Registry Events Listing Proto.
From S2P Require Import RequestSafe StartSafe EventsSafe Handles Sample Reach.
Open Scope Z_scope.
Open Scope dfx_scope.

Definition uint8_ok (z : Z) : Prop := 0 <= z < 2 ^ 8.
Definition int_ok (z : Z) : Prop := - 2 ^ 31 <= z < 2 ^ 31.

(** [accel_info_t]: [name[ACCEL_NAME_MAX]], [path[512]], [parent_path[512]],
    [accel_type[32]]. *)
Record accel_fields (a : accel_info) : Prop := {
  af_name : fits ACCEL_NAME_MAX (a_name a) = true;
  af_path : fits 512 (a_path a) = true;
  af_parent : fits 512 (a_parent_path a) = true;
  af_type : fits 32 (accel_type a) = true;
}.

(** [struct basePLDesign]: two bytes that count slots, the [int active], the name, the
    type, the path, [accel_list[RP_SLOTS_MAX]], and an array of slots that holds all
    of them. *)
Record base_fields (b : basePLDesign) : Prop := {
  bf_pl : uint8_ok (num_pl_slots b);
  bf_aie : uint8_ok (num_aie_slots b);
  bf_active : int_ok (active b);
  bf_name : fits ACCEL_NAME_MAX (b_name b) = true;
  bf_type : fits 128 (b_type b) = true;
  bf_path : fits 512 (base_path b) = true;
  bf_accels : length (accel_list b) = RP_SLOTS_MAX;
  bf_accel : forall a, a ∈ accel_list b -> accel_fields a;
  bf_slots : forall l, slots b = Some l -> (num_slots b <= length l)%nat;
  bf_handle : forall k x, slot_list b !! k = Some (Some x) -> slot_handle x < Z.of_nat SLOT_HANDLE_MAX;
}.

(** The globals: [base_designs[MAX_WATCH]], the table of handles, and the two
    pointers into the first. *)
Record daemon_fields (d : daemon) : Prop := {
  df_bases : length (base_designs d) = MAX_WATCH;
  df_handles : length (available_slot_handle (platform d)) = SLOT_HANDLE_MAX;
  df_active : valid_ptr (active_base (platform d));
  df_rpu : valid_ptr (active_rpu_base (platform d));
  df_base : forall b, b ∈ base_designs d -> base_fields b;
}.

Section Fields.
Context (d : daemon) (Hwf : wf d).

(** The counters count slots or user loads. *)
Lemma active_small i b : base_designs d !! i = Some b -> int_ok (active b).
Proof.
  intros Hi. pose proof (occupied_bound b (wf_entry _ _ _ _ Hwf i b Hi)) as Ho. pose proof (occupied_valid_le b) as Hv.
  pose proof (partials_bound (base_designs d)) as Hp. rewrite (wf_len _ _ _ _ Hwf) in Hp. unfold MAX_WATCH in Hp.
  destruct (wf_role _ _ _ _ Hwf i b Hi) as (HA & HR & HO). unfold int_ok.
  destruct (points_to (active_base _) i); [destruct (HA eq_refl) as [(_ & _ & ->)|(_ & _ & _ & -> & _)]; lia|].
  destruct (points_to (active_rpu_base _) i); [destruct (HR eq_refl) as (_ & _ & _ & ->); lia|].
  rewrite (proj1 (HO eq_refl eq_refl)). lia.
Qed.

(** A slot holds a handle of the table, or none. *)
Lemma slot_handle_small i b k x :
  base_designs d !! i = Some b -> slot_list b !! k = Some (Some x) -> slot_handle x < Z.of_nat SLOT_HANDLE_MAX.
Proof.
  intros Hi Hx. destruct (Z.ltb_spec (slot_handle x) 0) as [H0|H0]; [unfold SLOT_HANDLE_MAX; lia|].
  assert (Ho : owns d (OSlot i k) (Z.to_nat (slot_handle x))) by (exists b, x; rewrite Z2Nat.id; done).
  pose proof (marked_lt _ _ (owns_marked _ _ _ Hwf Ho)) as Hlt. rewrite (wf_table _ _ _ _ Hwf) in Hlt. lia.
Qed.

Lemma parent_fits b a : entry_wf b -> a ∈ accel_list b -> fits 512 (a_parent_path a) = true.
Proof.
  intros Hb Ha. destruct (package_dec b) as [Hp|Hp].
  - destruct (ew_parent b Hb a Ha Hp) as [->| ->]; [apply (ew_fits b Hb)|done].
  - by destruct (ew_bare b Hb Hp a Ha) as [-> _].
Qed.

Lemma wf_fields : daemon_fields d.
Proof.
  split; [apply (wf_len _ _ _ _ Hwf)|apply (wf_table _ _ _ _ Hwf)|apply (wf_pl _ _ _ _ Hwf)|apply (wf_rpu _ _ _ _ Hwf)|].
  intros b [i Hi]%list_elem_of_lookup. pose proof (wf_entry _ _ _ _ Hwf i b Hi) as Hb. split; try apply Hb.
  - by apply (active_small i).
  - intros a Ha. split; [by apply (ew_texts b Hb)|by apply (ew_texts b Hb)|by apply (parent_fits b)|by apply (ew_texts b Hb)].
  - intros k x. by apply (slot_handle_small i).
Qed.
End Fields.

(** C7: In every reachable state the tables are values of their C types: the two
    slot counts of a base design fit a [uint8_t], its counter an [int], the name,
    the path and the type of the base and of its accelerators their arrays with
    the terminating NUL, its slot array has all the slots that are counted, no
    slot has a handle that the table has not, and the two pointers point into
    [base_designs]. *)
Theorem reachable_fields_fit {W} `{Env W} (m : hw W) s : reachable m s -> daemon_fields (dm s).
Proof. intros Hs%reachable_inv. by apply wf_fields. Qed.

Lemma reachable_fields_fit_witness : uint8_ok 2 /\ num_pl_slots (nth_base busy 2) = 2 /\ daemon_fields (dm busy).
Proof. split; [split; [discriminate|reflexivity]|]. split; [vm_compute; reflexivity|]. exact (reachable_fields_fit board busy busy_reachable). Defined.
