(* ===== verification/Hazards.v ===== *)
(** * What a change under a loaded design does

    The file-system events that [Reach] leaves out: they change the shape of a
    base design that has slots (not [calm]), forget one that was loaded from or
    has AIE slots ([drops_base]), read a base's description from the directory of
    a package ([misreads_base]), or give a user load an accelerator
    ([fills_user]).  Sessions, run by evaluation, that leave the invariant. *)
From S2P Require Import Prelude CStr Env Model UserLoad Json Accel Rpu Pdi Slots Invariant ListIds TablesWp Load Unload.
From S2P Require Import Registry Eeprom Events Listing Proto StartSafe EventsSafe Sample.
Open Scope Z_scope.
Open Scope dfx_scope.

(** The tree before and after the change. *)
Definition hazard_files (edited : bool) : list (string * string) :=
  [ ("/etc/dfx-mgrd/daemon.conf", conf_json);
    ("/sys/class/fpga_manager/fpga0/name", "Xilinx ZynqMP FPGA Manager");
    ("/fw/dfx/shell.json", if edited then json_text "{'shell_type':'PL_DFX','num_pl_slots':'250'}" else dfx_json);
    ("/fw/dfx/acc/acc_slot0/accel.json", accel_json);
    ("/fw/dfx/accel.json", if edited then accel_json else "");
    ("/fw/dfx/acc/shell.json", if edited then json_text "{'shell_type':'PL_DFX','num_pl_slots':'7'}" else "");
    ("/fw/ai/shell.json", json_text "{'shell_type':'PL_DFX','num_pl_slots':'1','num_aie_slots':'2'}") ]%string.
Definition hazard_dirs (edited : bool) : list (string * list dirent) :=
  let dir n := Dirent n DT_DIR in
  let file n := Dirent n DT_REG in
  [ ("/fw", [dir "."; dir ".."; dir "ai"; dir "dfx"]);
    ("/fw/ai", [file "shell.json"; file "ai.bin"]);
    ("/fw/dfx", [file "shell.json"; file "dfx.bin"; dir "acc"]);
    ("/fw/dfx/acc", [dir "acc_slot0"]);
    ("/fw/dfx/acc/acc_slot0", [file "accel.json"; file "acc.bin"]) ]%string.
#[local] Instance hazard_env : Env bool := tree_env hazard_files hazard_dirs.

Definition idle_board : hw bool := Hw [] device0 device0 false.

(** Someone edits the tree. *)
Definition edit : M (sys bool) unit := modify (fun s => s <| machine ::= fun h => h <| hw_world := true |> |>).

Definition ask (r : dfx_mgr_request) (data : string) : M (sys bool) string :=
  let! m := process_dfx_req (request r data) in ret (match m with Some m => msg_data m | None => ""%string end).
Definition written (wd : Z) (name : string) : inotify_event := Event wd name false true false false false false.
Definition deleted (wd : Z) (name : string) : inotify_event := Event wd name false false true false false true.
Definition session {A} (m : M (sys bool) A) : outcome (sys bool) A := (dfx_init ;; m) (Sys daemon0 idle_board).
Definition answer {A} (m : outcome (sys bool) A) : A + fault := match m with Ret a _ => inl a | Fault f => inr f end.

(** shell.json is rewritten with more slots while an accelerator is loaded: the
    slot array keeps its extent, and the next listing reads past it. *)
Lemma rescan_under_load_overruns :
  answer (session (
    let! reply := ask LOAD_ACCEL "acc" in
    edit ;;
    let! d0 := getd in
    let! _ := handle_event (written 7 "shell.json") in
    let! d := getd in
    ret (reply, calm d0 d, (fun b => (num_pl_slots b, length <$> slots b)) <$> base_designs d !! 1%nat)))
    = inl ("0:operating"%string, false, Some (250, Some RP_SLOTS_MAX)) /\
  answer (session (
    let! _ := ask LOAD_ACCEL "acc" in
    edit ;;
    let! _ := handle_event (written 7 "shell.json") in
    ask LIST_PACKAGE "")) = inr OutOfBounds.
Proof. vm_compute. by split. Qed.

(** So does the walk that a listing makes because a directory has come meanwhile. *)
Definition created (wd : Z) (name : string) : inotify_event := Event wd name true false false false false true.
Lemma due_walk_under_load_overruns :
  answer (session (
    let! _ := ask LOAD_ACCEL "acc" in
    let! _ := handle_event (created 3 "new") in
    let! due := gets (fun s => firmware_rescan_pending (dm s)) in
    edit ;;
    ret due)) = inl true /\
  answer (session (
    let! _ := ask LOAD_ACCEL "acc" in
    let! _ := handle_event (created 3 "new") in
    edit ;;
    ask LIST_PACKAGE "")) = inr OutOfBounds.
Proof. vm_compute. by split. Qed.

(** A base design with AIE slots leaves, and its entry keeps their number: a full
    user load takes the entry, and unloading a handle nobody has follows its NULL
    slot array. *)
Lemma stale_aie_slots_fault :
  answer (session (
    let! d0 := getd in
    let! _ := handle_event (deleted 3 "ai") in
    let! reply := ask USER_LOAD "/tmp/a.bin" in
    let! d := getd in
    ret (reply, drops_base d0 (deleted 3 "ai"), (fun b => (base_path b, num_aie_slots b, length <$> slots b)) <$> base_designs d !! 0%nat)))
    = inl ("0:operating"%string, true, Some ("User"%string, 2, None)) /\
  answer (session (
    let! _ := handle_event (deleted 3 "ai") in
    let! _ := ask USER_LOAD "/tmp/a.bin" in
    ask UNLOAD_ACCEL "5")) = inr NullDeref.
Proof. vm_compute. by split. Qed.

(** The directory of a loaded base leaves: its accelerator keeps its handle, and
    unloading it is refused. *)
Lemma forgotten_base_keeps_its_handle :
  answer (session (
    let! loaded := ask LOAD_ACCEL "acc" in
    let! d0 := getd in
    let! _ := handle_event (deleted 3 "dfx") in
    let! unloaded := ask UNLOAD_ACCEL "0" in
    let! d := getd in
    ret (loaded, drops_base d0 (deleted 3 "dfx"), unloaded, available_slot_handle (platform d) !! 0%nat, active_base (platform d))))
    = inl ("0:operating"%string, true, "-1"%string, Some 1, Some 1%nat).
Proof. vm_compute. done. Qed.

(** A shell.json in the directory of a package is taken for that of the base: the
    base gets its slots. *)
Lemma package_shell_json_reconfigures_base :
  answer (session (
    edit ;;
    let! d := getd in
    let e := written 11 "shell.json" in
    let! _ := handle_event e in
    let! d' := getd in
    ret (misreads_base d e, num_pl_slots <$> base_designs d !! 1%nat, num_pl_slots <$> base_designs d' !! 1%nat)))
    = inl (true, Some 2, Some 7).
Proof. vm_compute. done. Qed.

(** An accel.json in a directory directly below a firmware location is looked up
    under the empty path, which any base with a free accelerator has: writing
    /fw/dfx/accel.json gives the base in /fw/ai a nameless accelerator. *)
Lemma accel_json_joins_wrong_base :
  answer (session (
    edit ;;
    let! _ := handle_event (written 7 "accel.json") in
    let! d' := getd in
    ret ((fun b => (base_path b, (fun a => (a_name a, a_path a, a_parent_path a)) <$> accel_list b !! 0%nat)) <$> base_designs d' !! 0%nat)))
    = inl (Some ("/fw/ai", Some ("", "/fw", "/fw/ai")))%string.
Proof. vm_compute. done. Qed.

(** With a user load in the first entry, that accelerator becomes the user load's. *)
Lemma accel_json_joins_user_load :
  answer (session (
    let! _ := handle_event (deleted 3 "ai") in
    let! _ := ask USER_LOAD "/tmp/a.bin" in
    edit ;;
    let! d := getd in
    let e := written 7 "accel.json" in
    let! _ := handle_event e in
    let! d' := getd in
    ret (fills_user d e, (fun b => (is_user_load b, a_path <$> accel_list b !! 0%nat)) <$> base_designs d' !! 0%nat)))
    = inl (true, Some (true, Some "/fw"%string)).
Proof. vm_compute. done. Qed.
