(* ===== verification/LoadSpec.v ===== *)
(** * Loading and unloading

    What the load and unload entry points promise: who owns a handle afterwards,
    which requests are refused, and that unloading undoes loading. *)
From S2P Require Import Prelude CStr Env Model UserLoad Json Accel Rpu Pdi Slots Invariant ListIds TablesWp.
From S2P Require Import ListIdFacts Load LoadSafe Unload UnloadSafe UserSafe Registry Eeprom Events Listing.
From S2P Require Import Proto Client Frame RequestSafe StartSafe Handles Owners Returns Sample Reach.
Open Scope Z_scope.
Open Scope dfx_scope.

Section LoadSpec.
Context {W : Type} `{Env W}.
Implicit Types (s : sys W).

Lemma load_name_wp name cma fs sz i s :
  ready (dm s) -> findBaseDesign (dm s) name = Some i ->
  wp (shell_fault (W := W)) (load_accelerator name cma fs sz)
     (fun r s' => load_post (dm s) i name r.1 (dm s') /\ loaded_into (dm s) i name r.1 (dm s')) s.
Proof.
  intros [Hwf Hp] Ef. unfold wp. rewrite (load_no_walk name cma fs sz s Hp), Ef.
  apply find_index_lookup in Ef as (b & Hi & Hn). apply andb_true_iff in Hn as [Huse _].
  pose proof (load_core_returns i name cma fs sz _ s Hwf (load_core_wp i b name cma fs sz s Hwf Hi Huse)) as Hr.
  apply (wp_within fresh_owners _ _ _ _ (within_load_core _ i name cma fs sz)) in Hr.
  refine (wp_mono _ _ _ _ _ Hr _). intros r s' [Hpost [_ Htr]]. split; [done|by apply load_post_into].
Qed.

(** C8: Loading a package by name, in a reachable state in which no walk of the
    firmware directories is due ([walked]), when a base design has that name
    ([findBaseDesign()] finds it): either it puts the package into a slot of that
    base, under the least free handle, which it returns, or it returns an error
    code; whatever else is loaded keeps its slot and its handle. It returns,
    unless the reader of shell.json stops on a key that is the last token of the
    file. *)
Theorem load_takes_one_handle m s name cma fs sz i :
  walked m s -> findBaseDesign (dm s) name = Some i ->
  wp (shell_fault (W := W)) (load_accelerator name cma fs sz)
     (fun r s' => wf (dm s') /\
        ((exists h k b x, r.1 = Z.of_nat h /\ alloc_step (ledger (dm s)) (Take h (OSlot i k)) (ledger (dm s')) /\
            bases s' !! i = Some b /\ slot_list b !! k = Some (Some x) /\ slot_handle x = r.1 /\
            s_name x = trunc ACCEL_NAME_MAX name) \/
         (is_error r.1 /\ ledger (dm s') = ledger (dm s)))) s.
Proof. intros Hs%walked_ready Hf. eapply wp_mono; [by apply load_name_wp|]. intros r s' [[Hwf' _] Hl]. by split. Qed.

(** C9: Unloading a handle that a slot owns always returns, whatever libdfx or
    remoteproc answer; it frees that handle, which nobody owns then, and takes no
    other handle from its owner. *)
Theorem unload_frees_owned_handle m s i k h :
  reachable m s -> owns (dm s) (OSlot i k) h ->
  safe (unload_accelerator (Z.of_nat h)) (fun _ s' => wf (dm s') /\ ledger (dm s') = delete h (ledger (dm s))) s.
Proof.
  intros Hwf%reachable_inv Ho. eapply unload_owned_returns; [done..|].
  eapply wp_mono; [by eapply unload_owned_ledger|]. by intros r s' (? & _ & ?).
Qed.

(** Unloading a handle that nobody owns is refused with -1 and changes
    nothing at all. *)
Theorem unload_unowned_refused m s h :
  reachable m s -> (forall o, ~ owns (dm s) o h) -> unload_accelerator (Z.of_nat h) s = Ret (-1) s.
Proof. intros Hwf%reachable_inv. by apply unload_nobody. Qed.

(** C11: Unloading undoes loading, in a reachable state in which no walk of the
    firmware directories is due ([walked]): after a load by name and the unload of
    the handle it returned, every handle has the owner it had before, or none.
    Only the reader of shell.json can stop it, on a key that is the last token. *)
Theorem load_unload_round_trip m s name cma fs sz :
  walked m s ->
  wp (shell_fault (W := W)) (let! r := load_accelerator name cma fs sz in
                if 0 <=? r.1 then unload_accelerator r.1 else ret 0)
     (fun _ s' => wf (dm s') /\ ledger (dm s') = ledger (dm s)) s.
Proof.
  intros Hs%walked_ready. apply wp_bind. destruct (findBaseDesign (dm s) name) as [i|] eqn:Ef.
  2: { unfold wp at 1. rewrite (load_no_walk name cma fs sz s (proj2 Hs)), Ef. apply wp_ret. by split; [apply Hs|]. }
  eapply wp_mono; [by apply load_name_wp|].
  intros [r fs'] s1 [[Hwf _] [(h & k & b & x & Hr & Hst & Hi & Hx & Hh & _)|[He Hl]]]; cbn [fst] in *.
  - subst r. rewrite (proj2 (Z.leb_le 0 (Z.of_nat h))) by lia. assert (Ho : owns (dm s1) (OSlot i k) h) by (by exists b, x).
    eapply wp_safe, unload_owned_returns; [done..|]. eapply wp_mono; [by eapply unload_owned_ledger|].
    intros r' s2 (Hwf2 & _ & Hl2). split; [done|]. rewrite Hl2. by eapply take_free_ledger.
  - rewrite (proj2 (Z.leb_gt 0 r)) by (unfold is_error in He; lia). by apply wp_ret.
Qed.

(** C10: Unloading undoes a user load, always: in every reachable state
    [user_load()] returns, and unloading the handle that it returned returns and
    leaves every handle with the owner it had before the load. *)
Theorem user_load_unload_round_trip m s flag ff bin ov region key fs sz :
  reachable m s ->
  safe (let! r := user_load flag ff bin ov region key fs sz in
        if 0 <=? r.1 then unload_accelerator r.1 else ret 0)
     (fun _ s' => wf (dm s') /\ ledger (dm s') = ledger (dm s)) s.
Proof.
  intros Hwf%reachable_inv. apply wp_bind.
  eapply wp_mono; [apply (wp_within fresh_owners); [auto with within|by apply user_load_returns]|].
  intros [r fs'] s1 [[Hwf1 Hpost] [_ Htr]]. cbn [fst] in *. destruct Hpost as [(Ht & i & b & Hi & Hu & Hh & Hact)|[Hr Ht]].
  2: { rewrite (proj2 (Z.leb_gt 0 r)) by lia. apply wp_ret. split; [done|]. by apply ledger_keep. }
  destruct (ledger_take _ _ Hwf Hwf1 Htr r Ht) as [(h & -> & Hst)|[-> Hk]]; [|by apply wp_ret].
  rewrite (proj2 (Z.leb_le 0 (Z.of_nat h))) by lia. assert (Ho : owns (dm s1) (OUser i) h) by (by exists b).
  apply (unload_user_returns i); [done|].
  eapply wp_mono; [apply (wp_within no_new); [auto with within|by eapply unload_user_wp]|]. intros r' s2 [[Hwf2 Hr] Hn].
  assert (Hb : unload_busy (dm s1) i b = false).
  { unfold unload_busy. destruct (user_load_type b); [done|]. rewrite (Hact eq_refl). by rewrite andb_false_r. }
  rewrite Hb in Hr. destruct Hr as [_ Hf]. split; [done|].
  rewrite (ledger_frees _ _ Hwf1 Hwf2 (no_new_traces _ _ Hn) h Hf). by eapply take_free_ledger, Hst.
Qed.

(** ** Everything that is loaded can be unloaded *)

(** Every user load has a handle, by which it can be named. *)
Definition users_have_handles (d : daemon) : Prop :=
  forall i b, base_designs d !! i = Some b -> is_user_load b = true -> 0 <= user_load_handle b.

Lemma users_shrink d d' : shrinks d d' -> users_have_handles d -> users_have_handles d'.
Proof.
  intros Hs Hu i b' Hi Hub. destruct (Hs i b' Hi) as (b & Hb & Hsh).
  destruct (Hsh None (user_load_handle b') (conj Hub eq_refl)) as [Hub0 <-]. by eapply Hu.
Qed.

(** What can be unloaded now: what a slot holds, and a user load without partial
    loads on it. *)
Definition idle_owner (d : daemon) (o : owner) : Prop :=
  match o with
  | OSlot _ _ => True
  | OUser i => exists b, base_designs d !! i = Some b /\ unload_busy d i b = false
  end.

(** A full user load that cannot be unloaded is under partial ones that can. *)
Lemma some_idle_owner d : wf d -> users_have_handles d -> ledger d <> ∅ -> exists h o, owns d o h /\ idle_owner d o.
Proof.
  intros Hwf Hu [h [o Ho]]%map_choose. apply ledger_owns in Ho; [|done]. destruct o as [i k|i]; [by exists h, (OSlot i k)|].
  pose proof Ho as (b & Hi & Hub & Hh). destruct (unload_busy d i b) eqn:Eb; [|by exists h, (OUser i); split; [|exists b]].
  unfold unload_busy in Eb. apply andb_true_iff in Eb as [[Ety Ea]%andb_true_iff Hact%Z.ltb_lt].
  apply bool_decide_eq_true in Ea. destruct (wf_role _ _ _ _ Hwf i b Hi) as (HA & _).
  destruct (HA (proj2 (points_to_true _ _) Ea)) as [(_ & _ & Hn)|(_ & _ & Hs & _)].
  2: { destruct (ew_blank b (wf_entry _ _ _ _ Hwf i b Hi) Hub) as (_ & _ & ?). by destruct Hs. }
  destruct (sum_pos (fun b => if is_partial b then 1 else 0)%nat (base_designs d)) as (j & c & Hj & Hc); [unfold partials in Hn; lia|].
  destruct (is_partial c) eqn:Ep; [|done]. unfold is_partial in Ep. apply andb_true_iff in Ep as [Huc Htc].
  pose proof (Hu j c Hj Huc). exists (Z.to_nat (user_load_handle c)), (OUser j). split.
  - exists c. split_and!; [done|done|lia].
  - exists c. split; [done|]. unfold unload_busy. by rewrite Htc.
Qed.

Lemma unload_idle o h s :
  wf (dm s) -> owns (dm s) o h -> idle_owner (dm s) o ->
  safe (unload_accelerator (Z.of_nat h))
       (fun _ s' => (wf (dm s') /\ shrinks (dm s) (dm s')) /\ ledger (dm s') = delete h (ledger (dm s))) s.
Proof.
  intros Hwf Ho Hidle.
  assert (Hrun : safe (unload_accelerator (Z.of_nat h)) (fun _ s' => wf (dm s') /\ frees (dm s) (dm s') (Z.of_nat h)) s).
  { destruct o as [i k|i]; [by eapply unload_owned_returns, unload_owned_wp|].
    apply (unload_user_returns i); [done|]. destruct Ho as (b & Hi & Hu & Hh), Hidle as (b' & Hi' & Hb).
    assert (b' = b) as -> by congruence. eapply wp_mono; [by eapply unload_user_wp|]. rewrite Hb. by intros r s' [? [_ ?]]. }
  eapply wp_mono; [apply (wp_within shrinks); [auto with within|exact Hrun]|]. intros r s' [[Hwf' Hf] Hsh].
  split; [done|]. apply ledger_frees; [done|done|by apply no_new_traces, no_new_entries|done].
Qed.

Abbreviation unload_all := (for_each (fun h => let! _ := unload_accelerator (W := W) (Z.of_nat h) in ret tt)).

Lemma unload_everything n : forall s,
  wf (dm s) -> users_have_handles (dm s) -> size (ledger (dm s)) = n ->
  exists hs, hs ≡ₚ (map_to_list (ledger (dm s))).*1 /\ safe (unload_all hs) (fun _ s' => wf (dm s') /\ ledger (dm s') = ∅) s.
Proof.
  induction n as [|n IH]; intros s Hwf Hu Hn.
  - apply map_size_empty_inv in Hn. exists []. rewrite Hn, map_to_list_empty. split; [done|]. by apply wp_ret.
  - destruct (some_idle_owner (dm s) Hwf Hu) as (h & o & Ho & Hidle); [intros E; by rewrite E, map_size_empty in Hn|].
    pose proof (unload_idle o h s Hwf Ho Hidle) as Hs. apply safe_ret in Hs as (r & s1 & E & [Hwf1 Hsh] & Hl).
    assert (Hh : ledger (dm s) !! h = Some o) by by apply ledger_owns.
    destruct (IH s1 Hwf1 (users_shrink _ _ Hsh Hu)) as (hs & Hp & Hs).
    { rewrite Hl, map_size_delete, Hh. lia. }
    exists (h :: hs). split.
    + rewrite <- (map_to_list_delete _ _ _ Hh), Hp, Hl. done.
    + cbn [for_each]. apply wp_bind, wp_bind. unfold wp at 1. rewrite E. by apply wp_ret.
Qed.


(** Two slots of one base that hold something are two occupied slots. *)
Lemma two_occupied b k l x y :
  slot_list b !! k = Some (Some x) -> slot_list b !! l = Some (Some y) -> (occupied b <= 1)%nat -> k = l.
Proof.
  intros Hx Hy Ho. destruct (decide (k = l)) as [|Hne]; [done|].
  pose proof (sum_two is_occupied _ _ _ _ _ Hne Hx Hy). simpl in *. unfold occupied in Ho. lia.
Qed.

(** C13: Programmable logic is exclusive: two loaded slots of PL base designs are
    slots of the same base, and of a flat base there is only one. *)
Theorem pl_loads_are_exclusive m s i k h j l h' b c :
  reachable m s -> owns (dm s) (OSlot i k) h -> owns (dm s) (OSlot j l) h' ->
  bases s !! i = Some b -> bases s !! j = Some c -> b_type b <> "RPU"%string -> b_type c <> "RPU"%string ->
  i = j /\ (is_flat_type (b_type b) = true -> k = l).
Proof.
  intros Hwf%reachable_inv Ho Ho' Hi Hj Hb Hc.
  assert (Hact : forall i k h b, owns (dm s) (OSlot i k) h -> bases s !! i = Some b -> b_type b <> "RPU"%string ->
                   pl_base s = Some i).
  { intros i0 k0 h0 b0 Ho0 Hi0 Ht0. destruct (slot_owner_active _ _ _ _ Hwf Ho0) as [|Er]; [done|].
    by destruct (active_rpu_facts _ _ _ Hwf Er Hi0) as (_ & ? & _). }
  pose proof (Hact _ _ _ _ Ho Hi Hb) as Ei. pose proof (Hact _ _ _ _ Ho' Hj Hc) as Ej.
  assert (i = j) as <- by congruence. split; [done|]. intros Hflat.
  pose proof (wf_entry _ _ _ _ Hwf i b Hi) as Hb0. destruct (wf_role _ _ _ _ Hwf i b Hi) as (HA & _).
  destruct Ho as (b0 & x & Hi0 & Hx & _), Ho' as (c0 & y & Hj0 & Hy & _).
  assert (b0 = b) as -> by congruence. assert (c0 = b) as -> by congruence.
  destruct (HA (proj2 (points_to_true _ _) Ei)) as [(Hu & _)|(_ & _ & _ & _ & _ & Ho1)].
  - destruct (ew_blank b Hb0 Hu) as (_ & _ & Hs). unfold slot_list in Hx. by rewrite Hs in Hx.
  - apply (two_occupied b k l x y Hx Hy). auto.
Qed.
End LoadSpec.

(** *** Witnesses *)

Lemma load_takes_one_handle_witness :
  exists s', load_accelerator "acc" None None 0 started = Ret (0, None) s' /\ wf (dm s').
Proof.
  exists (after (load_accelerator "acc" None None 0) started).
  assert (E : load_accelerator "acc" None None 0 started = Ret (0, None) (after (load_accelerator "acc" None None 0) started))
    by (vm_compute; reflexivity).
  split; [exact E|].
  refine (proj1 (wp_returns _ _ _ _ _ _
    (load_takes_one_handle board started "acc" None None 0 2 started_walked _) E)). vm_compute. reflexivity.
Defined.

Lemma unload_frees_owned_handle_witness :
  exists r s', unload_accelerator 0 with_slot = Ret r s' /\ ledger (dm s') = delete 0%nat (ledger (dm with_slot)).
Proof.
  destruct (after_ret (unload_accelerator 0) with_slot) as [r E]; [vm_compute; reflexivity|].
  exists r, (after (unload_accelerator 0) with_slot). split; [exact E|].
  refine (proj2 (wp_returns _ _ _ _ _ _
    (unload_frees_owned_handle board with_slot 2 0 0 with_slot_reachable _) E)).
  apply owns_slot_true. vm_compute. reflexivity.
Defined.

Lemma unload_unowned_refused_witness : unload_accelerator 3 with_slot = Ret (-1) with_slot.
Proof.
  apply (unload_unowned_refused board with_slot 3 with_slot_reachable).
  intros o Ho. apply owns_marked in Ho; [|exact (reachable_inv _ _ with_slot_reachable)].
  vm_compute in Ho. discriminate Ho.
Defined.

Lemma load_unload_round_trip_witness :
  exists r s', (let! r := load_accelerator "flat" None None 0 in
                if 0 <=? r.1 then unload_accelerator r.1 else ret 0) started = Ret r s' /\ ledger (dm s') = ledger (dm started).
Proof.
  match goal with |- exists r s', ?m started = _ /\ _ => destruct (after_ret m started) as [r E]; [vm_compute; reflexivity|] end.
  eexists r, _. split; [exact E|].
  exact (proj2 (wp_returns _ _ _ _ _ _ (load_unload_round_trip board started "flat" None None 0 started_walked) E)).
Defined.

Lemma user_load_unload_round_trip_witness :
  exists r s', (let! r := user_load 0 0 (Some "/tmp/a.bin"%string) None None None None 0 in
                if 0 <=? r.1 then unload_accelerator r.1 else ret 0) started = Ret r s' /\ ledger (dm s') = ledger (dm started).
Proof.
  destruct (proj1 (safe_ret _ _ _)
    (user_load_unload_round_trip board started 0 0 (Some "/tmp/a.bin"%string) None None None None 0 started_reachable))
    as (r & s' & E & _ & Ht).
  exists r, s'. exact (conj E Ht).
Defined.

(** Two accelerators loaded into the slots of one base. *)
Lemma pl_loads_are_exclusive_witness :
  owns (dm with_slots) (OSlot 2 0) 0 /\ owns (dm with_slots) (OSlot 2 1) 1 /\
  (2 = 2)%nat /\ (is_flat_type (b_type (nth_base with_slots 2)) = true -> (0 = 1)%nat).
Proof.
  assert (Ho : owns (dm with_slots) (OSlot 2 0) 0) by (apply owns_slot_true; vm_compute; reflexivity).
  assert (Ho' : owns (dm with_slots) (OSlot 2 1) 1) by (apply owns_slot_true; vm_compute; reflexivity).
  split; [exact Ho|]. split; [exact Ho'|].
  apply (pl_loads_are_exclusive board with_slots 2 0 0 2 1 1 (nth_base with_slots 2) (nth_base with_slots 2)
           with_slots_reachable Ho Ho'); vm_compute; (reflexivity || discriminate).
Defined.

(** A full user load with a partial one on it: unloading the full one first is
    refused. *)
Definition with_users : sys unit :=
  after (process_dfx_req (Message (request_id USER_LOAD) 0 USER_LOAD_PARTIAL 0 "/tmp/b.bin")) with_user.
Lemma with_users_reachable : reachable board with_users.
Proof.
  apply after_request_walked; [|vm_compute; reflexivity]. apply after_request_walked; [exact started_walked|vm_compute; reflexivity].
Qed.
Lemma with_users_handles : users_have_handles (dm with_users).
Proof.
  assert (Hall : forallb (fun b => negb (is_user_load b) || (0 <=? user_load_handle b)) (bases with_users) = true)
    by (vm_compute; reflexivity).
  intros i b Hi Hu. rewrite forallb_forall in Hall. specialize (Hall b (proj1 (list_elem_of_In _ _) (list_elem_of_lookup_2 _ _ _ Hi))).
  rewrite Hu in Hall. by apply Z.leb_le.
Qed.

