(* ===== verification/Refusals.v ===== *)
(** * Refusals

    When loads and unloads are refused to protect what is in the programmable
    logic, and that a refusal changes nothing. *)
From S2P Require Import Prelude CStr Env Model UserLoad Json Accel Rpu Pdi Slots Invariant ListIds TablesWp.
From S2P Require Import ListIdFacts Load LoadSafe Unload UnloadSafe UserSafe Registry Eeprom Events Listing.
From S2P Require Import Proto Client Frame RequestSafe StartSafe Handles Sample Reach.
Open Scope Z_scope.
Open Scope dfx_scope.

Section Refusals.
Context {W : Type} `{Env W}.
Implicit Types (s : sys W).

Lemma new_slot_wp F Q s : (forall x, Q x s) -> wp F new_slot Q s.
Proof. intros HQ. apply wp_in_hw, wp_in_world, wp_look. destruct s as [d [ds sh ck w]]. apply HQ. Qed.

Lemma managed_false d j : active_base (platform d) = Some j -> is_base_externally_managed d = false.
Proof. intros E. unfold is_base_externally_managed. by rewrite E. Qed.

Lemma managed_true d i b :
  active_base (platform d) = None -> base_designs d !! i = Some b -> is_partial b = true ->
  is_base_externally_managed d = true.
Proof.
  intros E Hi Hp. unfold is_base_externally_managed. rewrite E. apply existsb_exists. exists b.
  split; [by eapply list_elem_of_In, list_elem_of_lookup_2|exact Hp].
Qed.

(** A package with a loaded slot is the active PL base, and counts it. *)
Lemma loaded_pl_base d i k h b :
  wf d -> owns d (OSlot i k) h -> base_designs d !! i = Some b -> b_type b <> "RPU"%string ->
  active_base (platform d) = Some i /\ is_user_load b = false /\ is_pl_type (b_type b) = true /\ 0 < active b.
Proof.
  intros Hwf Ho Hi Ht. destruct (slot_owner_active _ _ _ _ Hwf Ho) as [Ea|Er].
  2: { by destruct (active_rpu_facts _ _ _ Hwf Er Hi) as (_ & ? & _). }
  split; [done|]. destruct Ho as (b0 & x & Hi0 & Hx & _). assert (b0 = b) as -> by congruence.
  pose proof (sum_lookup_le is_occupied _ _ _ Hx) as Hocc. simpl in Hocc.
  pose proof (wf_entry _ _ _ _ Hwf i b Hi) as Hb. destruct (wf_role _ _ _ _ Hwf i b Hi) as (HA & _).
  destruct (HA (proj2 (points_to_true _ _) Ea)) as [(Hu & _)|(Hp & Hty & _ & Hact & _)].
  - destruct (ew_blank b Hb Hu) as (_ & _ & Hs). unfold slot_list in Hx. by rewrite Hs in Hx.
  - split; [by apply package_not_user|]. split; [done|]. unfold occupied in Hact. lia.
Qed.

(** A base design is never removed under its accelerators: while a slot of
    the active PL base is loaded, [unload_accel_base()] answers -1 and does
    nothing at all. *)
Theorem base_kept_under_accelerators m s i k h b :
  reachable m s -> owns (dm s) (OSlot i k) h -> bases s !! i = Some b -> b_type b <> "RPU"%string ->
  unload_accel_base s = Ret (-1) s.
Proof.
  intros Hwf%reachable_inv Ho Hi Ht. destruct (loaded_pl_base _ _ _ _ _ Hwf Ho Hi Ht) as (Ea & _ & _ & Hact).
  assert (Hs : safe unload_accel_base (fun r s' => r = -1 /\ s' = s) s).
  { apply wp_bind, wp_gp. rewrite Ea. apply wp_bind. eapply wp_getb; [done|].
    destruct (negb (streq _ _)); [by apply wp_ret|].
    destruct (Z.eqb_spec (active b) 0); [lia|]. by apply wp_ret. }
  apply safe_ret in Hs as (r & s' & -> & -> & ->). done.
Qed.

(** C23: A full bitstream is never loaded over logic in use: while a slot of a PL
    base is loaded, or a partial user load is registered, a user load that is not
    partial is refused and changes nothing. *)
Theorem full_load_needs_idle_logic m s flag ff bin ov region key fs sz :
  reachable m s -> flag_set flag USER_LOAD_PARTIAL = false ->
  (exists i k h b, owns (dm s) (OSlot i k) h /\ bases s !! i = Some b /\ b_type b <> "RPU"%string) \/
  (exists i b, bases s !! i = Some b /\ is_partial b = true) ->
  exists r, r < 0 /\ user_load flag ff bin ov region key fs sz s = Ret (r, fs) s.
Proof.
  intros Hwf%reachable_inv Hfull Huse.
  assert (Hs : safe (user_load flag ff bin ov region key fs sz) (fun r s' => r.1 < 0 /\ r.2 = fs /\ s' = s) s).
  2: { apply safe_ret in Hs as ([r f] & s' & E & Hr & Hf & ->). simpl in *. subst f. by exists r. }
  apply (wp_seq _ (fun e s' => s' = s /\ match e with Some r => r < 0 | None =>
           active_base (platform (dm s)) = None /\ is_base_externally_managed (dm s) = true end)).
  - apply wp_bind, wp_gp. destruct (negb (ff =? 0) && _); [by apply wp_ret|]. apply wp_bind, wp_gp.
    destruct Huse as [(i & k & h & b & Ho & Hi & Ht)|(i & b & Hi & Hp)].
    + destruct (loaded_pl_base _ _ _ _ _ Hwf Ho Hi Ht) as (Ea & Hu & Hty & Hact). rewrite Ea.
      apply wp_bind. eapply wp_getb; [done|]. rewrite Hu. cbn [andb]. unfold is_pl_type in Hty.
      destruct (is_flat_type (b_type b)); [by apply wp_ret|]. simpl in Hty. rewrite Hty.
      destruct (Z.ltb_spec 0 (active b)); [by apply wp_ret|lia].
    + destruct (pl_base s) as [j|] eqn:Ea; [|apply wp_ret; split; [done|]; split; [done|by eapply managed_true]].
      destruct (active_base_at _ _ Hwf Ea) as [c Hj]. apply wp_bind. eapply wp_getb; [done|].
      destruct (wf_role _ _ _ _ Hwf j c Hj) as (HA & _).
      destruct (HA (proj2 (points_to_true _ _) Ea)) as [(Hu & _)|(_ & _ & _ & _ & Hz & _)].
      * rewrite Hu, Hfull. by apply wp_ret.
      * pose proof (sum_lookup_le (fun b => if is_partial b then 1 else 0)%nat _ _ _ Hi) as Hle. simpl in Hle.
        rewrite Hp in Hle. unfold partials in Hz. lia.
  - intros e s' [-> He]. destruct e as [r|]; [by apply wp_ret|]. destruct He as [Ea Hm].
    apply wp_bind, wp_bind, wp_gp, wp_bind, wp_getd. rewrite Hfull, Hm. simpl. by apply wp_ret.
Qed.

(** A flat design is not loaded over a base in use: [load_accelerator_core()]
    answers "no empty slot" and leaves the handles and the active base alone. *)
Theorem flat_load_needs_idle_base m s i b j c name cma fs sz :
  reachable m s -> bases s !! i = Some b -> is_flat_type (b_type b) = true ->
  pl_base s = Some j -> bases s !! j = Some c -> 0 < active c ->
  safe (load_accelerator_core i name cma fs sz)
       (fun r s' => r = (- DFX_MGR_NO_EMPTY_SLOT_ERROR, fs) /\ table s' = table s /\ pl_base s' = Some j) s.
Proof.
  intros Hwf%reachable_inv Hi Hf Ea Hj Hact.
  apply wp_bind, new_slot_wp. intros slot. apply wp_bind. eapply wp_getb; [exact Hi|]. apply wp_bind, wp_getd. cbv zeta.
  rewrite (managed_false _ _ Ea), Hf. cbn [andb]. apply wp_bind. eapply wp_alloc; [exact Hi|].
  apply wp_bind, wp_gp. simpl. rewrite Ea.
  assert (Hj' : exists c', <[i := allocated b]> (bases s) !! j = Some c' /\ active c' = active c).
  { destruct (decide (i = j)) as [->|Hne].
    - exists (allocated b). rewrite list_lookup_insert_eq by (by apply lookup_lt_Some in Hi).
      assert (c = b) as -> by congruence. split; [done|]. unfold allocated. by destruct (slots b).
    - exists c. by rewrite list_lookup_insert_ne. }
  destruct Hj' as (c' & Hj' & Hc'). apply wp_bind, wp_bind. eapply wp_getb; [exact Hj'|]. apply wp_ret.
  destruct (Z.ltb_spec 0 (active c')); [|lia]. by apply wp_ret.
Qed.

(** C24: When every slot of the active PL base is taken, loading one more of its
    accelerators answers "no empty slot" and changes nothing. *)
Theorem full_base_refuses_load m s i b l name ai cma fs sz :
  reachable m s -> pl_base s = Some i -> bases s !! i = Some b -> b_type b = "PL_DFX"%string ->
  accel_in_base b name = Some ai -> a_parent_path ai = base_path b -> slots b = Some l ->
  (forall k, (k < num_slots b)%nat -> exists x, l !! k = Some (Some x)) -> (0 < num_slots b)%nat ->
  safe (load_accelerator_core i name cma fs sz)
       (fun r s' => r = (- DFX_MGR_NO_EMPTY_SLOT_ERROR, fs) /\ s' = s) s.
Proof.
  intros Hwf%reachable_inv Ea Hi Ht Hai Hpar Hl Hall Hn.
  apply wp_bind, new_slot_wp. intros slot. apply wp_bind. eapply wp_getb; [exact Hi|]. apply wp_bind, wp_getd. cbv zeta.
  rewrite (managed_false _ _ Ea), Hai, Ht. cbn [andb]. change (is_flat_type "PL_DFX") with false. cbv iota.
  change (streq "PL_DFX" "PL_DFX" || streq "PL_DFX" "RPU") with true. cbv iota.
  apply wp_bind. eapply wp_getb; [exact Hi|]. rewrite Ht. cbv zeta. apply wp_bind.
  change (streq "PL_DFX" "PL_DFX") with true. change (streq "PL_DFX" "RPU") with false. cbv iota.
  assert (Hact : 0 < active b).
  { destruct (Hall 0%nat Hn) as [x Hx]. destruct (wf_role _ _ _ _ Hwf i b Hi) as (HA & _).
    destruct (HA (proj2 (points_to_true _ _) Ea)) as [(Hu & _)|(_ & _ & _ & -> & _)].
    - destruct (ew_blank b (wf_entry _ _ _ _ Hwf i b Hi) Hu) as (_ & _ & Hs). congruence.
    - assert (Hx' : slot_list b !! 0%nat = Some (Some x)) by (unfold slot_list; by rewrite Hl).
      pose proof (sum_lookup_le is_occupied _ _ _ Hx'). simpl in *. unfold occupied. lia. }
  apply wp_bind, wp_bind, wp_gp. rewrite Ea. apply wp_bind. eapply wp_getb; [exact Hi|].
  destruct (Z.eqb_spec (active b) 0); [lia|]. cbn [andb]. rewrite Hpar, streq_refl, andb_false_r.
  apply wp_ret. cbn [negb]. apply wp_bind, wp_gp. rewrite Ea. apply wp_ret. cbn [negb andb].
  apply wp_bind. eapply wp_mono.
  - apply (wp_for_ret_scan _ _ (fun _ r => r = None)). intros k Hk%elem_of_seq.
    destruct (Hall k) as [x Hx]; [lia|]. apply wp_bind. eapply wp_get_slot; [exact Hi|exact Hl|exact Hx|]. by apply wp_ret.
  - intros [v|] s' [-> Hr]; [by destruct Hr as (x & _ & ?)|]. by apply wp_ret.
Qed.
End Refusals.

(** *** Witnesses *)

Lemma base_kept_under_accelerators_witness : unload_accel_base with_slot = Ret (-1) with_slot.
Proof.
  apply (base_kept_under_accelerators board with_slot 2 0 0 (nth_base with_slot 2) with_slot_reachable).
  - apply owns_slot_true. vm_compute. reflexivity.
  - vm_compute. reflexivity.
  - vm_compute. discriminate.
Defined.

Lemma full_load_needs_idle_logic_witness :
  exists r, r < 0 /\ user_load 0 0 (Some "/tmp/a.bin"%string) None None None None 0 with_slot = Ret (r, None) with_slot.
Proof.
  apply (full_load_needs_idle_logic board with_slot); [exact with_slot_reachable|vm_compute; reflexivity|].
  left. exists 2%nat, 0%nat, 0%nat, (nth_base with_slot 2). split; [apply owns_slot_true; vm_compute; reflexivity|].
  split; vm_compute; [reflexivity|discriminate].
Defined.

Lemma flat_load_needs_idle_base_witness :
  exists s', load_accelerator_core 1 "other" None None 0 with_flat = Ret (-3, None) s' /\ pl_base s' = Some 0%nat.
Proof.
  destruct (after_ret (load_accelerator_core 1 "other" None None 0) with_flat) as [r E]; [vm_compute; reflexivity|].
  exists (after (load_accelerator_core 1 "other" None None 0) with_flat).
  destruct (wp_returns _ _ _ _ _ _
    (flat_load_needs_idle_base board with_flat 1 (nth_base with_flat 1) 0 (nth_base with_flat 0) "other" None None 0
       with_flat_reachable ltac:(vm_compute; reflexivity) ltac:(vm_compute; reflexivity) ltac:(vm_compute; reflexivity)
       ltac:(vm_compute; reflexivity) ltac:(vm_compute; reflexivity)) E) as (Hr & _ & Hp).
  rewrite E, Hr. split; [reflexivity|exact Hp].
Defined.

Lemma full_base_refuses_load_witness :
  exists s', load_accelerator_core 2 "acc" None None 0 with_slots = Ret (-3, None) s' /\ s' = with_slots.
Proof.
  destruct (after_ret (load_accelerator_core 2 "acc" None None 0) with_slots) as [r E]; [vm_compute; reflexivity|].
  exists (after (load_accelerator_core 2 "acc" None None 0) with_slots).
  assert (Hall : forall k, (k < num_slots (nth_base with_slots 2))%nat ->
            exists x, slot_list (nth_base with_slots 2) !! k = Some (Some x)).
  { intros k Hk. assert (Hn : num_slots (nth_base with_slots 2) = 2%nat) by (vm_compute; reflexivity).
    rewrite Hn in Hk. destruct k as [|[|k]]; [eexists; vm_compute; reflexivity..|lia]. }
  destruct (wp_returns _ _ _ _ _ _
    (full_base_refuses_load board with_slots 2 (nth_base with_slots 2) (slot_list (nth_base with_slots 2)) "acc"
       (default accel_info0 (accel_list (nth_base with_slots 2) !! 0%nat)) None None 0 with_slots_reachable
       ltac:(vm_compute; reflexivity) ltac:(vm_compute; reflexivity) ltac:(vm_compute; reflexivity)
       ltac:(vm_compute; reflexivity) ltac:(vm_compute; reflexivity) ltac:(vm_compute; reflexivity)
       Hall ltac:(vm_compute; lia)) E) as (Hr & Hs).
  rewrite E, Hr. split; [reflexivity|exact Hs].
Defined.
