(* ===== verification/ListSpec.v ===== *)
(** * Listing, and what a list ID means

    The numbers that [listAccelerators()] shows identify the entries, a lookup
    by number finds the entry, and listing changes nothing but the numbers. *)
From S2P Require Import Prelude CStr Env Model UserLoad Json Accel Rpu Pdi Slots Invariant ListIds TablesWp.
From S2P Require Import ListIdFacts Load LoadSafe Unload UnloadSafe UserSafe Registry Eeprom Events Listing.
From S2P Require Import ListingSafe Proto Client Frame RequestSafe StartSafe Handles Owners Returns Sample Reach.
Open Scope Z_scope.
Open Scope dfx_scope.

(** ** Stamping keeps the number of listed entries *)

Lemma length_packages l l' :
  map a_path l' = map a_path l -> length (List.filter is_package l') = length (List.filter is_package l).
Proof.
  revert l'. induction l as [|a l IH]; intros [|a' l']; simpl; try done. intros [= Ha Hl].
  assert (is_package a' = is_package a) as -> by (unfold is_package; by rewrite Ha).
  destruct (is_package a); simpl; by rewrite (IH _ Hl).
Qed.

Lemma stamp_base_length id b id' b' : stamp_base id b = (id', b') -> length (base_ids b') = length (base_ids b).
Proof.
  unfold stamp_base, base_ids, lists_packages, in_use.
  destruct (negb (ISZERO (base_path b)) && (0 <? num_pl_slots b)) eqn:El.
  - destruct (stamp_accels id (accel_list b)) as [k m] eqn:Es.
    destruct (stamp_accels_spec _ _ _ _ Es) as (_ & _ & _ & _ & Hp).
    simpl. destruct (is_user_load b) eqn:Eu; intros [= <- <-]; simpl; rewrite El, ?Eu;
      by rewrite !length_app, !length_map, (length_packages _ _ Hp).
  - simpl. destruct (is_user_load b) eqn:Eu; intros [= <- <-]; simpl; by rewrite El, ?Eu.
Qed.

Lemma stamp_bases_length id l : length (all_ids (stamp_bases id l)) = length (all_ids l).
Proof.
  revert id. induction l as [|b l IH]; intros id; simpl; [done|].
  destruct (stamp_base id b) as [id' b'] eqn:Eb. unfold all_ids in *. simpl.
  by rewrite !length_app, (stamp_base_length _ _ _ _ Eb), (IH id').
Qed.

(** Stamping again gives the same numbers. *)
Lemma stamp_accels_twice id l : stamp_accels id (stamp_accels id l).2 = stamp_accels id l.
Proof.
  revert id. induction l as [|a l IH]; intros id; simpl; [done|]. destruct (is_package a) eqn:E.
  - specialize (IH (id + 1)). destruct (stamp_accels (id + 1) l) as [k m]. simpl in *.
    assert (is_package (a <| a_list_id := id |>) = true) as E' by exact E. simpl in E'. rewrite E', IH. done.
  - specialize (IH id). destruct (stamp_accels id l) as [k m]. simpl in *. by rewrite E, IH.
Qed.

Lemma stamp_base_twice id b : stamp_base id (stamp_base id b).2 = stamp_base id b.
Proof.
  unfold stamp_base, lists_packages, in_use.
  destruct (negb (ISZERO (base_path b)) && (0 <? num_pl_slots b)) eqn:El.
  - pose proof (stamp_accels_twice id (accel_list b)) as Hs. destruct (stamp_accels id (accel_list b)) as [k m].
    simpl in *. destruct (is_user_load b) eqn:Eu; simpl; rewrite El, Hs, ?Eu; done.
  - destruct (is_user_load b) eqn:Eu; simpl; by rewrite El, ?Eu.
Qed.

Lemma stamp_twice id l : stamp_bases id (stamp_bases id l) = stamp_bases id l.
Proof.
  revert id. induction l as [|b l IH]; intros id; simpl; [done|]. pose proof (stamp_base_twice id b) as Hb.
  destruct (stamp_base id b) as [k b']. simpl in *. by rewrite Hb, IH.
Qed.

Lemma listed_twice d : listed (listed d) = listed d.
Proof. unfold listed, assign_list_ids, record_set. cbn [base_designs]. by rewrite stamp_twice. Qed.

Definition num_listed (d : daemon) : Z := Z.of_nat (length (all_ids (base_designs d))).

Lemma ids_of_listing d : all_ids (base_designs (assign_list_ids d)) = seqZ 1 (num_listed d).
Proof.
  destruct (stamp_bases_spec 1 (base_designs d)) as (n & Hn & Hall & _).
  change (base_designs (assign_list_ids d)) with (stamp_bases 1 (base_designs d)). rewrite Hall. f_equal.
  unfold num_listed. rewrite <- (stamp_bases_length 1), Hall, length_seqZ. lia.
Qed.

(** ** Entries and numbers *)

Lemma elem_all_ids ds id : id ∈ all_ids ds <-> exists i b, ds !! i = Some b /\ id ∈ base_ids b.
Proof.
  unfold all_ids. rewrite list_elem_of_In, in_concat. setoid_rewrite in_map_iff. split.
  - intros (l & (b & <- & Hb) & Hid). apply list_elem_of_In, list_elem_of_lookup in Hb as [i Hi].
    exists i, b. by rewrite list_elem_of_In.
  - intros (i & b & Hi & Hid). exists (base_ids b). rewrite <- !list_elem_of_In. split; [|done].
    exists b. split; [done|]. apply list_elem_of_In. by eapply list_elem_of_lookup_2.
Qed.

Lemma elem_base_ids b id : id ∈ base_ids b <-> exists o, carries b o id.
Proof.
  unfold base_ids. rewrite elem_of_app. split.
  - intros [Hin|Hin].
    + destruct (lists_packages b) eqn:El; [|by apply elem_of_nil in Hin].
      apply list_elem_of_In, in_map_iff in Hin as (a & Ha & Hf%filter_In). destruct Hf as [Hin Hp].
      apply list_elem_of_In, list_elem_of_lookup in Hin as [j Hj]. exists (Some j). split; [done|]. by exists a.
    + destruct (is_user_load b) eqn:Eu; [|by apply elem_of_nil in Hin].
      apply list_elem_of_singleton in Hin. by exists None.
  - intros [[j|] Hc].
    + destruct Hc as (Hl & a & Ha & Hp & <-). left. rewrite Hl. apply list_elem_of_In, in_map_iff. exists a.
      split; [done|]. apply filter_In. split; [|done]. apply list_elem_of_In. by eapply list_elem_of_lookup_2.
    + destruct Hc as [Hu <-]. right. rewrite Hu. by left.
Qed.

(** Without duplicates, a number is at one place only. *)
Lemma NoDup_concat_at {A B} (f : A -> list B) l i j b c x :
  NoDup (concat (map f l)) -> l !! i = Some b -> l !! j = Some c -> x ∈ f b -> x ∈ f c -> i = j.
Proof.
  assert (Hin : forall l j c, l !! j = Some c -> x ∈ f c -> x ∈ concat (map f l)).
  { intros l0 j0 c0 Hj Hx. apply list_elem_of_In, in_concat. exists (f c0). split; [|by apply list_elem_of_In].
    apply in_map, list_elem_of_In. by eapply list_elem_of_lookup_2. }
  revert i j. induction l as [|z l IH]; intros [|i] [|j]; simpl; try done; intros (Hz & Hd & Hl)%NoDup_app.
  - intros [= ->] Hj Hb Hc. by destruct (Hd x Hb (Hin l j c Hj Hc)).
  - intros Hi [= ->] Hb Hc. by destruct (Hd x Hc (Hin l i b Hi Hb)).
  - intros Hi Hj Hb Hc. f_equal. by apply IH.
Qed.

Lemma NoDup_filter_at {A} (g : A -> Z) (p : A -> bool) l i j a b :
  NoDup (map g (List.filter p l)) -> l !! i = Some a -> l !! j = Some b -> p a = true -> p b = true -> g a = g b -> i = j.
Proof.
  assert (Hin : forall l j b, l !! j = Some b -> p b = true -> g b ∈ map g (List.filter p l)).
  { intros l0 j0 b0 Hj Hp. apply list_elem_of_In, in_map, filter_In. split; [|done].
    apply list_elem_of_In. by eapply list_elem_of_lookup_2. }
  revert i j. induction l as [|z l IH]; intros [|i] [|j]; simpl; try done.
  - intros Hnd [= ->] Hj Ha Hb Heq. rewrite Ha in Hnd. simpl in Hnd. apply NoDup_cons in Hnd as [Hn _].
    destruct Hn. rewrite Heq. by eapply Hin.
  - intros Hnd Hi [= ->] Ha Hb Heq. rewrite Hb in Hnd. simpl in Hnd. apply NoDup_cons in Hnd as [Hn _].
    destruct Hn. rewrite <- Heq. by eapply Hin.
  - intros Hnd Hi Hj Ha Hb Heq. f_equal. apply IH; try done.
    destruct (p z); simpl in Hnd; [by apply NoDup_cons in Hnd as [_ ?]|done].
Qed.

Lemma carried_once ds i j b c o o' id :
  NoDup (all_ids ds) -> ds !! i = Some b -> ds !! j = Some c -> carries b o id -> carries c o' id -> i = j /\ o = o'.
Proof.
  intros Hnd Hi Hj Hb Hc. assert (i = j) as <-.
  { apply (NoDup_concat_at base_ids ds i j b c id Hnd Hi Hj); apply elem_base_ids; eauto. }
  split; [done|]. assert (c = b) as -> by congruence.
  assert (Hnb : NoDup (base_ids b)).
  { clear -Hnd Hi. revert i Hi. induction ds as [|z ds IH]; intros [|i]; simpl; try done;
      unfold all_ids in Hnd; simpl in Hnd; apply NoDup_app in Hnd as (Hz & _ & Hl); [by intros [= <-]|by apply IH]. }
  unfold base_ids in Hnb. apply NoDup_app in Hnb as (Hacc & Hdis & _).
  assert (Hmix : forall a j, lists_packages b = true -> is_user_load b = true -> accel_list b !! j = Some a ->
                   is_package a = true -> a_list_id a = list_id b -> False).
  { intros a j Hl Hu Ha Hpa Hid. destruct (Hdis (list_id b)); [|rewrite Hu; by left].
    rewrite Hl, <- Hid. apply list_elem_of_In, in_map, filter_In. split; [|done].
    apply list_elem_of_In. by eapply list_elem_of_lookup_2. }
  destruct o as [j1|], o' as [j2|]; simpl in Hb, Hc; [| | |done].
  - destruct Hb as (Hl & a & Ha & Hpa & Hida), Hc as (_ & a' & Ha' & Hpa' & Hida'). rewrite Hl in Hacc. f_equal.
    apply (NoDup_filter_at a_list_id is_package _ _ _ a a' Hacc); congruence.
  - destruct Hb as (Hl & a & Ha & Hpa & Hida), Hc as (Hu & Hid). destruct (Hmix a j1); congruence.
  - destruct Hc as (Hl & a & Ha & Hpa & Hida), Hb as (Hu & Hid). destruct (Hmix a j2); congruence.
Qed.

(** C21: Stamping numbers the listed entries 1, 2, ..., n in listing order: the
    packages of the bases that have slots, and the user loads. Every listed entry
    gets exactly one number and no number is given twice. *)
Theorem list_ids_are_consecutive d :
  all_ids (base_designs (assign_list_ids d)) = seqZ 1 (Z.of_nat (length (all_ids (base_designs d)))).
Proof. apply ids_of_listing. Qed.

Section ListSpec.
Context {W : Type} `{Env W}.
Implicit Types (s : sys W).

Lemma find_after_listing_wp id s :
  wf (dm s) -> dm s = listed (dm s) ->
  wp lib_fault (find_accel_by_list_id id)
     (fun r s' => s' = s /\
        match r with
        | Some res => 1 <= id <= num_listed (dm s) /\
            exists b, bases s !! res_base res = Some b /\ carries b (res_accel res) id /\
              reports b (res_accel res) (res_slot_handle res) /\
              forall j c o, bases s !! j = Some c -> carries c o id -> j = res_base res /\ o = res_accel res
        | None => ~ 1 <= id <= num_listed (dm s)
        end) s.
Proof.
  intros Hwf Hd.
  assert (Hall : all_ids (bases s) = seqZ 1 (num_listed (dm s))).
  { rewrite <- ids_of_listing. exact (f_equal (fun d => all_ids (base_designs d)) Hd). }
  assert (Hiff : 1 <= id <= num_listed (dm s) <-> exists i b o, bases s !! i = Some b /\ carries b o id).
  { transitivity (id ∈ all_ids (bases s)); [rewrite Hall, elem_of_seqZ; lia|]. rewrite elem_all_ids. split.
    - intros (i & b & Hi & (o & Ho)%elem_base_ids). by exists i, b, o.
    - intros (i & b & o & Hi & Ho). exists i, b. split; [done|]. apply elem_base_ids. by exists o. }
  assert (Hnd : NoDup (all_ids (bases s))) by (rewrite Hall; apply NoDup_seqZ).
  eapply wp_mono; [by apply find_by_id_wp|]. intros [res|] s' [-> Hr]; (split; [done|]).
  - destruct Hr as (b & Hb & Hc & Hrep). split; [apply Hiff; by exists (res_base res), b, (res_accel res)|].
    exists b. split; [done|]. split; [done|]. split; [done|]. intros j c o Hj Ho.
    by destruct (carried_once _ _ _ _ _ _ _ _ Hnd Hj Hb Ho Hc).
  - intros (i & b & o & Hi & Ho)%Hiff. by apply (Hr i b o).
Qed.

(** C20: After a listing, looking a number up finds the one entry that was shown
    under it, with the handle of a slot that holds it (or -1), and fails exactly
    for the numbers outside 1..n. This is for a reachable state in which no walk
    of the firmware directories is due ([walked]), so that the listing makes none;
    and listing and lookup either come to this end or stop in a [lib_fault]: any
    fault, such as a string past the end of its buffer or the loop over the slots
    that does not end when there are more than 255, but a NULL pointer followed or
    an index outside a table. *)
Theorem lookup_finds_what_was_listed m s flag id :
  walked m s ->
  wp lib_fault (let! _ := listAccelerators flag in find_accel_by_list_id id)
     (fun r s' =>
        match r with
        | Some res => 1 <= id <= num_listed (dm s) /\
            exists b, bases s' !! res_base res = Some b /\ carries b (res_accel res) id /\
              reports b (res_accel res) (res_slot_handle res) /\
              forall j c o, bases s' !! j = Some c -> carries c o id -> j = res_base res /\ o = res_accel res
        | None => ~ 1 <= id <= num_listed (dm s)
        end) s.
Proof.
  intros [Hwf Hp]%walked_ready. apply wp_bind. eapply wp_mono; [by apply listAccelerators_wp|].
  intros t s1 Hd. assert (Hwf1 : wf (dm s1)) by (rewrite Hd; by apply (assign_list_ids_wf (dm s))).
  assert (Hn : num_listed (dm s1) = num_listed (dm s)) by (rewrite Hd; unfold num_listed; exact (f_equal Z.of_nat (stamp_bases_length 1 (bases s)))).
  eapply wp_mono; [apply find_after_listing_wp; [done|]|].
  - rewrite Hd. symmetry. apply listed_twice.
  - rewrite Hn. by intros r s' [-> Hr].
Qed.

(** C22: Loading by list ID is loading the accelerator that carries the number, in
    its own base design: it takes one handle for a slot with that accelerator's
    name, or returns an error and leaves the handles alone; and a number that only
    a user load carries, or that nobody carries, loads nothing. Only the reader of
    shell.json can stop it. *)
Theorem load_by_id_loads_listed_package m s id cma fs sz :
  reachable m s ->
  wp (shell_fault (W := W)) (load_accelerator_by_id id cma fs sz)
     (fun r s' => (exists i j b a, bases s !! i = Some b /\ carries b (Some j) id /\ accel_list b !! j = Some a /\
                     wf (dm s') /\ loaded_into (dm s) i (a_name a) r.1 (dm s')) \/
                  (is_error r.1 /\ s' = s)) s.
Proof.
  intros Hwf%reachable_inv.
  pose proof (load_by_id_returns id cma fs sz _ s Hwf (load_by_id_wp id cma fs sz s Hwf)) as Hr.
  apply (wp_within fresh_owners _ _ _ _ (within_load_by_id _ id cma fs sz)) in Hr.
  refine (wp_mono _ _ _ _ _ Hr _). intros r s' [[(i & j & b & a & Hi & Hc & Ha & Hp)|?] [_ Htr]]; [left|by right].
  exists i, j, b, a. do 3 (split; [done|]). split; [apply Hp|by apply load_post_into].
Qed.

(** Listing changes nothing but the numbers: the tables afterwards are the
    numbered tables, and the "changed since the last listing" mark is gone. *)
Theorem listing_only_renumbers m s flag :
  walked m s ->
  wp lib_fault (listAccelerators flag)
     (fun _ s' => dm s' = assign_list_ids (dm s) <| pkg_listing_dirty := false |>) s.
Proof. intros [Hwf Hp]%walked_ready. by apply listAccelerators_wp. Qed.

(** ** The loop over the slots of a row *)

Lemma slot_matches_safe ty x name s :
  slot_ok ty (Some x) -> safe (slot_matches x name) (fun _ s' => s' = s) s.
Proof.
  intros (Ha & Hr & a & Hacc & _ & Hpk). unfold slot_matches. rewrite Ha. simpl.
  destruct (is_rpu x) eqn:Er; simpl; [destruct (streq _ _); by apply wp_ret|].
  rewrite Hacc. destruct (pkg a) as [p|] eqn:Ep; [by apply wp_bind, wp_ret, wp_ret|].
  destruct (decide (ty = "RPU"%string)) as [->|Hne]; [by specialize (Hr eq_refl)|by destruct (Hpk Hne)].
Qed.

(** The slot loop of a listing row, whose counter is a [uint8_t], ends: when
    a base has at most 255 slots the loop looks at each of them and returns
    without a fault. *)
Theorem slot_loop_returns m s i b l n name acc :
  reachable m s -> bases s !! i = Some b -> slots b = Some l -> 0 <= n <= 255 -> n <= Z.of_nat (length l) ->
  safe (slot_loop 256 i n 0 name acc) (fun _ s' => s' = s) s.
Proof.
  intros Hwf%reachable_inv Hi Hl Hn Hlen.
  destruct (ew_slots b (wf_entry _ _ _ _ Hwf i b Hi) l Hl) as (_ & _ & Hok).
  assert (Hgo : forall fuel slot acc, 0 <= slot <= n -> (n - slot < Z.of_nat fuel) ->
            safe (slot_loop fuel i n slot name acc) (fun _ s' => s' = s) s).
  2: { apply Hgo; [lia|]. replace (Z.of_nat 256) with 256 by (vm_compute; done). lia. }
  induction fuel as [|fuel IH]; intros slot acc' Hs Hf; simpl; [lia|].
  destruct (Z.ltb_spec slot n); [|by apply wp_ret].
  assert (Hu : u8 (slot + 1) = slot + 1) by (unfold u8; apply Z.mod_small; lia). rewrite Hu.
  destruct (lookup_lt_is_Some_2 l (Z.to_nat slot)) as [x Hx]; [lia|].
  apply wp_bind. eapply wp_get_slot; [exact Hi|exact Hl|exact Hx|]. destruct x as [x|]; [|apply IH; lia].
  apply wp_bind. eapply wp_mono; [apply (slot_matches_safe (b_type b)), Hok; by eapply list_elem_of_lookup_2|].
  intros hit s' ->. destruct hit; apply IH; lia.
Qed.

(** With more slots than a [uint8_t] counts, it does not end: whatever the
    number of turns, there is one more. *)
Lemma slot_loop_endless fuel i b l n slot name acc s :
  bases s !! i = Some b -> slots b = Some l -> (forall k, (k < 256)%nat -> l !! k = Some None) ->
  256 <= n -> 0 <= slot < 256 -> slot_loop fuel i n slot name acc s = Fault OutOfFuel.
Proof.
  intros Hi Hl Hk Hn. revert slot acc. induction fuel as [|fuel IH]; intros slot acc Hs; [done|].
  cbn [slot_loop]. destruct (Z.ltb_spec slot n); [|lia].
  assert (Hg : get_slot i (Z.to_nat slot) s = Ret None s).
  { assert (Hx : l !! Z.to_nat slot = Some None) by (apply Hk; lia).
    assert (Hsafe : safe (get_slot i (Z.to_nat slot)) (fun x s' => x = None /\ s' = s) s) by (by eapply wp_get_slot).
    apply safe_ret in Hsafe as (x & s' & -> & -> & ->). done. }
  unfold bind. rewrite Hg. apply IH. unfold u8. apply Z.mod_pos_bound. lia.
Qed.
End ListSpec.

(** *** Witnesses *)

Lemma lookup_finds_what_was_listed_witness :
  exists r s', (let! _ := listAccelerators 0 in find_accel_by_list_id 3) started = Ret (Some r) s' /\
               1 <= 3 <= num_listed (dm started).
Proof.
  match goal with |- exists r s', ?m started = _ /\ _ =>
    destruct (after_ret m started) as [r E]; [vm_compute; reflexivity|];
    assert (Hr : exists v, result m started None = Some v) by (vm_compute; eexists; reflexivity) end.
  unfold result in Hr. rewrite E in Hr. destruct Hr as [v ->].
  eexists v, _. split; [exact E|].
  exact (proj1 (wp_returns _ _ _ _ _ _ (lookup_finds_what_was_listed board started 0 3 started_walked) E)).
Defined.

Lemma load_by_id_loads_listed_package_witness :
  exists s', load_accelerator_by_id 1 None None 0 started = Ret (0, None) s' /\
  exists i j b a, bases started !! i = Some b /\ carries b (Some j) 1 /\ accel_list b !! j = Some a /\
                  wf (dm s') /\ loaded_into (dm started) i (a_name a) 0 (dm s').
Proof.
  assert (E : load_accelerator_by_id 1 None None 0 started = Ret (0, None) (after (load_accelerator_by_id 1 None None 0) started))
    by (vm_compute; reflexivity).
  eexists. split; [exact E|].
  destruct (wp_returns _ _ _ _ _ _ (load_by_id_loads_listed_package board started 1 None None 0 started_reachable) E)
    as [Hp|[Hr _]]; [exact Hp|simpl in Hr; unfold is_error in *; lia].
Defined.

Lemma listing_only_renumbers_witness :
  exists t s', listAccelerators 4 with_slot = Ret t s' /\
               dm s' = assign_list_ids (dm with_slot) <| pkg_listing_dirty := false |>.
Proof.
  destruct (after_ret (listAccelerators 4) with_slot) as [t E]; [vm_compute; reflexivity|].
  eexists t, _. split; [exact E|].
  exact (wp_returns _ _ _ _ _ _ (listing_only_renumbers board with_slot 4 with_slot_walked) E).
Defined.

Lemma slot_loop_returns_witness :
  exists r, slot_loop 256 2 2 0 "acc" (""%string, ""%string) with_slot = Ret r with_slot.
Proof.
  assert (Hs : safe (slot_loop 256 2 2 0 "acc" (""%string, ""%string)) (fun _ s' => s' = with_slot) with_slot).
  { apply (slot_loop_returns board with_slot 2 (nth_base with_slot 2) (slot_list (nth_base with_slot 2)));
      [exact with_slot_reachable|vm_compute; reflexivity|vm_compute; reflexivity|lia|vm_compute; discriminate]. }
  unfold wp in Hs. destruct (slot_loop 256 2 2 0 "acc" (""%string, ""%string) with_slot) as [r s'|f]; [|destruct Hs].
  exists r. rewrite Hs. reflexivity.
Defined.
