(* ===== verification/PdiSpec.v ===== *)
(** * PDI metadata: correctness

    The metaheader parser stays inside its buffer and inverts the encoding; the
    choice of a directory's PDI does not depend on the order of the directory;
    slot directories are recognised exactly. *)
From S2P Require Import Prelude CStr Decimals Env Model Pdi Sample.
Open Scope Z_scope.
Open Scope dfx_scope.

(** ** Reading bytes *)

Section Bytes.
Context {St : Type}.
Implicit Types (s : St) (buf : list Z).

Lemma byte_at_safe buf i s :
  0 <= i < Z.of_nat (length buf) -> safe (byte_at buf i) (fun b s' => s' = s /\ buf !! Z.to_nat i = Some b) s.
Proof.
  intros Hi. unfold byte_at. destruct (Z.ltb_spec i 0); [lia|].
  destruct (lookup_lt_is_Some_2 buf (Z.to_nat i)) as [b Hb]; [lia|]. by eapply wp_the_Some.
Qed.

Definition le_value (b0 b1 b2 b3 : Z) : Z :=
  Z.lor (Z.lor (Z.lor b0 (Z.shiftl b1 8)) (Z.shiftl b2 16)) (Z.shiftl b3 24).

Lemma pdi_rd_u32_safe buf off s :
  0 <= off -> off + 4 <= Z.of_nat (length buf) ->
  safe (pdi_rd_u32 buf off)
       (fun v s' => s' = s /\ exists b0 b1 b2 b3, v = le_value b0 b1 b2 b3 /\
          buf !! Z.to_nat off = Some b0 /\ buf !! Z.to_nat (off + 1) = Some b1 /\
          buf !! Z.to_nat (off + 2) = Some b2 /\ buf !! Z.to_nat (off + 3) = Some b3) s.
Proof.
  intros H0 Hl. unfold pdi_rd_u32.
  apply wp_bind. eapply wp_mono; [apply byte_at_safe; lia|]. intros b0 s' [-> Hb0].
  apply wp_bind. eapply wp_mono; [apply byte_at_safe; lia|]. intros b1 s' [-> Hb1].
  apply wp_bind. eapply wp_mono; [apply byte_at_safe; lia|]. intros b2 s' [-> Hb2].
  apply wp_bind. eapply wp_mono; [apply byte_at_safe; lia|]. intros b3 s' [-> Hb3].
  apply wp_ret. split; [done|]. by exists b0, b1, b2, b3.
Qed.

Lemma rd_u32_returns buf off s :
  0 <= off -> off + 4 <= Z.of_nat (length buf) -> safe (pdi_rd_u32 buf off) (fun _ s' => s' = s) s.
Proof. intros H0 Hl. eapply wp_mono; [by apply pdi_rd_u32_safe|]. by intros v s' [-> _]. Qed.

Lemma rd_images_safe buf len base n s :
  0 <= base -> len <= Z.of_nat (length buf) ->
  safe (rd_images buf len base n) (fun l s' => s' = s /\ (length l <= n)%nat) s.
Proof.
  revert base. induction n as [|n IH]; intros base H0 Hl; simpl; [by apply wp_ret|].
  destruct (Z.ltb_spec len (base + PDI_IH_LEN)) as [|Hin]; [apply wp_ret; split; [done|simpl; lia]|].
  unfold PDI_IH_LEN in Hin. apply wp_bind. unfold rd_image, PDI_IH_IMG_ID_OFF, PDI_IH_UID_OFF, PDI_IH_PUID_OFF.
  do 3 (apply wp_bind; eapply wp_mono; [apply rd_u32_returns; lia|]; intros ? ? ->). apply wp_ret.
  apply wp_bind. eapply wp_mono; [apply IH; unfold PDI_IH_LEN; lia|]. intros r s' [-> Hr]. apply wp_ret.
  split; [done|]. simpl. lia.
Qed.

(** C26: The metaheader parser never reads outside the [len] bytes it is given,
    whatever they hold, and reports at most 32 images. *)
Theorem pdi_parse_stays_in_buffer buf len s :
  len <= Z.of_nat (length buf) ->
  safe (pdi_parse_meta_buffer buf len)
       (fun r s' => s' = s /\ match r with
                              | Some m => (1 <= length (images m) <= 32)%nat
                              | None => True
                              end) s.
Proof.
  intros Hl. unfold pdi_parse_meta_buffer. destruct (Z.ltb_spec len PDI_IHT_LEN) as [|H0]; [by apply wp_ret|].
  unfold PDI_IHT_LEN in H0. apply wp_bind. eapply wp_mono; [apply rd_u32_returns; unfold PDI_IHT_NUM_IMGS_OFF; lia|].
  intros n s' ->. cbv zeta. destruct (Z.ltb_spec (int32 n) 0); [by apply wp_ret|].
  apply wp_bind. eapply wp_mono; [apply rd_images_safe; unfold PDI_IHT_LEN; lia|]. intros l s' [-> Hlen].
  unfold PDI_MAX_IMAGES in Hlen. apply wp_ret. split; [done|]. destruct l as [|x l]; [done|].
  destruct (pl_image (x :: l)); simpl in *; [lia|done].
Qed.
End Bytes.

(** ** Encoding *)

Definition le32 (v : Z) : list Z :=
  [Z.land v 255; Z.land (Z.shiftr v 8) 255; Z.land (Z.shiftr v 16) 255; Z.land (Z.shiftr v 24) 255].

Definition encode_image (m : pdi_image) : list Z :=
  replicate 32 0 ++ le32 (img_id m) ++ le32 (img_uid m) ++ le32 (img_puid m) ++ replicate 20 0.
Definition encode_meta (l : list pdi_image) : list Z :=
  replicate 4 0 ++ le32 (Z.of_nat (length l)) ++ replicate 120 0 ++ concat (map encode_image l).

Definition is_u32 (v : Z) : Prop := 0 <= v < 2 ^ 32.
Definition image_ok (m : pdi_image) : Prop := is_u32 (img_id m) /\ is_u32 (img_uid m) /\ is_u32 (img_puid m).

Lemma bits_above v n : is_u32 v -> 32 <= n -> Z.testbit v n = false.
Proof.
  intros [H0 Hv] Hn. destruct (decide (v = 0)) as [->|Hne]; [apply Z.bits_0|].
  apply Z.bits_above_log2; [lia|]. apply Z.log2_lt_pow2 in Hv; lia.
Qed.

Lemma le_value_le32 v : is_u32 v ->
  le_value (Z.land v 255) (Z.land (Z.shiftr v 8) 255) (Z.land (Z.shiftr v 16) 255) (Z.land (Z.shiftr v 24) 255) = v.
Proof.
  intros Hv. apply Z.bits_inj'. intros n Hn. unfold le_value. change 255 with (Z.ones 8).
  rewrite !Z.lor_spec, !Z.shiftl_spec, !Z.land_spec by done.
  assert (Hones : forall m, Z.testbit (Z.ones 8) m = (0 <=? m) && (m <? 8)).
  { intros m. destruct (Z.leb_spec 0 m); [|by apply Z.testbit_neg_r]. by rewrite Z.testbit_ones_nonneg by lia. }
  rewrite !Hones.
  assert (Hsh : forall k, 0 <= k <= n -> Z.testbit (Z.shiftr v k) (n - k) = Z.testbit v n).
  { intros k Hk. rewrite Z.shiftr_spec by lia. f_equal. lia. }
  destruct (Z.ltb_spec n 8), (Z.ltb_spec n 16), (Z.ltb_spec n 24), (Z.ltb_spec n 32); try lia;
    repeat match goal with |- context [(?a <=? ?b)] => destruct (Z.leb_spec a b); try lia end;
    repeat match goal with |- context [(?a <? ?b)] => destruct (Z.ltb_spec a b); try lia end;
    rewrite ?andb_false_r, ?andb_true_r, ?orb_false_r, ?orb_false_l, ?Hsh by lia;
    try done; symmetry; apply bits_above; [done|lia].
Qed.

Section RoundTrip.
Context {St : Type}.
Implicit Types (s : St).

Lemma rd_le32 pre v post s :
  is_u32 v -> pdi_rd_u32 (pre ++ le32 v ++ post) (Z.of_nat (length pre)) s = Ret v s.
Proof.
  intros Hv.
  assert (Hs : safe (pdi_rd_u32 (pre ++ le32 v ++ post) (Z.of_nat (length pre))) (fun r s' => r = v /\ s' = s) s).
  { eapply wp_mono; [apply pdi_rd_u32_safe; rewrite ?length_app; simpl; lia|].
    intros r s' (-> & b0 & b1 & b2 & b3 & -> & Hb0 & Hb1 & Hb2 & Hb3). split; [|done].
    rewrite Nat2Z.id, lookup_app_r, Nat.sub_diag in Hb0 by lia.
    rewrite lookup_app_r in Hb1, Hb2, Hb3 by lia.
    replace (Z.to_nat (Z.of_nat (length pre) + 1) - length pre)%nat with 1%nat in Hb1 by lia.
    replace (Z.to_nat (Z.of_nat (length pre) + 2) - length pre)%nat with 2%nat in Hb2 by lia.
    replace (Z.to_nat (Z.of_nat (length pre) + 3) - length pre)%nat with 3%nat in Hb3 by lia.
    simpl in *. injection Hb0 as <-. injection Hb1 as <-. injection Hb2 as <-. injection Hb3 as <-.
    by apply le_value_le32. }
  apply safe_ret in Hs as (r & s' & -> & -> & ->). done.
Qed.

Lemma length_encode_image m : length (encode_image m) = 64%nat.
Proof. done. Qed.

Lemma rd_encoded pre m post s :
  image_ok m -> rd_image (pre ++ encode_image m ++ post) (Z.of_nat (length pre)) s = Ret m s.
Proof.
  intros (Hi & Hu & Hp). unfold rd_image, encode_image.
  assert (E : forall (k v : Z) (a b : list Z), k = Z.of_nat (length a) -> is_u32 v ->
    pre ++ (replicate 32 0 ++ le32 (img_id m) ++ le32 (img_uid m) ++ le32 (img_puid m) ++ replicate 20 0) ++ post
      = (pre ++ a) ++ le32 v ++ b ->
    pdi_rd_u32 (pre ++ (replicate 32 0 ++ le32 (img_id m) ++ le32 (img_uid m) ++ le32 (img_puid m) ++ replicate 20 0) ++ post)
      (Z.of_nat (length pre) + k) s = Ret v s).
  { intros k v a b -> Hv ->. rewrite <- Nat2Z.inj_add, <- length_app. by apply rd_le32. }
  unfold bind, PDI_IH_IMG_ID_OFF, PDI_IH_UID_OFF, PDI_IH_PUID_OFF.
  rewrite (E 32 (img_id m) (replicate 32 0) (le32 (img_uid m) ++ le32 (img_puid m) ++ replicate 20 0 ++ post));
    [|done|done|by rewrite <- !app_assoc].
  rewrite (E 36 (img_uid m) (replicate 32 0 ++ le32 (img_id m)) (le32 (img_puid m) ++ replicate 20 0 ++ post));
    [|done|done|by rewrite <- !app_assoc].
  rewrite (E 40 (img_puid m) (replicate 32 0 ++ le32 (img_id m) ++ le32 (img_uid m)) (replicate 20 0 ++ post));
    [|done|done|by rewrite <- !app_assoc].
  by destruct m.
Qed.

Lemma rd_images_encoded pre l s :
  Forall image_ok l ->
  rd_images (pre ++ concat (map encode_image l)) (Z.of_nat (length (pre ++ concat (map encode_image l))))
            (Z.of_nat (length pre)) (length l) s = Ret l s.
Proof.
  intros Hl. revert pre. induction Hl as [|m l Hm Hl IH]; intros pre; [done|]. cbn [length rd_images map concat].
  match goal with |- context [?a <? ?b] => destruct (Z.ltb_spec a b) as [Hlt|_] end.
  { rewrite !length_app, length_encode_image in Hlt. unfold PDI_IH_LEN in Hlt. lia. }
  unfold bind. rewrite (rd_encoded pre m _ s Hm).
  specialize (IH (pre ++ encode_image m)). rewrite <- app_assoc in IH.
  replace (Z.of_nat (length pre) + PDI_IH_LEN) with (Z.of_nat (length (pre ++ encode_image m))).
  - by rewrite IH.
  - rewrite length_app, length_encode_image. unfold PDI_IH_LEN. lia.
Qed.

(** C27: Parsing inverts encoding: a metaheader with 1 to 32 images is read back
    as exactly those images, and the identity of the design is that of the first
    programmable-logic image, or of the first image when there is none. *)
Theorem pdi_parse_encode l m s :
  Forall image_ok l -> (length l <= 32)%nat -> pl_image l = Some m ->
  pdi_parse_meta_buffer (encode_meta l) (Z.of_nat (length (encode_meta l))) s
  = Ret (Some (PdiMeta (img_uid m) (img_puid m) l)) s.
Proof.
  intros Hl Hlen Hm. unfold pdi_parse_meta_buffer.
  assert (Hbig : (Z.of_nat (length (encode_meta l)) <? PDI_IHT_LEN) = false).
  { apply Z.ltb_ge. unfold encode_meta, PDI_IHT_LEN. rewrite !length_app. simpl. lia. }
  rewrite Hbig. unfold bind.
  assert (Hn : pdi_rd_u32 (encode_meta l) PDI_IHT_NUM_IMGS_OFF s = Ret (Z.of_nat (length l)) s).
  { exact (rd_le32 (replicate 4 0) (Z.of_nat (length l)) (replicate 120 0 ++ concat (map encode_image l)) s
             ltac:(unfold is_u32; lia)). }
  rewrite Hn. rewrite int32_id by lia. destruct (Z.ltb_spec (Z.of_nat (length l)) 0); [lia|].
  replace (Z.to_nat (Z.min (Z.of_nat (length l)) PDI_MAX_IMAGES)) with (length l) by (unfold PDI_MAX_IMAGES; lia).
  pose proof (rd_images_encoded (replicate 4 0 ++ le32 (Z.of_nat (length l)) ++ replicate 120 0) l s Hl) as Hr.
  rewrite <- !app_assoc in Hr. fold (encode_meta l) in Hr. change PDI_IHT_LEN with (Z.of_nat 128).
  replace 128%nat with (length (replicate 4 0 ++ le32 (Z.of_nat (length l)) ++ replicate 120 0)) by done.
  rewrite Hr. by rewrite Hm.
Qed.
End RoundTrip.

(** ** The order of names *)

Lemma code_inj c d : code c = code d -> c = d.
Proof.
  unfold code. intros E%N2Z.inj. rewrite <- (ascii_N_embedding c), <- (ascii_N_embedding d). by rewrite E.
Qed.

Lemma strlt_cons c d a b :
  strlt (String c a) (String d b) = (code c <? code d) || (Ascii.eqb c d && strlt a b).
Proof.
  simpl. destruct (Ascii.eqb_spec c d) as [->|Hne]; simpl; [by rewrite Z.ltb_irrefl|by rewrite orb_false_r].
Qed.

Lemma strlt_irrefl a : strlt a a = false.
Proof. induction a as [|c a IH]; [done|]. by rewrite strlt_cons, Z.ltb_irrefl, IH, andb_false_r. Qed.

Lemma strlt_trans a b c : strlt a b = true -> strlt b c = true -> strlt a c = true.
Proof.
  revert b c. induction a as [|x a IH]; intros [|y b] [|z c]; try done. rewrite !strlt_cons.
  intros [H1%Z.ltb_lt|[<-%Ascii.eqb_eq H1]%andb_true_iff]%orb_true_iff [H2%Z.ltb_lt|[<-%Ascii.eqb_eq H2]%andb_true_iff]%orb_true_iff;
    apply orb_true_iff.
  - left. apply Z.ltb_lt. lia.
  - left. by apply Z.ltb_lt.
  - left. by apply Z.ltb_lt.
  - right. rewrite Ascii.eqb_refl. simpl. by eapply IH.
Qed.

Lemma strlt_total a b : strlt a b = false -> strlt b a = false -> a = b.
Proof.
  revert b. induction a as [|x a IH]; intros [|y b]; try done. rewrite !strlt_cons.
  intros [H1%Z.ltb_ge H1']%orb_false_iff [H2%Z.ltb_ge H2']%orb_false_iff.
  assert (x = y) as <- by (apply code_inj; lia). rewrite Ascii.eqb_refl in *. simpl in *. f_equal. by apply IH.
Qed.

(** The better of the best name so far and the next one. *)
Definition better (best : option string) (n : string) : option string :=
  if negb (name_is_pdi n) then best
  else match best with
       | None => Some (trunc (NAME_MAX + 1) n)
       | Some b => if strlt n b then Some (trunc (NAME_MAX + 1) n) else best
       end.

Lemma better_comm best a b :
  fits (NAME_MAX + 1) a = true -> fits (NAME_MAX + 1) b = true ->
  better (better best a) b = better (better best b) a.
Proof.
  intros Ha Hb. unfold better. rewrite (trunc_id _ _ Ha), (trunc_id _ _ Hb).
  destruct (name_is_pdi a), (name_is_pdi b); simpl; try done.
  - assert (Hab : (if strlt b a then Some b else Some a) = (if strlt a b then Some a else Some b)).
    { destruct (strlt b a) eqn:E1, (strlt a b) eqn:E2; try done.
      - pose proof (strlt_trans _ _ _ E1 E2) as E. by rewrite strlt_irrefl in E.
      - f_equal. by apply strlt_total. }
    destruct best as [x|]; [|exact Hab].
    destruct (strlt a x) eqn:E1, (strlt b x) eqn:E2; rewrite ?E1, ?E2; try done.
    + destruct (strlt b a) eqn:E3; [|done]. by rewrite (strlt_trans _ _ _ E3 E1) in E2.
    + destruct (strlt a b) eqn:E3; [|done]. by rewrite (strlt_trans _ _ _ E3 E2) in E1.
Qed.

Lemma best_pdi_fold names : best_pdi names = fold_left better names None.
Proof. done. Qed.

Lemma best_pdi_perm names names' :
  names ≡ₚ names' -> Forall (fun n => fits (NAME_MAX + 1) n = true) names -> best_pdi names = best_pdi names'.
Proof.
  rewrite !best_pdi_fold. generalize (@None string). intros best Hp. revert best.
  induction Hp as [|n l l' Hp IH|a b l|l l' l'' Hp IH Hp' IH']; intros best Hf; simpl.
  - done.
  - apply IH. by inversion Hf.
  - inversion Hf as [|? ? Ha Hf']; subst. inversion Hf'; subst. f_equal. by rewrite better_comm.
  - rewrite (IH best Hf). apply IH'. by rewrite <- Hp.
Qed.

(** The choice is the least name, and there is one if there is a PDI. *)
Lemma best_pdi_least names : Forall (fun n => fits (NAME_MAX + 1) n = true) names ->
  match best_pdi names with
  | Some n => n ∈ names /\ name_is_pdi n = true /\ forall m, m ∈ names -> name_is_pdi m = true -> strlt m n = false
  | None => forall m, m ∈ names -> name_is_pdi m = false
  end.
Proof.
  rewrite best_pdi_fold. induction names as [|x l IH] using rev_ind; intros Hf; [by intros m ?%elem_of_nil|].
  apply Forall_app in Hf as [Hl [Hx _]%Forall_cons]. specialize (IH Hl). rewrite fold_left_app. cbn [fold_left].
  unfold better at 1. rewrite (trunc_id _ _ Hx).
  assert (Hin : forall m, m ∈ l ++ [x] -> m ∈ l \/ m = x) by (intros m; rewrite elem_of_app, list_elem_of_singleton; tauto).
  assert (Hx' : x ∈ l ++ [x]) by (apply elem_of_app; right; by apply list_elem_of_singleton).
  destruct (name_is_pdi x) eqn:Ex; cbn [negb]; (destruct (fold_left better l None) as [b|]; [destruct IH as (Hb & Hp & Hle)|]).
  - destruct (strlt x b) eqn:Exb.
    + split_and!; [done..|]. intros m [Hm| ->]%Hin Hmp; [|apply strlt_irrefl]. destruct (strlt m x) eqn:Emx; [|done].
      specialize (Hle m Hm Hmp). by rewrite (strlt_trans _ _ _ Emx Exb) in Hle.
    + split_and!; [apply elem_of_app; by left|done|]. by intros m [Hm| ->]%Hin Hmp; [apply Hle|].
  - split_and!; [done..|]. intros m [Hm| ->]%Hin Hmp; [|apply strlt_irrefl]. by rewrite (IH m Hm) in Hmp.
  - split_and!; [apply elem_of_app; by left|done|]. intros m [Hm| ->]%Hin Hmp; [by apply Hle|congruence].
  - by intros m [Hm| ->]%Hin; [apply IH|].
Qed.


(** ** Slot directories *)

(** The directory of slot [k] of an accelerator is recognised as slot [k]:
    [slot_index_from_dir()] inverts the name that loading builds. *)
Theorem slot_dir_round_trip accel k :
  0 <= k < Z.of_nat RP_SLOTS_MAX -> slot_index_from_dir accel (accel ++ RM_SLOT_TAG ++ dec k) = k.
Proof.
  intros Hk. unfold slot_index_from_dir, strneq. rewrite str_drop_app, substring_app_l.
  rewrite (substring_all accel (strlen accel)) by done. rewrite String.eqb_refl.
  change (str_drop 5 (RM_SLOT_TAG ++ dec k)) with (dec k).
  assert (Htag : String.eqb (substring 0 5 (RM_SLOT_TAG ++ dec k)) (substring 0 5 RM_SLOT_TAG) = true).
  { change (substring 0 5 (RM_SLOT_TAG ++ dec k)) with (String "_" (String "s" (String "l" (String "o" (String "t" (substring 0 0 (dec k))))))).
    by destruct (dec k). }
  rewrite Htag. cbn [negb orb].
  assert (Hdig : isdigit (str_nth (dec k) 0) = true).
  { unfold dec. rewrite <- (Z2Nat.id k) by lia. destruct (Z.to_nat k) as [|[|[|[|[|[|[|[|[|[|n]]]]]]]]]] eqn:En;
      try (vm_compute; reflexivity). unfold RP_SLOTS_MAX in Hk. lia. }
  rewrite Hdig. cbn [negb]. rewrite strtol_dec_all by (unfold LONG_MAX, RP_SLOTS_MAX in *; lia). cbn [streq String.eqb negb orb].
  destruct (Z.ltb_spec k 0); [lia|]. destruct (Z.leb_spec (Z.of_nat RP_SLOTS_MAX) k); [lia|]. cbn [orb].
  apply int32_id. unfold RP_SLOTS_MAX in Hk. lia.
Qed.

(** Whatever the directory is called, the result is -1 or a slot number
    below [RP_SLOTS_MAX], so that it can index the slot array. *)
Theorem slot_index_in_range accel dir_name : -1 <= slot_index_from_dir accel dir_name < Z.of_nat RP_SLOTS_MAX.
Proof.
  assert (Hm : -1 <= -1 < Z.of_nat RP_SLOTS_MAX) by (unfold RP_SLOTS_MAX; lia).
  unfold slot_index_from_dir. destruct (_ || _); [done|]. destruct (negb (isdigit _)); [done|].
  destruct (strtol 10 _) as [idx tail]. destruct (_ || (idx <? 0) || _) eqn:E; [done|].
  apply orb_false_iff in E as [[_ E1%Z.ltb_ge]%orb_false_iff E2%Z.leb_gt].
  unfold RP_SLOTS_MAX in *. rewrite int32_id; lia.
Qed.

(** ** The boot UID *)

Record uid_entry := UidEntry { ue_id : Z; ue_uid : Z; ue_puid : Z; ue_fn : Z }.
Definition uid_words (e : uid_entry) : list Z := [ue_id e; ue_uid e; ue_puid e; ue_fn e].
(** The design in programmable logic that the boot image loaded: no parent, a
    UID, and the image class of the PL. *)
Definition is_boot_pl (e : uid_entry) : bool :=
  (u32 (ue_puid e) =? 0) && negb (u32 (ue_uid e) =? 0) &&
  (Z.land (u32 (ue_id e)) PDI_IMG_ID_CLASS_MASK =? PDI_IMG_ID_PL).

(** The boot UID is that of the first entry of the UID table that is a
    boot-time PL image, 0 when there is none; what follows the [nbytes] that the
    platform reported is not looked at. *)
Theorem boot_uid_is_first_pl_entry es rest :
  pdi_filter_boot_pl_uid (concat (map uid_words es) ++ rest) (16 * Z.of_nat (length es)) =
  match List.find is_boot_pl es with Some e => int32 (ue_uid e) | None => 0 end.
Proof.
  unfold pdi_filter_boot_pl_uid. destruct (Z.leb_spec (16 * Z.of_nat (length es)) 0) as [H0|_].
  { destruct es as [|e es]; [done|simpl in H0; lia]. }
  rewrite Z.mul_comm, Z.div_mul, Nat2Z.id by lia.
  induction es as [|e es IH]; simpl; [by destruct rest as [|? [|? [|? [|]]]]|].
  unfold is_boot_pl at 1. destruct (_ && _); [done|]. exact IH.
Qed.

(** *** Witnesses *)

Lemma pdi_parse_stays_in_buffer_witness :
  safe (pdi_parse_meta_buffer meta_bytes 192)
       (fun r s' => s' = tt /\ match r with Some m => (1 <= length (images m) <= 32)%nat | None => True end) tt.
Proof. apply (pdi_parse_stays_in_buffer meta_bytes 192 tt). vm_compute. discriminate. Defined.

Definition two_images : list pdi_image := [PdiImage 0x18800000 3 4; PdiImage 0x18700000 0xDEADBEEF 9].
Lemma pdi_parse_encode_witness :
  pdi_parse_meta_buffer (encode_meta two_images) 256 tt = Ret (Some (PdiMeta 0xDEADBEEF 9 two_images)) tt.
Proof.
  apply (pdi_parse_encode two_images (PdiImage 0x18700000 0xDEADBEEF 9) tt).
  - repeat constructor; unfold is_u32; simpl; lia.
  - vm_compute. lia.
  - vm_compute. reflexivity.
Defined.


Lemma slot_dir_round_trip_witness : slot_index_from_dir "acc" ("acc" ++ RM_SLOT_TAG ++ dec 7) = 7.
Proof. apply slot_dir_round_trip. vm_compute. split; [discriminate|reflexivity]. Defined.
