(* ===== verification/WireSpec.v ===== *)
(** * The wire: what one side writes, the other reads

    The requests of the client library and of the command line tool, and the
    replies of the daemon, are read back as what was meant. *)
From Stdlib Require Import Decimal DecimalString DecimalN DecimalFacts DecimalZ.
From S2P Require Import Prelude CStr Decimals Env Model UserLoad Json Accel Slots ListIds Load Unload Registry.
From S2P Require Import Events Listing Proto Client RequestSafe StartSafe Sample Reach.
Open Scope Z_scope.
Open Scope dfx_scope.

(** ** Tokens *)

Definition no_delim (delims s : string) : bool := all_chars (fun c => negb (is_delim delims c)) s.
Definition token (delims s : string) : Prop := s <> ""%string /\ no_delim delims s = true.

(** What may follow a token: nothing, or a delimiter. *)
Definition ended (delims s : string) : Prop :=
  match s with EmptyString => True | String c _ => is_delim delims c = true end.
Definition after_delim (s : string) : string := match s with EmptyString => ""%string | String _ r => r end.

Lemma take_token_app delims t rest :
  no_delim delims t = true -> ended delims rest -> take_token delims (t ++ rest) = (t, after_delim rest).
Proof.
  intros Ht Hr. induction t as [|c t IH].
  - rewrite app_nil_l_str. destruct rest as [|c r]; [done|]. simpl in *. by rewrite Hr.
  - rewrite app_cons_str. unfold no_delim in Ht. simpl in Ht. apply andb_true_iff in Ht as [Hc%negb_true_iff Ht].
    simpl. by rewrite Hc, (IH Ht).
Qed.

Lemma skip_token delims t rest : token delims t -> skip_delims delims (t ++ rest) = (t ++ rest)%string.
Proof.
  intros [Hne Ht]. destruct t as [|c t]; [done|]. rewrite app_cons_str. unfold no_delim in Ht. simpl in *.
  apply andb_true_iff in Ht as [Hc%negb_true_iff _]. by rewrite Hc.
Qed.

Lemma strtok_app delims t rest :
  token delims t -> ended delims rest -> strtok delims (t ++ rest) = Some (t, after_delim rest).
Proof.
  intros Ht Hr. unfold strtok. rewrite (skip_token _ _ _ Ht), <- (take_token_app _ _ _ (proj2 Ht) Hr).
  destruct t as [|c t]; [by destruct Ht|]. by rewrite app_cons_str.
Qed.

Lemma strtok_one delims t : token delims t -> strtok delims t = Some (t, ""%string).
Proof. intros Ht. rewrite <- (app_nil_r_str t) at 1. by rewrite strtok_app. Qed.

Lemma strtok_skip delims c s : is_delim delims c = true -> strtok delims (String c s) = strtok delims s.
Proof. intros Hc. unfold strtok. simpl. by rewrite Hc. Qed.

(** ** Leading digits *)

Lemma to_uint_norm n : N.to_uint n = unorm (N.to_uint n).
Proof. pose proof (DecimalN.Unsigned.to_of (N.to_uint n)) as E. by rewrite DecimalN.Unsigned.of_to in E. Qed.

Lemma no_leading_zero n d : N.to_uint n = D0 d -> n = 0%N.
Proof.
  intros E. pose proof (to_uint_norm n) as Hn. rewrite E in Hn. unfold unorm in Hn. simpl in Hn.
  destruct (nzhead d) as [|d'|d'|d'|d'|d'|d'|d'|d'|d'|d'] eqn:Ed; try discriminate Hn.
  - injection Hn as ->. rewrite <- (DecimalN.Unsigned.of_to n), E. done.
  - by destruct (nzhead_nonzero d d').
Qed.

Lemma to_int_to_uint z : 0 <= z -> Z.to_int z = Decimal.Pos (N.to_uint (Z.to_N z)).
Proof. destruct z; [done|done|lia]. Qed.

Lemma dec_head_zero z : starts_with "0" (dec z) = true <-> z = 0.
Proof.
  split; [|by intros ->]. intros Hz. destruct (Z.ltb_spec z 0) as [Hneg|H0].
  - destruct z as [|p|p]; [lia|lia|]. unfold dec in Hz. simpl in Hz. done.
  - unfold dec in Hz. rewrite (to_int_to_uint z H0) in Hz. cbn [NilZero.string_of_int] in Hz.
    destruct (N.to_uint (Z.to_N z)) as [|d|d|d|d|d|d|d|d|d|d] eqn:E; try discriminate Hz.
    + assert (En : Z.to_N z = 0%N) by (rewrite <- (DecimalN.Unsigned.of_to (Z.to_N z)), E; done). lia.
    + apply no_leading_zero in E. lia.
Qed.

(** ** The daemon's numbers *)

Lemma request_of_id r : request_of (request_id r) = Some r.
Proof. by destruct r. Qed.

(** The numbers of the requests are one to one: the daemon dispatches a
    message to the request that the client meant, and rejects every other
    number. *)
Theorem request_numbers id r : request_of id = Some r <-> request_id r = id.
Proof.
  split.
  - intros E. unfold request_of in E. apply find_some in E as [_ E%Z.eqb_eq]. done.
  - intros <-. apply request_of_id.
Qed.

Section Wire.
Context {W : Type} `{Env W}.
Implicit Types (s : sys W).

Lemma load_args_name name : token ":" name -> load_args name = (Some name, None).
Proof. intros Ht. unfold load_args. by rewrite (strtok_one _ _ Ht). Qed.

(** The first [n] bytes of a text no longer than that. *)
Lemma substring_whole name n : (strlen name <= n)%nat -> substring 0 n name = name.
Proof. apply substring_all. Qed.

Lemma process_known r m s : msg_id m = request_id r -> process_dfx_req m s = handle_request r m s.
Proof. intros E. unfold process_dfx_req. by rewrite E, request_of_id. Qed.

(** Loading through the client library is loading in the daemon: for a
    package name without colons, [dfxmgr_load()] over the daemon's protocol
    returns exactly the value of [load_accelerator()] and leaves the daemon in the
    state that it leaves. *)
Theorem client_load_is_daemon_load name v fs s s' :
  token ":" name -> (strlen name <= DATA_SIZE)%nat -> - 2 ^ 31 <= v < 2 ^ 31 ->
  load_accelerator name None (Some ""%string) FPGA_STATE_SIZE s = Ret (v, fs) s' ->
  dfxmgr_load process_dfx_req (Some name) s = Ret v s'.
Proof.
  intros Ht Hlen Hv E. unfold dfxmgr_load. destruct (streqP name "") as [->|_]; [by destruct Ht|].
  rewrite (substring_whole _ _ Hlen). 
  unfold bind at 1. rewrite (process_known LOAD_ACCEL) by done. cbn. rewrite (load_args_name _ Ht). unfold bind at 1. cbn [load_accelerator_arg]. rewrite E.
  cbn. destruct (response_value v false (pkg_listing_dirty (dm s')) fs) as (m & Em & Hm).
  injection Em as <-. cbn in Hm. rewrite Hm. unfold ret. by rewrite (atoi_dec v Hv).
Qed.

(** Unloading through the client library is unloading in the daemon:
    [dfxmgr_unload()] returns 0 exactly when [unload_accelerator()] of that handle
    does, and -1 otherwise. *)
Theorem client_unload_is_daemon_unload slot r s s' :
  0 <= slot < 2 ^ 31 -> unload_accelerator slot s = Ret r s' ->
  dfxmgr_unload process_dfx_req slot s = Ret (if r =? 0 then 0 else -1) s'.
Proof.
  intros Hs E. unfold dfxmgr_unload. destruct (Z.ltb_spec slot 0); [lia|].
  unfold bind at 1. rewrite (process_known UNLOAD_ACCEL) by done. cbn [handle_request msg_data plain_request record_set]. cbv zeta.
  cbn.
  assert (Hb : strcaseeq (dec slot) "base" = false).
  { unfold strcaseeq. apply String.eqb_neq. intros Eq. destruct (dec_digit_head slot) as (c & t & Ec & Hc); [lia|].
    rewrite Ec in Eq. injection Eq as Eq _. destruct c as [[] [] [] [] [] [] [] []]; try discriminate Hc; discriminate Eq. }
  rewrite Hb, (atoi_dec slot) by lia. unfold bind at 1. rewrite E. cbn. unfold ret. do 2 f_equal.
  destruct (Z.eqb_spec r 0) as [->|Hr]; [done|].
  destruct (starts_with "0" (dec r)) eqn:Ez; [by apply dec_head_zero in Ez|done].
Qed.

(** A load request of the tool is read back by the daemon: the name (or
    number) and the optional CMA path of [-load NAME [-cma PATH]] arrive as they
    were given. *)
Theorem load_request_round_trip prog cmd name cma data :
  token ":" name -> match cma with Some c => token ":" c | None => True end ->
  format_load_request (prog :: cmd :: name :: match cma with Some c => ["-cma"%string; c] | None => [] end) DATA_SIZE
    = Some data ->
  fits DATA_SIZE (name ++ match cma with Some c => ":" ++ c | None => "" end) = true ->
  load_args data = (Some name, cma).
Proof.
  intros Hn Hc E Hf. destruct cma as [c|]; simpl in E; injection E as <-.
  - rewrite trunc_id by exact Hf. unfold load_args. change (":" ++ c)%string with (String ":" c).
    rewrite strtok_app by done. cbn [after_delim]. by rewrite (strtok_one _ _ Hc).
  - rewrite app_nil_r_str in Hf. rewrite trunc_id by exact Hf. by apply load_args_name.
Qed.
End Wire.

(** ** User loads *)

Definition sep : string := " : ".

Lemma flag_set_lor f bit : bit <> 0 -> flag_set (Z.lor f bit) bit = true.
Proof.
  intros Hb. unfold flag_set. rewrite Z.land_lor_distr_l, Z.land_diag.
  destruct (Z.eqb_spec (Z.lor (Z.land f bit) bit) 0) as [E|]; [|done]. by apply Z.lor_eq_0_iff in E as [_ ?].
Qed.

Lemma next_token_end t : token sep t -> next_token sep (Some t) = (Some t, Some ""%string).
Proof. intros Ht. unfold next_token. by rewrite (strtok_one _ _ Ht). Qed.

(** A token, the separator and the rest. *)
Lemma next_token_sep t r :
  token sep t -> next_token sep (Some (t ++ sep ++ r)%string) = (Some t, Some (String ":" (String " " r))).
Proof. intros Ht. unfold next_token. change (sep ++ r)%string with (String " " (String ":" (String " " r))). by rewrite strtok_app. Qed.

Lemma next_token_skip r : next_token sep (Some (String ":" (String " " r))) = next_token sep (Some r).
Proof. unfold next_token. by rewrite !strtok_skip. Qed.

(** What the key adds to the data. *)
Definition shown_key (a : cargs) : option string :=
  match ca_key a with
  | Some k => if negb (streq k "") && flag_set (ca_sflag a) ENUSRKEY then Some k else None
  | None => None
  end.
Definition key_suffix (a : cargs) : string := match shown_key a with Some k => sep ++ k | None => "" end.

Lemma with_key a data :
  fits DATA_SIZE (data ++ key_suffix a) = true ->
  match ca_key a with
  | Some k => if negb (streq k "") && flag_set (ca_sflag a) ENUSRKEY
              then (data ++ trunc (DATA_SIZE - strlen data) (" : " ++ k))%string else data
  | None => data
  end = (data ++ key_suffix a)%string.
Proof.
  intros Hf. unfold key_suffix, shown_key in *. destruct (ca_key a) as [k|]; [|by rewrite app_nil_r_str].
  destruct (_ && _); [|by rewrite app_nil_r_str]. f_equal. apply trunc_id.
  unfold fits in *. apply Nat.ltb_lt in Hf. apply Nat.ltb_lt. rewrite strlen_app in Hf. lia.
Qed.

Lemma parse_key t a :
  token sep t -> (forall k, shown_key a = Some k -> token sep k) ->
  exists r, next_token sep (Some (t ++ key_suffix a)%string) = (Some t, r) /\ (next_token sep r).1 = shown_key a.
Proof.
  intros Ht Hk. unfold key_suffix. destruct (shown_key a) as [k|].
  - rewrite (next_token_sep _ _ Ht). eexists. split; [done|]. rewrite next_token_skip, next_token_end by auto. done.
  - rewrite app_nil_r_str, (next_token_end _ Ht). by eexists.
Qed.

(** C25: A user load request of the tool is read back by the daemon: the
    bitstream, the overlay, the region ("full" when none was given) and, for an
    encrypted bitstream, the key arrive as they were given on the command line,
    when they contain neither blanks nor colons and fit the message. *)
Theorem user_load_request_round_trip a bin msg :
  ca_bin a = Some bin -> token sep bin ->
  (forall ov, ca_overlay a = Some ov -> token sep ov) -> (forall r, ca_region a = Some r -> token sep r) ->
  (forall k, shown_key a = Some k -> token sep k) -> flag_set (ca_flag a) USER_LOAD_HAS_OVERLAY = false ->
  fits DATA_SIZE (bin ++ match ca_overlay a with
                         | Some ov => sep ++ ov ++ sep ++ default "full" (ca_region a)
                         | None => ""
                         end ++ key_suffix a) = true ->
  user_load_request a = Some msg ->
  parse_user_load (msg_flags msg) (msg_data msg) =
    UserLoadArgs (Some bin) (ca_overlay a) (match ca_overlay a with Some _ => Some (default "full"%string (ca_region a)) | None => None end)
                 (shown_key a).
Proof.
  intros Hb Hbt Hov Hreg Hkey Hflag Hfit. unfold user_load_request. rewrite Hb. destruct (_ && negb _); [done|].
  assert (Hr : token sep (default "full"%string (ca_region a))) by (destruct (ca_region a); [by apply Hreg|by split]).
  destruct (ca_overlay a) as [ov|].
  - specialize (Hov ov eq_refl).
    assert (Hmsg : forall d, d = (bin ++ " : " ++ ov ++ " : " ++ default "full" (ca_region a))%string ->
      Some (Message (request_id USER_LOAD) 0 (Z.lor (ca_flag a) USER_LOAD_HAS_OVERLAY) (ca_sflag a)
        match ca_key a with
        | Some k => if negb (streq k "") && flag_set (ca_sflag a) ENUSRKEY
                    then (d ++ trunc (DATA_SIZE - strlen d) (" : " ++ k))%string else d
        | None => d
        end) = Some msg ->
      parse_user_load (msg_flags msg) (msg_data msg) =
        UserLoadArgs (Some bin) (Some ov) (Some (default "full"%string (ca_region a))) (shown_key a)).
    { intros d -> [= <-]. cbn [msg_flags msg_data].
      assert (Hassoc : ((bin ++ " : " ++ ov ++ " : " ++ default "full" (ca_region a)) ++ key_suffix a)%string =
                       (bin ++ sep ++ ov ++ sep ++ (default "full" (ca_region a) ++ key_suffix a))%string)
        by (unfold sep; by rewrite !app_assoc_str).
      rewrite with_key; [|by rewrite Hassoc; revert Hfit; rewrite !app_assoc_str].
      rewrite Hassoc. unfold parse_user_load. change " : "%string with sep. rewrite (next_token_sep _ _ Hbt).
      rewrite flag_set_lor by done. rewrite next_token_skip, (next_token_sep _ _ Hov), next_token_skip.
      destruct (parse_key _ a Hr Hkey) as (r & -> & <-). done. }
    destruct (ca_region a) as [r|]; [by apply Hmsg|]. destruct (flag_set _ USER_LOAD_PARTIAL); [done|by apply Hmsg].
  - intros [= <-]. cbn [msg_flags msg_data]. rewrite with_key by exact Hfit. unfold parse_user_load.
    change " : "%string with sep. destruct (parse_key _ a Hbt Hkey) as (r & -> & <-). by rewrite Hflag.
Qed.

(** *** Witnesses *)

Lemma client_load_is_daemon_load_witness :
  exists s', dfxmgr_load process_dfx_req (Some "flat"%string) started = Ret 0 s'.
Proof.
  assert (E : load_accelerator "flat" None (Some ""%string) FPGA_STATE_SIZE started =
              Ret (0, Some "operating"%string) (after (load_accelerator "flat" None (Some ""%string) FPGA_STATE_SIZE) started))
    by (vm_compute; reflexivity).
  eexists. apply (client_load_is_daemon_load "flat" 0 (Some "operating"%string) started _).
  - split; [discriminate|vm_compute; reflexivity].
  - apply Nat.leb_le. vm_compute. reflexivity.
  - lia.
  - exact E.
Defined.

Lemma client_unload_is_daemon_unload_witness :
  exists s', dfxmgr_unload process_dfx_req 0 with_flat = Ret 0 s'.
Proof.
  destruct (after_ret (unload_accelerator 0) with_flat) as [r E]; [vm_compute; reflexivity|].
  assert (Hr : result (unload_accelerator 0) with_flat 1 = 0) by (vm_compute; reflexivity).
  unfold result in Hr. rewrite E in Hr. rewrite Hr in E. eexists.
  exact (client_unload_is_daemon_unload 0 0 with_flat _ ltac:(lia) E).
Defined.

Lemma load_request_round_trip_witness :
  load_args "acc:/dev/cma" = (Some "acc"%string, Some "/dev/cma"%string).
Proof.
  apply (load_request_round_trip "dfx-mgr-client" "-loadByName" "acc" (Some "/dev/cma"%string) "acc:/dev/cma").
  - split; [discriminate|vm_compute; reflexivity].
  - split; [discriminate|vm_compute; reflexivity].
  - vm_compute. reflexivity.
  - vm_compute. reflexivity.
Defined.

Definition sample_args : cargs :=
  cargs0 <| ca_bin := Some "a.bin"%string |> <| ca_overlay := Some "a.dtbo"%string |>
         <| ca_key := Some "0123"%string |> <| ca_sflag := 0x20 |>.
Lemma user_load_request_round_trip_witness :
  exists msg, user_load_request sample_args = Some msg /\
  parse_user_load (msg_flags msg) (msg_data msg) =
    UserLoadArgs (Some "a.bin") (Some "a.dtbo") (Some "full") (Some "0123")%string.
Proof.
  eexists. split; [vm_compute; reflexivity|].
  apply (user_load_request_round_trip sample_args "a.bin").
  - reflexivity.
  - split; [discriminate|vm_compute; reflexivity].
  - intros ov [= <-]. split; [discriminate|vm_compute; reflexivity].
  - intros r [=].
  - intros k [= <-]. split; [discriminate|vm_compute; reflexivity].
  - vm_compute. reflexivity.
  - vm_compute. reflexivity.
  - vm_compute. reflexivity.
Defined.
