(* ===== verification/ToolSpec.v ===== *)
(** * The clients end to end

    The library and the tool over a socket that leads to the daemon: what the
    user of the client sees is what the daemon's operation answered. *)
From S2P Require Import Prelude CStr Decimals Env Model UserLoad Load Unload Registry Events Proto Server Client Tool.
From S2P Require Import RequestSafe Sample WireSpec.
Open Scope Z_scope.
Open Scope dfx_scope.

(** A client's world with the daemon at the other end of its socket: a request is
    served when it is written, and its reply waits to be read.  A daemon that
    stops, or that closes the connection, leaves nothing to read. *)
Record link (W : Type) := Link { l_daemon : sys W; l_reply : option message }.
Arguments Link {W} l_daemon l_reply.
Arguments l_daemon {W} l.
Arguments l_reply {W} l.

Section ToolSpec.
Context {W : Type} `{Env W}.
Implicit Types (s : sys W).

#[export] Instance link_sockets : Sockets (link W) := {|
  csocket_ k := (3, k);
  connect_ _ path k := (if streq path SERVER_SOCKET then 0 else -1, k);
  cwrite_ _ m k := match process_dfx_req m (l_daemon k) with
                   | Ret r s' => (HEADERSIZE + msg_size m, Link s' r)
                   | Fault _ => (HEADERSIZE + msg_size m, Link (l_daemon k) None)
                   end;
  cread_ _ k := match l_reply k with
                | Some r => (HEADERSIZE + msg_size r, r, Link (l_daemon k) None)
                | None => (0, message0, k)
                end;
|}.

(** A message that write() can take, a reply that is not empty. *)
Definition sendable (m : message) : Prop := 0 <= msg_size m /\ HEADERSIZE + msg_size m <= SIZEOF_MESSAGE.

Lemma init_link (k : link W) : initSocket k = Ret (0, 3) k.
Proof. done. Qed.

Lemma put_link m r s s' x :
  sendable m -> process_dfx_req m s = Ret r s' ->
  put_message 3 m (Link s x) = Ret (HEADERSIZE + msg_size m) (Link s' r).
Proof.
  intros [H0 Hm] E. unfold put_message. unfold u32. rewrite Z.mod_small by (unfold HEADERSIZE, SIZEOF_MESSAGE in *; lia).
  apply Z.leb_le in Hm as ->. unfold bind, guard_that, act. cbn. by rewrite E.
Qed.

(** The library's exchange is the daemon's step. *)
Lemma lib_transact_link junk m r s s' x :
  sendable m -> 0 <= msg_size r -> process_dfx_req m s = Ret (Some r) s' ->
  lib_transact junk m (Link s x) = Ret (Some r) (Link s' None).
Proof.
  intros Hm Hr E. unfold lib_transact. rewrite (bind_Ret _ _ _ _ _ (init_link _)). cbn [snd].
  rewrite (bind_Ret _ _ _ _ _ (put_link m (Some r) s s' x Hm E)).
  destruct Hm as [H0 _]. pose proof (eq_refl : HEADERSIZE = 24) as Hh.
  destruct (Z.ltb_spec (HEADERSIZE + msg_size m) 0); [lia|]. unfold bind, act. cbn.
  destruct (Z.ltb_spec (HEADERSIZE + msg_size r) 0); [lia|].
  by destruct (Z.eqb_spec (HEADERSIZE + msg_size r) 0); [lia|].
Qed.

Lemma tool_transact_link m r s s' x :
  sendable (sized m) -> 0 <= msg_size r -> process_dfx_req (sized m) s = Ret (Some r) s' ->
  send_and_recv_msg 3 m (Link s x) = Ret (Some r) (Link s' None).
Proof.
  intros Hm Hr E. unfold send_and_recv_msg.
  rewrite (bind_Ret _ _ _ _ _ (put_link (sized m) (Some r) s s' x Hm E)).
  destruct Hm as [H0 _]. pose proof (eq_refl : HEADERSIZE = 24) as Hh.
  destruct (Z.ltb_spec (HEADERSIZE + msg_size (sized m)) 0); [lia|]. unfold bind, act. cbn.
  by destruct (Z.leb_spec (HEADERSIZE + msg_size r) 0); [lia|].
Qed.

(** ** Exit statuses *)

(** A load's status: 0, or the (negative) value that the daemon answered. *)
Lemma load_status resp v :
  (dfxmgr_split_fpga_state resp).1 = dec v -> - 2 ^ 31 < v < 2 ^ 31 -> print_load_result resp = Z.min v 0.
Proof.
  intros E Hv. unfold print_load_result. rewrite E. destruct (Z.ltb_spec v 0) as [Hn|Hp].
  - rewrite (dec_neg v Hn). cbn [starts_with]. change (starts_with "-" (String "-" (dec (- v)))) with true. cbn [negb].
    change (str_drop 1 (String "-" (dec (- v)))) with (dec (- v)).
    rewrite strtol_dec_all by (unfold LONG_MAX; lia). cbn [fst]. rewrite int32_id by lia. lia.
  - destruct (dec_digit_head v Hp) as (c & t & -> & Hc). unfold starts_with. cbn.
    destruct (digit_not_sign c Hc) as [Hm _]. destruct (Ascii.eqb_spec c "-"); [done|]. cbn. lia.
Qed.

Lemma unload_status r : print_unload_result (dec r) = if r =? 0 then 0 else -1.
Proof.
  unfold print_unload_result. destruct (Z.eqb_spec r 0) as [->|Hr]; [done|].
  destruct (starts_with "0" (dec r)) eqn:Ez; [by apply dec_head_zero in Ez|done].
Qed.

(** ** The tool *)

Lemma text_fits x : Z.of_nat (strlen x) <= 32 * 1024 - 8 -> fits DATA_SIZE x = true.
Proof. intros Hx. apply Nat.ltb_lt, Nat2Z.inj_lt. change (Z.of_nat DATA_SIZE) with 32768. lia. Qed.

(** A command whose text fits a message exits with the status that the daemon's
    reply stands for. *)
Lemma tool_runs argv opts cwd q x m r s s' :
  (2 <= length argv)%nat -> command_request argv opts cwd = Some m -> request_of (msg_id m) = Some q ->
  msg_data m = x -> Z.of_nat (strlen x) <= 32 * 1024 - 8 -> 0 <= msg_size r ->
  process_dfx_req (sized m) s = Ret (Some r) s' ->
  tool_main argv opts cwd (Link s None) = Ret (exit_status q (msg_data r)) (Link s' None).
Proof.
  intros Hargc Hcmd Hq Hx Hlen Hr Hreq.
  assert (Hsend : sendable (sized m)).
  { unfold sendable. change (msg_size (sized m)) with (Z.of_nat (strlen (msg_data m))). rewrite Hx.
    unfold HEADERSIZE, SIZEOF_MESSAGE. lia. }
  unfold tool_main. destruct (Nat.ltb_spec (length argv) 2); [lia|].
  rewrite (bind_Ret _ _ _ _ _ (init_link _)). cbn [fst snd]. change (0 <? 0) with false. cbv iota. rewrite Hcmd, Hx.
  rewrite (text_fits x Hlen).
  rewrite (bind_Ret (guard_that BufOverflow true) _ (Link s None) tt (Link s None)) by done.
  rewrite (bind_Ret _ _ _ _ _ (tool_transact_link m _ s s' None Hsend Hr Hreq)). by rewrite Hq.
Qed.

(** The arguments of [-loadByName NAME [-cma PATH]], and the text they send. *)
Definition load_argv (prog name : string) (cma : option string) : list string :=
  prog :: "-loadByName"%string :: name :: match cma with Some c => ["-cma"%string; c] | None => [] end.
Definition load_text (name : string) (cma : option string) : string :=
  name ++ match cma with Some c => ":" ++ c | None => "" end.

Lemma format_text prog name cma :
  fits DATA_SIZE (load_text name cma) = true ->
  format_load_request (load_argv prog name cma) DATA_SIZE = Some (load_text name cma).
Proof.
  unfold load_text, load_argv. destruct cma as [c|]; intros Hf; cbn [format_load_request].
  - change (streq "-cma" "-cma") with true. cbv iota. by rewrite trunc_id.
  - rewrite app_nil_r_str in *. by rewrite trunc_id.
Qed.

Lemma load_reply_nonneg v allow dirty fs : 0 <= msg_size (format_load_response v allow dirty fs).
Proof. unfold format_load_response. cbn [msg_size record_set]. cbn. lia. Qed.

(** What [process_dfx_req()] makes of a load request. *)
Lemma load_request_served r m name cma v fs s s' :
  request_of (msg_id m) = Some r -> r = LOAD_ACCEL \/ r = LOAD_ACCEL_BY_NAME ->
  load_args (msg_data m) = (Some name, cma) ->
  load_accelerator name cma (Some ""%string) FPGA_STATE_SIZE s = Ret (v, fs) s' ->
  process_dfx_req m s = Ret (Some (format_load_response v false (pkg_listing_dirty (dm s')) fs)) s'.
Proof.
  intros Hr Hor Ha E. unfold process_dfx_req. rewrite Hr.
  destruct Hor as [-> | ->]; cbn [handle_request]; rewrite Ha; cbn [load_accelerator_arg];
    by rewrite (bind_Ret _ _ _ _ _ E).
Qed.

Lemma tool_load prog name cma opts cwd v fs s s' :
  token ":" name -> match cma with Some c => token ":" c | None => True end ->
  Z.of_nat (strlen (load_text name cma)) <= 32 * 1024 - 8 -> - 2 ^ 31 < v < 2 ^ 31 ->
  load_accelerator name cma (Some ""%string) FPGA_STATE_SIZE s = Ret (v, fs) s' ->
  tool_main (load_argv prog name cma) opts cwd (Link s None) = Ret (Z.min v 0) (Link s' None).
Proof.
  intros Hn Hc Hlen Hv E. pose proof (text_fits _ Hlen) as Hfit.
  set (m := plain_request LOAD_ACCEL_BY_NAME (load_text name cma)).
  assert (Hcmd : command_request (load_argv prog name cma) opts cwd = Some m).
  { unfold m. change (command_request (load_argv prog name cma) opts cwd) with
      (plain_request LOAD_ACCEL_BY_NAME <$> format_load_request (load_argv prog name cma) DATA_SIZE).
    by rewrite format_text. }
  assert (Hargs : load_args (load_text name cma) = (Some name, cma)).
  { apply (load_request_round_trip prog "-loadByName" name cma); [done..| |done]. by apply format_text. }
  rewrite (tool_runs (load_argv prog name cma) _ _ LOAD_ACCEL_BY_NAME (load_text name cma) m _ s s'
             (le_n_S _ _ (le_n_S _ _ (Nat.le_0_l _))) Hcmd (request_of_id _) eq_refl Hlen (load_reply_nonneg v false (pkg_listing_dirty (dm s')) fs)).
  - destruct (response_value v false (pkg_listing_dirty (dm s')) fs) as (x & [= <-] & Hx). cbn [exit_status]. by rewrite (load_status _ v Hx Hv).
  - by apply (load_request_served LOAD_ACCEL_BY_NAME _ name cma); [apply request_of_id|right|..].
Qed.

Lemma library_load junk name v fs s s' :
  token ":" name -> Z.of_nat (strlen name) <= 32 * 1024 - 8 -> - 2 ^ 31 < v < 2 ^ 31 ->
  load_accelerator name None (Some ""%string) FPGA_STATE_SIZE s = Ret (v, fs) s' ->
  dfxmgr_load (lib_transact junk) (Some name) (Link s None) = Ret v (Link s' None).
Proof.
  intros Hn Hlen Hv E. unfold dfxmgr_load. destruct (streqP name "") as [->|_]; [by destruct Hn|].
  rewrite substring_whole by (apply Nat2Z.inj_le; change (Z.of_nat DATA_SIZE) with 32768; lia).
  set (m := (plain_request LOAD_ACCEL name) <| msg_size := Z.of_nat (strlen name) |>).
  set (r := format_load_response v false (pkg_listing_dirty (dm s')) fs).
  assert (Hreq : process_dfx_req m s = Ret (Some r) s').
  { apply (load_request_served LOAD_ACCEL _ name None); [apply request_of_id|by left|by apply load_args_name|done]. }
  assert (Hsend : sendable m).
  { unfold sendable. change (msg_size m) with (Z.of_nat (strlen name)). unfold HEADERSIZE, SIZEOF_MESSAGE. lia. }
  pose proof (load_reply_nonneg v false (pkg_listing_dirty (dm s')) fs : 0 <= msg_size r) as Hr.
  rewrite (bind_Ret _ _ _ _ _ (lib_transact_link junk m r s s' None Hsend Hr Hreq)).
  destruct (response_value v false (pkg_listing_dirty (dm s')) fs) as (x & [= <-] & Hx).
  unfold r. rewrite Hx, atoi_dec by lia. done.
Qed.

(** C18: A client's load is the daemon's load, over the socket: for a package name
    and an optional CMA path that are tokens of the protocol and fit a message,
    [dfx-mgr-client -loadByName NAME [-cma PATH]] runs [load_accelerator()] on
    them as they were typed, and exits with 0 when that answered a handle and with
    its error code otherwise; [dfxmgr_load(NAME)] returns its very value. *)
Theorem client_load_end_to_end prog name cma opts cwd junk v fs s s' :
  token ":" name -> match cma with Some c => token ":" c | None => True end ->
  Z.of_nat (strlen (load_text name cma)) <= 32 * 1024 - 8 -> - 2 ^ 31 < v < 2 ^ 31 ->
  load_accelerator name cma (Some ""%string) FPGA_STATE_SIZE s = Ret (v, fs) s' ->
  tool_main (load_argv prog name cma) opts cwd (Link s None) = Ret (Z.min v 0) (Link s' None) /\
  (cma = None -> dfxmgr_load (lib_transact junk) (Some name) (Link s None) = Ret v (Link s' None)).
Proof.
  intros Hn Hc Hlen Hv E. split; [by apply (tool_load _ _ _ _ _ _ fs)|]. intros ->.
  unfold load_text in Hlen. rewrite app_nil_r_str in Hlen. by apply (library_load _ _ _ fs).
Qed.

(** Unloading by handle: whatever number was typed, the tool's exit status is 0
    exactly when [unload_accelerator()] of it answers 0. *)
Lemma tool_unload prog x opts cwd r s s' :
  validate_numeric_arg x (-1) = true -> Z.of_nat (strlen x) <= 32 * 1024 - 8 ->
  unload_accelerator (atoi x) s = Ret r s' ->
  tool_main [prog; "-unloadByHandle"%string; x] opts cwd (Link s None) =
    Ret (if r =? 0 then 0 else -1) (Link s' None).
Proof.
  intros Hx Hlen E. set (argv := [prog; "-unloadByHandle"%string; x]).
  pose proof (text_fits _ Hlen) as Hfit. set (m := plain_request UNLOAD_ACCEL_BY_HANDLE x).
  assert (Hcmd : command_request argv opts cwd = Some m).
  { change (command_request argv opts cwd) with
      (if validate_numeric_arg x (-1) then Some (plain_request UNLOAD_ACCEL_BY_HANDLE (trunc DATA_SIZE x)) else None).
    by rewrite Hx, trunc_id. }
  rewrite (tool_runs argv _ _ UNLOAD_ACCEL_BY_HANDLE x m (number_reply r) s s'
             (le_n_S _ _ (le_n_S _ _ (Nat.le_0_l _))) Hcmd (request_of_id _) eq_refl Hlen ltac:(unfold number_reply; cbn; lia)).
  - cbn [exit_status]. change (msg_data (number_reply r)) with (dec r). by rewrite unload_status.
  - rewrite (process_known UNLOAD_ACCEL_BY_HANDLE) by done. cbn [handle_request].
    change (msg_data (sized m)) with x. by rewrite (bind_Ret _ _ _ _ _ E).
Qed.
End ToolSpec.

(** ** Without a daemon *)

(** Nobody listens: connect() fails. *)
Definition alone : Sockets unit := {|
  csocket_ k := (3, k); connect_ _ _ k := (-1, k); cwrite_ _ _ k := (-1, k); cread_ _ k := (-1, message0, k);
|}.

(** Without a daemon every command of the tool fails before it is looked at, the
    request for help too. *)
Lemma tool_needs_daemon argv opts cwd : tool_main (H := alone) argv opts cwd tt = Ret (-1) tt.
Proof. unfold tool_main. by destruct (length argv <? 2)%nat. Qed.

(** *** Witness *)

Lemma client_load_end_to_end_witness :
  exists s', tool_main ["dfx-mgr-client"; "-loadByName"; "flat"]%string [] None (Link started None) = Ret 0 (Link s' None) /\
    dfxmgr_load (lib_transact (fun _ => message0)) (Some "flat"%string) (Link started None) = Ret 0 (Link s' None).
Proof.
  assert (E : load_accelerator "flat" None (Some ""%string) FPGA_STATE_SIZE started =
              Ret (0, Some "operating"%string) (after (load_accelerator "flat" None (Some ""%string) FPGA_STATE_SIZE) started))
    by (vm_compute; reflexivity).
  destruct (client_load_end_to_end "dfx-mgr-client" "flat" None [] None (fun _ => message0) 0 _ started _
              ltac:(split; [discriminate|vm_compute; reflexivity]) I ltac:(vm_compute; discriminate) ltac:(lia) E)
    as [Ht Hl].
  eexists. split; [exact Ht|apply Hl; reflexivity].
Defined.
