(* ===== verification/SessionSpec.v ===== *)
(** * A client's session

    load_accel.c runs the client library through a whole session with the daemon:
    it loads a package, asks for two devices and unloads the handle it got.
    Whatever the package and the hardware do, every handle has the owner it had. *)
From S2P Require Import Prelude CStr Env Model Json Accel Slots Load Unload Events Listing Proto Client Examples.
From S2P Require Import Invariant TablesWp LoadSafe UnloadSafe Handles Owners Returns RequestSafe StartSafe EventsSafe Reach LoadSpec.
From S2P Require Import WireSpec Decimals Sample.
Open Scope Z_scope.
Open Scope dfx_scope.

Section Session.
Context {W : Type} `{Env W}.
Implicit Types (s : sys W).

(** [dfxmgr_load()] over the daemon, by the load in the daemon. *)
Lemma client_load_wp name (Q : Z -> sys W -> Prop) s :
  token ":" name -> (strlen name <= DATA_SIZE)%nat ->
  wp lib_fault (load_accelerator name None (Some ""%string) FPGA_STATE_SIZE)
     (fun r s' => -2 ^ 31 <= r.1 < 2 ^ 31 /\ Q r.1 s') s ->
  wp lib_fault (dfxmgr_load process_dfx_req (Some name)) Q s.
Proof.
  intros Ht Hlen Hload. unfold dfxmgr_load. destruct (streqP name "") as [->|_]; [by destruct Ht|].
  rewrite (substring_whole _ _ Hlen). apply wp_bind. unfold wp at 1. rewrite (process_known LOAD_ACCEL) by done.
  cbn [handle_request msg_data plain_request record_set]. rewrite (load_args_name _ Ht). cbn [load_accelerator_arg].
  match goal with |- match ?m s with _ => _ end => change (wp lib_fault m (fun r s' => wp lib_fault (ret match r with None => -1 | Some r => atoi (dfxmgr_split_fpga_state (msg_data r)).1 end) Q s') s) end.
  apply wp_bind. eapply wp_mono; [exact Hload|]. intros [v fs] s1 [Hv HQ]. simpl in Hv, HQ.
  apply wp_bind, wp_bind, wp_getd, wp_ret, wp_ret, wp_ret.
  destruct (response_value v false (pkg_listing_dirty (dm s1)) fs) as (m & Em & Hm). injection Em as <-.
  cbn [fst snd]. rewrite Hm. by rewrite (atoi_dec v Hv).
Qed.

(** [dfxmgr_uio_by_name()] over the daemon takes no handle and gives none back. *)
Lemma client_uio_wp slot n s :
  wf (dm s) -> wp lib_fault (dfxmgr_uio_by_name process_dfx_req slot (Some n)) (fun _ s' => seen (dm s) (dm s')) s.
Proof.
  intros Hwf. unfold dfxmgr_uio_by_name. destruct (_ || _); [by apply wp_ret|].
  apply wp_bind. unfold wp at 1. rewrite (process_known LIST_ACCEL_UIO) by done. cbn [handle_request msg_data]. cbv zeta.
  match goal with |- match ?m s with _ => _ end =>
    change (wp lib_fault m (fun r s' => wp lib_fault (ret match r with None => None | Some r => Some (substring 0 NAME_MAX (msg_data r)) end)
      (fun _ s' => seen (dm s) (dm s')) s') s) end.
  destruct (streq _ _); apply wp_bind.
  - eapply wp_mono; [by apply list_uio_wp|]. intros r s' Hs. by apply wp_ret, wp_ret.
  - eapply wp_mono; [by apply uio_by_name_wp|]. intros r s' Hs. by apply wp_ret, wp_ret.
Qed.

(** A load by name in the daemon, with what a client needs to know of its value. *)
Lemma name_load_wp name s :
  ready (dm s) ->
  wp lib_fault (load_accelerator name None (Some ""%string) FPGA_STATE_SIZE)
     (fun r s' => -2 ^ 31 <= r.1 < 2 ^ 31 /\
        (wf (dm s') /\ ((exists h i k, r.1 = Z.of_nat h /\ alloc_step (ledger (dm s)) (Take h (OSlot i k)) (ledger (dm s'))) \/
                        (r.1 < 0 /\ ledger (dm s') = ledger (dm s))))) s.
Proof.
  intros Hr. destruct (findBaseDesign (dm s) name) as [i|] eqn:Ef.
  2: { unfold wp. rewrite (load_no_walk name None _ _ s (proj2 Hr)), Ef. split; [done|]. split; [apply Hr|by right]. }
  eapply wp_weaken; [exact shell_fault_lib|]. eapply wp_mono; [by apply load_name_wp|].
  intros [r fs] s' [[Hwf _] [(h & k & b & x & E & Hst & _)|[He Hl]]]; cbn [fst] in *.
  - subst r. split; [|split; [done|left; by exists h, i, k]].
    inversion Hst as [|? ? Hlt _ _|]; subst. unfold SLOT_HANDLE_MAX in Hlt. lia.
  - unfold is_error in He. split; [lia|]. split; [done|]. right. split; [apply He|done].
Qed.

(** Unloading over the daemon the handle that a slot owns. *)
Lemma client_unload_wp i k h (Q : Z -> sys W -> Prop) s :
  wf (dm s) -> owns (dm s) (OSlot i k) h ->
  (forall r s', wf (dm s') -> ledger (dm s') = delete h (ledger (dm s)) -> Q (if r =? 0 then 0 else -1) s') ->
  wp lib_fault (dfxmgr_unload process_dfx_req (Z.of_nat h)) Q s.
Proof.
  intros Hwf Ho HQ. pose proof (marked_lt _ _ (owns_marked _ _ _ Hwf Ho)) as Hlt. rewrite (wf_table _ _ _ _ Hwf) in Hlt.
  pose proof (unload_owned_returns i k h _ s Hwf Ho (unload_owned_ledger i k h s Hwf Ho)) as Hw.
  apply safe_ret in Hw as (r & s' & E & Hwf' & _ & Hl). unfold SLOT_HANDLE_MAX in Hlt.
  unfold wp. rewrite (client_unload_is_daemon_unload (Z.of_nat h) r s s' ltac:(lia) E). by apply HQ.
Qed.

(** C19: The whole session of load_accel.c leaves every handle with the owner it
    had before: what it loads it unloads, and its two lookups in between take
    nothing; it exits with 0 or -1. This is for a daemon in a reachable state with
    no walk of the firmware directories due ([walked]) and a package name that is
    a token of the protocol (not empty, without a colon) and no longer than the
    data of a message; and the session either comes to this end or stops in a
    [lib_fault]: any fault, such as a token of shell.json that was never written
    or a string past the end of its buffer, but a NULL pointer followed or an
    index outside a table. *)
Theorem client_session_restores m s prog name rest :
  walked m s -> token ":" name -> (strlen name <= DATA_SIZE)%nat ->
  wp lib_fault (load_accel_main process_dfx_req (prog :: name :: rest))
     (fun r s' => wf (dm s') /\ ledger (dm s') = ledger (dm s) /\ (r = 0 \/ r = -1)) s.
Proof.
  intros Hs%walked_ready Ht Hlen. apply wp_bind. apply client_load_wp; [done..|].
  eapply wp_mono; [by apply name_load_wp|]. intros [v fs] s1 [Hv [Hwf1 Hpost]]. split; [exact Hv|]. simpl fst in *.
  apply wp_bind. eapply wp_mono; [by apply client_uio_wp|]. intros u1 s2 Hs2. pose proof (seen_ledger _ _ Hwf1 Hs2) as Hl2.
  assert (Hwf2 : wf (dm s2)) by apply Hs2.
  apply wp_bind. eapply wp_mono; [by apply client_uio_wp|]. intros u2 s3 Hs3. pose proof (seen_ledger _ _ Hwf2 Hs3) as Hl3.
  assert (Hwf3 : wf (dm s3)) by apply Hs3. rewrite <- Hl2, <- Hl3 in *. destruct Hpost as [(h & i & k & -> & Hst)|[Hneg Hl1]].
  - apply (client_unload_wp i k h _ s3 Hwf3).
    { apply ledger_owns; [done|]. inversion Hst as [|? ? _ _ _ El|]; subst. apply lookup_insert_eq. }
    intros r s4 Hwf4 Hl4. split; [done|]. split; [|destruct (r =? 0); auto]. rewrite Hl4. by eapply take_free_ledger.
  - unfold dfxmgr_unload. destruct (Z.ltb_spec v 0); [|lia]. apply wp_ret. split; [done|]. split; [done|by right].
Qed.
End Session.

Lemma client_session_restores_witness :
  exists s', load_accel_main process_dfx_req ["load_accel"; "acc"]%string started = Ret 0 s' /\ ledger (dm s') = ledger (dm started).
Proof.
  assert (E : load_accel_main process_dfx_req ["load_accel"; "acc"]%string started =
              Ret 0 (after (load_accel_main process_dfx_req ["load_accel"; "acc"]%string) started)) by (vm_compute; reflexivity).
  eexists. split; [exact E|].
  assert (Ht : token ":" "acc") by (split; [discriminate|reflexivity]).
  exact (proj1 (proj2 (wp_returns _ _ _ _ _ _
    (client_session_restores board started "load_accel" "acc" [] started_walked Ht ltac:(apply Nat.leb_le; vm_compute; reflexivity)) E))).
Defined.
