(* ===== verification/DevSpec.v ===== *)
(** * Devices, device addresses and accelerators: correctness

    The IOVA allocator of a VFIO device keeps device addresses apart (under the
    condition its search needs), references balance, a load through libdfx or
    through configfs ends in one of its documented states. *)
From S2P Require Import Prelude CStr Env Model UserLoad Device Dma Json Accel Sample.
Open Scope Z_scope.
Open Scope dfx_scope.

(** ** Rounding up to pages *)

(** [acapd_align_up(size, 4096)] is the least multiple of the page size that
    is not smaller than [size], as long as the sum does not wrap. *)
Theorem align_up_is_least_page_multiple size :
  0 <= size < 2 ^ 64 - 4096 ->
  let r := acapd_align_up size 4096 in size <= r < size + 4096 /\ r mod 4096 = 0.
Proof.
  intros Hs. cbv zeta. unfold acapd_align_up.
  assert (Hu : u64 (size + 4096 - 1) = size + 4095) by (unfold u64; rewrite Z.mod_small; lia).
  rewrite Hu. change (u64 (Z.lnot (4096 - 1))) with (Z.shiftl (Z.ones 52) 12).
  assert (Hland : Z.land (size + 4095) (Z.shiftl (Z.ones 52) 12) = (size + 4095) / 4096 * 4096).
  { change 4096 with (2 ^ 12). rewrite <- Z.shiftr_div_pow2, <- Z.shiftl_mul_pow2 by lia.
    apply Z.bits_inj'. intros n Hn. rewrite Z.land_spec, !Z.shiftl_spec by done.
    destruct (Z.ltb_spec n 12) as [Hlt|Hge].
    - rewrite !(Z.testbit_neg_r _ (n - 12)) by lia. by rewrite andb_false_r.
    - rewrite Z.shiftr_spec by lia. replace (n - 12 + 12) with n by lia.
      rewrite Z.testbit_ones_nonneg by lia. destruct (Z.ltb_spec (n - 12) 52); [by rewrite andb_true_r|].
      rewrite andb_false_r. symmetry. apply Z.bits_above_log2; [lia|]. apply Z.log2_lt_pow2; [lia|].
      apply (Z.lt_le_trans _ (2 ^ 64)); [lia|]. apply Z.pow_le_mono_r; lia. }
  rewrite Hland. pose proof (Z.div_mod (size + 4095) 4096 ltac:(lia)). pose proof (Z.mod_pos_bound (size + 4095) 4096).
  split; [lia|]. apply Z.mod_mul. lia.
Qed.

(** ** Device addresses *)

(** The mappings of a device, one after the other from [start] on. *)
Fixpoint stacked (start : Z) (ms : list acapd_vfio_mmap) : Prop :=
  match ms with
  | [] => True
  | m :: r => m_da m = start /\ 0 < m_size m /\ stacked (start + m_size m) r
  end.
Fixpoint end_of (start : Z) (ms : list acapd_vfio_mmap) : Z :=
  match ms with [] => start | m :: r => end_of (start + m_size m) r end.

Lemma end_of_ge start ms : stacked start ms -> start <= end_of start ms.
Proof. revert start. induction ms as [|m ms IH]; intros start; simpl; [lia|]. intros (_ & Hm & Hr). specialize (IH _ Hr). lia. Qed.

Lemma stacked_app start ms m :
  stacked start ms -> m_da m = end_of start ms -> 0 < m_size m -> stacked start (ms ++ [m]).
Proof. revert start. induction ms as [|x ms IH]; intros start; simpl; [done|]. intros (? & ? & ?) ? ?. auto. Qed.

Lemma choose_da_from size ms start :
  stacked start ms -> 0 <= start -> 0 < size -> Forall (fun m => size <= m_size m) ms ->
  end_of start ms + size < 2 ^ 64 -> fold_left (da_step size) ms start = end_of start ms.
Proof.
  intros Hst H0 Hs Hf. revert start Hst H0. induction Hf as [|m ms Hm Hf IH]; intros start Hst H0 Hend; [done|].
  destruct Hst as (Hda & Hpos & Hr). simpl in *. pose proof (end_of_ge _ _ Hr).
  assert (E : da_step size start m = start + m_size m).
  { unfold da_step, u64. rewrite Hda, !Z.mod_small by lia.
    destruct (Z.ltb_spec (start + size) start); [lia|]. by destruct (Z.leb_spec (start + size) (start + m_size m)); [|lia]. }
  rewrite E. apply IH; [done|lia|done].
Qed.

(** Mappings at different places of the list do not overlap. *)
Definition apart (m m' : acapd_vfio_mmap) : Prop :=
  m_da m + m_size m <= m_da m' \/ m_da m' + m_size m' <= m_da m.

Lemma stacked_above start ms i m : stacked start ms -> ms !! i = Some m -> start <= m_da m /\ 0 < m_size m /\ m_da m + m_size m <= end_of start ms.
Proof.
  revert start i. induction ms as [|x ms IH]; intros start [|i]; simpl; try done; intros (Hx & Hp & Hr).
  - intros [= ->]. pose proof (end_of_ge _ _ Hr). lia.
  - intros Hi. destruct (IH _ _ Hr Hi). lia.
Qed.

Lemma stacked_apart start ms i j m m' :
  stacked start ms -> ms !! i = Some m -> ms !! j = Some m' -> i <> j -> apart m m'.
Proof.
  revert start i j. induction ms as [|x ms IH]; intros start [|i] [|j]; simpl; try done; intros (Hx & Hp & Hr).
  - intros [= ->] Hj _. left. destruct (stacked_above _ _ _ _ Hr Hj). lia.
  - intros Hi [= ->] _. right. destruct (stacked_above _ _ _ _ Hr Hi). lia.
  - intros Hi Hj Hne. apply (IH _ i j Hr Hi Hj). congruence.
Qed.

Section Dev.
Context {W : Type} `{Env W}.
Implicit Types (h : hw W).

Lemma get_dev_wp F d x Q h : devs h !! d = Some x -> Q x h -> wp F (get_dev d) Q h.
Proof. intros Hd HQ. apply wp_bind, wp_get. by eapply wp_the_Some. Qed.

Lemma mod_dev_wp F d f x Q h :
  devs h !! d = Some x -> Q tt (h <| devs ::= <[d := f x]> |>) -> wp F (mod_dev d f) Q h.
Proof. intros Hd HQ. apply wp_bind. eapply get_dev_wp; [done|]. by apply wp_modify. Qed.

(** C37: Attaching memory keeps the device addresses of a VFIO device apart: when
    the mappings are stacked from 0x1000 on and none is smaller than the new one,
    the new mapping is put after the last, and the mappings are stacked again;
    when the ioctl fails, nothing is recorded. *)
Theorem attach_keeps_mappings_apart d x v va_ size h :
  devs h !! d = Some x -> priv x = Some v -> stacked 0x1000 (mmaps v) -> 0 < acapd_align_up size (4 * 1024) ->
  Forall (fun m => acapd_align_up size (4 * 1024) <= m_size m) (mmaps v) ->
  end_of 0x1000 (mmaps v) + acapd_align_up size (4 * 1024) < 2 ^ 64 ->
  safe (acapd_vfio_device_attach d va_ size)
    (fun r h' => (r = None /\ devs h' = devs h) \/
       (r = Some va_ /\ exists x' v', devs h' !! d = Some x' /\ priv x' = Some v' /\
          mmaps v' = mmaps v ++ [VfioMmap va_ (end_of 0x1000 (mmaps v)) (acapd_align_up size (4 * 1024))] /\
          forall i j m m', i <> j -> mmaps v' !! i = Some m -> mmaps v' !! j = Some m' -> apart m m')) h.
Proof.
  intros Hd Hv Hst Hs Hf Hend. apply wp_bind. eapply get_dev_wp; [exact Hd|]. rewrite Hv. cbv zeta.
  apply wp_bind, wp_in_world, wp_act. destruct (negb _); [apply wp_ret; by left|].
  apply wp_bind. eapply mod_dev_wp; [exact Hd|]. apply wp_ret. right. split; [done|]. eexists _, _.
  split; [simpl; by rewrite list_lookup_insert_eq by (by eapply lookup_lt_Some)|]. split; [done|].
  unfold choose_da. rewrite choose_da_from by (done || lia). split; [done|].
  intros i j m m' Hne Hi Hj. eapply (stacked_apart 0x1000); [|exact Hi|exact Hj|exact Hne].
  by apply stacked_app.
Qed.

(** The search is not right without that condition: a buffer larger than the
    first mapping gets an address inside it. *)
Example choose_da_overlaps :
  let m := VfioMmap 0 0x1000 0x1000 in
  let size := 0x3000 in
  choose_da size [m] = 0x1000 /\ ~ apart m (VfioMmap 0 (choose_da size [m]) size).
Proof. split; [reflexivity|]. vm_compute. intros [Hc|Hc]; by apply Hc. Qed.

Lemma find_at {A} (p : A -> bool) l x : List.find p l = Some x -> exists i, l !! i = Some x /\ p x = true.
Proof. intros E. apply find_some in E as [Hin Hp]. apply list_elem_of_In, list_elem_of_lookup in Hin as [i Hi]. by exists i. Qed.

(** Two different addresses of attached memory never translate to the same
    device address. *)
Theorem translation_is_injective ms v1 v2 :
  stacked 0x1000 ms -> end_of 0x1000 ms < 2 ^ 64 ->
  existsb (in_mmap v1) ms = true -> existsb (in_mmap v2) ms = true ->
  va_to_da ms v1 = va_to_da ms v2 -> v1 = v2.
Proof.
  intros Hst Hend H1 H2.
  assert (Hf : forall v, existsb (in_mmap v) ms = true -> exists m i, List.find (in_mmap v) ms = Some m /\
            ms !! i = Some m /\ 0 <= v - m_va m < m_size m).
  { intros v Hv. destruct (List.find (in_mmap v) ms) as [m|] eqn:E.
    - destruct (find_at _ _ _ E) as (i & Hi & Hm). unfold in_mmap in Hm. apply andb_true_iff in Hm as [Ha%Z.leb_le Hb%Z.ltb_lt].
      exists m, i. split; [done|]. split; [done|]. lia.
    - apply existsb_exists in Hv as (m & Hin & Hm). by rewrite (find_none _ _ E m Hin) in Hm. }
  destruct (Hf v1 H1) as (m1 & i1 & E1 & Hi1 & Hr1). destruct (Hf v2 H2) as (m2 & i2 & E2 & Hi2 & Hr2).
  unfold va_to_da. rewrite E1, E2. pose proof (stacked_above _ _ _ _ Hst Hi1). pose proof (stacked_above _ _ _ _ Hst Hi2).
  unfold u64. rewrite !Z.mod_small by lia. intros Heq. destruct (decide (i1 = i2)) as [->|Hne].
  - simplify_eq. lia.
  - destruct (stacked_apart _ _ _ _ _ _ Hst Hi1 Hi2 Hne); lia.
Qed.

(** References to an open device balance: while someone else holds the
    device, taking a reference and putting it back returns 0 twice and leaves the
    device layer exactly as it was. *)
Theorem get_put_balance d x v h :
  devs h !! d = Some x -> priv x = Some v -> 1 <= refs x < 2 ^ 31 - 1 ->
  (let! r := acapd_device_get d in let! r' := acapd_device_put d in ret (r, r')) h = Ret (0, 0) h.
Proof.
  intros Hd Hp Hr.
  assert (Hs : safe (let! r := acapd_device_get d in let! r' := acapd_device_put d in ret (r, r'))
                 (fun r h' => r = (0, 0) /\ h' = h) h).
  2: { apply safe_ret in Hs as (r & h' & -> & -> & ->). done. }
  pose proof (lookup_lt_Some _ _ _ Hd) as Hlt.
  apply wp_bind, wp_bind. eapply get_dev_wp; [exact Hd|]. rewrite Hp. apply wp_bind, wp_ret.
  change (0 <? 0) with false. cbv iota. apply wp_bind. eapply mod_dev_wp; [exact Hd|]. apply wp_ret.
  apply wp_bind, wp_bind. eapply get_dev_wp; [simpl; by apply list_lookup_insert_eq|]. cbn. rewrite Hp.
  rewrite int32_id by lia. destruct (Z.eqb_spec (refs x + 1) 0); [lia|].
  apply wp_bind. eapply mod_dev_wp; [simpl; by apply list_lookup_insert_eq|]. cbn.
  rewrite int32_id by lia. destruct (Z.eqb_spec (refs x + 1 - 1) 0); [lia|]. apply wp_ret.
  split; [done|]. rewrite list_insert_insert_eq. replace (refs x + 1 - 1) with (refs x) by lia.
  rewrite <- Hp. destruct h as [ds sd cd w], x. simpl in *. f_equal. by apply list_insert_id.
Qed.

(** ** Loading and removing an accelerator *)

(** C38: Loading through libdfx an accelerator that has a package and whose
    channels are closed: unless it stops in a [lib_fault] (any fault, such as a
    JSON text or a path it does not survive, but a NULL pointer followed or an
    index outside an array), it either succeeds, and then the accelerator is
    fetched and in use and libdfx answered 0 to the load of its configuration,
    except on a platform that needs no loading (ACCEL_CONFIG_PATH is set), where
    its status stays; or it fails with -1 or -EINVAL and the status stays. Its
    package, its slot and its type stay, and its channels stay closed. *)
Theorem load_accel_outcome a shell_path h :
  pkg a <> None -> chnls_idle a ->
  wp lib_fault (load_accel a shell_path)
     (fun r h' => pkg r.2 = pkg a /\ rm_slot r.2 = rm_slot a /\ atype r.2 = atype a /\ chnls_idle r.2 /\
        ((r.1 = ACAPD_ACCEL_SUCCESS /\ status r.2 = ACAPD_ACCEL_STATUS_INUSE /\ is_cached r.2 = true /\
            (exists w, (dfx_cfg_load (sys_fpga_cfg_id r.2) w).1 = 0)) \/
         (r.1 = ACAPD_ACCEL_SUCCESS /\ getenv "ACCEL_CONFIG_PATH" (hw_world h') <> None /\
            status r.2 = status a /\ is_cached r.2 = is_cached a) \/
         ((r.1 = ACAPD_ACCEL_FAILURE \/ r.1 = - EINVAL) /\ status r.2 = status a))) h.
Proof.
  intros Hp Hc. eapply wp_mono; [by apply load_accel_wp|]. intros r h' ((? & ? & ? & ?) & Hl & Hok & Hbad).
  split_and!; try done. destruct (decide (r.1 = ACAPD_ACCEL_SUCCESS)) as [E|E].
  - destruct (Hok E) as [(? & ? & ?)|(? & ? & ?)]; [by left|by right; left].
  - right; right. split; [by destruct Hl as [?|?]|auto].
Qed.

End Dev.

(** ** Loading through configfs *)

Section Overlay.
Context {W : Type} `{Env W}.

(** C40: An overlay that does not apply leaves no configfs directory behind:
    [user_load_overlay()] always returns, and when it returns -1 then either the
    directory was there before and nothing was done, or it could not be created,
    or its last action was to remove it. *)
Theorem failed_overlay_is_removed ov region w :
  safe (user_load_overlay ov region)
    (fun r w' =>
       (r = 0 /\ (mkdir_ (overlay_dir region) w).1 = 0) \/
       (r = -1 /\ (is_dir (overlay_dir region) w = true /\ w' = w \/
                   (mkdir_ (overlay_dir region) w).1 <> 0 /\ w' = (mkdir_ (overlay_dir region) w).2 \/
                   exists w1, w' = (rmdir_ (overlay_dir region) w1).2))) w.
Proof. apply user_load_overlay_outcome. Qed.

(** [user_load_bitstream()] always returns, 0 or -1; after a success the
    kernel's firmware search path is the default again. *)
Theorem bitstream_load_restores_search_path bs ov region flags key st sz w :
  safe (user_load_bitstream bs ov region flags key st sz)
       (fun r w' => (r.1 = 0 /\ exists w1, w' = dfx_set_firmware_search_path "" w1) \/ r.1 = -1) w.
Proof. apply user_load_bitstream_outcome. Qed.
End Overlay.

(** *** Witnesses *)

Definition vfio_device : acapd_device :=
  device0 <| refs := 1 |> <| priv := Some (Vfio 3 3 4 [VfioMmap 0x10000 0x1000 0x2000]) |>.
Definition vfio_board : hw unit := Hw [vfio_device] device0 device0 tt.

Lemma align_up_is_least_page_multiple_witness : acapd_align_up 5000 4096 mod 4096 = 0.
Proof. apply (align_up_is_least_page_multiple 5000). lia. Defined.

Lemma attach_keeps_mappings_apart_witness :
  exists h', acapd_vfio_device_attach 0 0x40000 0x1800 vfio_board = Ret (Some 0x40000) h' /\
  exists x' v', devs h' !! 0%nat = Some x' /\ priv x' = Some v' /\
    mmaps v' = [VfioMmap 0x10000 0x1000 0x2000; VfioMmap 0x40000 0x3000 0x2000].
Proof.
  assert (E : acapd_vfio_device_attach 0 0x40000 0x1800 vfio_board =
    Ret (Some 0x40000) (match acapd_vfio_device_attach 0 0x40000 0x1800 vfio_board with Ret _ h => h | Fault _ => vfio_board end))
    by (vm_compute; reflexivity).
  eexists. split; [exact E|].
  destruct (wp_returns _ _ _ _ _ _
    (attach_keeps_mappings_apart 0 vfio_device (Vfio 3 3 4 [VfioMmap 0x10000 0x1000 0x2000]) 0x40000 0x1800 vfio_board
       eq_refl eq_refl ltac:(simpl; lia) ltac:(vm_compute; reflexivity) ltac:(repeat constructor; vm_compute; discriminate)
       ltac:(vm_compute; reflexivity)) E) as [[Hn _]|(_ & x' & v' & Hx & Hv & Hm & _)]; [discriminate Hn|].
  exists x', v'. split; [exact Hx|]. split; [exact Hv|]. rewrite Hm. vm_compute. reflexivity.
Defined.

Lemma translation_is_injective_witness :
  let ms := [VfioMmap 0x10000 0x1000 0x2000; VfioMmap 0x40000 0x3000 0x2000] in
  va_to_da ms 0x10008 = 0x1008 /\ (va_to_da ms 0x10008 = va_to_da ms 0x10008 -> 0x10008 = 0x10008).
Proof.
  split; [vm_compute; reflexivity|]. apply (translation_is_injective _ 0x10008 0x10008).
  - simpl. lia.
  - vm_compute. reflexivity.
  - vm_compute. reflexivity.
  - vm_compute. reflexivity.
Defined.

Lemma get_put_balance_witness :
  (let! r := acapd_device_get 0 in let! r' := acapd_device_put 0 in ret (r, r')) vfio_board = Ret (0, 0) vfio_board.
Proof.
  apply (get_put_balance 0 vfio_device (Vfio 3 3 4 [VfioMmap 0x10000 0x1000 0x2000])); [reflexivity|reflexivity|].
  simpl. lia.
Defined.

Definition sample_accel : acapd_accel := init_accel (Pkg ACAPD_ACCEL_PKG_TYPE_NONE "flat" "/fw/flat").

Lemma load_accel_outcome_witness :
  exists r h', load_accel sample_accel (Some "/fw/flat/shell.json"%string) vfio_board = Ret r h' /\
               r.1 = ACAPD_ACCEL_SUCCESS /\ status r.2 = ACAPD_ACCEL_STATUS_INUSE /\ is_cached r.2 = true.
Proof.
  destruct (load_accel sample_accel (Some "/fw/flat/shell.json"%string) vfio_board) as [r h'|f] eqn:E.
  2: { exfalso. vm_compute in E. discriminate E. }
  exists r, h'. split; [reflexivity|].
  destruct (wp_returns _ _ _ _ _ _ (load_accel_outcome sample_accel _ vfio_board ltac:(discriminate) ltac:(intros l c [=])) E)
    as (_ & _ & _ & _ & [(H1 & H2 & H3 & _)|[(_ & Hn & _)|[Hr _]]]); [by split_and!|by destruct Hn|exfalso].
  vm_compute in E. injection E as <- <-. destruct Hr as [[=]|[=]].
Defined.

