(* ===== verification/JsonSpec.v ===== *)
(** * JSON: the readers terminate

    Whatever tokens jsmn writes, the loops over them end.  And what the order of
    the keys of daemon.conf does. *)
From S2P Require Import Prelude CStr Jsmn JsmnSpec Env Model Json Sample.
Open Scope Z_scope.
Open Scope dfx_scope.

(** The loops' own fuel is never the reason to stop. *)
Definition not_fuel (f : fault) : Prop := f <> OutOfFuel.
Abbreviation ends := (always not_fuel).

(** A turn of a loop at token [i] that does not step back. *)
Definition forward {S A} (i : nat) (m : M S (nat * A)) : Prop :=
  forall s, wp not_fuel m (fun r _ => (i <= r.1)%nat) s.

Section Ends.
Context {S : Type}.

Lemma ends_sprintf sz str : ends (sprintf_into (S := S) sz str).
Proof. unfold sprintf_into. by destruct (fits sz str); intros s. Qed.

Lemma forward_ret {A} i (a : A) : forward (S := S) i (ret (i, a)).
Proof. intros s. by apply wp_ret. Qed.
Lemma forward_ret_le {A} i j (a : A) : (i <= j)%nat -> forward (S := S) i (ret (j, a)).
Proof. intros Hij s. by apply wp_ret. Qed.
Lemma forward_bind {A B} i (m : M S A) (k : A -> M S (nat * B)) : ends m -> (forall a, forward i (k a)) -> forward i (bind m k).
Proof. intros Hm Hk s. apply wp_bind. eapply wp_mono; [apply Hm|]. intros a s' _. apply Hk. Qed.
(** Two turns at the same place: the second starts where the first stopped. *)
Lemma forward_seq {A B} i (m : M S (nat * A)) (k : nat * A -> M S (nat * B)) :
  forward i m -> (forall r, (i <= r.1)%nat -> forward i (k r)) -> forward i (bind m k).
Proof. intros Hm Hk s. apply wp_bind. eapply wp_mono; [apply Hm|]. intros r s' Hr. by apply Hk. Qed.

Lemma ends_over_tokens {A} n (body : nat -> A -> M S (nat * A)) a : (forall i a, forward i (body i a)) -> ends (over_tokens n body a).
Proof.
  intros Hb s. apply (wp_over_tokens _ _ _ (fun _ _ => True)); [|done]. intros i a' s' _.
  eapply wp_mono; [apply Hb|]. done.
Qed.

Lemma ends_tok ts i : ends (tok (St := S) ts i).
Proof. by apply always_the. Qed.
End Ends.

#[export] Hint Extern 1 (not_fuel _) => (unfold not_fuel; discriminate) : tame.
#[export] Hint Resolve ends_sprintf ends_tok forward_ret : tame.

Ltac ends_step :=
  lazymatch goal with
  | |- not_fuel _ => unfold not_fuel; discriminate
  | |- always not_fuel (over_tokens _ _ _) => apply ends_over_tokens
  | |- forward _ (bind _ _) => apply forward_bind
  | |- forward _ (if ?b then _ else _) => destruct b
  | |- forward _ (match ?x with _ => _ end) => destruct x
  end.
Ltac ends_go := repeat first [ solve [ auto with tame nocore ] | ends_step | tame_step ].

Section Parsers.
Context {W : Type} `{Env W}.

Lemma ends_on_key {S A} json ts i key (f : jsmntok -> A -> A) a : ends (on_key (St := S) json ts i key f a).
Proof. unfold on_key. ends_go. Qed.
Lemma ends_load_json f : ends (load_json f).
Proof. unfold load_json. ends_go. Qed.
Lemma ends_on_dma_key json ts dma i key f : ends (on_dma_key (W := W) json ts dma i key f).
Proof. unfold on_dma_key. ends_go. Qed.
Lemma ends_new_devs l : ends (new_devs (W := W) l).
Proof. unfold new_devs. ends_go. Qed.
#[local] Hint Resolve ends_on_key ends_load_json ends_on_dma_key ends_new_devs : tame.

Lemma ends_read_devices {S} json ts k n : ends (read_devices (St := S) json ts k n).
Proof. revert k. induction n as [|n IH]; intros k; simpl; [apply always_ret|]. unfold read_device. ends_go; apply IH. Qed.
Lemma ends_read_chnls {S} json ts dma p k n : ends (read_chnls (St := S) json ts dma p k n).
Proof. revert k. induction n as [|n IH]; intros k; simpl; [apply always_ret|]. unfold read_chnl. ends_go; apply IH. Qed.
Lemma ends_read_strings {S} json ts k n : ends (read_strings (St := S) json ts k n).
Proof. revert k. induction n as [|n IH]; intros k; simpl; ends_go; apply IH. Qed.
Lemma ends_read_pairs {S} json ts k n : ends (read_pairs (St := S) json ts k n).
Proof. revert k. induction n as [|n IH]; intros k; simpl; ends_go; apply IH. Qed.
#[local] Hint Resolve ends_read_devices ends_read_chnls ends_read_strings ends_read_pairs : tame.

Lemma forward_parse_devices json ts i p : forward i (parse_devices (W := W) json ts i p).
Proof. unfold parse_devices. ends_go. apply forward_ret_le. lia. Qed.
Lemma forward_parse_chnls json ts dma i p : forward i (parse_chnls (W := W) json ts dma i p).
Proof. unfold parse_chnls. ends_go. apply forward_ret_le. lia. Qed.

Lemma forward_parse_body json ts dma i p : forward i (parse_body (W := W) json ts dma i p).
Proof.
  unfold parse_body. apply forward_bind; [auto with tame|]. intros t. destruct (is_object t); [auto with tame|].
  apply forward_seq; [apply forward_parse_devices|]. intros [i1 p1] Hi1. simpl in Hi1.
  do 3 (apply forward_bind; [auto with tame|intros ?]). do 2 (apply forward_bind; [auto with tame|intros ?]).
  apply forward_seq; [intros s; eapply wp_mono; [apply forward_parse_chnls|simpl; lia]|].
  intros [i2 p2] Hi2. apply forward_bind; [auto with tame|]. intros _. by apply forward_ret_le.
Qed.
#[local] Hint Resolve forward_parse_body : tame.

(** *** daemon.conf: the loop's bound is a local that a key overwrites. *)
Definition bounded_by (n : Z) (p : config_parse) : Prop := c_ret p = n \/ c_ret p <= 1.

Lemma scan_word_wp {S} text dflt (s : S) : wp not_fuel (scan_word text dflt) (fun r _ => r.1 <= 1) s.
Proof.
  unfold scan_word. destruct (take_word _); [by apply wp_ret|].
  apply wp_bind. eapply wp_mono; [apply ends_sprintf|]. intros w s' _. by apply wp_ret.
Qed.

Lemma conf_default_wp n json ts i p w :
  bounded_by n p ->
  wp not_fuel (conf_default_accel (W := W) json ts i p)
     (fun r _ => match r with inl p' | inr p' => bounded_by n p' end) w.
Proof.
  intros Hp. apply wp_bind. eapply wp_mono; [apply ends_tok|]. intros t w1 _. destruct (jsoneq _ _ _); [|by apply wp_ret].
  apply wp_bind. eapply wp_mono; [apply ends_tok|]. intros v w2 _. apply wp_bind, wp_look.
  destruct (read_file _ _); [|by apply wp_ret]. apply wp_bind. eapply wp_mono; [apply scan_word_wp|].
  intros r w3 Hr. apply wp_ret. by right.
Qed.

Lemma conf_array_wp n json ts key f i p w :
  bounded_by n p ->
  wp not_fuel (conf_array (W := W) json ts key f i p)
     (fun r _ => match r with inl p' => bounded_by n p' | inr r => (i <= r.1)%nat /\ bounded_by n r.2 end) w.
Proof.
  intros Hp. apply wp_bind. eapply wp_mono; [apply ends_tok|]. intros t w1 _. destruct (jsoneq _ _ _); [|by apply wp_ret].
  apply wp_bind. eapply wp_mono; [apply ends_tok|]. intros v w2 _. destruct (negb _); [by apply wp_ret|].
  apply wp_bind. eapply wp_mono; [apply ends_read_strings|]. intros l w3 _. apply wp_ret. split; [simpl; lia|exact Hp].
Qed.

Lemma conf_map_wp n json ts i p w :
  bounded_by n p ->
  wp not_fuel (conf_name_map (W := W) json ts i p)
     (fun r _ => match r with inl p' => bounded_by n p' | inr r => (i <= r.1)%nat /\ bounded_by n r.2 end) w.
Proof.
  intros Hp. apply wp_bind. eapply wp_mono; [apply ends_tok|]. intros t w1 _. destruct (jsoneq _ _ _); [|by apply wp_ret].
  apply wp_bind. eapply wp_mono; [apply ends_tok|]. intros v w2 _. destruct (negb _); [by apply wp_ret|]. cbv zeta.
  apply wp_bind. eapply wp_mono; [apply ends_read_pairs|]. intros l w3 _. apply wp_ret. split; [simpl; lia|exact Hp].
Qed.

Lemma conf_key_wp n json ts i key (f : jsmntok -> config_parse -> config_parse) p w :
  bounded_by n p -> (forall v p, c_ret (f v p) = c_ret p) ->
  wp not_fuel (on_key (St := W) json ts i key f p) (fun p' _ => bounded_by n p') w.
Proof. intros Hp Hf. apply wp_on_key; [done| |done]. intros v. unfold bounded_by. by rewrite Hf. Qed.

Lemma config_body_wp n json ts i p w :
  bounded_by n p ->
  wp not_fuel (config_body (W := W) json ts i p) (fun r _ => (i <= r.1)%nat /\ bounded_by n r.2) w.
Proof.
  intros Hp. apply wp_bind. eapply wp_mono; [apply ends_tok|]. intros t w1 _. destruct (is_object t); [by apply wp_ret|].
  apply wp_bind. eapply wp_mono; [by apply conf_default_wp|]. intros [p1|p1] w2 Hp1; [by apply wp_ret|].
  apply wp_bind. eapply wp_mono; [by apply conf_array_wp|]. intros [p2|[i2 p2]] w3 Hp2; [by apply wp_ret|].
  destruct Hp2 as [Hi2 Hp2]. simpl in Hi2, Hp2.
  apply (wp_seq _ (fun p' _ => bounded_by n p')); [by apply conf_key_wp|]. intros p3 w4 Hp3.
  apply (wp_seq _ (fun p' _ => bounded_by n p')); [by apply conf_key_wp|]. intros p4 w5 Hp4.
  apply wp_bind. eapply wp_mono; [by apply conf_array_wp|]. intros [p5|[i5 p5]] w6 Hp5; [by apply wp_ret|].
  destruct Hp5 as [Hi5 Hp5]. simpl in Hi5, Hp5.
  apply wp_bind. eapply wp_mono; [by apply conf_map_wp|]. intros [p6|[i6 p6]] w7 Hp6; [apply wp_ret; simpl; split; [lia|done]|].
  destruct Hp6 as [Hi6 Hp6]. simpl in Hi6, Hp6. apply wp_ret. simpl. split; [lia|done].
Qed.

Lemma ends_config_loop n fuel json ts i p :
  bounded_by n p -> (1 <= i)%nat -> n <= Z.of_nat (fuel + i) -> ends (config_loop (W := W) fuel json ts i p).
Proof.
  revert i p. induction fuel as [|fuel IH]; intros i p Hp Hi Hn w; simpl.
  - destruct (Z.ltb_spec (Z.of_nat i) (c_ret p)); [|done]. destruct Hp; lia.
  - destruct (Z.ltb_spec (Z.of_nat i) (c_ret p)); [|done]. apply wp_bind.
    eapply wp_mono; [by apply (config_body_wp n)|]. intros [i' p'] w' [Hi' Hp']. simpl in *. apply IH; [done|lia..].
Qed.

Lemma ends_parseShellJson path : ends (parseShellJson (W := W) path).
Proof. unfold parseShellJson. ends_go. unfold shell_body. ends_go. Qed.
Lemma ends_initBaseDesign b path n_rpu : ends (initBaseDesign (W := W) b path n_rpu).
Proof. unfold initBaseDesign. ends_go. unfold base_body. ends_go. Qed.
Lemma ends_initAccel a path : ends (initAccel (W := W) a path).
Proof. unfold initAccel. ends_go. unfold accel_body. ends_go. Qed.
Lemma ends_parseAccelJson acc path : ends (parseAccelJson (W := W) acc path).
Proof. unfold parseAccelJson. ends_go. Qed.
Lemma ends_parse_config c path : ends (parse_config (W := W) path c).
Proof.
  unfold parse_config. apply always_bind; [apply always_look|]. intros [text|]; [|done].
  apply always_bind; [apply always_look|]. intros reg. destruct (negb reg); [done|].
  apply always_bind; [apply always_jsmn_run|]. intros [n ts]. apply always_bind; [|done].
  apply (ends_config_loop n); [by left|simpl; lia|simpl; lia].
Qed.

(** The number of tokens and the result of [fscanf()] share a variable: once the
    default accelerator's name is read, the loop believes there is one token and
    stops, and the keys that follow are not read. *)
Lemma default_accel_ends_config fuel json ts i n c t v text word w :
  ts !! S i = Some v -> read_file (slice json v) w = Some text ->
  scan_word text (defaul_accel_name c) w = Ret (1, word) w -> (1 <= i)%nat ->
  ts !! i = Some t -> jsoneq json t "default_accel" = true ->
  exists p, conf_default_accel json ts i (ConfigParse n c) w = Ret (inr p) w /\
            forall j, (i < j)%nat -> config_loop fuel json ts j p w = Ret p w.
Proof.
  intros Hv Hf Hs Hi Ht Hk. exists (ConfigParse 1 (c <| defaul_accel_name := word |>)).
  unfold conf_default_accel, tok, bind. rewrite Ht. cbn [the]. unfold ret at 1. rewrite Hk, Hv. cbn [the]. unfold ret at 1, look, gets.
  rewrite Hf. unfold bind. cbn [c_config]. rewrite Hs. split; [done|].
  intros j Hj. destruct fuel; cbn [config_loop c_ret]; destruct (Z.ltb_spec (Z.of_nat j) 1); try lia; done.
Qed.
End Parsers.

#[export] Hint Resolve ends_parseShellJson ends_initBaseDesign ends_initAccel ends_parseAccelJson ends_parse_config : tame.
