(* ===== verification/JsonRead.v ===== *)
(** * Reading shell.json and accel.json from their text

    [initBaseDesign()] and [initAccel()] on the text of a JSON object of
    strings: tokenizer and reader together give the fields the members name. *)
From S2P Require Import Prelude CStr Jsmn JsmnSpec JsonText Env Model Json Sample.
Open Scope Z_scope.
Open Scope dfx_scope.

Abbreviation member := (string * string)%type.

(** The object, and what its text ends with. *)
Definition string_object (ms : list member) : json := JObj (map (fun m => (fst m, JStr (snd m))) ms).
Definition plain_member (m : member) : bool := all_chars plain_char (fst m) && all_chars plain_char (snd m).

(** ** Tokens that show a string *)

Definition shows (json : string) (t : jsmntok) (x : string) : Prop :=
  all_chars plain_char x = true /\ t_type t = JSMN_STRING /\ t_end t - t_start t = Z.of_nat (strlen x) /\ slice json t = x /\
  exists r, text_at json t = (x ++ String QUOTE r)%string.

Lemma cut_nul_plain a r : all_chars plain_char a = true -> cut_nul (a ++ r) = (a ++ cut_nul r)%string.
Proof.
  induction a as [|c a IH]; [done|]. intros [Hc Ha]%andb_true_iff. rewrite app_cons_str. cbn [cut_nul].
  unfold plain_char in Hc. apply negb_true_iff, orb_false_iff in Hc as [Hc _]. apply orb_false_iff in Hc as [-> _].
  rewrite app_cons_str. by rewrite IH.
Qed.

Lemma substring_app a r : substring 0 (strlen a) (a ++ r) = a.
Proof. induction a as [|c a IH]; [by destruct r|]. rewrite app_cons_str. simpl. by f_equal. Qed.

Lemma substring_drop i n s : substring i n s = substring 0 n (str_drop i s).
Proof. revert i. induction s as [|c s IH]; intros [|i]; simpl; try done. by destruct n. Qed.

Lemma shows_at json i a r k par :
  str_drop i json = (quoted a ++ r)%string -> all_chars plain_char a = true ->
  shows json (Tok JSMN_STRING (Z.of_nat (S i)) (Z.of_nat (S i + strlen a)) k par) a.
Proof.
  intros Hd Ha. unfold quoted in Hd. rewrite app_cons_str, app_assoc_str, app_cons_str, app_nil_l_str in Hd.
  apply (str_drop_past _ _ (String QUOTE "")) in Hd. replace (i + strlen (String QUOTE ""))%nat with (S i) in Hd by (simpl; lia).
  unfold shows, slice, text_at. cbn [t_type t_start t_end]. split_and!; [done|done|lia| |].
  - rewrite Nat2Z.id, substring_drop, Hd. replace (Z.to_nat _) with (strlen a) by lia.
    rewrite substring_app. rewrite <- (app_nil_r_str a) at 1. rewrite cut_nul_plain by done. apply app_nil_r_str.
  - exists (cut_nul r). rewrite Nat2Z.id, Hd, cut_nul_plain by done. done.
Qed.

Lemma shows_jsoneq json t x s : shows json t x -> jsoneq json t s = streq x s.
Proof.
  intros (_ & Hty & Hl & Hs & _). unfold jsoneq. rewrite Hty, Hl, Hs, bool_decide_eq_true_2 by done. simpl.
  destruct (streqP x s) as [->|]; [by rewrite Z.eqb_refl|apply andb_false_r].
Qed.

(** The tokens of the members, from index [i] on. *)
Fixpoint member_toks (json : string) (ts : list jsmntok) (i : nat) (ms : list member) : Prop :=
  match ms with
  | [] => length ts = i
  | m :: ms => (exists t, ts !! i = Some t /\ shows json t (fst m)) /\
               (exists t, ts !! S i = Some t /\ shows json t (snd m)) /\
               member_toks json ts (S (S i)) ms
  end.

Lemma string_object_toks ws json ms : forall n i pre r,
  str_drop i json = (commas ws (map (member_text ws) (map (fun m => (fst m, JStr (snd m))) ms)) ++ r)%string ->
  forallb plain_member ms = true ->
  member_toks json (pre ++ obj_toks ws n (map (fun m => (fst m, JStr (snd m))) ms) i (length pre)) (length pre) ms.
Proof.
  induction ms as [|[k v] ms IH]; intros n i pre r Hd Hp; [simpl; by rewrite app_nil_r|].
  apply andb_true_iff in Hp as [Hkv Hp]. apply andb_true_iff in Hkv as [Hk Hv]. cbn [fst snd] in *.
  set (l := map (fun m => (fst m, JStr (snd m))) ms) in *.
  assert (Hrest : exists u, commas ws (map (member_text ws) ((k, JStr v) :: l)) = (member_text ws (k, JStr v) ++ ws ++ u)%string /\
                  match l with [] => True | _ => u = ("," ++ ws ++ commas ws (map (member_text ws) l))%string end).
  { destruct l as [|x l]; [exists ""%string; by rewrite app_nil_r_str|by eexists]. }
  destruct Hrest as (u & Hu & Hl).
  change (map (fun m => (fst m, JStr (snd m))) ((k, v) :: ms)) with ((k, JStr v) :: l) in Hd |- *.
  rewrite Hu in Hd. unfold member_text in Hd. cbn [fst snd print] in Hd. rewrite !app_assoc_str in Hd.
  pose proof (shows_at _ _ _ _ 1 (Some n) Hd Hk) as Hs1. do 4 apply str_drop_past in Hd.
  replace (i + strlen (quoted k) + strlen ws + strlen ":" + strlen ws)%nat with (after_key ws i k) in Hd
    by (unfold after_key, quoted; simpl; fold (strlen (k ++ String QUOTE "")); rewrite strlen_app; simpl; lia).
  pose proof (shows_at _ _ _ _ 0 (Some (length pre)) Hd Hv) as Hs2. do 2 apply str_drop_past in Hd.
  cbn [map fst snd member_toks obj_toks toks_of ntoks app]. fold l.
  split_and!.
  - eexists. split; [by apply list_lookup_middle|exact Hs1].
  - eexists. split; [|exact Hs2]. rewrite cons_middle, app_assoc. apply list_lookup_middle. rewrite length_app. simpl. lia.
  - rewrite cons_middle, app_assoc, (cons_middle (Tok _ _ _ _ _)), app_assoc.
    set (pre' := ((pre ++ [_]) ++ [_])%list).
    assert (Hlen : length pre' = S (S (length pre))) by (unfold pre'; rewrite !length_app; simpl; lia).
    replace (S (S (length pre))) with (length pre') by done.
    replace (S (length pre) + 1)%nat with (length pre') by lia.
    destruct ms as [|m ms]; [simpl; by rewrite app_nil_r|]. unfold l in Hl |- *. cbn [map] in Hl. subst u.
    rewrite !app_assoc_str in Hd. do 2 apply str_drop_past in Hd.
    eapply IH; [|done]. exact Hd.
Qed.

(** ** The loop over the tokens of an object of strings

    The readers compare every token with the names they know, a value's token as
    well as a key's, and take the token after it as the value. *)

(** The strings of the object in the order of the text, and each with the next. *)
Definition strings (ms : list member) : list string := concat (map (fun m => [fst m; snd m]) ms).
Fixpoint adjacent {A} (l : list A) : list (A * A) :=
  match l with
  | x :: ((y :: _) as r) => (x, y) :: adjacent r
  | _ => []
  end.

Fixpoint string_toks (json : string) (ts : list jsmntok) (i : nat) (l : list string) : Prop :=
  match l with
  | [] => length ts = i
  | x :: l => (exists t, ts !! i = Some t /\ shows json t x) /\ string_toks json ts (S i) l
  end.
Lemma members_strings json ts ms : forall i, member_toks json ts i ms -> string_toks json ts i (strings ms).
Proof. induction ms as [|m ms IH]; [done|]. intros i (? & ? & ?). split; [done|]. split; [done|by apply IH]. Qed.

(** A name of the reader in the last place would have no value. *)
Definition last_is_value (is_key : string -> bool) (l : list string) : Prop :=
  forall x, last l = Some x -> is_key x = false.

(** When no value is such a name, only the members count. *)
Lemma adjacent_members {A} (step : A -> member -> A) (is_key : string -> bool) ms :
  (forall a k v, is_key k = false -> step a (k, v) = a) ->
  forallb (fun m => negb (is_key (snd m))) ms = true ->
  forall a, fold_left step (adjacent (strings ms)) a = fold_left step ms a.
Proof.
  intros Hstep. induction ms as [|[k v] ms IH]; [done|]. intros [Hv Hms]%andb_true_iff a. apply negb_true_iff in Hv.
  change (strings ((k, v) :: ms)) with (k :: v :: strings ms). destruct ms as [|[k' v'] ms]; [done|].
  change (strings ((k', v') :: ms)) with (k' :: v' :: strings ms) in *.
  change (adjacent (k :: v :: k' :: v' :: strings ms)) with ((k, v) :: (v, k') :: adjacent (k' :: v' :: strings ms)).
  cbn [fold_left]. rewrite (Hstep _ v k' Hv). by apply IH.
Qed.

Section Loop.
Context {St A : Type}.
Variable body : nat -> A -> M St (nat * A).
Variable step : A -> member -> A.
Variable json : string.
Variable ts : list jsmntok.
Variable is_key : string -> bool.
Hypothesis body_next : forall i a t u x y s,
  ts !! i = Some t -> shows json t x -> ts !! S i = Some u -> shows json u y ->
  body i a s = Ret (i, step a (x, y)) s.
Hypothesis body_other : forall i a t x s,
  ts !! i = Some t -> shows json t x -> is_key x = false -> body i a s = Ret (i, a) s.

Lemma flat_loop l : forall fuel i a s,
  string_toks json ts i l -> last_is_value is_key l -> (length ts <= fuel + i)%nat ->
  token_loop fuel (Z.of_nat (length ts)) body i a s = Ret (fold_left step (adjacent l) a) s.
Proof.
  induction l as [|x l IH]; intros fuel i a s Ht Hk Hf.
  - simpl in Ht. destruct fuel; cbn [token_loop]; (destruct (Z.ltb_spec (Z.of_nat i) (Z.of_nat (length ts))); [lia|done]).
  - destruct Ht as ((t & Ht & Hst) & Hl). assert (Hlt := lookup_lt_Some _ _ _ Ht).
    destruct fuel as [|fuel]; [lia|]. cbn [token_loop].
    destruct (Z.ltb_spec (Z.of_nat i) (Z.of_nat (length ts))); [|lia]. destruct l as [|y l].
    + rewrite (bind_Ret _ _ _ _ _ (body_other i a t x s Ht Hst (Hk x eq_refl))).
      apply (IH fuel (S i)); [exact Hl|by intros ?|cbn [fst]; lia].
    + pose proof Hl as ((u & Hu & Hsu) & _). rewrite (bind_Ret _ _ _ _ _ (body_next i a t u x y s Ht Hst Hu Hsu)).
      apply (IH fuel (S i)); [exact Hl|exact Hk|lia].
Qed.
End Loop.

Lemma on_key_shows {St A} json ts i t u k v key (f : jsmntok -> A -> A) a (s : St) :
  ts !! i = Some t -> shows json t k -> ts !! S i = Some u -> shows json u v ->
  on_key json ts i key f a s = Ret (if streq k key then f u a else a) s.
Proof.
  intros Ht Hs Hu _. unfold on_key, tok, bind. rewrite Ht. cbn. rewrite (shows_jsoneq _ _ _ _ Hs).
  destruct (streq k key); [|done]. by rewrite Hu.
Qed.
Lemma on_key_other {St A} json ts i t x key (f : jsmntok -> A -> A) a (s : St) :
  ts !! i = Some t -> shows json t x -> streq x key = false -> on_key json ts i key f a s = Ret a s.
Proof.
  intros Ht Hs Hk. unfold on_key, tok, bind. rewrite Ht. cbn. by rewrite (shows_jsoneq _ _ _ _ Hs), Hk.
Qed.

(** ** Values: the text of a token goes on with its closing quote *)

Lemma skip_space_quote v r : skip_space (v ++ String QUOTE r) = (skip_space v ++ String QUOTE r)%string.
Proof. induction v as [|c v IH]; [done|]. rewrite app_cons_str. simpl. by destruct (isspace c). Qed.

Lemma digit_val_quote b : digit_val b QUOTE = None.
Proof. unfold digit_val. simpl. by rewrite Z.ltb_irrefl. Qed.

Lemma scan_digits_quote b acc n v r :
  scan_digits b acc n (v ++ String QUOTE r) =
  let '(a, m, t) := scan_digits b acc n v in (a, m, (t ++ String QUOTE r)%string).
Proof.
  revert acc n. induction v as [|c v IH]; intros acc n.
  - rewrite app_nil_l_str. cbn [scan_digits]. by rewrite digit_val_quote.
  - rewrite app_cons_str. cbn [scan_digits]. destruct (digit_val b c); [apply IH|done].
Qed.

Lemma skip_0x_quote b v r : skip_0x b (v ++ String QUOTE r) = (skip_0x b v ++ String QUOTE r)%string.
Proof.
  destruct v as [|c v]; [done|]. rewrite app_cons_str. unfold skip_0x.
  destruct (Ascii.eqb_spec c "0") as [->|Hc].
  - destruct v as [|x [|h v]]; rewrite ?app_cons_str, ?app_nil_l_str.
    + destruct r as [|h r]; [done|]. by rewrite andb_false_r.
    + change (if digit_val 16 QUOTE is Some _ then true else false) with false. by rewrite andb_false_r.
    + destruct (_ && _ && _); done.
  - destruct c as [[] [] [] [] [] [] [] []]; done.
Qed.

Lemma sign_quote v r :
  match v ++ String QUOTE r with
  | String "-" t => (true, t) | String "+" t => (false, t) | _ => (false, v ++ String QUOTE r)
  end%string =
  let '(neg, t) := match v with String "-" t => (true, t) | String "+" t => (false, t) | _ => (false, v) end in
  (neg, (t ++ String QUOTE r)%string).
Proof. destruct v as [|c v]; [done|]. rewrite app_cons_str. destruct c as [[] [] [] [] [] [] [] []]; done. Qed.

Lemma strtol_quote b v r : (strtol b (v ++ String QUOTE r)).1 = (strtol b v).1.
Proof.
  unfold strtol. rewrite skip_space_quote, sign_quote. set (s := skip_space v).
  destruct (match s with String "-" t => (true, t) | String "+" t => (false, t) | _ => (false, s) end) as [neg t].
  rewrite skip_0x_quote, scan_digits_quote. destruct (scan_digits b 0 0 (skip_0x b t)) as [[a m] u].
  by destruct (m =? 0)%nat.
Qed.

Lemma says_no_quote v r : says_no (v ++ String QUOTE r) = says_no v.
Proof.
  unfold says_no. destruct v as [|c [|d v]]; rewrite ?app_cons_str, ?app_nil_l_str; by rewrite ?andb_false_r.
Qed.

Lemma substring_prefix n v r : (n <= strlen v)%nat -> substring 0 n (v ++ r) = substring 0 n v.
Proof.
  revert n. induction v as [|c v IH]; intros [|n] Hn; simpl in Hn; try lia.
  - rewrite app_nil_l_str. by destruct r.
  - done.
  - rewrite app_cons_str. simpl. f_equal. apply IH. lia.
Qed.

Lemma plain_substring n v : all_chars plain_char v = true -> all_chars plain_char (substring 0 n v) = true.
Proof.
  revert n. induction v as [|c v IH]; intros [|n]; simpl; try done.
  intros [Hc Hv]%andb_true_iff. by rewrite Hc, IH.
Qed.

Lemma bounded_shows sz json t x : shows json t x -> bounded sz json t = trunc sz x.
Proof.
  intros (Hx & _ & Hl & _ & r & Hr). unfold bounded. rewrite Hl, Nat2Z.id, Hr.
  rewrite substring_prefix by lia. rewrite <- (app_nil_r_str (substring 0 _ _)), cut_nul_plain by by apply plain_substring.
  rewrite app_nil_r_str. unfold trunc. destruct (Nat.le_ge_cases (strlen x) (sz - 1)).
  - rewrite Nat.min_l by done. by rewrite !substring_all.
  - by rewrite Nat.min_r.
Qed.

Lemma number_shows b json t x : shows json t x -> (strtol b (text_at json t)).1 = (strtol b x).1.
Proof. intros (_ & _ & _ & _ & r & ->). apply strtol_quote. Qed.
Lemma no_shows json t x : shows json t x -> says_no (text_at json t) = says_no x.
Proof. intros (_ & _ & _ & _ & r & ->). apply says_no_quote. Qed.

(** ** shell.json and accel.json *)

(** What one member does to the base. *)
Definition base_member (b : basePLDesign) (m : member) : basePLDesign :=
  let '(k, v) := m in
  if streq k "shell_type" then b <| b_type := trunc 128 v |>
  else if streq k "num_pl_slots" then b <| num_pl_slots := u8 (strtol 10 v).1 |>
  else if streq k "num_aie_slots" then b <| num_aie_slots := u8 (strtol 10 v).1 |>
  else if streq k "uid" then b <| uid := int32 (strtol 16 v).1 |>
  else if streq k "load_base_design" then if says_no v then b <| load_base_design := false |> else b
  else b.
Definition base_key (x : string) : bool :=
  streq x "shell_type" || streq x "num_pl_slots" || streq x "num_aie_slots" || streq x "uid" ||
  streq x "load_base_design".

Definition accel_member (a : accel_info) (m : member) : accel_info :=
  let '(k, v) := m in
  if streq k "accel_type" then a <| accel_type := trunc 32 v |>
  else if streq k "uid" then a <| a_uid := int32 (strtol 16 v).1 |>
  else if streq k "pid" then a <| a_pid := int32 (strtol 16 v).1 |>
  else a.
Definition accel_key (x : string) : bool := streq x "accel_type" || streq x "uid" || streq x "pid".

(** Strings that are no names of the reader do nothing. *)
Ltac no_key Hk :=
  repeat match type of Hk with _ || _ = false => let H := fresh in apply orb_false_iff in Hk as [Hk H]; rewrite ?H end;
  by rewrite Hk.
Lemma base_member_other b k v : base_key k = false -> base_member b (k, v) = b.
Proof. unfold base_key, base_member. intros Hk. no_key Hk. Qed.
Lemma accel_member_other a k v : accel_key k = false -> accel_member a (k, v) = a.
Proof. unfold accel_key, accel_member. intros Hk. no_key Hk. Qed.

Lemma shows_string json t x : shows json t x -> is_object t = false.
Proof. intros (_ & Hty & _). unfold is_object. by rewrite Hty. Qed.

Ltac on_keys H1 H2 H3 H4 :=
  repeat (erewrite bind_Ret; [|exact (on_key_shows _ _ _ _ _ _ _ _ _ _ _ H1 H2 H3 H4)]).

Lemma base_body_key {St} json ts i b t u k v (s : St) :
  ts !! i = Some t -> shows json t k -> ts !! S i = Some u -> shows json u v ->
  base_body json ts i b s = Ret (i, base_member b (k, v)) s.
Proof.
  intros Ht Hk Hu Hv. unfold base_body, tok. rewrite Ht. unfold bind at 1. cbn [the]. unfold ret at 1.
  rewrite (shows_string _ _ _ Hk). on_keys Ht Hk Hu Hv. unfold ret. f_equal. f_equal.
  rewrite (bounded_shows _ _ _ _ Hv), !(number_shows _ _ _ _ Hv), (no_shows _ _ _ Hv). unfold base_member.
  repeat match goal with |- context [streq k ?x] => destruct (streqP k x) as [->|]; [done|] end. done.
Qed.

Lemma base_body_value {St} json ts i b t x (s : St) :
  ts !! i = Some t -> shows json t x -> base_key x = false -> base_body json ts i b s = Ret (i, b) s.
Proof.
  intros Ht Hx Hk. unfold base_body, tok. rewrite Ht. unfold bind at 1. cbn [the]. unfold ret at 1.
  rewrite (shows_string _ _ _ Hx). unfold base_key in Hk.
  repeat match goal with H : _ || _ = false |- _ => apply orb_false_iff in H as [? ?] end.
  by repeat (erewrite bind_Ret; [|by eapply on_key_other]).
Qed.

Lemma accel_body_key {St} json ts i a t u k v (s : St) :
  ts !! i = Some t -> shows json t k -> ts !! S i = Some u -> shows json u v ->
  accel_body json ts i a s = Ret (i, accel_member a (k, v)) s.
Proof.
  intros Ht Hk Hu Hv. unfold accel_body, tok. rewrite Ht. unfold bind at 1. cbn [the]. unfold ret at 1.
  rewrite (shows_string _ _ _ Hk). on_keys Ht Hk Hu Hv. unfold ret. f_equal. f_equal.
  rewrite (bounded_shows _ _ _ _ Hv), !(number_shows _ _ _ _ Hv). unfold accel_member.
  repeat match goal with |- context [streq k ?x] => destruct (streqP k x) as [->|]; [done|] end. done.
Qed.

Lemma accel_body_value {St} json ts i a t x (s : St) :
  ts !! i = Some t -> shows json t x -> accel_key x = false -> accel_body json ts i a s = Ret (i, a) s.
Proof.
  intros Ht Hx Hk. unfold accel_body, tok. rewrite Ht. unfold bind at 1. cbn [the]. unfold ret at 1.
  rewrite (shows_string _ _ _ Hx). unfold accel_key in Hk.
  repeat match goal with H : _ || _ = false |- _ => apply orb_false_iff in H as [? ?] end.
  by repeat (erewrite bind_Ret; [|by eapply on_key_other]).
Qed.

Lemma string_object_ok ms : forallb plain_member ms = true -> printed_ok (string_object ms) = true.
Proof. induction ms as [|[k v] ms IH]; simpl; [done|]. intros [Hm Hms]%andb_true_iff. apply andb_true_iff. split; [exact Hm|by apply IH]. Qed.

Lemma string_object_ntoks ms : ntoks (string_object ms) = S (2 * length ms).
Proof. unfold string_object. simpl. f_equal. induction ms as [|m ms IH]; [done|]. simpl. lia. Qed.

(** A file that holds such an object, and is no longer than the token array. *)
Definition holds_object (ws w : string) (ms : list member) : Prop :=
  blank ws = true /\ blank w = true /\ forallb plain_member ms = true /\ (S (2 * length ms) <= NUM_TOKENS)%nat.

Lemma string_object_parse {St} ws w ms (s : St) : holds_object ws w ms ->
  let text := (print ws (string_object ms) ++ w)%string in
  exists ts, jsmn_run text NUM_TOKENS s = Ret (Z.of_nat (length ts), ts) s /\ member_toks text ts 1 ms.
Proof.
  intros (Hws & Hw & Hp & Hn) text. exists (toks_of ws (string_object ms) 0 0 None).
  destruct (toks_of_shape ws (string_object ms) 0%nat 0%nat None) as [-> _]. split.
  - unfold jsmn_run, zoom. by rewrite (bind_Ret _ _ _ _ _ (parse_printed ws w (string_object ms) NUM_TOKENS Hws Hw
      (string_object_ok _ Hp) ltac:(by rewrite string_object_ntoks))).
  - unfold string_object at 1. rewrite toks_of_obj.
    apply (string_object_toks ws text ms 0 (0 + 1 + strlen ws) [_] ("}" ++ w)); [|done].
    apply (str_drop_past 0 text ("{" ++ ws)). unfold text, string_object. cbn [print]. by rewrite !app_assoc_str.
Qed.

Section Files.
Context {W : Type} `{Env W}.

Lemma load_object ws w ms path (st : W) :
  holds_object ws w ms ->
  read_file path st = Some (print ws (string_object ms) ++ w)%string -> is_reg path st = true ->
  exists text ts, load_json path st = Ret (Some (text, Z.of_nat (length ts), ts)) st /\ member_toks text ts 1 ms.
Proof.
  intros Ho Hf Hr. destruct (string_object_parse ws w ms st Ho) as (ts & Hp & Hm).
  eexists _, ts. split; [|exact Hm]. unfold load_json, look, gets, bind. rewrite Hf, Hr. cbn [negb]. by rewrite Hp.
Qed.


(** The same for the entry of a package. *)
Theorem accel_json_as_written ws w ms a path (st : W) :
  holds_object ws w ms -> last_is_value accel_key (strings ms) ->
  fits 256 (path ++ "/accel.json") = true ->
  read_file (path ++ "/accel.json") st = Some (print ws (string_object ms) ++ w)%string ->
  is_reg (path ++ "/accel.json") st = true ->
  initAccel a path st = Ret (0, fold_left accel_member (adjacent (strings ms)) a) st /\
  (forallb (fun m => negb (accel_key (snd m))) ms = true ->
   fold_left accel_member (adjacent (strings ms)) a = fold_left accel_member ms a).
Proof.
  intros Ho Hk Hn Hf Hr. split; [|intros Hv; exact (adjacent_members _ _ _ accel_member_other Hv a)].
  destruct (load_object ws w ms _ st Ho Hf Hr) as (text & ts & Hl & Hm).
  unfold initAccel, sprintf_into. rewrite Hn. unfold bind at 1, ret at 1. rewrite (bind_Ret _ _ _ _ _ Hl).
  assert (Hloop := flat_loop (accel_body text ts) accel_member text ts accel_key
                     (fun i a t u k v s => accel_body_key text ts i a t u k v s)
                     (fun i a t x s => accel_body_value text ts i a t x s) (strings ms) (length ts) 1 a st
                     (members_strings _ _ _ _ Hm) Hk ltac:(lia)).
  unfold over_tokens. rewrite Nat2Z.id. rewrite (bind_Ret _ _ _ _ _ Hloop). done.
Qed.
End Files.

Definition dfx_members : list member := [("shell_type", "PL_DFX"); ("num_pl_slots", "2")]%string.


(** A value that is the name of a field is taken for the key. *)
Lemma value_read_as_key b :
  fold_left base_member (adjacent (strings [("note", "uid"); ("5", "x")]))%string b = b <| uid := 5 |>.
Proof. done. Qed.
