(* ===== verification/ShmSpec.v ===== *)
(** * What transfers and attachments promise

    A transfer stays in its shared memory as far as the check of
    [acapd_dma_transfer()] goes; the descriptors of the MCDMA driver cover the
    buffer; the reference count of a shared memory is the number of its
    attachments; detaching undoes attaching.  And where these end: lengths that
    overrun the descriptor page, sizes that wrap around. *)
From stdpp Require Import gmap fin_maps fin_sets.
From S2P Require Import Prelude CStr Env Model Device Dma Ring Shm Transfer Sample.
Open Scope Z_scope.
Open Scope dfx_scope.

Section ShmSpec.
Context {W : Type} `{Env W}.
Implicit Types (st : dm W) (c : acapd_chnl).

(** ** The range of a transfer *)

Definition in_range (x : acapd_shm) (va size : Z) : Prop := s_va x <= va /\ va + size <= s_va x + s_size x.

(** [acapd_dma_transfer()] programs the channel exactly when the data lies in
    the shared memory, and otherwise refuses without touching anything, as long as
    neither range wraps around the address space. *)
Theorem transfer_range_checked c o cfg s x st :
  cops c = Some o -> cfg_shm cfg = Some s -> shms st !! s = Some x ->
  0 <= cfg_va cfg -> 0 <= cfg_size cfg -> cfg_va cfg + cfg_size cfg < 2 ^ 64 ->
  0 <= s_va x -> 0 <= s_size x -> s_va x + s_size x < 2 ^ 64 ->
  (in_range x (cfg_va cfg) (cfg_size cfg) -> acapd_dma_transfer c cfg st = ops_transfer o c cfg st) /\
  (~ in_range x (cfg_va cfg) (cfg_size cfg) -> acapd_dma_transfer c cfg st = Ret (- EINVAL) st).
Proof.
  intros Ho Hs Hx ? ? ? ? ? ?.
  assert (Hrun : acapd_dma_transfer c cfg st =
    (if outside_shm x (cfg_va cfg) (cfg_size cfg) then ret (- EINVAL) else ops_transfer o c cfg) st).
  { unfold acapd_dma_transfer, get_shm, bind, get. by rewrite Ho, Hs, Hx. }
  assert (Hout : outside_shm x (cfg_va cfg) (cfg_size cfg) = false <-> in_range x (cfg_va cfg) (cfg_size cfg)).
  { unfold outside_shm, in_range, u64. rewrite !Z.mod_small by lia. rewrite orb_false_iff, !Z.ltb_ge. lia. }
  rewrite Hrun. split; intros Hr.
  - by apply Hout in Hr as ->.
  - destruct (outside_shm _ _ _); [done|]. by destruct Hr; apply Hout.
Qed.

(** A size that wraps around passes the check. *)
Lemma range_check_wraps x : s_va x = 0x10000 -> s_size x = 0x1000 ->
  outside_shm x 0x10000 (2 ^ 64 - 16) = false.
Proof. intros E1 E2. unfold outside_shm. by rewrite E1, E2. Qed.

(** ** The descriptors of an MCDMA transfer *)

(** The [k]th descriptor of [n] for [size] bytes from [da], as the loop writes it. *)
Definition bd_of (c : acapd_chnl) (bd : nat) (tid size da pa : Z) (n k : nat) : M (dm W) unit :=
  let mx := max_buf_size c in
  bd_write bd c (64 * Z.of_nat k) (pa + 64 * Z.of_nat (Nat.min (S k) (n - 1))) (da + Z.of_nat k * mx)
    (Z.min mx (size - Z.of_nat k * mx)) tid.

(** What the engine is to find in it: 32-bit words by their offset in the
    descriptor memory.  The address of the next descriptor and that of the piece,
    low half first; the length, with the two bits that mark the start and the end
    of a frame; for a channel that sends, the top byte of the tid. *)
Definition desc_words (w : bool) (mx tid size da pa : Z) (n k : nat) : list (Z * Z) :=
  let off := 64 * Z.of_nat k in
  let next := pa + 64 * Z.of_nat (Nat.min (S k) (n - 1)) in
  let buf := da + Z.of_nat k * mx in
  let len := Z.min mx (size - Z.of_nat k * mx) in
  [(off + 0x0, next mod 2 ^ 32); (off + 0x4, next / 2 ^ 32);
   (off + 0x8, buf mod 2 ^ 32); (off + 0xC, buf / 2 ^ 32);
   (off + 0x14, 2 ^ 31 + 2 ^ 30 + len)] ++
  if w then [(off + 0x18, (tid / 2 ^ 24) mod 2 ^ 8 * 2 ^ 24)] else [].

(** Words stored, in order, to the memory mapped at [va]. *)
Definition stored (va : Z) (l : list (Z * Z)) (st : dm W) : dm W :=
  st <| d_hw ::= (fun h => h <| hw_world ::= fun w => fold_left (fun w p => reg_write (va + p.1) p.2 w) l w |>) |>.

Lemma stored_nil va st : stored va [] st = st.
Proof. by destruct st as [[? ? ? ?] ? ?]. Qed.
Lemma stored_app va l l' st : stored va (l ++ l') st = stored va l' (stored va l st).
Proof. unfold stored. destruct st as [[? ? ? ?] ? ?]. cbn. by rewrite fold_left_app. Qed.
Lemma stored_shms va l st : shms (stored va l st) = shms st.
Proof. by destruct st as [[? ? ? ?] ? ?]. Qed.

Lemma bd_store_stored bd x off v st :
  shms st !! bd = Some x -> s_va x <> MAP_FAILED -> 0 <= off -> off + 4 <= s_size x ->
  bd_store bd off v st = Ret tt (stored (s_va x) [(off, u32 v)] st).
Proof.
  intros Hx Hva H0 H4. unfold bd_store, get_shm, get, bind, the. rewrite Hx. unfold ret at 1, guard_that.
  rewrite (proj2 (Z.eqb_neq _ _) Hva), (proj2 (Z.leb_le _ _) H0), (proj2 (Z.leb_le _ _) H4). by destruct st as [[? ? ? ?] ? ?].
Qed.

(** The masks of the stores are arithmetic on the values. *)
Lemma next_word v : v mod 64 = 0 -> u32 (Z.land v 0xFFFFFFC0) = v mod 2 ^ 32.
Proof.
  intros Hv. pose proof (Z.div_mod v 64 ltac:(lia)) as E. rewrite Hv, Z.add_0_r, Z.mul_comm in E.
  change 64 with (2 ^ 6) in E at 2. rewrite <- Z.shiftl_mul_pow2 in E by lia. rewrite E.
  change 0xFFFFFFC0 with (Z.shiftl (Z.ones 26) 6). rewrite <- Z.shiftl_land, Z.land_ones by lia.
  rewrite !Z.shiftl_mul_pow2 by lia. change (2 ^ 32) with (2 ^ 26 * 2 ^ 6). rewrite Z.mul_mod_distr_r by lia.
  unfold u32. apply Z.mod_small. pose proof (Z.mod_pos_bound (v / 64) (2 ^ 26) ltac:(lia)). lia.
Qed.

Lemma high_word v : 0 <= v < 2 ^ 64 -> u32 (Z.shiftr v 32) = v / 2 ^ 32.
Proof. intros Hv. rewrite Z.shiftr_div_pow2 by lia. unfold u32. apply Z.mod_small. split; [apply Z.div_pos; lia|apply Z.div_lt_upper_bound; lia]. Qed.

Lemma low_word v : u32 (Z.land v 0xFFFFFFFF) = v mod 2 ^ 32.
Proof. change 0xFFFFFFFF with (Z.ones 32). rewrite Z.land_ones by lia. unfold u32. by rewrite Z.mod_mod. Qed.

Lemma length_word v : 0 <= v < 2 ^ 26 ->
  u32 (Z.lor (Z.lor (Z.land v 0x3FFFFFF) 0x80000000) 0x40000000) = 2 ^ 31 + 2 ^ 30 + v.
Proof.
  intros Hv. change 0x3FFFFFF with (Z.ones 26). rewrite Z.land_ones, (Z.mod_small v), <- Z.lor_assoc by lia.
  change (Z.lor 0x80000000 0x40000000) with (Z.shiftl 3 30).
  assert (Hd : Z.land v (Z.shiftl 3 30) = 0).
  { apply Z.bits_inj'. intros i Hi. rewrite Z.land_spec, Z.bits_0.
    destruct (Z.ltb_spec i 30); [rewrite Z.shiftl_spec_low by lia; apply andb_false_r|].
    rewrite <- (Z.mod_small v (2 ^ 26)), Z.mod_pow2_bits_high by lia. done. }
  rewrite <- Z.lxor_lor, <- Z.add_nocarry_lxor by done. change (Z.shiftl 3 30) with (2 ^ 31 + 2 ^ 30).
  unfold u32. rewrite Z.mod_small; lia.
Qed.

Lemma tid_word v : u32 (Z.land v 0xFF000000) = (v / 2 ^ 24) mod 2 ^ 8 * 2 ^ 24.
Proof.
  rewrite <- Z.land_ones, <- Z.shiftr_div_pow2, <- Z.shiftl_mul_pow2 by lia. unfold u32. rewrite <- Z.land_ones by lia.
  apply Z.bits_inj'. intros i Hi. rewrite !Z.land_spec. destruct (Z.ltb_spec i 24).
  - rewrite Z.shiftl_spec_low by lia. change 0xFF000000 with (Z.shiftl (Z.ones 8) 24).
    by rewrite Z.shiftl_spec_low, andb_false_r by lia.
  - rewrite Z.shiftl_spec, Z.land_spec, Z.shiftr_spec by lia. change 0xFF000000 with (Z.shiftl (Z.ones 8) 24).
    rewrite Z.shiftl_spec by lia. replace (i - 24 + 24) with i by lia.
    destruct (Z.ltb_spec i 32); [rewrite (Z.ones_spec_low 32), andb_true_r by lia; done|].
    rewrite (Z.ones_spec_high 8), !andb_false_r by lia. done.
Qed.

(** How many descriptors a transfer takes. *)
Definition bd_count (mx size : Z) : nat := Z.to_nat ((size + mx - 1) / mx).

Lemma bd_count_bounds mx size : 0 < mx -> 0 < size ->
  (0 < bd_count mx size)%nat /\ (Z.of_nat (bd_count mx size) - 1) * mx < size <= Z.of_nat (bd_count mx size) * mx.
Proof.
  intros Hmx Hs. unfold bd_count.
  pose proof (Z.mod_pos_bound (size + mx - 1) mx Hmx). pose proof (Z.div_mod (size + mx - 1) mx ltac:(lia)).
  assert (0 < (size + mx - 1) / mx) by (apply Z.div_str_pos; lia). rewrite Z2Nat.id by lia. split; [lia|nia].
Qed.

Section Descs.
Variables (c : acapd_chnl) (bd : nat) (tid size da pa : Z).
Let mx := max_buf_size c.
Let n := bd_count mx size.
Hypothesis Hmx : 0 < mx.
Hypothesis Hsize : 0 < size < 2 ^ 32.
Hypothesis Hda : 0 <= da /\ da + size < 2 ^ 64.
Hypothesis Hpa : 0 <= pa /\ pa + 64 * Z.of_nat n < 2 ^ 64.

(** The loop at descriptor [k]. *)
Definition descs_at (fuel k : nat) : M (dm W) Z :=
  mcdma_descs fuel bd c tid (size - Z.of_nat k * mx) (64 * Z.of_nat k) (pa + 64 * Z.of_nat k) (da + Z.of_nat k * mx).

Lemma desc_len k : (if mx <? size - Z.of_nat k * mx then mx else size - Z.of_nat k * mx) = Z.min mx (size - Z.of_nat k * mx).
Proof. destruct (Z.ltb_spec mx (size - Z.of_nat k * mx)); lia. Qed.

Lemma descs_last k fuel st : S k = n ->
  descs_at (S fuel) k st = (bd_of c bd tid size da pa n k ;; ret (pa + 64 * Z.of_nat k)) st.
Proof.
  intros Hk. destruct (bd_count_bounds mx size Hmx ltac:(lia)) as (_ & Hlo & Hhi). fold n in Hlo, Hhi.
  assert (Z.of_nat n = Z.of_nat k + 1) by lia.
  unfold descs_at. cbn [mcdma_descs]. destruct (Z.eqb_spec (size - Z.of_nat k * mx) 0); [nia|].
  fold mx. rewrite desc_len. unfold bd_of. fold mx. rewrite Z.min_r by nia. unfold u32. rewrite Z.sub_diag.
  change (0 mod 2 ^ 32) with 0. cbn [Z.eqb negb]. replace (Nat.min (S k) (n - 1)) with k by lia.
  unfold bind. destruct (bd_write _ _ _ _ _ _ _ st) as [[] st'|]; [|done]. by destruct fuel.
Qed.

Lemma descs_more k fuel st : (S k < n)%nat ->
  descs_at (S fuel) k st = (bd_of c bd tid size da pa n k ;; descs_at fuel (S k)) st.
Proof.
  intros Hk. destruct (bd_count_bounds mx size Hmx ltac:(lia)) as (_ & Hlo & _). fold n in Hlo.
  assert ((Z.of_nat k + 1) * mx <= (Z.of_nat n - 1) * mx) by (apply Z.mul_le_mono_nonneg_r; lia).
  unfold descs_at. cbn [mcdma_descs]. destruct (Z.eqb_spec (size - Z.of_nat k * mx) 0); [nia|].
  fold mx. rewrite desc_len. unfold bd_of. fold mx. rewrite Z.min_l by nia. unfold u32, u64, MCDMA_BD_SIZE.
  rewrite (Z.mod_small (size - Z.of_nat k * mx - mx)) by nia.
  destruct (Z.eqb_spec (size - Z.of_nat k * mx - mx) 0); [nia|]. cbn [negb].
  rewrite (Z.mod_small (pa + 64 * Z.of_nat k + 0x40)), (Z.mod_small (da + Z.of_nat k * mx + mx)) by nia.
  replace (Nat.min (S k) (n - 1)) with (S k) by lia. rewrite Nat2Z.inj_succ.
  replace (pa + 64 * Z.succ (Z.of_nat k)) with (pa + 64 * Z.of_nat k + 0x40) by lia.
  replace (64 * Z.succ (Z.of_nat k)) with (64 * Z.of_nat k + 0x40) by lia.
  by replace (size - Z.succ (Z.of_nat k) * mx) with (size - Z.of_nat k * mx - mx) by lia;
     replace (da + Z.succ (Z.of_nat k) * mx) with (da + Z.of_nat k * mx + mx) by lia.
Qed.

Lemma descs_from m : forall k fuel st, (S m + k = n)%nat -> (m < fuel)%nat ->
  descs_at fuel k st = (for_each (bd_of c bd tid size da pa n) (seq k (S m)) ;; ret (pa + 64 * Z.of_nat (n - 1))) st.
Proof.
  induction m as [|m IH]; intros k [|fuel] st Hk Hf; try lia.
  - rewrite descs_last by lia. replace (n - 1)%nat with k by lia. cbn [seq for_each]. unfold bind.
    by destruct (bd_of _ _ _ _ _ _ _ _ st) as [[] st'|].
  - rewrite descs_more by lia. change (seq k (S (S m))) with (k :: seq (S k) (S m)). cbn [for_each].
    unfold bind at 1 2 3. destruct (bd_of _ _ _ _ _ _ _ _ st) as [[] st'|]; [|done]. apply IH; lia.
Qed.

(** Descriptor memory of [n] descriptors, aligned as the engine wants them. *)
Variable x : acapd_shm.
Hypothesis Hva : s_va x <> MAP_FAILED.
Hypothesis Hroom : 64 * Z.of_nat n <= s_size x.
Hypothesis Halign : pa mod 64 = 0.
Hypothesis Hlen : Z.min mx size < 2 ^ 26.

Lemma bd_of_stored k st : (k < n)%nat -> shms st !! bd = Some x ->
  bd_of c bd tid size da pa n k st = Ret tt (stored (s_va x) (desc_words (is_write c) mx tid size da pa n k) st).
Proof.
  intros Hk Hx. destruct (bd_count_bounds mx size Hmx ltac:(lia)) as (_ & Hlo & _). fold n in Hlo.
  assert (Z.of_nat k * mx <= (Z.of_nat n - 1) * mx) by (apply Z.mul_le_mono_nonneg_r; lia).
  assert (Hw : forall off v st, shms st !! bd = Some x -> 0 <= off <= 0x18 ->
            bd_store bd (64 * Z.of_nat k + off) v st = Ret tt (stored (s_va x) [(64 * Z.of_nat k + off, u32 v)] st)).
  { intros off v st0 Hx0 Ho. apply bd_store_stored; [done|done|lia..]. }
  unfold bd_of, bd_write. fold mx.
  do 5 (erewrite bind_Ret; [|apply Hw; [by rewrite ?stored_shms|lia]]).
  rewrite next_word, !high_word, low_word, length_word
    by first [nia|by rewrite (Z.mul_comm 64), Z.mod_add].
  unfold desc_words. cbv zeta. destruct (is_write c).
  - rewrite Hw, tid_word by (by rewrite ?stored_shms || lia). by rewrite <- !stored_app.
  - by rewrite <- !stored_app.
Qed.

Lemma descs_stored m : forall k st, (m + k <= n)%nat -> shms st !! bd = Some x ->
  for_each (bd_of c bd tid size da pa n) (seq k m) st =
  Ret tt (stored (s_va x) (concat (desc_words (is_write c) mx tid size da pa n <$> seq k m)) st).
Proof.
  induction m as [|m IH]; intros k st Hk Hx; cbn [seq for_each fmap list_fmap concat]; [by rewrite stored_nil|].
  rewrite (bind_Ret _ _ _ _ _ (bd_of_stored k st ltac:(lia) Hx)), IH by (lia || by rewrite stored_shms).
  by rewrite stored_app.
Qed.
End Descs.

(** C35: The descriptors of an MCDMA transfer, word by word: a buffer of [size]
    bytes at device address [da] is cut into consecutive pieces of [max_buf_size]
    bytes, the last one shorter; the loop ends, and all it does is to store, for
    the [k]th piece at [64 k] of the descriptor memory and in this order, the
    address of the next descriptor (the last one its own), the address of the
    piece, its length with the two bits that mark a whole frame and, when the
    channel sends, the top byte of the tid; it answers the address of the last
    descriptor, the tail for the engine. This holds when [size] and [max_buf_size]
    are positive and [size] fits 32 bits, the descriptor memory is mapped, its
    device address [pa] is a multiple of 64, it has room for the descriptors,
    which are at most 64, no address exceeds 64 bits, and no piece reaches 64 MiB,
    for the length field has 26 bits. *)
Theorem mcdma_descriptors_cover_buffer c bd x tid size da pa st :
  let mx := max_buf_size c in let n := bd_count mx size in
  shms st !! bd = Some x -> s_va x <> MAP_FAILED -> 64 * Z.of_nat n <= s_size x -> (n <= 64)%nat ->
  0 < mx -> 0 < size < 2 ^ 32 -> Z.min mx size < 2 ^ 26 -> 0 <= da /\ da + size < 2 ^ 64 ->
  0 <= pa /\ pa + 64 * Z.of_nat n < 2 ^ 64 -> pa mod 64 = 0 ->
  mcdma_descs BD_FUEL bd c tid size 0 pa da st =
    Ret (pa + 64 * Z.of_nat (n - 1))
        (stored (s_va x) (concat (desc_words (is_write c) mx tid size da pa n <$> seq 0 n)) st) /\
  (Z.of_nat n - 1) * mx < size <= Z.of_nat n * mx.
Proof.
  intros mx n Hx Hva Hroom Hn Hmx Hs Hlen Hda Hpa Hal.
  destruct (bd_count_bounds mx size Hmx ltac:(lia)) as (Hpos & Hb). fold n in Hpos, Hb. split; [|done].
  assert (Hd := descs_from c bd tid size da pa Hmx Hs Hda Hpa (n - 1) 0 BD_FUEL st ltac:(fold mx n; lia)
    ltac:(unfold BD_FUEL; lia)). fold mx n in Hd. replace (S (n - 1)) with n in Hd by lia.
  assert (Hl := descs_stored c bd tid size da pa Hmx Hs Hda Hpa x Hva Hroom Hal Hlen n 0 st ltac:(fold mx n; lia) Hx).
  fold mx n in Hl. rewrite (bind_Ret _ _ _ _ _ Hl) in Hd.
  etransitivity; [|exact Hd]. unfold descs_at. f_equal; lia.
Qed.

(** ** Attachments *)

(** The devices attached to [s] are [l]: its list holds their nodes, its
    reference count their number. *)
Definition attachments st (s : nat) (l : list nat) : Prop :=
  exists x, shms st !! s = Some x /\ ring (links st) (RefsOf s) (NodeOf <$> l) /\
    s_refcount x = Z.of_nat (length l) /\ Forall (fun d => d < length (devs (d_hw st)))%nat l.
(** Every device has its node, and there are fewer of them than an [int] counts. *)
Definition nodes_ready st : Prop :=
  (forall d, d < length (devs (d_hw st)) -> is_Some (links st !! NodeOf d))%nat /\
  Z.of_nat (length (devs (d_hw st))) < 2 ^ 31.

Lemma node_in d (l : list nat) : NodeOf d ∈ NodeOf <$> l <-> d ∈ l.
Proof. rewrite list_elem_of_fmap. split; [by intros (y & [= ->] & ?)|intros ?; by exists d]. Qed.
Lemma node_not_head s (l : list nat) : RefsOf s ∉ NodeOf <$> l.
Proof. rewrite list_elem_of_fmap. by intros (y & ? & _). Qed.
Lemma node_fresh d s (l : list nat) : d ∉ l -> NodeOf d ∉ RefsOf s :: (NodeOf <$> l).
Proof. intros Hd. rewrite not_elem_of_cons, node_in. done. Qed.

Lemma few_attached st l : NoDup l -> Forall (fun d => d < length (devs (d_hw st)))%nat l ->
  (length l <= length (devs (d_hw st)))%nat.
Proof.
  intros Hd Hl. rewrite <- (length_seq (length (devs (d_hw st))) 0). apply submseteq_length, NoDup_submseteq; [done|].
  intros d Hin. apply elem_of_seq. rewrite Forall_forall in Hl. specialize (Hl d Hin). lia.
Qed.

Lemma scan_for {S A} `{EqDecision A} (x : A) (l : list A) (s : S) :
  for_ret (fun n => ret (if bool_decide (n = x) then Some tt else None)) l s =
  Ret (if bool_decide (x ∈ l) then Some tt else None) s.
Proof.
  induction l as [|y l IH]; cbn [for_ret]; [by rewrite bool_decide_eq_false_2 by apply not_elem_of_nil|].
  unfold bind at 1, ret at 1. destruct (bool_decide_reflect (y = x)) as [->|Hne].
  - rewrite bool_decide_eq_true_2 by by left. done.
  - rewrite IH. f_equal. by rewrite (bool_decide_ext (x ∈ y :: l) (x ∈ l)) by (rewrite elem_of_cons; split; [by intros [<-|?]|by right]).
Qed.

Lemma attached_eq st d s l : attachments st s l -> attached d s st = Ret (bool_decide (d ∈ l)) st.
Proof.
  intros (x & _ & Hr & _). unfold attached, each_ref, bind at 1 2, get, in_links, zoom.
  rewrite (for_each_ring _ _ _ _ _ Hr).
  - rewrite scan_for. rewrite (bool_decide_ext _ _ (node_in d l)). destruct st. unfold ret. cbn. by destruct (bool_decide _).
  - by eapply ring_length.
  - intros y _. unfold ret. destruct (bool_decide _); [right|left]; eauto.
Qed.

Lemma get_shm_wp F st s x Q : shms st !! s = Some x -> Q x st -> wp F (get_shm s) Q st.
Proof. intros Hx HQ. unfold get_shm. wp_go. by eapply wp_the_Some. Qed.
Lemma mod_shm_wp F st s x f (Q : unit -> dm W -> Prop) :
  shms st !! s = Some x -> Q tt (Dm (d_hw st) (<[s := f x]> (shms st)) (links st)) -> wp F (mod_shm s f) Q st.
Proof. intros Hx HQ. unfold mod_shm. apply wp_bind. eapply get_shm_wp; [exact Hx|]. by apply wp_modify. Qed.
Lemma read_dev_wp F (h : hw W) d x Q : devs h !! d = Some x -> Q x h -> wp F (get_dev d) Q h.
Proof. intros Hd HQ. apply wp_bind, wp_get. by eapply wp_the_Some. Qed.
Lemma write_dev_wp F (h : hw W) d x f (Q : unit -> hw W -> Prop) :
  devs h !! d = Some x -> Q tt (h <| devs ::= <[d := f x]> |>) -> wp F (mod_dev d f) Q h.
Proof. intros Hd HQ. apply wp_bind. eapply read_dev_wp; [exact Hd|]. by apply wp_modify. Qed.

(** What attaching does to the device: the VFIO driver adds a mapping. *)
Definition mapped (dev dev' : acapd_device) (va : Z) : Prop :=
  match dops dev with
  | Some vfio_dev_ops => exists v da n, priv dev = Some v /\
      dev' = dev <| priv := Some (v <| mmaps ::= fun l => l ++ [VfioMmap va da n] |>) |>
  | _ => dev' = dev
  end.
(** And detaching removes the first one of that address. *)
Definition unmapped (dev dev' : acapd_device) (va : Z) : Prop :=
  match dops dev with
  | Some vfio_dev_ops => exists v i, priv dev = Some v /\ find_index (fun m => m_va m =? va) (mmaps v) = Some i /\
      dev' = dev <| priv := Some (v <| mmaps ::= delete i |>) |>
  | _ => dev' = dev
  end.

Lemma vfio_attach_wp (h : hw W) d dev sva size : devs h !! d = Some dev -> dops dev = Some vfio_dev_ops ->
  safe (acapd_vfio_device_attach d sva size) (fun r h' => (r = None /\ devs h' = devs h) \/
    (r = Some sva /\ exists dev', mapped dev dev' sva /\ devs h' = <[d := dev']> (devs h))) h.
Proof.
  intros Hd Ho. apply wp_bind. eapply read_dev_wp; [exact Hd|]. destruct (priv dev) as [v|] eqn:Hv; [|by apply wp_ret; left].
  cbv zeta. apply wp_bind, wp_in_world, wp_act. destruct (negb _); [by apply wp_ret; left|].
  apply wp_bind. eapply write_dev_wp; [exact Hd|]. apply wp_ret. right. split; [done|].
  eexists. split; [|reflexivity]. unfold mapped. rewrite Ho. by eexists _, _, _.
Qed.

Lemma vfio_detach_wp (h : hw W) d dev sva size : devs h !! d = Some dev -> dops dev = Some vfio_dev_ops ->
  safe (acapd_vfio_device_detach d sva size) (fun r h' => (r = - EINVAL /\ devs h' = devs h) \/
    (exists dev', unmapped dev dev' sva /\ devs h' = <[d := dev']> (devs h))) h.
Proof.
  intros Hd Ho. apply wp_bind. eapply read_dev_wp; [exact Hd|]. destruct (priv dev) as [v|] eqn:Hv; [|by apply wp_ret; left].
  destruct (find_index _ _) as [i|] eqn:Hi; [|by apply wp_ret; left].
  apply wp_bind. destruct (find_index_lookup _ _ _ Hi) as (m & Hm & _). eapply wp_the_Some; [exact Hm|].
  apply wp_bind, wp_in_world, wp_act. apply wp_bind. eapply write_dev_wp; [exact Hd|]. apply wp_ret. right.
  eexists. split; [|reflexivity]. unfold unmapped. rewrite Ho. by eexists _, _.
Qed.

(** The list of [s] changes from [l] to [l'], its count with it, and the nodes stay. *)
Definition relinked st st' (s : nat) (x : acapd_shm) (l' : list nat) : Prop :=
  shms st' = <[s := x <| s_refcount := Z.of_nat (length l') |>]> (shms st) /\
  ring (links st') (RefsOf s) (NodeOf <$> l') /\
  (forall n, is_Some (links st !! n) -> is_Some (links st' !! n)).

(** The end of an attachment. *)
Lemma link_wp st s d l x h' dev dev' :
  attachments st s l -> nodes_ready st -> shms st !! s = Some x -> devs (d_hw st) !! d = Some dev -> d ∉ l ->
  devs h' = <[d := dev']> (devs (d_hw st)) -> mapped dev dev' (s_va x) ->
  safe (in_links (acapd_list_add_tail (RefsOf s) (NodeOf d)) ;;
        mod_shm s (fun x => x <| s_refcount ::= fun r => int32 (r + 1) |>) ;; ret (s_va x))
    (fun r st' => r = s_va x /\ relinked st st' s x (l ++ [d]) /\
       exists dev', mapped dev dev' (s_va x) /\ devs (d_hw st') = <[d := dev']> (devs (d_hw st)))
    (Dm h' (shms st) (links st)).
Proof.
  intros (x' & Hx' & Hr & Hc & Hl) Hn Hx Hd Hin Hh Hm. rewrite Hx in Hx'. injection Hx' as <-.
  assert (Hdl : (d < length (devs (d_hw st)))%nat) by (by eapply lookup_lt_Some).
  destruct (add_tail_ring _ _ _ _ Hr (node_fresh d s l Hin) (proj1 Hn d Hdl)) as (m' & E & Hr' & Hk & _).
  apply wp_bind, wp_zoom. unfold wp at 1. cbn [links]. rewrite E. apply wp_bind.
  eapply mod_shm_wp; [exact Hx|]. apply wp_ret. split; [done|]. split; [|by exists dev'].
  split; [|split; [by rewrite fmap_app|exact Hk]]. cbn. rewrite Hc, length_app. cbn [length]. do 3 f_equal.
  destruct Hr as [Hd1 _]. apply NoDup_cons in Hd1 as [_ Hd1%NoDup_fmap_1]. destruct Hn as [_ Hn].
  pose proof (few_attached st (d :: l)) as Hf. cbn [length] in Hf. rewrite int32_id; [lia|].
  assert (S (length l) <= length (devs (d_hw st)))%nat; [|lia]. apply Hf; [by apply NoDup_cons|by constructor].
Qed.

Lemma attach_wp st s d l x dev :
  attachments st s l -> nodes_ready st -> shms st !! s = Some x -> devs (d_hw st) !! d = Some dev ->
  safe (acapd_device_attach_shm d s) (fun r st' =>
    (d ∈ l /\ r = s_va x /\ st' = st) \/
    ((d ∉ l) /\ r = 0 /\ shms st' = shms st /\ links st' = links st /\
       exists dev', devs (d_hw st') = <[d := dev']> (devs (d_hw st))) \/
    ((d ∉ l) /\ r = s_va x /\ relinked st st' s x (l ++ [d]) /\
       exists dev', mapped dev dev' (s_va x) /\ devs (d_hw st') = <[d := dev']> (devs (d_hw st)))) st.
Proof.
  intros Ha Hn Hx Hd. unfold acapd_device_attach_shm. apply wp_bind. unfold wp at 1. rewrite (attached_eq _ _ _ _ Ha).
  apply wp_bind. eapply get_shm_wp; [exact Hx|].
  destruct (bool_decide_reflect (d ∈ l)) as [Hin|Hin]; [apply wp_ret; by left|].
  apply wp_bind, wp_zoom. eapply read_dev_wp; [exact Hd|].
  assert (Hother : dops dev <> Some vfio_dev_ops -> mapped dev dev (s_va x)).
  { unfold mapped. by destruct (dops dev) as [[]|]. }
  assert (Hsame : devs (d_hw st) = <[d := dev]> (devs (d_hw st))) by (by rewrite list_insert_id).
  apply wp_bind. destruct (dops dev) as [[]|] eqn:Ho.
  - apply wp_ret. eapply wp_mono; [apply (link_wp st s d l x (d_hw st) dev dev); auto|]. by intros r st' ?; right; right.
  - apply wp_bind, wp_zoom. eapply wp_mono; [by eapply vfio_attach_wp|].
    intros r h' [(-> & Hh)|(-> & dev' & Hm & Hh)]; cbn [default].
    + apply wp_bind, wp_ret, wp_ret, wp_ret. right; left. split_and!; [done..|]. exists dev. cbn. by rewrite Hh.
    + unfold id. destruct (Z.eqb_spec (s_va x) 0) as [Hz|Hz].
      * apply wp_bind, wp_ret, wp_ret, wp_ret. right; left. split_and!; [done..|]. by exists dev'.
      * apply wp_bind. eapply mod_shm_wp; [exact Hx|]. apply wp_ret.
        assert (x <| s_va ::= fun v => if v =? 0 then s_va x else v |> = x) as ->
          by (destruct x; cbn in *; apply Z.eqb_neq in Hz as ->; done).
        cbn. rewrite insert_id by done.
        eapply wp_mono; [by apply (link_wp st s d l x h' dev dev')|]. by intros r st' ?; right; right.
  - apply wp_ret. eapply wp_mono; [apply (link_wp st s d l x (d_hw st) dev dev); auto|]. by intros r st' ?; right; right.
Qed.

(** The end of a detachment. *)
Lemma unlink_wp st s d l1 l2 x h' dev dev' :
  attachments st s (l1 ++ d :: l2) -> nodes_ready st -> shms st !! s = Some x ->
  devs h' = <[d := dev']> (devs (d_hw st)) -> unmapped dev dev' (s_va x) ->
  safe (in_links (acapd_list_del (NodeOf d)) ;;
        mod_shm s (fun x => x <| s_refcount ::= fun r => int32 (r - 1) |>) ;; ret 0)
    (fun r st' => r = 0 /\ relinked st st' s x (l1 ++ l2) /\
       exists dev', unmapped dev dev' (s_va x) /\ devs (d_hw st') = <[d := dev']> (devs (d_hw st)))
    (Dm h' (shms st) (links st)).
Proof.
  intros (x' & Hx' & Hr & Hc & Hl) Hn Hx Hh Hm. rewrite Hx in Hx'. injection Hx' as <-. pose proof Hr as [Hd1 _].
  rewrite fmap_app, fmap_cons in Hr. destruct (del_ring _ _ _ _ _ Hr) as (m' & E & Hr' & _ & Hk & _).
  apply wp_bind, wp_zoom. unfold wp at 1. cbn [links]. rewrite E. apply wp_bind.
  eapply mod_shm_wp; [exact Hx|]. apply wp_ret. split; [done|]. split; [|by exists dev'].
  split; [|split; [by rewrite fmap_app|exact Hk]]. cbn. rewrite Hc, !length_app. cbn [length]. do 3 f_equal.
  apply NoDup_cons in Hd1 as [_ Hd1%NoDup_fmap_1]. destruct Hn as [_ Hn].
  pose proof (few_attached st _ Hd1 Hl) as Hf. rewrite length_app in Hf. cbn [length] in Hf. rewrite int32_id; lia.
Qed.

Lemma detach_wp st s d l x dev :
  attachments st s l -> nodes_ready st -> shms st !! s = Some x -> devs (d_hw st) !! d = Some dev ->
  safe (acapd_device_detach_shm d s) (fun r st' =>
    ((d ∉ l) /\ r = - EINVAL /\ st' = st) \/
    (d ∈ l /\ r < 0 /\ shms st' = shms st /\ links st' = links st /\
       exists dev', devs (d_hw st') = <[d := dev']> (devs (d_hw st))) \/
    (r = 0 /\ exists l1 l2, l = l1 ++ d :: l2 /\ relinked st st' s x (l1 ++ l2) /\
       exists dev', unmapped dev dev' (s_va x) /\ devs (d_hw st') = <[d := dev']> (devs (d_hw st)))) st.
Proof.
  intros Ha Hn Hx Hd. unfold acapd_device_detach_shm. apply wp_bind. unfold wp at 1. rewrite (attached_eq _ _ _ _ Ha).
  destruct (bool_decide_reflect (d ∈ l)) as [Hin|Hin]; cbn [negb]; [|apply wp_ret; by left].
  apply wp_bind, wp_zoom. eapply read_dev_wp; [exact Hd|]. apply wp_bind.
  apply (get_shm_wp _ _ _ x); [done|].
  destruct (list_elem_of_split _ _ Hin) as (l1 & l2 & El).
  assert (Hother : dops dev <> Some vfio_dev_ops -> unmapped dev dev (s_va x)).
  { unfold unmapped. by destruct (dops dev) as [[]|]. }
  assert (Hsame : devs (d_hw st) = <[d := dev]> (devs (d_hw st))) by (by rewrite list_insert_id).
  assert (Hend : forall h' dev', devs h' = <[d := dev']> (devs (d_hw st)) -> unmapped dev dev' (s_va x) ->
    safe (in_links (acapd_list_del (NodeOf d)) ;;
          mod_shm s (fun x => x <| s_refcount ::= fun r => int32 (r - 1) |>) ;; ret 0)
      (fun r st' => r = 0 /\ exists l1 l2, l = l1 ++ d :: l2 /\ relinked st st' s x (l1 ++ l2) /\
         exists dev', unmapped dev dev' (s_va x) /\ devs (d_hw st') = <[d := dev']> (devs (d_hw st)))
      (Dm h' (shms st) (links st))).
  { intros h' dev' Hh Hm. rewrite El in Ha. eapply wp_mono; [by apply (unlink_wp st s d l1 l2 x h' dev dev')|].
    intros r st' (? & ? & ?). split; [done|]. by exists l1, l2. }
  apply wp_bind. destruct (dops dev) as [[]|] eqn:Ho.
  - apply wp_ret. cbn. eapply wp_mono; [apply (Hend (d_hw st) dev); auto|]. by intros r st' ?; right; right.
  - apply wp_zoom. eapply wp_mono; [by eapply vfio_detach_wp|].
    intros r h' [(-> & Hh)|(dev' & Hm & Hh)].
    + apply wp_ret. right; left. split_and!; [done..|]. exists dev. cbn. by rewrite Hh.
    + destruct (Z.ltb_spec r 0).
      * apply wp_ret. right; left. split_and!; [done..|]. by exists dev'.
      * eapply wp_mono; [by apply (Hend h' dev')|]. by intros r' st' ?; right; right.
  - apply wp_ret. cbn. eapply wp_mono; [apply (Hend (d_hw st) dev); auto|]. by intros r st' ?; right; right.
Qed.

(** ** Runs of attachments *)

Inductive shm_op := AttachTo (d : nat) | DetachFrom (d : nat).
Definition op_dev (o : shm_op) : nat := match o with AttachTo d | DetachFrom d => d end.
Definition run_shm_op (s : nat) (o : shm_op) : M (dm W) unit :=
  match o with
  | AttachTo d => acapd_device_attach_shm d s ;; ret tt
  | DetachFrom d => acapd_device_detach_shm d s ;; ret tt
  end.

(** The devices of a later state. *)
Lemma ready_later st st' d dev' :
  nodes_ready st -> (forall n, is_Some (links st !! n) -> is_Some (links st' !! n)) ->
  devs (d_hw st') = <[d := dev']> (devs (d_hw st)) ->
  nodes_ready st' /\ length (devs (d_hw st')) = length (devs (d_hw st)).
Proof.
  intros [Hn Hlt] Hk Hh. unfold nodes_ready. rewrite Hh, length_insert. split; [|done]. split; [|done].
  intros e He. by apply Hk, Hn.
Qed.

(** The outcome of one operation. *)
Definition op_outcome st (s : nat) (o : shm_op) (l : list nat) st' : Prop :=
  nodes_ready st' /\ length (devs (d_hw st')) = length (devs (d_hw st)) /\
  exists l', attachments st' s l' /\ forall d, d ∈ l' -> d ∈ l \/ o = AttachTo d.

Lemma relinked_outcome st st' s x l l' d dev' o :
  attachments st s l -> nodes_ready st -> relinked st st' s x l' -> devs (d_hw st') = <[d := dev']> (devs (d_hw st)) ->
  (d < length (devs (d_hw st)))%nat -> (forall e, e ∈ l' -> e ∈ l \/ o = AttachTo e /\ e = d) -> op_outcome st s o l st'.
Proof.
  intros (x0 & _ & _ & _ & Hl) Hn (Hs & Hr & Hk) Hh Hd Hin. destruct (ready_later st st' d dev' Hn Hk Hh) as [Hn' Hlen].
  split; [done|]. split; [done|]. exists l'. split; [|intros e He; destruct (Hin e He); tauto].
  eexists. split; [rewrite Hs; apply lookup_insert_eq|]. split_and!; [done..|].
  rewrite Forall_forall in *. intros e He. rewrite Hlen. destruct (Hin e He) as [?|[_ ->]]; auto.
Qed.
Lemma same_outcome st st' s l d dev' o :
  attachments st s l -> nodes_ready st -> shms st' = shms st -> links st' = links st ->
  devs (d_hw st') = <[d := dev']> (devs (d_hw st)) -> op_outcome st s o l st'.
Proof.
  intros (x & Hx & Hr & Hc & Hl) Hn Hs Hk Hh. destruct (ready_later st st' d dev' Hn) as [Hn' Hlen]; [by rewrite Hk|done|].
  split; [done|]. split; [done|]. exists l. split; [|auto]. exists x. rewrite Hs, Hk, Hlen. done.
Qed.
Lemma kept_outcome st s l o : attachments st s l -> nodes_ready st -> op_outcome st s o l st.
Proof. intros Ha Hn. split; [done|]. split; [done|]. exists l. auto. Qed.

Lemma run_shm_op_wp st s o l : attachments st s l -> nodes_ready st -> (op_dev o < length (devs (d_hw st)))%nat ->
  safe (run_shm_op s o) (fun _ st' => op_outcome st s o l st') st.
Proof.
  intros Ha Hn Ho. pose proof Ha as (x & Hx & _). destruct (lookup_lt_is_Some_2 _ _ Ho) as [dev Hd].
  destruct o as [d|d]; simpl in *; apply wp_bind.
  - eapply wp_mono; [by eapply attach_wp|].
    intros r st' [(_ & _ & ->)|[(_ & _ & Hs & Hk & dev' & Hh)|(_ & _ & Hr & dev' & _ & Hh)]]; apply wp_ret.
    + by apply kept_outcome.
    + by eapply same_outcome.
    + eapply relinked_outcome; try done. intros e. rewrite elem_of_app, list_elem_of_singleton.
      intros [?|?]; [by left|right; by subst].
  - eapply wp_mono; [by eapply detach_wp|].
    intros r st' [(_ & _ & ->)|[(_ & _ & Hs & Hk & dev' & Hh)|(_ & l1 & l2 & -> & Hr & dev' & _ & Hh)]]; apply wp_ret.
    + by apply kept_outcome.
    + by eapply same_outcome.
    + eapply relinked_outcome; try done. intros e. rewrite !elem_of_app, elem_of_cons. tauto.
Qed.

(** C33: the reference count of a shared memory counts its attachments: through
    any run of attachments and detachments of devices, each refused or carried
    out, no call fails to return, the list of the shared memory stays a
    well-formed ring of the nodes of different devices, each of them attached
    before or by the run, and [refcount] is their number. *)
Theorem refcount_counts_attachments s os : forall st l,
  attachments st s l -> nodes_ready st -> Forall (fun o => op_dev o < length (devs (d_hw st)))%nat os ->
  safe (for_each (run_shm_op s) os) (fun _ st' =>
    exists l', attachments st' s l' /\ NoDup l' /\ forall d, d ∈ l' -> d ∈ l \/ AttachTo d ∈ os) st.
Proof.
  induction os as [|o os IH]; intros st l Ha Hn Hos; cbn [for_each].
  - apply wp_ret. exists l. split; [done|]. split; [|auto]. destruct Ha as (? & _ & [Hd _] & _).
    apply NoDup_cons in Hd as [_ Hd]. by eapply NoDup_fmap_1.
  - apply Forall_cons in Hos as [Ho Hos]. apply wp_bind. eapply wp_mono; [by apply run_shm_op_wp|].
    intros _ st' (Hn' & Hlen & l' & Ha' & Hl'). eapply wp_mono; [apply (IH st' l'); [done|done|by rewrite Hlen]|].
    intros _ st2 (l2 & Ha2 & Hd2 & Hl2). exists l2. split_and!; [done..|]. intros d Hd. rewrite elem_of_cons.
    destruct (Hl2 d Hd) as [?|?]; [|by right; right]. destruct (Hl' d) as [?| <-]; [done|by left|by right; left].
Qed.

(** A mapping added at the end is the one that is removed. *)
Lemma mapped_unmapped dev dev1 dev2 va :
  mapped dev dev1 va -> unmapped dev1 dev2 va ->
  (forall v m, priv dev = Some v -> m ∈ mmaps v -> m_va m <> va) -> dev2 = dev.
Proof.
  unfold mapped, unmapped. intros Hm Hu Hf. destruct (dops dev) as [[]|] eqn:Ho.
  - by rewrite Hm, Ho in Hu; subst.
  - destruct Hm as (v & da & n & Hv & ->). cbn in Hu. rewrite Ho in Hu. destruct Hu as (v' & i & [= <-] & Hi & ->).
    cbn in Hi. assert (i = length (mmaps v)) as ->.
    { apply find_index_Some in Hi as (m & Hm & Hmv & Hb). apply Z.eqb_eq in Hmv.
      destruct (Nat.lt_trichotomy i (length (mmaps v))) as [Hlt|[?|Hgt]]; [|done|].
      - rewrite lookup_app_l in Hm by done. exfalso. eapply Hf; [exact Hv|by eapply list_elem_of_lookup_2|done].
      - apply lookup_lt_Some in Hm. rewrite length_app in Hm. simpl in Hm. lia. }
    destruct dev, v; cbn in *. by rewrite Hv, Ho, delete_middle, app_nil_r.
  - by rewrite Hm, Ho in Hu; subst.
Qed.

Lemma snoc_middle {A} (l l1 l2 : list A) x : x ∉ l -> l ++ [x] = l1 ++ x :: l2 -> l1 = l /\ l2 = [].
Proof.
  intros Hx E. induction l2 as [|z l2 _] using rev_ind; [by apply app_inj_tail in E as [-> _]|].
  change (l1 ++ x :: l2 ++ [z]) with (l1 ++ (x :: l2) ++ [z]) in E. rewrite app_assoc in E.
  apply app_inj_tail in E as [-> _]. destruct Hx. rewrite elem_of_app, elem_of_cons. tauto.
Qed.

(** C34: detaching undoes attaching: when a device that is not attached attaches a
    shared memory and detaches it again, and both calls succeed, the shared
    memory, its list, and every device, mappings included, are as before (as long
    as the device had no mapping of that address). *)
Theorem detach_undoes_attach st s d l x va st1 r st2 :
  attachments st s l -> nodes_ready st -> shms st !! s = Some x -> (d ∉ l) -> (d < length (devs (d_hw st)))%nat ->
  (forall dev v m, devs (d_hw st) !! d = Some dev -> priv dev = Some v -> m ∈ mmaps v -> m_va m <> s_va x) ->
  acapd_device_attach_shm d s st = Ret va st1 -> va <> 0 ->
  acapd_device_detach_shm d s st1 = Ret r st2 -> 0 <= r ->
  shms st2 = shms st /\ devs (d_hw st2) = devs (d_hw st) /\ ring (links st2) (RefsOf s) (NodeOf <$> l).
Proof.
  intros Ha Hn Hx Hin Hlt Hfresh Hat Hva Hde Hr. destruct (lookup_lt_is_Some_2 _ _ Hlt) as [dev Hd].
  pose proof Ha as (x' & Hx' & Hring & Hc & Hl). rewrite Hx in Hx'. injection Hx' as <-.
  destruct (wp_returns _ _ _ _ _ _ (attach_wp st s d l x dev Ha Hn Hx Hd) Hat)
    as [(? & _)|[(_ & ? & _)|(_ & _ & Hre & dev1 & Hm & Hh)]]; [done..|].
  destruct (relinked_outcome st st1 s x l (l ++ [d]) d dev1 (AttachTo d) Ha Hn Hre Hh Hlt) as (Hn1 & Hlen & _).
  { intros e. rewrite elem_of_app, list_elem_of_singleton. intros [?|?]; [by left|right; by subst]. }
  set (x1 := x <| s_refcount := Z.of_nat (length (l ++ [d])) |>) in *. destruct Hre as (Hs1 & Hr1 & _).
  assert (Hx1 : shms st1 !! s = Some x1) by (rewrite Hs1; apply lookup_insert_eq).
  assert (Ha1 : attachments st1 s (l ++ [d])).
  { exists x1. split_and!; [done..|]. rewrite Hlen. by apply Forall_app; split; [|apply Forall_singleton]. }
  assert (Hd1 : devs (d_hw st1) !! d = Some dev1) by (by rewrite Hh, list_lookup_insert_eq).
  destruct (wp_returns _ _ _ _ _ _ (detach_wp st1 s d (l ++ [d]) x1 dev1 Ha1 Hn1 Hx1 Hd1) Hde)
    as [(Hnot & _)|[(_ & ? & _)|(_ & l1 & l2 & El & (Hs2 & Hr2 & _) & dev2 & Hu & Hh2)]]; [|lia|].
  { destruct Hnot. apply elem_of_app. right. by apply list_elem_of_singleton. }
  apply snoc_middle in El as [-> ->]; [|done]. rewrite app_nil_r in Hs2, Hr2.
  split_and!; [| |done].
  - rewrite Hs2, Hs1, insert_insert_eq. apply insert_id. rewrite Hx. unfold x1. destruct x. cbn in *. by rewrite Hc.
  - rewrite Hh2, Hh, list_insert_insert_eq. apply list_insert_id.
    rewrite (mapped_unmapped dev dev1 dev2 (s_va x)); [done..|]. intros v m. by apply Hfresh.
Qed.
End ShmSpec.

(** *** Witnesses *)

(** Two VFIO devices with registers at different places, one shared memory. *)
Definition shm_device (base : Z) : acapd_device :=
  device0 <| refs := 1 |> <| va := Some base |> <| dops := Some vfio_dev_ops |>
    <| priv := Some (Vfio 3 3 4 [VfioMmap 0x50000 0x1000 0x1000]) |>.
Definition self (n : ref) : acapd_list ref := Links n n.
Definition shm_board : dm unit :=
  Dm (Hw [shm_device 0x70000; shm_device 0x80000] device0 device0 tt)
     {[ 0%nat := Shm 0x20000 0x1000 0x22 0 0 ]}
     {[ RefsOf 0 := self (RefsOf 0); NodeOf 0 := self (NodeOf 0); NodeOf 1 := self (NodeOf 1) ]}.
Definition tx_chnl (mx : Z) : acapd_chnl := Chnl (Some 0%nat) 0 (Some ACAPD_DMA_DEV_W) true (Some mcdma_vfio_dma_ops) mx.

Definition dm_after {A} (m : M (dm unit) A) (s : dm unit) : dm unit := match m s with Ret _ s' => s' | Fault _ => s end.

Lemma shm_board_attachments : attachments shm_board 0 [].
Proof.
  eexists. split; [reflexivity|]. split; [|by split]. split; [apply NoDup_singleton|]. by vm_compute.
Qed.
Lemma shm_board_ready : nodes_ready shm_board.
Proof. split; [|by vm_compute]. intros [|[|d]] Hd; [by eexists..|simpl in Hd; lia]. Qed.

Lemma transfer_range_checked_witness :
  let c := tx_chnl 0x1000 in let cfg := acapd_dma_init_config (Some 0%nat) 0x20800 0x900 0 in
  ~ in_range (Shm 0x20000 0x1000 0x22 0 0) 0x20800 0x900 /\
  acapd_dma_transfer c cfg shm_board = Ret (- EINVAL) shm_board.
Proof.
  assert (Hout : ~ in_range (Shm 0x20000 0x1000 0x22 0 0) 0x20800 0x900) by (unfold in_range; simpl; lia).
  split; [exact Hout|].
  apply (transfer_range_checked (tx_chnl 0x1000) mcdma_vfio_dma_ops
           (acapd_dma_init_config (Some 0%nat) 0x20800 0x900 0) 0 (Shm 0x20000 0x1000 0x22 0 0) shm_board);
    [reflexivity|reflexivity|reflexivity|cbn; lia..|exact Hout].
Defined.

(** A board that logs the stores to its registers: three descriptors. *)
#[local] Instance log_env : Env (list (Z * Z)) :=
  poked_env (fun _ => sample_files) (fun _ => sample_dirs) (fun a v w => w ++ [(a, v)]).
Definition log_board : dm (list (Z * Z)) :=
  Dm (Hw (devs (d_hw shm_board)) device0 device0 []) (shms shm_board) (links shm_board).

Lemma mcdma_descriptors_cover_buffer_witness :
  exists st', mcdma_descs BD_FUEL 0 (tx_chnl 0x1000) 0x7000000 0x2800 0 0x1000 0x2000 log_board = Ret 0x1080 st' /\
    hw_world (d_hw st') =
      [ (0x20000, 0x1040); (0x20004, 0); (0x20008, 0x2000); (0x2000C, 0); (0x20014, 0xC0001000); (0x20018, 0x7000000);
        (0x20040, 0x1080); (0x20044, 0); (0x20048, 0x3000); (0x2004C, 0); (0x20054, 0xC0001000); (0x20058, 0x7000000);
        (0x20080, 0x1080); (0x20084, 0); (0x20088, 0x4000); (0x2008C, 0); (0x20094, 0xC0000800); (0x20098, 0x7000000) ].
Proof.
  eexists. split.
  - apply (mcdma_descriptors_cover_buffer (tx_chnl 0x1000) 0 (Shm 0x20000 0x1000 0x22 0 0) 0x7000000 0x2800 0x2000 0x1000
             log_board); change (bd_count (max_buf_size (tx_chnl 0x1000)) 0x2800) with 3%nat;
      [reflexivity|discriminate|first [reflexivity|cbn; lia]..].
  - vm_compute. reflexivity.
Defined.

Lemma refcount_counts_attachments_witness :
  exists l', attachments (dm_after (for_each (run_shm_op 0) [AttachTo 0; AttachTo 1; DetachFrom 0]) shm_board) 0 l' /\
    s_refcount <$> (shms (dm_after (for_each (run_shm_op 0) [AttachTo 0; AttachTo 1; DetachFrom 0]) shm_board) !! 0%nat) = Some 1.
Proof.
  pose proof (refcount_counts_attachments 0 [AttachTo 0; AttachTo 1; DetachFrom 0] shm_board []
    shm_board_attachments shm_board_ready ltac:(repeat constructor)) as Hrun.
  unfold dm_after. unfold wp in Hrun.
  destruct (for_each (run_shm_op 0) [AttachTo 0; AttachTo 1; DetachFrom 0] shm_board) as [[] st'|] eqn:E; [|destruct Hrun].
  destruct Hrun as (l' & Ha & _). exists l'. split; [exact Ha|].
  assert (Hst : st' = dm_after (for_each (run_shm_op 0) [AttachTo 0; AttachTo 1; DetachFrom 0]) shm_board)
    by (unfold dm_after; rewrite E; reflexivity).
  rewrite Hst. vm_compute. reflexivity.
Defined.

Lemma detach_undoes_attach_witness :
  let st1 := dm_after (acapd_device_attach_shm 0 0) shm_board in
  let st2 := dm_after (acapd_device_detach_shm 0 0) st1 in
  (length <$> (mmaps <$> ((devs (d_hw st1) !! 0%nat) ≫= priv))) = Some 2%nat /\
  shms st2 = shms shm_board /\ devs (d_hw st2) = devs (d_hw shm_board) /\ ring (links st2) (RefsOf 0) (NodeOf <$> []).
Proof.
  intros st1 st2. split; [vm_compute; reflexivity|].
  apply (detach_undoes_attach shm_board 0 0 [] (Shm 0x20000 0x1000 0x22 0 0) 0x20000 st1 0 st2
           shm_board_attachments shm_board_ready);
    [reflexivity|apply not_elem_of_nil|simpl; lia| |vm_compute; reflexivity|discriminate|vm_compute; reflexivity|lia].
  intros dev v m [= <-] [= <-] Hm%list_elem_of_singleton. subst m. discriminate.
Defined.

(** *** What the descriptor page allows *)

(** A transfer of more than 64 pieces writes past the descriptor page. *)
Lemma long_transfer_overruns : mcdma_vfio_dma_transfer (tx_chnl 0x10)
  (acapd_dma_init_config None 0x50000 0x401 0) shm_board = Fault OutOfBounds.
Proof. vm_compute. reflexivity. Qed.

(** So does any transfer of a channel whose [max_buf_size] was never set: no
    descriptor takes a byte. *)
Lemma zero_buf_size_overruns : mcdma_vfio_dma_transfer (tx_chnl 0)
  (acapd_dma_init_config None 0x50000 0x10 0) shm_board = Fault OutOfBounds.
Proof. vm_compute. reflexivity. Qed.

(** After a transfer the device's node still points at the head of the list of
    the local [bd_shm], which is gone: detaching the device from any shared memory that
    was attached in between writes to it. *)
Lemma transfer_leaves_dangling_node :
  let st := dm_after (mcdma_vfio_dma_transfer (tx_chnl 0x1000) (acapd_dma_init_config None 0x50000 0x800 0)) shm_board in
  (next <$> links st !! NodeOf 0) = Some (RefsOf 1) /\ links st !! RefsOf 1 = None.
Proof. vm_compute. done. Qed.
