(* ===== verification/ServerSpec.v ===== *)
(** * What the server promises

    The main loop keeps the invariant of the daemon and its own (the descriptors
    it watches fit an [fd_set]); it faults only in requests or for a descriptor
    that does not fit; and it serves the ready descriptors in ascending order. *)
From Stdlib Require Import Sorted.
From stdpp Require Import gmap fin_sets.
From S2P Require Import Prelude CStr Env Model Registry Events Listing Proto Invariant RequestSafe StartSafe EventsSafe Sample Reach Server.
Open Scope Z_scope.
Open Scope dfx_scope.

Section ServerSpec.
Context {W : Type} `{Env W} `{Net W}.
Implicit Types (s : server W) (m : hw W).

(** The listening socket is watched, and every watched descriptor is within
    [fdmax], which is within an [fd_set]. *)
Record conns_ok s : Prop := {
  co_listen : socket_d s ∈ fds s;
  co_range : forall fd, fd ∈ fds s -> 0 <= fd <= fdmax s;
  co_max : fdmax s < FD_SETSIZE;
}.

(** From [s] to [s'], the loop only goes on: the same socket, no smaller [fdmax]. *)
Definition grown s s' : Prop := socket_d s' = socket_d s /\ fdmax s <= fdmax s'.
Lemma grown_refl s : grown s s.
Proof. split; [done|lia]. Qed.
Lemma grown_trans s1 s2 s3 : grown s1 s2 -> grown s2 s3 -> grown s1 s3.
Proof. intros [E1 L1] [E2 L2]. split; [congruence|lia]. Qed.

Lemma conns_same s s' : fds s' = fds s -> socket_d s' = socket_d s -> fdmax s' = fdmax s -> conns_ok s -> conns_ok s'.
Proof. intros E1 E2 E3 [Hl Hr Hm]. by split; rewrite ?E1, ?E2, ?E3. Qed.

Lemma conns_drop s s' fd : fds s' = fds s ∖ {[ fd ]} -> socket_d s' = socket_d s -> fdmax s' = fdmax s ->
  fd <> socket_d s -> conns_ok s -> conns_ok s'.
Proof.
  intros E1 E2 E3 Hne [Hl Hr Hm]. split; rewrite ?E1, ?E2, ?E3; [|by intros k [Hk%Hr _]%elem_of_difference|done].
  apply elem_of_difference. rewrite elem_of_singleton. by split; [|intros <-].
Qed.

Lemma conns_add s s' fd : fds s' = {[ fd ]} ∪ fds s -> socket_d s' = socket_d s ->
  fdmax s' = (if fdmax s <? fd then fd else fdmax s) -> 0 <= fd < FD_SETSIZE -> conns_ok s -> conns_ok s'.
Proof.
  intros E1 E2 E3 Hfd [Hl Hr Hm]. split; rewrite ?E1, ?E2, ?E3; [apply elem_of_union; by right| |].
  - intros k [->%elem_of_singleton|Hk%Hr]%elem_of_union; destruct (Z.ltb_spec (fdmax s) fd); lia.
  - destruct (Z.ltb_spec (fdmax s) fd); lia.
Qed.

(** ** Serving one descriptor

    [P]: what the requests keep of the daemon, whatever the world does between
    them; [F]: the faults they may stop with. *)
Section Serve.
Context (P : sys W -> Prop) (F : fault -> Prop).
Hypothesis Pworld : forall h x, P x -> P (Sys (dm x) h).
Hypothesis Preq : forall msg x, P x -> wp F (process_dfx_req msg) (fun _ => P) x.
Hypothesis Fset : F OutOfBounds \/ forall d w, -1 <= (accept_ d w).1 < FD_SETSIZE.

Definition going s s' : Prop := conns_ok s' /\ grown s s' /\ P (srv s').

Lemma wp_net {A} (a : M W A) Q s :
  always F a -> P (srv s) -> (forall x h, P (srv (s <| srv := Sys (dm (srv s)) h |>)) -> Q x (s <| srv := Sys (dm (srv s)) h |>)) ->
  wp F (net a) Q s.
Proof.
  intros Ha HP HQ. unfold net, in_srv, env, in_hw, in_world. apply wp_zoom, wp_zoom, wp_zoom.
  eapply wp_mono; [apply Ha|]. intros x w _. apply HQ. by apply Pworld.
Qed.

Lemma wp_net_act {A} (f : W -> A * W) Q s :
  P (srv s) -> (forall w h, P (Sys (dm (srv s)) h) -> Q (f w).1 (s <| srv := Sys (dm (srv s)) h |>)) ->
  wp F (net (act f)) Q s.
Proof.
  intros HP HQ. unfold net, in_srv, env, in_hw, in_world. apply wp_zoom, wp_zoom, wp_zoom, wp_act.
  apply HQ. by apply (Pworld _ (srv s)).
Qed.

Lemma drop_wp fd s : conns_ok s -> P (srv s) -> fd <> socket_d s -> wp F (drop_connection fd) (fun _ s' => going s s') s.
Proof.
  intros Hs HP Hne. apply wp_bind, wp_net; [apply always_act_|done|]. intros [] h HP'. apply wp_modify.
  split; [by apply (conns_drop s _ fd)|]. split; [split; cbn; [done|lia]|exact HP'].
Qed.

Lemma serve_connection_wp fd s : conns_ok s -> P (srv s) -> fd <> socket_d s ->
  wp F (serve_connection fd) (fun _ s' => going s s') s.
Proof.
  intros Hs HP Hne. apply wp_bind, wp_net; [apply always_act|done|]. intros [msg|] h HP'.
  - apply wp_bind, wp_zoom. eapply wp_mono; [by apply Preq|]. intros [r|] x Hx.
    + apply wp_net; [apply always_act_|done|]. intros [] h' Hx'. split; [by apply (conns_same s)|]. split; [split; cbn; [done|lia]|done].
    + eapply wp_mono; [apply drop_wp; [by apply (conns_same s)|done|done]|]. intros [] s' (? & ? & ?). split_and!; [done|by eapply grown_trans|done].
  - eapply wp_mono; [apply drop_wp; [by apply (conns_same s)|done|done]|]. intros [] s' (? & ? & ?). split_and!; [done|by eapply grown_trans|done].
Qed.

Lemma accept_wp s : conns_ok s -> P (srv s) -> wp F accept_connection (fun _ s' => going s s') s.
Proof.
  intros Hs HP. apply wp_bind, wp_get, wp_bind, wp_net_act; [done|]. intros w h HP1.
  set (s1 := s <| srv := Sys (dm (srv s)) h |>). assert (Hs1 : conns_ok s1) by (by apply (conns_same s)).
  destruct (Z.eqb_spec (accept_ (socket_d s) w).1 (-1)) as [He|He].
  { apply wp_ret. split; [done|]. split; [split; cbn; [done|lia]|done]. }
  apply wp_bind. unfold FD_SET. apply wp_bind, wp_guard.
  - intros [Hlo%Z.leb_le Hhi%Z.ltb_lt]%andb_true_iff. apply wp_ret, wp_bind, wp_modify, wp_ret.
    split; [by apply (conns_add s1 _ (accept_ (socket_d s) w).1)|]. split; [|done]. split; cbn; [done|]. destruct (Z.ltb_spec (fdmax s) (accept_ (socket_d s) w).1); lia.
  - intros Hb. destruct Fset as [?|Hacc]; [done|]. specialize (Hacc (socket_d s) w).
    apply andb_false_iff in Hb as [Hb%Z.leb_gt|Hb%Z.ltb_ge]; lia.
Qed.

Lemma serve_fd_wp fd s : conns_ok s -> P (srv s) -> wp F (serve_fd fd) (fun _ s' => going s s') s.
Proof.
  intros Hs HP. apply wp_bind, wp_get. destruct (Z.eqb_spec fd (socket_d s)); [by apply accept_wp|].
  apply wp_bind. eapply wp_mono; [by apply serve_connection_wp|]. intros [] s' ?. by apply wp_ret.
Qed.

(** The loop never runs out of turns. *)
Lemma scan_wp fuel readfds : forall fd s, conns_ok s -> P (srv s) -> FD_SETSIZE - fd <= Z.of_nat fuel ->
  wp F (scan_fds fuel readfds fd) (fun _ s' => going s s') s.
Proof.
  induction fuel as [|fuel IH]; intros fd s Hs HP Hf; cbn [scan_fds]; apply wp_bind, wp_get; pose proof (co_max s Hs);
    destruct (Z.ltb_spec fd (fdmax s + 1)); try lia.
  - apply wp_ret. by split; [|split; [apply grown_refl|]].
  - apply (wp_seq _ (fun _ s' => going s s')).
    + destruct (bool_decide _); [by apply serve_fd_wp|]. apply wp_ret. by split; [|split; [apply grown_refl|]].
    + intros r s' (Hs' & Hg & HP'). destruct r; [apply wp_ret; by split|].
      eapply wp_mono; [apply IH; [done|done|lia]|]. intros r s2 (? & ? & ?). split_and!; [done|by eapply grown_trans|done].
  - apply wp_ret. by split; [|split; [apply grown_refl|]].
Qed.

Lemma round_wp s : conns_ok s -> P (srv s) -> wp F server_round (fun _ s' => going s s') s.
Proof.
  intros Hs HP. apply wp_bind, wp_get, wp_bind, wp_net; [apply always_act|done|]. intros [ready|] h HP'.
  - eapply wp_mono; [apply scan_wp; [by apply (conns_same s)|done|unfold FD_SETSIZE; lia]|].
    intros r s' (? & ? & ?). split_and!; [done|by eapply grown_trans|done].
  - apply wp_bind, wp_net; [apply always_look|done|]. intros again h' HP2. apply wp_ret.
    split; [by apply (conns_same s)|]. split; [split; cbn; [done|lia]|done].
Qed.
End Serve.

(** ** The order of service *)

(** The ready descriptors from [fd] on, in ascending order. *)
Definition ready_list (readfds : gset Z) (fd : Z) : list Z :=
  filter (fun k => k ∈ readfds) (seqZ fd (FD_SETSIZE - fd)).

Lemma ready_list_next readfds fd : fd < FD_SETSIZE ->
  ready_list readfds fd = (if bool_decide (fd ∈ readfds) then [fd] else []) ++ ready_list readfds (fd + 1).
Proof.
  intros Hfd. unfold ready_list. rewrite seqZ_cons by lia. rewrite filter_cons.
  replace (Z.pred (FD_SETSIZE - fd)) with (FD_SETSIZE - (fd + 1)) by lia. rewrite <- Z.add_1_r.
  destruct (decide (fd ∈ readfds)); [by rewrite bool_decide_eq_true_2|by rewrite bool_decide_eq_false_2].
Qed.

Lemma ready_list_past readfds fd n : (forall k, k ∈ readfds -> k <= n) -> n < fd -> ready_list readfds fd = [].
Proof.
  intros Hn Hfd. unfold ready_list. apply list.nil_length_inv. 
  destruct (filter _ _) as [|k l] eqn:E; [done|]. assert (k ∈ k :: l) as Hk by by left. rewrite <- E in Hk.
  apply list_elem_of_filter in Hk as [Hr Hs]. apply elem_of_seqZ in Hs. specialize (Hn k Hr). lia.
Qed.

Lemma seqZ_sorted n k : StronglySorted Z.lt (seqZ k (Z.of_nat n)).
Proof.
  revert k. induction n as [|n IH]; intros k; [rewrite seqZ_nil by lia; constructor|].
  rewrite seqZ_cons by lia. replace (Z.pred (Z.of_nat (S n))) with (Z.of_nat n) by lia. constructor; [done|].
  apply Forall_forall. intros x Hx%elem_of_seqZ. lia.
Qed.

Lemma scan_eq readfds fuel : forall fd s, conns_ok s -> (forall k, k ∈ readfds -> k <= fdmax s) ->
  FD_SETSIZE - fd <= Z.of_nat fuel -> scan_fds fuel readfds fd s = for_ret serve_fd (ready_list readfds fd) s.
Proof.
  induction fuel as [|fuel IH]; intros fd s Hs Hr Hf; cbn [scan_fds]; unfold bind at 1, get; pose proof (co_max s Hs);
    destruct (Z.ltb_spec fd (fdmax s + 1)); try lia; try (by rewrite (ready_list_past _ _ (fdmax s)) by (done || lia)).
  rewrite ready_list_next by lia. case_bool_decide as Hin; cbn [app for_ret].
  - pose proof (serve_fd_wp (fun _ => True) any_fault ltac:(done) ltac:(intros; unfold wp; by destruct (process_dfx_req _ _))
      ltac:(by left) fd s Hs ltac:(done)) as Hw.
    unfold bind. unfold wp in Hw. destruct (serve_fd fd s) as [[e|] s'|f]; [done| |done].
    destruct Hw as (Hs' & [_ Hg] & _). apply IH; [done|intros k Hk; specialize (Hr k Hk); lia|lia].
  - unfold bind, ret. apply IH; [done|done|lia].
Qed.

(** C17: a turn of the daemon's loop serves exactly the descriptors that
    [select()] left in the set, each once, in ascending order, until one makes the
    daemon exit: although [fdmax] and the set of connections change under the
    loop, it does what a loop over the sorted list of ready descriptors does. *)
Theorem round_serves_ready_in_order s readfds :
  conns_ok s -> readfds ⊆ fds s ->
  scan_fds (Z.to_nat FD_SETSIZE) readfds 0 s = for_ret serve_fd (ready_list readfds 0) s /\
  StronglySorted Z.lt (ready_list readfds 0) /\ forall fd, fd ∈ ready_list readfds 0 <-> fd ∈ readfds.
Proof.
  intros Hs Hsub. split; [|split].
  - apply scan_eq; [done| |unfold FD_SETSIZE; lia]. intros k Hk. by apply (co_range s Hs), Hsub.
  - unfold ready_list. rewrite Z.sub_0_r. generalize (seqZ_sorted (Z.to_nat FD_SETSIZE) 0).
    rewrite Z2Nat.id by done. generalize (seqZ 0 FD_SETSIZE). induction 1 as [|k l Hl IH Hk]; [constructor|].
    rewrite filter_cons. destruct (decide _); [|done]. constructor; [done|].
    rewrite Forall_forall in *. intros x [_ Hx]%list_elem_of_filter. by apply Hk.
  - intros fd. unfold ready_list. rewrite list_elem_of_filter, elem_of_seqZ. split; [by intros [? _]|].
    intros Hin. split; [done|]. pose proof (co_range s Hs fd (Hsub fd Hin)). pose proof (co_max s Hs). lia.
Qed.

(** ** The daemon's states *)

Inductive serving m : server W -> Prop :=
  | serving_start s x : server_start (boot m) = Ret (inr s) x -> serving m s
  | serving_round s s' : serving m s -> server_round s = Ret None s' -> serving m s'
  | serving_event e go s x :
      serving m s -> tracked (dm (srv s)) e = true -> handle_event e (srv s) = Ret go x ->
      calm (dm (srv s)) (dm x) = true -> firmware_rescan_pending (dm x) = false -> serving m (s <| srv := x |>)
  | serving_world s h : serving m s -> serving m (s <| srv := Sys (dm (srv s)) h |>).

Lemma request_walked m (F : fault -> Prop) msg x :
  (forall f, process_dfx_req msg x = Fault f -> F f) -> walked m x ->
  wp F (process_dfx_req msg) (fun _ => walked m) x.
Proof.
  intros HF Hx. unfold wp. destruct (process_dfx_req msg x) as [r x'|f] eqn:E; [by eapply walked_request|by apply HF].
Qed.

Lemma start_ok m s x : server_start (boot m) = Ret (inr s) x -> conns_ok s /\ walked m (srv s).
Proof.
  intros E. unfold server_start, bind at 1 in E. destruct (dfx_init (boot m)) as [[] x1|] eqn:E1; [|done].
  assert (Hw : wp any_fault (let! r := env listening_socket in
      match r with inr e => ret (inl e) | inl fd => let! l := FD_SET fd ∅ in let! x := get in ret (inr (Server x fd l fd)) end)
    (fun r _ => forall s, r = inr s -> conns_ok s /\ walked m (srv s)) x1).
  { apply wp_bind, wp_zoom, wp_zoom. unfold wp at 1. destruct (listening_socket _) as [[fd|e] w|]; [|by apply wp_ret|done].
    apply wp_bind. unfold FD_SET. apply wp_bind, wp_guard; [|done]. intros [Hlo%Z.leb_le Hhi%Z.ltb_lt]%andb_true_iff.
    apply wp_ret, wp_bind, wp_get, wp_ret. intros s' [= <-]. split.
    - split; cbn; [set_solver| |done]. intros k Hk. rewrite union_empty_r_L in Hk. apply elem_of_singleton in Hk as ->. lia.
    - cbn. apply (walked_world m _ x1). by apply boot_walked. }
  by apply (wp_returns _ _ _ _ _ _ Hw E).
Qed.

Lemma main_loop_ok m s : serving m s -> conns_ok s /\ walked m (srv s).
Proof.
  induction 1 as [s x E|s s' _ [Hs Hr] E|e go s x _ [Hs Hr] Ht E Hc Hp|s h _ [Hs Hr]]; [by eapply start_ok| | |].
  - pose proof (round_wp (walked m) any_fault ltac:(intros; by apply walked_world)
      ltac:(intros; by apply request_walked) ltac:(by left) s Hs Hr) as Hw.
    destruct (wp_returns _ _ _ _ _ _ Hw E) as (? & _ & ?). done.
  - split; [by apply (conns_same s)|]. split; [|exact Hp]. eapply reach_event; [apply Hr|exact Ht|exact E|exact Hc].
  - split; [by apply (conns_same s)|by apply walked_world].
Qed.

(** C15: Whatever the clients and the world do, and whatever file-system events
    come between its turns, if they are [tracked] (they forget no base that was
    loaded from, has AIE slots or whose free accelerators keep a path, misread no
    base, give no user load a package), do not change the type or a number of
    slots of a base that has a slot array ([calm]), and leave no walk due: the
    daemon's main loop keeps its descriptors in order (the listening socket is
    watched, every connection is between 0 and [fdmax], and [fdmax] within an
    [fd_set]), and the daemon is in a state that its requests and events reach,
    [walked], so that every theorem about [reachable] states holds between any two
    turns of the loop. *)
Theorem main_loop_invariant m s : serving m s -> conns_ok s /\ walked m (srv s).
Proof. apply main_loop_ok. Qed.

(** C16: a turn of the loop stops with a fault only where a request does, in a
    reachable state: the loop itself neither leaves an [fd_set] nor goes through a
    NULL pointer nor runs forever, as long as [accept()] returns descriptors that
    an [fd_set] holds. *)
Theorem round_faults_in_requests m s f :
  serving m s -> (forall d w, -1 <= (accept_ d w).1 < FD_SETSIZE) -> server_round s = Fault f ->
  exists msg x, walked m x /\ process_dfx_req msg x = Fault f /\ f <> NullDeref /\ f <> OutOfBounds.
Proof.
  intros Hv Hacc E. destruct (main_loop_ok m s Hv) as [Hs Hr].
  destruct (wp_faults _ _ _ _ _ (round_wp (walked m) (fun f => exists msg x, walked m x /\ process_dfx_req msg x = Fault f)
    ltac:(intros; by apply walked_world) ltac:(intros; apply request_walked; eauto) ltac:(by right) s Hs Hr) E)
    as (msg & x & Hx & Hf).
  exists msg, x. split_and!; [done|done|..]; intros ->;
    by destruct (wp_faults _ _ _ _ _ (process_ready msg x (walked_ready m x Hx)) Hf).
Qed.
End ServerSpec.

(** *** Witnesses *)

(** A client that connects as often as it can and always sends [m]. *)
Definition one_client (m : message) : Net unit := {|
  getpid _ := 1;
  socket_ w := (3, w);
  bind_ _ _ w := (0, w);
  listen_ _ _ w := (0, w);
  accept_ _ w := (4, w);
  select_ _ w := (Some (fun _ => true), w);
  eintr _ := false;
  recv_ _ w := (Some m, w);
  send_ _ _ w := w;
|}.
(** The server after its start, and after the first connection. *)
Definition server_at (n : nat) (m : message) : server unit :=
  let net := one_client m in
  match server_start (boot board) with
  | Ret (inr s) _ =>
      match n with O => s | S _ => match server_round s with Ret _ s' => s' | Fault _ => s end end
  | _ => Server (boot board) 0 ∅ 0
  end.

Lemma server_at_serving n m : serving (H0 := one_client m) board (server_at n m).
Proof.
  assert (H0 : serving (H0 := one_client m) board (server_at 0 m)).
  { eapply (serving_start (H0 := one_client m)). vm_compute. reflexivity. }
  destruct n as [|n]; [exact H0|]. eapply (serving_round (H0 := one_client m)); [exact H0|]. vm_compute. reflexivity.
Qed.

Lemma main_loop_invariant_witness :
  fds (server_at 1 message0) = {[ 3; 4 ]} /\ conns_ok (server_at 1 message0) /\ walked board (srv (server_at 1 message0)).
Proof.
  split; [vm_compute; reflexivity|].
  exact (main_loop_invariant (H0 := one_client message0) board _ (server_at_serving 1 message0)).
Defined.

Lemma round_serves_ready_in_order_witness :
  let s := server_at 1 message0 in
  scan_fds (H0 := one_client message0) (Z.to_nat FD_SETSIZE) {[ 3; 4 ]} 0 s =
  for_ret (serve_fd (H0 := one_client message0)) [3; 4] s.
Proof.
  intros s.
  destruct (main_loop_ok (H0 := one_client message0) board _ (server_at_serving 1 message0)) as [Hs _].
  assert (E : ready_list {[ 3; 4 ]} 0 = [3; 4]) by (vm_compute; reflexivity).
  rewrite <- E. apply (round_serves_ready_in_order (H0 := one_client message0) s {[ 3; 4 ]} Hs).
  vm_compute. intros x Hx. exact Hx.
Defined.

Lemma round_faults_in_requests_witness :
  let m := request LOAD_ACCEL "" in
  server_round (H0 := one_client m) (server_at 1 m) = Fault NullArg /\
  exists msg x, walked board x /\ process_dfx_req msg x = Fault NullArg.
Proof.
  intros m. assert (E : server_round (H0 := one_client m) (server_at 1 m) = Fault NullArg) by (vm_compute; reflexivity).
  split; [exact E|].
  destruct (round_faults_in_requests (H0 := one_client m) board _ _ (server_at_serving 1 m)
              ltac:(intros d w; simpl; split; [discriminate|reflexivity]) E) as (msg & x & Hx & Hf & _).
  exists msg, x. split; [exact Hx|exact Hf].
Defined.
