(* ===== verification/BareSpec.v ===== *)
(** * The two AXI DMA drivers

    The bare-metal driver against the VFIO one: on a device that both layers
    have open at the same registers, their operations make the same register
    accesses, in the same order, with the same results. *)
From S2P Require Import Prelude CStr Env Model Device Dma Shm Bare Sample.
Open Scope Z_scope.
Open Scope dfx_scope.

Section BareSpec.
Context {W : Type} `{Env W} `{Board W}.
Variables (d : nat) (v0 : Z).
Implicit Types (h : hw W) (g : bare W).

(** Device [d] on both sides: open, at the same registers, with the same number of
    users; the address [v0] is its own device address under VFIO. *)
Record twin h g : Prop := {
  tw_world : hw_world h = b_world g;
  tw_dev : exists x y p base, devs h !! d = Some x /\ gdevs g !! d = Some y /\
    va x = Some base /\ g_va y = base /\ base <> 0 /\
    dops x = Some vfio_dev_ops /\ g_ops y = true /\ priv x = Some p /\ g_priv y <> 0 /\
    refs x = g_refs y /\ va_to_da (mmaps p) v0 = u64 v0;
}.

(** The two runs end alike: the same result or the same fault, in twin states. *)
Definition agree {A} (m : M (hw W) A) (n : M (bare W) A) : Prop := forall h g, twin h g ->
  match m h, n g with
  | Ret a h', Ret b g' => a = b /\ twin h' g'
  | Fault f, Fault f' => f = f'
  | _, _ => False
  end.

Lemma agree_ret {A} (a : A) : agree (ret a) (ret a).
Proof. by intros h g Ht. Qed.
Lemma agree_crash {A} f : agree (crash f : M _ A) (crash f).
Proof. by intros h g Ht. Qed.
Lemma agree_bind {A B} (m : M (hw W) A) (n : M (bare W) A) (k : A -> M (hw W) B) (l : A -> M (bare W) B) :
  agree m n -> (forall a, agree (k a) (l a)) -> agree (bind m k) (bind n l).
Proof.
  intros Hm Hk h g Ht. specialize (Hm h g Ht). unfold bind.
  destruct (m h) as [a h'|f], (n g) as [b g'|f']; try done. destruct Hm as [-> Ht']. by apply Hk.
Qed.

Lemma twin_world h g w : twin h g -> twin (h <| hw_world := w |>) (g <| b_world := w |>).
Proof. intros [_ Hd]. by split. Qed.

Lemma agree_act {A} (f : W -> A * W) : agree (in_world (act f)) (on_board (act f)).
Proof.
  intros h g Ht. unfold in_world, on_board, zoom, act. rewrite (tw_world h g Ht).
  destruct (f (b_world g)) as [a w]. split; [done|]. by apply twin_world.
Qed.
Lemma agree_rd a : agree (rd a) (brd a).
Proof. apply agree_act. Qed.
Lemma agree_wr a v : agree (wr a v) (bwr a v).
Proof.
  intros h g Ht. unfold wr, bwr, in_world, on_board, zoom, act_, modify. rewrite (tw_world h g Ht).
  split; [done|]. by apply twin_world.
Qed.

Lemma agree_base c : cdev c = Some d -> agree (chnl_base c) (bchnl_base c).
Proof.
  intros Hc h g Ht. pose proof (tw_dev h g Ht) as (x & y & p & base & Hx & Hy & Hv & Hgv & Hne & _).
  unfold chnl_base, chnl_va, bchnl_base, chnl_dev, bchnl_dev, get_dev, get_gdev, bind, get. rewrite Hc. cbn. rewrite Hx, Hy. cbn.
  rewrite Hv, Hgv. apply Z.eqb_neq in Hne as ->. by split.
Qed.

Ltac agree_go :=
  repeat first [ apply agree_ret | apply agree_crash | apply agree_rd | apply agree_wr | by apply agree_base
               | apply agree_bind; [|intros ?]
               | lazymatch goal with |- agree (if ?b then _ else _) _ => destruct b end ].

Lemma stop_agrees c : cdev c = Some d -> agree (axidma_vfio_dma_stop c) (axidma_generic_stop c).
Proof. intros Hc. unfold axidma_vfio_dma_stop, axidma_generic_stop. agree_go. Qed.
Lemma poll_agrees c : cdev c = Some d -> agree (axidma_vfio_dma_poll c) (axidma_generic_poll c).
Proof. intros Hc. unfold axidma_vfio_dma_poll, axidma_generic_poll. agree_go. Qed.
Lemma reset_agrees c : cdev c = Some d -> agree (axidma_vfio_dma_reset c) (axidma_generic_reset c).
Proof. intros Hc. unfold axidma_vfio_dma_reset, axidma_generic_reset. agree_go. Qed.

(** Taking a reference, and the reset that the first user does. *)
Lemma get_agrees : agree (acapd_device_get d) (bare_device_get d).
Proof.
  intros h g Ht. pose proof (tw_dev h g Ht) as (x & y & p & base & Hx & Hy & Hv & Hgv & Hne & Ho & Hgo & Hp & Hgp & Hr & Hda).
  unfold acapd_device_get, bare_device_get, mod_dev, mod_gdev, get_dev, get_gdev, bind, get. rewrite Hx, Hy. cbn.
  rewrite Hp. apply Z.eqb_neq in Hgp as Hgp'. rewrite Hgp'. cbn. rewrite Hx, Hy. cbn. split; [done|].
  split; [apply Ht|]. eexists _, _, p, base. cbn.
  rewrite !list_lookup_insert_eq by (by eapply lookup_lt_Some). split_and!; try done. cbn. by rewrite Hr.
Qed.

Lemma wait_agrees fuel a : agree (wait_reset fuel a) (bare_wait_reset fuel a).
Proof. induction fuel as [|fuel IH]; simpl; [apply agree_crash|]. agree_go. exact IH. Qed.

Lemma get_dev_run h x : devs h !! d = Some x -> get_dev d h = Ret x h.
Proof. intros Hx. unfold get_dev, bind, get. by rewrite Hx. Qed.
Lemma get_gdev_run g y : gdevs g !! d = Some y -> get_gdev d g = Ret y g.
Proof. intros Hy. unfold get_gdev, bind, get. by rewrite Hy. Qed.

Lemma reset_wait_agrees : agree (axi_reset_and_wait d) (bare_reset_and_wait d).
Proof.
  intros h g Ht. pose proof (tw_dev h g Ht) as (x & y & p & base & Hx & Hy & Hv & Hgv & Hne & _).
  unfold axi_reset_and_wait, bare_reset_and_wait.
  rewrite (bind_Ret _ _ _ _ _ (get_dev_run h x Hx)), (bind_Ret _ _ _ _ _ (get_gdev_run g y Hy)), Hv, Hgv.
  apply Z.eqb_neq in Hne as ->.
  apply (agree_bind (wr (base + XAXIDMA_TX_OFFSET + XAXIDMA_CR_OFFSET) XAXIDMA_CR_RESET_MASK)
                    (bwr (base + XAXIDMA_TX_OFFSET + XAXIDMA_CR_OFFSET) XAXIDMA_CR_RESET_MASK)); [apply agree_wr| |done].
  intros []. apply wait_agrees.
Qed.

Lemma open_agrees c : cdev c = Some d -> agree (axidma_vfio_dma_open c) (axidma_generic_open c).
Proof.
  intros Hc h g Ht. unfold axidma_vfio_dma_open, axidma_generic_open, chnl_dev, bchnl_dev. rewrite Hc.
  apply (agree_bind (acapd_device_get d) (bare_device_get d)); [apply get_agrees| |done].
  intros r. destruct (r <? 0); [apply agree_ret|]. clear h g Ht. intros h g Ht.
  pose proof (tw_dev h g Ht) as (x & y & p & base & Hx & Hy & Hv & Hgv & Hne & Ho & Hgo & Hp & Hgp & Hr & _).
  rewrite (bind_Ret _ _ _ _ _ (get_dev_run h x Hx)), (bind_Ret _ _ _ _ _ (get_gdev_run g y Hy)), Hr.
  apply agree_bind; [|intros []; apply agree_ret|done]. destruct (g_refs y =? 1); [apply reset_wait_agrees|apply agree_ret].
Qed.

(** The bare-metal transfer is the VFIO one after the cache maintenance. *)
Definition cache_op (c : acapd_chnl) (cfg : acapd_dma_config) : W -> W :=
  if is_write c then Xil_DCacheFlushRange (cfg_va cfg) (cfg_size cfg)
  else Xil_DCacheInvalidateRange (cfg_va cfg) (cfg_size cfg).

Lemma transfer_agrees c cfg : cdev c = Some d -> cfg_va cfg = v0 -> u64 v0 <> u64 (-1) ->
  agree (in_world (act_ (cache_op c cfg)) ;; axidma_vfio_dma_transfer c cfg) (axidma_generic_transfer c cfg).
Proof.
  intros Hc Hva Hv1 h g Ht. set (h1 := h <| hw_world := cache_op c cfg (hw_world h) |>).
  set (g1 := g <| b_world := cache_op c cfg (b_world g) |>).
  assert (Ht1 : twin h1 g1) by (unfold h1; rewrite (tw_world h g Ht); by apply twin_world).
  pose proof (tw_dev h g Ht) as (x & y & p & base & Hx & Hy & Hv & Hgv & Hne & Ho & Hgo & Hp & Hgp & Hr & Hda).
  assert (Hx1 : devs h1 !! d = Some x) by done.
  assert (Eh : in_world (act_ (cache_op c cfg)) h = Ret tt h1) by done.
  assert (Eb : chnl_va c h1 = Ret (Some base) h1).
  { unfold chnl_va, chnl_dev. rewrite Hc. cbn [the]. change (bind (ret d) ?k) with (k d). cbv beta.
    by rewrite (bind_Ret _ _ _ _ _ (get_dev_run h1 x Hx1)), Hv. }
  assert (Ed : chnl_dev c h1 = Ret d h1) by (unfold chnl_dev; by rewrite Hc).
  assert (Ea : dev_va_to_da d (cfg_va cfg) h1 = Ret (u64 v0) h1).
  { unfold dev_va_to_da. rewrite (bind_Ret _ _ _ _ _ (get_dev_run h1 x Hx1)), Ho. unfold acapd_vfio_device_va_to_da.
    by rewrite (bind_Ret _ _ _ _ _ (get_dev_run h1 x Hx1)), Hp, Hva, Hda. }
  assert (Gb : bchnl_base c g = Ret base g).
  { unfold bchnl_base, bchnl_dev. rewrite Hc. cbn [the]. change (bind (ret d) ?k) with (k d). cbv beta.
    rewrite (bind_Ret _ _ _ _ _ (get_gdev_run g y Hy)), Hgv. by apply Z.eqb_neq in Hne as ->. }
  assert (Gd : bchnl_dev c g = Ret d g) by (unfold bchnl_dev; by rewrite Hc).
  assert (Go : acapd_assert (g_ops y) g = Ret tt g) by by rewrite Hgo.
  assert (Ga : sys_generic_device_va_to_da d (cfg_va cfg) g = Ret (u64 v0) g) by (by rewrite Hva).
  assert (Gf : on_board (act_ (cache_op c cfg)) g = Ret tt g1) by done.
  unfold axidma_generic_transfer. fold (cache_op c cfg).
  rewrite (bind_Ret _ _ _ _ _ Gb), (bind_Ret _ _ _ _ _ Gd), (bind_Ret _ _ _ _ _ (get_gdev_run g y Hy)),
    (bind_Ret _ _ _ _ _ Go), (bind_Ret _ _ _ _ _ Ga).
  rewrite (bind_Ret _ _ _ _ _ Eh). unfold axidma_vfio_dma_transfer.
  rewrite (bind_Ret _ _ _ _ _ Eb), (bind_Ret _ _ _ _ _ Ed), (bind_Ret _ _ _ _ _ Ea).
  apply Z.eqb_neq in Hv1 as ->. rewrite (bind_Ret _ _ _ _ _ Gf).
  change (bind (the NullDeref (Some base)) ?k) with (k base).
  cbv zeta. apply (agree_bind (rd _) (brd _)); [apply agree_rd| |exact Ht1]. intros v. agree_go.
Qed.

(** C36: the bare-metal AXI DMA driver is the VFIO driver: on a device open on
    both layers, where VFIO maps the data at its own address, a bare-metal
    transfer does what the VFIO transfer does after the cache maintenance of the
    data, and opening, stopping, polling and resetting a channel make the same
    register accesses in the same order, with the same results and faults. *)
Theorem axi_drivers_agree c cfg : cdev c = Some d -> cfg_va cfg = v0 -> u64 v0 <> u64 (-1) ->
  agree (in_world (act_ (cache_op c cfg)) ;; axidma_vfio_dma_transfer c cfg) (axidma_generic_transfer c cfg) /\
  agree (axidma_vfio_dma_open c) (axidma_generic_open c) /\
  agree (axidma_vfio_dma_stop c) (axidma_generic_stop c) /\
  agree (axidma_vfio_dma_poll c) (axidma_generic_poll c) /\
  agree (axidma_vfio_dma_reset c) (axidma_generic_reset c).
Proof.
  intros Hc Hva Hv0. split_and!; [by apply transfer_agrees|by apply open_agrees|by apply stop_agrees|
                                  by apply poll_agrees|by apply reset_agrees].
Qed.
End BareSpec.

(** *** Witness *)

#[export] Instance sample_board : Board unit := {|
  Xil_DCacheFlushRange _ _ w := w;
  Xil_DCacheInvalidateRange _ _ w := w;
  malloc_ _ w := (0x30000, w);
  free_ _ w := w;
  XFpga_Initialize w := (XST_SUCCESS, w);
  XFpga_PL_BitStream_Load _ w := (XFPGA_SUCCESS, w);
|}.

Definition twin_linux : hw unit :=
  Hw [device0 <| va := Some 0x70000 |> <| dops := Some vfio_dev_ops |> <| refs := 1 |>
        <| priv := Some (Vfio 3 3 4 [VfioMmap 0x10000 0x10000 0x1000]) |>] device0 device0 tt.
Definition twin_bare : bare unit := Bare [BareDevice 0x70000 0x70000 true 0x70000 1 None None 0 0] tt.

Lemma sample_twins : twin 0 0x10010 twin_linux twin_bare.
Proof. split; [done|]. eexists _, _, _, _. by split_and!. Qed.

Lemma axi_drivers_agree_witness :
  let c := Chnl (Some 0%nat) 0 (Some ACAPD_DMA_DEV_W) true (Some axidma_vfio_dma_ops) 0 in
  let cfg := acapd_dma_init_config None 0x10010 0x20 0 in
  axidma_generic_transfer c cfg twin_bare = Ret 0x20 twin_bare /\
  exists h, (in_world (act_ (cache_op c cfg)) ;; axidma_vfio_dma_transfer c cfg) twin_linux = Ret 0x20 h /\
    twin 0 0x10010 h twin_bare.
Proof.
  intros c cfg.
  assert (E : axidma_generic_transfer c cfg twin_bare = Ret 0x20 twin_bare) by (vm_compute; reflexivity).
  split; [exact E|].
  pose proof (proj1 (axi_drivers_agree 0 0x10010 c cfg eq_refl eq_refl ltac:(discriminate)) _ _ sample_twins) as Ha.
  rewrite E in Ha. destruct ((in_world _ ;; _) twin_linux) as [a h|f]; [|destruct Ha].
  destruct Ha as [-> Ht]. exists h. split; [reflexivity|exact Ht].
Defined.
