(* ===== verification/BareJsonSpec.v ===== *)
(** * What the bare-metal configuration readers promise

    The reader of the accelerator maps every device at its physical address; the
    reader of the shell reads past the tokens of any ordinary shell.json. *)
From S2P Require Import Prelude CStr Jsmn Env Model Device Dma Json Shm Bare BareJson BareSpec JsonText Sample.
Open Scope Z_scope.
Open Scope dfx_scope.

Section BareJsonSpec.
Context {W : Type} `{Env W} `{Board W} `{Image W}.
Variable jsmn : string -> Z * list jsmntok.
Implicit Types (s : bare W).

(** ** The shell *)

Lemma tok_at {St} ts i t (s : St) : ts !! i = Some t -> tok ts i s = Ret t s.
Proof. intros E. unfold tok. by rewrite E. Qed.

Lemma on_key_then {St A B} (P : outcome St B -> Prop) json ts i t key (f : jsmntok -> A -> A) a (k : A -> M St B) (s : St) :
  ts !! i = Some t -> (forall a', P (k a' s)) -> (ts !! S i = None -> P (Fault BadToken)) ->
  P (bind (on_key json ts i key f a) k s).
Proof.
  intros E HP HF. unfold on_key, bind, tok at 1. rewrite E. cbn [the ret].
  destruct (jsoneq json t key); [|apply HP]. unfold tok. destruct (ts !! S i) as [v|]; [apply HP|by apply HF].
Qed.

(** A turn of the shell's loop goes on, or stops because there is no next token;
    and on a last token that is not an object it stops. *)
Lemma bare_shell_turn json ts i t d s :
  ts !! i = Some t ->
  ((exists d', bare_shell_body json ts i d s = Ret (i, d') s) /\ (is_object t = false -> ts !! S i <> None)) \/
  (bare_shell_body json ts i d s = Fault BadToken /\ ts !! S i = None).
Proof.
  intros E. unfold bare_shell_body. rewrite (bind_Ret _ _ _ _ _ (tok_at _ _ _ _ E)).
  destruct (is_object t); [left; split; [by eexists|done]|].
  set (P := fun o : outcome (bare W) (nat * bare_device) =>
    ((exists d', o = Ret (i, d') s) /\ (false = false -> ts !! S i <> None)) \/ (o = Fault BadToken /\ ts !! S i = None)).
  do 3 (apply (on_key_then P _ _ _ t); [exact E|intros ?|by right]). subst P. cbv beta.
  destruct (ts !! S i) as [v|] eqn:Ev; [left|right].
  - rewrite (bind_Ret _ _ _ _ _ (tok_at _ _ _ _ Ev)). split; [by eexists|done].
  - unfold bind, tok. by rewrite Ev.
Qed.

Lemma bare_shell_overruns json ts t fuel i d s :
  last ts = Some t -> is_object t = false -> (i < length ts)%nat -> (length ts <= fuel + i)%nat ->
  token_loop fuel (Z.of_nat (length ts)) (bare_shell_body json ts) i d s = Fault BadToken.
Proof.
  intros Hl Ho. revert i d. induction fuel as [|fuel IH]; intros i d Hi Hf; [lia|]. cbn [token_loop].
  destruct (Z.ltb_spec (Z.of_nat i) (Z.of_nat (length ts))); [|lia].
  destruct (lookup_lt_is_Some_2 ts i Hi) as [x Hx].
  destruct (bare_shell_turn json ts i x d s Hx) as [[[d' Er] Hn]|[Er _]]; [|by unfold bind; rewrite Er].
  rewrite (bind_Ret _ _ _ _ _ Er). cbn [fst snd].
  destruct (decide (S i < length ts)%nat); [apply IH; lia|].
  rewrite last_lookup in Hl. replace (pred (length ts)) with i in Hl by lia.
  assert (x = t) as -> by congruence. destruct (Hn Ho). apply lookup_ge_None. lia.
Qed.

(** The bare-metal reader never gets through a shell.json whose last token is not
    an object: the unguarded assignment of reg_size reads a token that was never
    written. *)
Lemma bare_shell_json_never_read dev config ts t s :
  jsmn config = (Z.of_nat (length ts), ts) -> (1 < length ts)%nat -> last ts = Some t -> is_object t = false ->
  bare_parseShellJson jsmn dev config s = Fault BadToken.
Proof.
  intros Ej Hlen Hl Ho. unfold bare_parseShellJson. rewrite Ej. unfold bind, over_tokens.
  by rewrite (bare_shell_overruns config ts t) by (done || lia).
Qed.

(** ** The accelerator *)

Definition stops : fault -> Prop := eq BadToken.

Lemma wp_get_gdev F d Q s : (d < length (gdevs s))%nat -> (forall x, gdevs s !! d = Some x -> Q x s) -> wp F (get_gdev d) Q s.
Proof. intros [x Hx]%lookup_lt_is_Some_2 HQ. unfold wp. rewrite (get_gdev_run d s x Hx). by apply HQ. Qed.

Lemma wp_mod_gdev F d f Q s :
  (d < length (gdevs s))%nat -> (forall x, gdevs s !! d = Some x -> Q tt (s <| gdevs ::= <[d := f x]> |>)) ->
  wp F (mod_gdev d f) Q s.
Proof. intros Hd HQ. apply wp_bind, wp_get_gdev; [done|]. intros x Hx. by apply wp_modify, HQ. Qed.

Definition fitted (dma : nat) (c : bare_chnl) : Prop := b_generic_ops c = true /\ cdev (b_chnl c) = Some dma.

(** What the loop has built: devices and channels that exist. *)
Definition built (dma : nat) (a : bare_accel) s : Prop :=
  (dma < length (gdevs s))%nat /\ Forall (fun d => (d < length (gdevs s))%nat) (ba_ip_dev a) /\
  Forall (fitted dma) (ba_chnls a).

Lemma bare_read_devices_wp json ts k num s : wp stops (bare_read_devices json ts k num) (fun _ s' => s' = s) s.
Proof.
  revert k. induction num as [|num IH]; intros k; simpl; [by apply wp_ret|].
  apply (wp_seq _ (fun _ s' => s' = s)).
  - do 2 (apply (wp_seq _ (fun _ s' => s' = s)); [by apply wp_on_key|intros ? ? ->]). by apply wp_on_key.
  - intros x ? ->. apply (wp_seq _ (fun _ s' => s' = s)); [apply IH|]. intros r ? ->. by apply wp_ret.
Qed.

Lemma bare_read_chnls_wp json ts dma k num s :
  wp stops (bare_read_chnls json ts dma k num) (fun l s' => s' = s /\ Forall (fitted dma) l) s.
Proof.
  revert k. induction num as [|num IH]; intros k; simpl; [by apply wp_ret|].
  apply (wp_seq _ (fun c s' => s' = s /\ fitted dma c)).
  - do 2 (apply (wp_seq _ (fun _ s' => s' = s)); [by apply wp_on_key|intros ? ? ->]). by apply wp_ret.
  - intros c ? [-> Hc]. apply (wp_seq _ (fun l s' => s' = s /\ Forall (fitted dma) l)); [apply IH|].
    intros r ? [-> Hr]. apply wp_ret. split; [done|]. by constructor.
Qed.

Lemma bare_new_devs_wp F l dma a s :
  built dma a s ->
  wp F (bare_new_devs l) (fun ids s' => built dma a s' /\ Forall (fun d => (d < length (gdevs s'))%nat) ids) s.
Proof.
  intros (Hd & Hi & Hc). apply wp_bind, wp_get, wp_bind, wp_modify, wp_ret. unfold built. cbn.
  rewrite length_app. split; [split; [lia|]; split; [|done]|].
  - eapply Forall_impl; [exact Hi|]. cbn. lia.
  - apply Forall_forall. intros d Hd'%elem_of_seq. lia.
Qed.

Lemma bare_parse_devices_wp json ts dma i a s :
  built dma a s -> wp stops (bare_parse_devices json ts i a) (fun r s' => (i <= r.1)%nat /\ built dma r.2 s') s.
Proof.
  intros Hb. apply wp_bind, wp_tok; [done|]. intros t. destruct (jsoneq _ _ _); [|by apply wp_ret].
  apply wp_bind, wp_tok; [done|]. intros v. eapply wp_seq; [apply bare_read_devices_wp|]. intros l ? ->.
  eapply wp_seq; [by apply bare_new_devs_wp|]. intros ids s' [(Hd & Hi & Hc) Hn].
  apply wp_ret. split; [cbn; lia|]. done.
Qed.

Lemma bare_parse_chnls_wp json ts dma i a s :
  built dma a s -> wp stops (bare_parse_chnls json ts dma i a) (fun r s' => (i <= r.1)%nat /\ built dma r.2 s') s.
Proof.
  intros (Hd & Hi & Hc). apply wp_bind, wp_tok; [done|]. intros t. destruct (jsoneq _ _ _); [|by apply wp_ret].
  apply wp_bind, wp_tok; [done|]. intros v. eapply wp_seq; [apply bare_read_chnls_wp|]. intros l ? [-> Hl].
  apply wp_ret. split; [cbn; lia|]. done.
Qed.

Lemma bare_dma_key_wp json ts dma i key f a s :
  built dma a s -> wp stops (bare_dma_key json ts dma i key f) (fun _ s' => built dma a s') s.
Proof.
  intros (Hd & Hi & Hc). apply wp_bind, wp_tok; [done|]. intros t. destruct (jsoneq _ _ _); [|by apply wp_ret].
  apply wp_bind, wp_tok; [done|]. intros v. apply wp_mod_gdev; [done|]. intros x Hx.
  unfold built. cbn. by rewrite length_insert.
Qed.

Lemma bare_accel_body_wp json ts dma i a s :
  built dma a s -> wp stops (bare_accel_body json ts dma i a) (fun r s' => (i <= r.1)%nat /\ built dma r.2 s') s.
Proof.
  intros Hb. apply wp_bind, wp_tok; [done|]. intros t. destruct (is_object t); [by apply wp_ret|].
  eapply wp_seq; [by apply bare_parse_devices_wp|]. intros [i1 a1] s1 [Hi1 Hb1]. cbn [fst snd] in *.
  do 5 (eapply wp_seq; [by apply (bare_dma_key_wp _ _ _ _ _ _ a1)|]; intros [] ? ?).
  eapply wp_seq; [by apply bare_parse_chnls_wp|]. intros [i2 a2] s2 [Hi2 Hb2]. cbn [fst snd] in *.
  apply wp_bind, wp_tok; [done|]. intros _. apply wp_ret. cbn. split; [lia|done].
Qed.

Lemma bare_parseAccelJson_wp config s :
  wp stops (bare_parseAccelJson jsmn (BareAccel [] []) config)
     (fun r s' => r.1 = 0 /\ exists dma, built dma r.2 s') s.
Proof.
  apply (wp_seq _ (fun ids s' => exists dma, ids = [dma] /\ built dma (BareAccel [] []) s')).
  { apply wp_bind, wp_get, wp_bind, wp_modify, wp_ret. eexists. split; [done|]. unfold built. cbn. rewrite length_app. cbn. split; [lia|done]. }
  intros ids s1 (dma & -> & Hb). cbn [head]. apply wp_bind, wp_ret. destruct (jsmn config) as [n ts].
  apply (wp_seq _ (built dma)); [apply (wp_over_tokens _ _ _ (built dma)); [intros; by apply bare_accel_body_wp|done]|].
  intros a s2 Hb2. apply wp_ret. split; [done|]. by exists dma.
Qed.

(** ** Every device at its physical address *)

Definition mapped s (d : nat) : Prop := exists x, gdevs s !! d = Some x /\ g_va x = g_reg_pa x.

Lemma map_at_pa_wp F d (P : list nat) s :
  (d < length (gdevs s))%nat -> Forall (mapped s) P ->
  wp F (map_at_pa d) (fun _ s' => length (gdevs s') = length (gdevs s) /\ Forall (mapped s') (d :: P)) s.
Proof.
  intros Hd HP. apply wp_mod_gdev; [done|]. intros x Hx. cbn. rewrite length_insert. split; [done|].
  constructor.
  - exists (x <| g_va := g_reg_pa x |>). cbn. by rewrite list_lookup_insert_eq.
  - eapply Forall_impl; [exact HP|]. intros e (y & Hy & Hm). destruct (decide (e = d)) as [->|Hne].
    + exists (x <| g_va := g_reg_pa x |>). cbn. by rewrite list_lookup_insert_eq.
    + exists y. cbn. by rewrite list_lookup_insert_ne.
Qed.

(** A loop that maps the devices [g] finds in the elements of a list. *)
Lemma map_all_wp {A} F (g : A -> nat) (body : A -> M (bare W) unit) l P s :
  (forall x s', x ∈ l -> body x s' = map_at_pa (g x) s') ->
  Forall (fun x => (g x < length (gdevs s))%nat) l -> Forall (mapped s) P ->
  wp F (for_each body l) (fun _ s' => length (gdevs s') = length (gdevs s) /\ Forall (mapped s') (map g l ++ P)) s.
Proof.
  revert P s. induction l as [|x l IH]; intros P s Hb Hl HP; cbn [for_each map app]; [by apply wp_ret|].
  inversion Hl as [|? ? Hx Hl']; subst.
  eapply (wp_seq _ (fun _ s' => length (gdevs s') = length (gdevs s) /\ Forall (mapped s') (g x :: P))).
  { unfold wp. rewrite Hb by (by left). by apply map_at_pa_wp. }
  intros _ s1 [Hlen HP1]. eapply wp_mono; [apply (IH (g x :: P)); [intros; by apply Hb; right| |done]|].
  - by rewrite Hlen.
  - intros _ s2 [Hlen2 HP2]. split; [congruence|].
    apply Forall_app in HP2 as [Hm [Hx2 HP2]%Forall_cons]. constructor; [done|]. by apply Forall_app.
Qed.

(** A configured bare-metal accelerator, whatever the package says: the reader
    stops only for want of a token, answers 0 otherwise, and then every device of
    the accelerator and the device of every channel exist, at their physical
    address, and every channel has the operations of this layer's driver. *)
Lemma bare_accel_config_maps p s :
  accel_json_pa p <> 0 -> accel_json_size p <> 0 ->
  wp stops (bare_sys_accel_config jsmn (Some p) (BareAccel [] []))
     (fun r s' => r.1 = 0 /\ Forall (mapped s') (ba_ip_dev r.2) /\
        Forall (fun c => b_generic_ops c = true /\ exists d, cdev (b_chnl c) = Some d /\ mapped s' d) (ba_chnls r.2)) s.
Proof.
  intros Hpa%Z.eqb_neq Hsz%Z.eqb_neq. unfold bare_sys_accel_config. cbn [the]. apply wp_bind, wp_ret.
  rewrite Hpa, Hsz. apply wp_bind, wp_ret, wp_bind, wp_ret, wp_bind, wp_zoom, wp_look. cbv beta.
  eapply wp_seq; [apply bare_parseAccelJson_wp|]. intros [r a] s1 (Hr & dma & Hd & Hi & Hc). cbn [fst snd] in *.
  eapply wp_seq; [apply (map_all_wp _ (fun d => d) _ _ []); [done|done|done]|].
  intros _ s2 [Hlen Hm]. rewrite map_id, app_nil_r in Hm.
  eapply wp_seq; [apply (map_all_wp _ (fun _ => dma) _ _ (ba_ip_dev a)); [|rewrite Hlen; by apply Forall_forall|done]|].
  { intros c s' Hin. rewrite Forall_forall in Hc. destruct (Hc c Hin) as [_ ->]. done. }
  intros _ s3 [_ Hm3]. apply wp_ret. apply Forall_app in Hm3 as [Hch Hip].
  split; [done|]. split; [done|]. rewrite Forall_map in Hch.
  apply Forall_forall. intros c Hin. rewrite Forall_forall in Hc. destruct (Hc c Hin) as [Hops Hdev].
  split; [done|]. exists dma. split; [done|]. exact (proj1 (Forall_forall _ _) Hch c Hin).
Qed.
End BareJsonSpec.

(** ** Evaluated on texts *)

(** jsmn as the Linux layer builds it. *)
Definition linux_jsmn (js : string) : Z * list jsmntok :=
  match jsmn_run js NUM_TOKENS tt with Ret r _ => r | Fault _ => (-1, []) end.

#[local] Instance sample_image : Image unit := {|
  text_in_memory _ _ _ := print "" (JObj [
    ("accel_devices", JArr [JObj [("dev_name", JStr "rm"); ("reg_base", JStr "20100000000"); ("reg_size", JStr "1000")]]);
    ("dma_reg_base", JStr "80000000");
    ("dataMoverChnls", JArr [JObj [("chnl_id", JStr "1"); ("chnl_dir", JStr "ACAPD_DMA_DEV_W")]])])%string;
  SHELL_JSON := print "" (JObj [("device_name", JStr "shell"); ("reg_base", JStr "a4000000")])%string;
|}.

Definition no_devs : bare unit := Bare [] tt.
Definition package : acapd_accel_sys := AccelSys 0x1000 0x200 0x2000 0x100.

(** The shell.json of the example is never read. *)
Lemma bare_shell_config_stops d : bare_sys_shell_config linux_jsmn d no_devs = Fault BadToken.
Proof.
  assert (E : bare_parseShellJson linux_jsmn d SHELL_JSON no_devs = Fault BadToken).
  { eapply (bare_shell_json_never_read linux_jsmn d SHELL_JSON (snd (linux_jsmn SHELL_JSON)));
      vm_compute; [reflexivity|lia|reflexivity|reflexivity]. }
  unfold bare_sys_shell_config, bind. by rewrite E.
Qed.

(** The package of the example is: its device is mapped at 0x20100000000, its
    channel is on a DMA device at 0x80000000, and the driver opens it. *)
Lemma bare_accel_config_opens :
  match (let! ra := bare_sys_accel_config linux_jsmn (Some package) (BareAccel [] []) in
         let! c := the WildPtr (head (ba_chnls ra.2)) in axidma_generic_open (b_chnl c)) no_devs with
  | Ret r s => r = 0 /\ map g_va (gdevs s) = [0x80000000; 0x20100000000] /\ map g_refs (gdevs s) = [1; 0]
  | Fault _ => False
  end.
Proof. vm_compute. by split_and!. Qed.
