(* ===== verification/Ends.v ===== *)
(** * The daemon's work ends

    The model bounds its loops by fuel only where the code's own bound is not
    structural: the token loops of the JSON readers, the wait for a DMA reset, the
    removal of an unpacked directory and the slot loop of the listing.  Starting,
    scanning, loading and handling file-system events never get to one of the
    last three, so they end. *)
From S2P Require Import Prelude CStr Env Model UserLoad Device Dma Json Accel Rpu Pdi Slots ListIds Load Unload.
From S2P Require Import Registry Eeprom Events JsonSpec.
Open Scope Z_scope.
Open Scope dfx_scope.

Section Ends.
Context {W : Type} `{Env W}.

Lemma ends_env {A} (m : M W A) : ends m -> ends (env m).
Proof. intros Hm. by apply always_in_hw, always_in_world. Qed.
Lemma ends_safe {A} (m : M W A) (Q : W -> A -> W -> Prop) : (forall w, safe m (Q w) w) -> ends m.
Proof. intros Hm w. eapply wp_mono; [apply wp_safe, Hm|done]. Qed.
Lemma ends_getd : ends (getd (W := W)).
Proof. done. Qed.
Lemma ends_gp {A} (f : platform_info -> A) : ends (gp (W := W) f).
Proof. done. Qed.
Lemma ends_modd f : ends (modd (W := W) f).
Proof. done. Qed.
Lemma ends_modp f : ends (modp (W := W) f).
Proof. done. Qed.
#[local] Hint Resolve ends_getd ends_gp ends_modd ends_modp : tame.
Ltac go := repeat first [ solve [auto with tame nocore] | apply ends_env | apply always_in_world | apply always_in_hw | ends_step | tame_step ].

Lemma ends_get_base i : ends (get_base (W := W) i).
Proof. unfold get_base. go. Qed.
Lemma ends_set_base i b : ends (set_base (W := W) i b).
Proof. apply ends_modd. Qed.
#[local] Hint Resolve ends_get_base ends_set_base : tame.
Lemma ends_mod_base i f : ends (mod_base (W := W) i f).
Proof. unfold mod_base. go. Qed.
Lemma ends_get_slot i k : ends (get_slot (W := W) i k).
Proof. unfold get_slot. go. Qed.
Lemma ends_set_slot i k x : ends (set_slot (W := W) i k x).
Proof. unfold set_slot. go. Qed.
Lemma ends_get_dev d : ends (get_dev (W := W) d).
Proof. unfold get_dev. go. Qed.
#[local] Hint Resolve ends_mod_base ends_get_slot ends_set_slot ends_get_dev : tame.
Lemma ends_mod_dev d f : ends (mod_dev (W := W) d f).
Proof. unfold mod_dev. go. Qed.
Lemma ends_add_active o n : ends (add_active (W := W) o n).
Proof. unfold add_active. go. Qed.
Lemma ends_assign_slot i x a name k : ends (assign_slot (W := W) i x a name k).
Proof. unfold assign_slot, get_free_slot_handle. go. Qed.
Lemma ends_alloc i : ends (alloc_base_slots (W := W) i).
Proof. apply ends_mod_base. Qed.
#[local] Hint Resolve ends_mod_dev ends_add_active ends_assign_slot ends_alloc : tame.

(** ** Loading *)

Lemma ends_remove_base id : ends (remove_base (W := W) id).
Proof. unfold remove_base, sys_remove_base. go. Qed.
Lemma ends_bitstream b o r fl k st sz : ends (user_load_bitstream (W := W) b o r fl k st sz).
Proof. eapply ends_safe. intros w. apply user_load_bitstream_outcome. Qed.
#[local] Hint Resolve ends_remove_base ends_bitstream : tame.
Lemma ends_from_dir p r n st sz : ends (user_load_from_dir (W := W) p r n st sz).
Proof. unfold user_load_from_dir, find_bitstream_file, find_overlay_file, find_file_with_extensions. go. Qed.
Lemma ends_errno : ends (errno_ret (W := W)).
Proof. unfold errno_ret. go. Qed.
#[local] Hint Resolve ends_from_dir ends_errno : tame.
Lemma ends_sysfs_write b p x : ends (sysfs_write (W := W) b p x).
Proof. unfold sysfs_write. go. Qed.
#[local] Hint Resolve ends_sysfs_write : tame.
Lemma ends_bind d drv : ends (acapd_generic_device_bind (W := W) d drv).
Proof. unfold acapd_generic_device_bind, unbind_entry. go. Qed.
#[local] Hint Resolve ends_bind : tame.
Lemma ends_generic_open d : ends (acapd_generic_device_open (W := W) d).
Proof.
  unfold acapd_generic_device_open, acapd_generic_device_get_uio_path, uio_entry, generic_device_map. go.
Qed.
Lemma ends_vfio_open d : ends (acapd_vfio_device_open (W := W) d).
Proof. unfold acapd_vfio_device_open, acapd_vfio_bind, vfio_map_region. go. Qed.
#[local] Hint Resolve ends_generic_open ends_vfio_open : tame.
Lemma ends_device_open d : ends (acapd_device_open (W := W) d).
Proof. unfold acapd_device_open, sys_device_open, dev_ops_open. go. Qed.
#[local] Hint Resolve ends_device_open : tame.
Lemma ends_load_accel a sp : ends (load_accel (W := W) a sp).
Proof.
  unfold load_accel, acapd_parse_config, sys_accel_config, accel_config_path, acapd_shell_config, sys_shell_config, file_there,
    sys_needs_load_accel, sys_fetch_accel, sys_load_accel, get_fpga_flags, find_overlay_file, find_file_with_extensions,
    override_path, open_ip_dev.
  go.
Qed.
#[local] Hint Resolve ends_load_accel : tame.
Lemma ends_load_rpu p n fw : ends (load_rpu (W := W) p n fw).
Proof. unfold load_rpu, start_rpu_firmware. go. Qed.
Lemma ends_finish_rpu i x name n : ends (finish_rpu (W := W) i x name n).
Proof.
  unfold finish_rpu, finalize_rpu_slot_setup, get_new_rpmsg_ctrl_dev, ctrl_recorded, get_free_slot_handle. go.
Qed.
#[local] Hint Resolve ends_load_rpu ends_finish_rpu : tame.
Lemma ends_program_slot ai name path k cma sp fs sz : ends (program_slot (W := W) ai name path k cma sp fs sz).
Proof. unfold program_slot. go. Qed.
Lemma ends_flat_program i name cma sp fs sz b p u : ends (flat_program (W := W) i name cma sp fs sz b p u).
Proof. unfold flat_program. go. Qed.
Lemma ends_setup_pl_base i parent cma sp fs sz : ends (setup_pl_base (W := W) i parent cma sp fs sz).
Proof. unfold setup_pl_base, leave_or_evict_pl, program_base. go. Qed.
Lemma ends_setup_rpu_base i parent : ends (setup_rpu_base (W := W) i parent).
Proof. unfold setup_rpu_base. go. Qed.
Lemma ends_update_env p : ends (update_env (W := W) p).
Proof. unfold update_env. go. Qed.
#[local] Hint Resolve ends_program_slot ends_flat_program ends_setup_pl_base ends_setup_rpu_base ends_update_env : tame.
Lemma ends_load_flat i name cma sp x fs sz : ends (load_flat (W := W) i name cma sp x fs sz).
Proof. unfold load_flat. go. Qed.
Lemma ends_load_slotted i ai x name cma sp fs sz : ends (load_slotted (W := W) i ai x name cma sp fs sz).
Proof. unfold load_slotted, load_new_rpu, validate_rpu_slot_availability, try_slot. go. Qed.
#[local] Hint Resolve ends_load_flat ends_load_slotted : tame.
Lemma ends_load_core i name cma fs sz : ends (load_accelerator_core (W := W) i name cma fs sz).
Proof. unfold load_accelerator_core, new_slot. go. Qed.
#[local] Hint Resolve ends_load_core : tame.

(** ** Scanning the firmware directories *)

Lemma ends_gw {A} (f : list watch -> A) : ends (gw (W := W) f).
Proof. done. Qed.
Lemma ends_set_watches l : ends (set_watches (W := W) l).
Proof. done. Qed.
Lemma ends_versal : ends (versal (W := W)).
Proof. done. Qed.
#[local] Hint Resolve ends_gw ends_set_watches ends_versal : tame.
Lemma ends_not_dir p : ends (not_dir (W := W) p).
Proof. unfold not_dir. go. Qed.
Lemma ends_watch_added wd n p pn pp : ends (watch_added (W := W) wd n p pn pp).
Proof. unfold watch_added. go. Qed.
Lemma ends_remove_watch p : ends (remove_watch (W := W) p).
Proof. unfold remove_watch. go. Qed.
Lemma ends_add_accel i n p pp : ends (add_accel_to_base (W := W) i n p pp).
Proof. unfold add_accel_to_base. go. Qed.
Lemma ends_get_accel i j : ends (get_accel (W := W) i j).
Proof. unfold get_accel. go. Qed.
Lemma ends_set_accel i j a : ends (set_accel (W := W) i j a).
Proof. apply ends_mod_base. Qed.
#[local] Hint Resolve ends_not_dir ends_watch_added ends_remove_watch ends_add_accel ends_get_accel ends_set_accel : tame.
Lemma ends_add_dir_watch p n pn pp : ends (add_dir_watch (W := W) p n pn pp).
Proof. unfold add_dir_watch. go. Qed.
#[local] Hint Resolve ends_add_dir_watch : tame.

Lemma ends_rd_images buf len base todo : ends (rd_images (St := W) buf len base todo).
Proof.
  revert base. induction todo as [|n IH]; intros base; simpl; [apply always_ret|].
  destruct (_ <? _); [apply always_ret|]. apply always_bind; [unfold rd_image, pdi_rd_u32, byte_at; go|].
  intros x. apply always_bind; [apply IH|done].
Qed.
Lemma ends_pdi_parse_dir d : ends (pdi_parse_dir (W := W) d).
Proof.
  pose proof ends_rd_images. unfold pdi_parse_dir, pdi_parse_file, pdi_parse_meta_buffer.
  go; unfold pdi_rd_u32, byte_at; go.
Qed.
#[local] Hint Resolve ends_pdi_parse_dir : tame.
Lemma ends_init_accel_json i o p : ends (init_accel_json (W := W) i o p).
Proof. unfold init_accel_json. go. Qed.
Lemma ends_init_accel_pdi i o p : ends (init_accel_pdi (W := W) i o p).
Proof. unfold init_accel_pdi, init_accel_from_pdi. go. Qed.
#[local] Hint Resolve ends_init_accel_json ends_init_accel_pdi : tame.

Lemma ends_dir_has p d : ends (dir_has (W := W) p d).
Proof. unfold dir_has. go. Qed.
Lemma ends_scan_slots p n names room : ends (scan_slots (W := W) p n names room).
Proof.
  pose proof (ends_dir_has name_is_pdi). revert room.
  induction names as [|x names IH]; intros [|room]; simpl; try apply always_ret. unfold dir_has_pdi. go; apply IH.
Qed.
Lemma ends_scan_accel_slots p n m : ends (scan_accel_slots (W := W) p n m).
Proof. pose proof ends_scan_slots. unfold scan_accel_slots. go. Qed.
#[local] Hint Resolve ends_dir_has ends_scan_accel_slots : tame.

Lemma ends_pdi_slots i bp ad n slots range : ends (pdi_slots (W := W) i bp ad n slots range).
Proof. revert range. induction slots as [|p slots IH]; intros range; simpl; [apply always_ret|]. go; apply IH. Qed.
#[local] Hint Resolve ends_pdi_slots : tame.
Lemma ends_pdi_dirs i bn bp l range : ends (pdi_dirs (W := W) i bn bp l range).
Proof. revert range. induction l as [|e l IH]; intros range; simpl; [apply always_ret|]. unfold pdi_dir. go; apply IH. Qed.
#[local] Hint Resolve ends_pdi_dirs : tame.
Lemma ends_register_pdi i bn bp : ends (register_pdi_package (W := W) i bn bp).
Proof. unfold register_pdi_package, pdi_classify_base, dir_has_xclbin. go. Qed.
Lemma ends_rpu_slot_dir i p n rp : ends (parse_rpu_slot_dir (W := W) i p n rp).
Proof. unfold parse_rpu_slot_dir. go. Qed.
#[local] Hint Resolve ends_register_pdi ends_rpu_slot_dir : tame.
Lemma ends_second_level i fl d1 p l : ends (parse_second_level (W := W) i fl d1 p l).
Proof. unfold parse_second_level. go. Qed.
#[local] Hint Resolve ends_second_level : tame.
Lemma ends_parse_packages i n p : ends (parse_packages (W := W) i n p).
Proof. unfold parse_packages, parse_first_level. go. Qed.
Lemma ends_remove_base_design p pp b : ends (remove_base_design (W := W) p pp b).
Proof. unfold remove_base_design. go. Qed.
Lemma ends_init_base_json i f : ends (init_base_json (W := W) i f).
Proof. unfold init_base_json, get_number_of_rpu. go. Qed.
Lemma ends_init_base_pdi i : ends (init_base_pdi (W := W) i).
Proof. unfold init_base_pdi, init_base_from_pdi. go. Qed.
#[local] Hint Resolve ends_parse_packages ends_remove_base_design ends_init_base_json ends_init_base_pdi : tame.
Lemma ends_register_base d n p wd : ends (register_base_design (W := W) d n p wd).
Proof. unfold register_base_design, init_base_design. go. Qed.
#[local] Hint Resolve ends_register_base : tame.
Lemma ends_accel_dir_add depth p e : ends (accel_dir_add (W := W) depth p e).
Proof.
  revert p e. induction depth as [|depth IH]; intros p e; simpl; go.
  - unfold watch_design_dir. go.
  - unfold dir_is_base_design, dir_has_pdi, dir_has_shell_json. go.
Qed.
#[local] Hint Resolve ends_accel_dir_add : tame.
Lemma ends_walk : ends (firmware_dir_walk (W := W)).
Proof. unfold firmware_dir_walk. go. Qed.
#[local] Hint Resolve ends_walk : tame.

(** ** Start and events *)

Lemma ends_mark_dirty : ends (mark_pkg_listing_dirty (W := W)).
Proof. unfold mark_pkg_listing_dirty. go. Qed.
Lemma ends_rescan_pending : ends (rescan_pending (W := W)).
Proof. done. Qed.
#[local] Hint Resolve ends_mark_dirty ends_rescan_pending : tame.
Lemma ends_find_base_path p : ends (find_base_path (W := W) p).
Proof. unfold find_base_path. go. Qed.
Lemma ends_add_pdi_accel i n p d : ends (add_pdi_accel (W := W) i n p d).
Proof. unfold add_pdi_accel. go. Qed.
#[local] Hint Resolve ends_find_base_path ends_add_pdi_accel : tame.
Lemma ends_pdi_event o : ends (handle_pdi_event (W := W) o).
Proof. unfold handle_pdi_event, pdi_in_slot. go. Qed.
Lemma ends_dir_created w n : ends (dir_created (W := W) w n).
Proof. unfold dir_created. go. Qed.
Lemma ends_shell_json_in w d : ends (shell_json_in (W := W) w d).
Proof. unfold shell_json_in. go. Qed.
Lemma ends_accel_json_in w : ends (accel_json_in (W := W) w).
Proof. unfold accel_json_in. go. Qed.
Lemma ends_dir_removed w n : ends (dir_removed (W := W) w n).
Proof. unfold dir_removed. go. Qed.
#[local] Hint Resolve ends_pdi_event ends_dir_created ends_shell_json_in ends_accel_json_in ends_dir_removed : tame.
Lemma ends_handle_event e : ends (handle_event (W := W) e).
Proof. unfold handle_event, moved_in. cbv zeta. go. Qed.
#[local] Hint Resolve ends_handle_event : tame.

Lemma ends_read_boards map size l n f : ends (read_boards (W := W) map size l n f).
Proof.
  revert n f. induction l as [|p l IH]; intros n f; simpl; [apply always_ret|].
  unfold try_read_board_from_eeprom. go; apply IH.
Qed.
#[local] Hint Resolve ends_read_boards : tame.

Lemma ends_find_by_id id : ends (find_accel_by_list_id (W := W) id).
Proof. unfold find_accel_by_list_id, id_in_base, id_of_accel, slot_handle_of_name. go. Qed.
#[local] Hint Resolve ends_find_by_id : tame.

(** C14: The daemon's own work ends: starting it, processing a batch of inotify
    events, and loading a package by name or by number never run a loop without a
    bound, whatever the firmware directories, the JSON files, jsmn and libdfx
    answer. *)
Theorem start_events_and_loads_terminate l name id cma fs sz :
  ends (dfx_init (W := W)) /\ ends (handle_batch (W := W) l) /\
  ends (load_accelerator (W := W) name cma fs sz) /\ ends (load_accelerator_by_id (W := W) id cma fs sz).
Proof.
  split_and!.
  - unfold dfx_init, read_board_name_from_eeprom, detect_fpga_mgr_type, pdi_boot_pl_uid, start_registry, init_user_load. go.
  - unfold handle_batch. go.
  - unfold load_accelerator. go.
  - unfold load_accelerator_by_id. go.
Qed.
End Ends.
