(* ===== verification/RegSpec.v ===== *)
(** * Registration: packages, board names, RPMsg devices

    Registering a package twice is registering it once; a token list never
    overruns its buffer; the RPMsg devices of a slot are those that sysfs shows. *)
From S2P Require Import Prelude CStr Env Model Json Accel Rpu Pdi Slots ListIds Registry Eeprom Sample.
Open Scope Z_scope.
Open Scope dfx_scope.

(** ** Packages *)

Lemma find_index_first {A} (p : A -> bool) l i x :
  l !! i = Some x -> p x = true -> (forall j y, (j < i)%nat -> l !! j = Some y -> p y = false) -> find_index p l = Some i.
Proof. intros Hi Hp Hlt. apply find_index_Some. by exists x. Qed.

(** The slot of the array that [add_accel_to_base()] settles on. *)
Definition settles (name path : string) (a : accel_info) : bool := is_accel name path a || free_accel a.

Lemma add_accel_found l name path pp j l' :
  add_accel l name path pp = (Some j, l') ->
  exists a, l !! j = Some a /\ find_index (settles name path) l = Some j /\
    if free_accel a then
      fits 512 path = true /\
      l' = <[j := a <| a_name := trunc ACCEL_NAME_MAX name |> <| a_path := path |>
                    <| a_parent_path := trunc 512 pp |> <| rpu_slot_num := -1 |>]> l
    else l' = l.
Proof.
  unfold add_accel. change (fun a => is_accel name path a || free_accel a) with (settles name path).
  destruct (find_index _ l) as [k|] eqn:Ef; [|done]. destruct (find_index_lookup _ _ _ Ef) as (a & Ha & _). rewrite Ha.
  destruct (free_accel a) eqn:Efree; simpl.
  - destruct (fits 512 path) eqn:Efit; simpl; [|done]. intros [= <- <-]. exists a. by rewrite Efree.
  - intros [= <- <-]. exists a. by rewrite Efree.
Qed.

(** Registering a package twice is registering it once: when
    [add_accel_to_base()] has given a package an entry, asking again, with
    whatever parent, gives the same entry and changes nothing; and only that entry
    differs from before. *)
Theorem add_accel_idempotent l name path pp pp' j l' :
  path <> ""%string -> fits ACCEL_NAME_MAX name = true ->
  add_accel l name path pp = (Some j, l') ->
  add_accel l' name path pp' = (Some j, l') /\ (forall k, k <> j -> l' !! k = l !! k) /\
  exists a, l' !! j = Some a /\ a_name a = name /\ a_path a = path.
Proof.
  intros Hne Hfit E. apply add_accel_found in E as (a & Ha & Hf & Hl).
  assert (Hnofree : forall a, a_path a = path -> free_accel a = false).
  { intros x Hx. unfold free_accel. rewrite Hx. by apply streq_false. }
  assert (Hready : forall x m, m !! j = Some x -> find_index (settles name path) m = Some j -> free_accel x = false ->
            add_accel m name path pp' = (Some j, m)).
  { intros x m Hx Hm Hfree. unfold add_accel. change (fun a => is_accel name path a || free_accel a) with (settles name path).
    by rewrite Hm, Hx, Hfree. }
  apply find_index_Some in Hf as (a0 & Ha0 & Hset & Hlt). assert (a0 = a) as -> by congruence.
  destruct (free_accel a) eqn:Efree.
  - destruct Hl as [_ ->]. set (b := a <| a_name := _ |> <| a_path := _ |> <| a_parent_path := _ |> <| rpu_slot_num := _ |>).
    pose proof (lookup_lt_Some _ _ _ Ha) as Hj.
    assert (Hb : <[j := b]> l !! j = Some b) by (by apply list_lookup_insert_eq).
    assert (Hbf : free_accel b = false) by (by apply Hnofree).
    split; [|split; [by intros k Hk; apply list_lookup_insert_ne|]].
    + apply (Hready b); [done| |done]. apply (find_index_first _ _ _ b Hb).
      * unfold settles, is_accel. rewrite Hbf. subst b. simpl. rewrite trunc_id by done. by rewrite !streq_refl.
      * intros k y Hk Hy. rewrite list_lookup_insert_ne in Hy by lia. by apply (Hlt k).
    + exists b. split; [done|]. subst b. simpl. by rewrite trunc_id.
  - subst l'. split; [|split; [done|]].
    + apply (Hready a); [done| |done]. by apply (find_index_first _ _ _ a).
    + exists a. split; [done|]. unfold settles in Hset. rewrite Efree, orb_false_r in Hset. unfold is_accel in Hset.
      apply andb_true_iff in Hset as [[_ Hp]%andb_true_iff Hn]. by apply streq_true in Hp, Hn.
Qed.

(** ** Board tokens *)

(** Collecting board tokens never overruns the buffer and never loses what
    was collected: the result fits, and it is the old text, or the token alone, or
    the old text, a blank and the token. *)
Theorem append_token_stays_in_buffer buf size tok :
  fits size buf = true ->
  fits size (append_token buf size tok) = true /\
  (append_token buf size tok = buf \/ (buf = ""%string /\ append_token buf size tok = tok) \/
   append_token buf size tok = (buf ++ " " ++ tok)%string).
Proof.
  intros Hf. unfold append_token. destruct (streq tok ""); [auto|]. destruct (has_word _ _ _ _); [auto|].
  destruct (streqP buf "") as [->|Hne].
  - destruct (Nat.leb_spec size (strlen tok)); [auto|]. split; [by apply Nat.ltb_lt|auto].
  - destruct (Nat.ltb_spec (strlen buf + 1 + strlen tok) size); [|auto]. split; [|auto].
    unfold fits. apply Nat.ltb_lt. rewrite !strlen_app. simpl. lia.
Qed.

(** ** RPMsg devices *)

(** What justifies a device of a slot's list: an endpoint of the same virtio
    device that sysfs lists, by name or because it was created from it. *)
Definition suffix_of (name : string) : option string :=
  match strchr name "." with Some i => Some (str_drop (S i) name) | None => None end.
Definition justified (names : list string) (virtio : Z) (d : rpmsg_dev) : Prop :=
  exists n, n ∈ names /\ is_endpoint n = true /\ get_virtio_number n = virtio /\
            (names_dev virtio n d = true \/ suffix_of n = Some (rpmsg_channel_name d)).

Section Rpmsg.
Context {W : Type} `{Env W}.

Lemma create_rpmsg_dev_wp n ctrl w :
  wp lib_fault (create_rpmsg_dev n ctrl)
     (fun r _ => match r with Some d => suffix_of n = Some (rpmsg_channel_name d) | None => True end) w.
Proof.
  unfold create_rpmsg_dev. apply wp_bind. eapply wp_mono.
  { apply tame_setup_rpmsg. }
  intros [ept|] w1 _; [|by apply wp_ret]. apply wp_bind, wp_the; [|by split]. intros i Hi.
  apply wp_bind. unfold sprintf_into at 1. destruct (fits NAME_MAX _); [|by split]. apply wp_ret.
  apply wp_bind. eapply wp_mono; [apply tame_sprintf_into|]. intros nm w2 _. apply wp_ret. unfold suffix_of. by rewrite Hi.
Qed.

Lemma check_active l n virtio f l' :
  check_rpmsg_dev_active l n virtio = (f, l') ->
  forall d, d ∈ l' -> d ∈ l \/ (exists d0, d0 ∈ l /\ names_dev virtio n d0 = true /\ d = d0 <| rd_active := true |>).
Proof.
  revert f l'. induction l as [|x l IH]; intros f l'; simpl.
  - intros [= <- <-] d Hd. by apply elem_of_nil in Hd.
  - destruct (names_dev virtio n x) eqn:En.
    + intros [= <- <-] d [->|Hd]%elem_of_cons; [|left; by right]. right. exists x. split; [left|done].
    + destruct (check_rpmsg_dev_active l n virtio) as [g r] eqn:Er. intros [= <- <-] d [->|Hd]%elem_of_cons; [left; left|].
      destruct (IH _ _ eq_refl d Hd) as [?|(d0 & ? & ?)]; [left; by right|right; exists d0; split; [by right|done]].
Qed.

(** Every active device is justified. *)
Definition sound (all : list string) (virtio : Z) (l : list rpmsg_dev) : Prop :=
  forall d, d ∈ l -> rd_active d = true -> justified all virtio d.

Lemma scan_sound all ctrl virtio names l w :
  (forall n, n ∈ names -> n ∈ all) -> sound all virtio l ->
  wp lib_fault (scan_rpmsg_devs names ctrl virtio l) (fun l' _ => sound all virtio l') w.
Proof.
  revert l w. induction names as [|n names IH]; intros l w Hall Hl; simpl; [by apply wp_ret|].
  assert (Hall' : forall n, n ∈ names -> n ∈ all) by (intros m Hm; apply Hall; by right).
  destruct (negb (is_endpoint n) || negb (get_virtio_number n =? virtio)) eqn:Eskip; [by apply IH|].
  apply orb_false_iff in Eskip as [Hep%negb_false_iff Hvi%negb_false_iff]. apply Z.eqb_eq in Hvi.
  destruct (check_rpmsg_dev_active l n virtio) as [found l1] eqn:Ec.
  assert (Hl1 : sound all virtio l1).
  { intros d Hd Ha. destruct (check_active _ _ _ _ _ Ec d Hd) as [Hin|(d0 & _ & Hn & ->)]; [by apply Hl|].
    exists n. split; [apply Hall; left|]. split; [done|]. split; [done|]. by left. }
  destruct found; [by apply IH|]. apply wp_bind. eapply wp_mono; [apply create_rpmsg_dev_wp|].
  intros [d|] w1 Hd; [|by apply IH]. apply IH; [done|].
  intros x [Hx|Hx%list_elem_of_singleton]%elem_of_app Ha; [by apply Hl1|]. subst x.
  exists n. split; [apply Hall; left|]. split; [done|]. split; [done|]. by right.
Qed.

(** After an update, every device that is listed for an RPU slot is backed by
    an endpoint of the slot's own virtio device in sysfs; devices whose endpoint
    disappeared are gone. *)
Theorem update_lists_only_present_devices l ctrl virtio es w :
  readdir RPMSG_DEVICES w = Some es ->
  wp lib_fault (update_rpmsg_dev_list l ctrl virtio)
     (fun l' _ => forall d, d ∈ l' -> justified (map d_name es) virtio d) w.
Proof.
  intros Hd. unfold update_rpmsg_dev_list. apply wp_bind, wp_look. rewrite Hd. apply wp_bind.
  eapply wp_mono; [apply (scan_sound (map d_name es)); [done|]|].
  - intros d Hin Ha. unfold reset_active in Hin. apply list_elem_of_In, in_map_iff in Hin as (d0 & <- & _). done.
  - intros l' w' Hs. apply wp_ret. intros d Hin. unfold delete_inactive_rpmsgdev in Hin.
    apply list_elem_of_In, filter_In in Hin as [Hin Ha]. apply Hs; [by apply list_elem_of_In|done].
Qed.
End Rpmsg.

(** ** Witnesses *)

Lemma add_accel_idempotent_witness :
  let l := replicate 10 accel_info0 in
  let l' := (add_accel l "flat" "/fw/flat" "/fw").2 in
  add_accel l' "flat" "/fw/flat" "/elsewhere" = (Some 0%nat, l').
Proof.
  intros l l'.
  apply (add_accel_idempotent l "flat" "/fw/flat" "/fw" "/elsewhere" 0 l'); [done|reflexivity|vm_compute; reflexivity].
Defined.

Lemma append_token_stays_in_buffer_witness :
  append_token "KV260" 128 "SOM" = "KV260 SOM"%string /\ fits 128 (append_token "KV260" 128 "SOM") = true.
Proof. split; [reflexivity|]. apply (append_token_stays_in_buffer "KV260" 128 "SOM"). reflexivity. Defined.

(** An endpoint that sysfs lists stays, one that it does not list goes. *)
Definition echo_dev : rpmsg_dev := RpmsgDev "echo.-1.1024" "/dev/rpmsg0" false.
Definition gone_dev : rpmsg_dev := RpmsgDev "demo.-1.1025" "/dev/rpmsg1" true.
Definition rpmsg_names : list string := [".";  ".."; "virtio0.rpmsg_ctrl.0.0"; "virtio0.echo.-1.1024"]%string.

Definition kept_dev : rpmsg_dev := RpmsgDev "echo.-1.1024" "/dev/rpmsg0" true.
Definition updated : M unit (list rpmsg_dev) := update_rpmsg_dev_list [gone_dev; echo_dev] "ctrl" 0.

Lemma update_lists_only_present_devices_witness : updated tt = Ret [kept_dev] tt /\ justified rpmsg_names 0 kept_dev.
Proof.
  assert (E : updated tt = Ret [kept_dev] tt) by (vm_compute; reflexivity).
  split; [exact E|].
  pose proof (update_lists_only_present_devices [gone_dev; echo_dev] "ctrl" 0
                (map (fun n => Dirent n DT_DIR) rpmsg_names) tt eq_refl) as Hw.
  fold updated in Hw. unfold wp in Hw. rewrite E in Hw. apply (Hw _ (list_elem_of_here _ _)).
Defined.
